(** * nvh::geometry: procedural subdivided meshes

    A shallow embedding of the geometry header of the repository
    (namespace [nvh::geometry]: [Vertex], [Mesh], [Plane], [Box], [Sphere],
    [Torus], [RandomMengerSponge]) and the properties its description
    states about it.

    Conventions of the embedding.
    - [int] and [size_t] values are integers of [Z]. The result of an
      [int] sum, difference or product is checked against the range of
      [int] ([int]); a value converted to [uint32_t] / [unsigned int] is
      reduced modulo [2^32] ([u32]), as is the result of an unsigned
      operation.
    - [float] is an abstract type of the numeric kernel [Kernel], together
      with the GLM matrix operations, [sinf], [cosf] and [rand]: none of
      them is code of this repository.
    - Undefined behaviour the header can reach is an explicit [fault]:
      a division whose divisor is zero, a vector read out of range, and
      an [int] operation whose result is not a value of [int].
    - A loop whose bound its body cannot change is the list of the values
      of its counter, and what it pushes back is the list of the elements
      in the order of the loop; a counter that is incremented up to its
      bound stays a value of its type. The loops of [append] compare their
      counter with the size of a vector that may be the one they push to:
      they are run step by step, with a bound on the steps.

    After the geometry header come the pipeline helpers that share its
    file ([nvvk::GraphicsPipelineState], [nvvk::GraphicShaderObjectPipeline],
    [nvvk::GraphicsPipelineGenerator]), the compute shader of the program
    with its dispatch, and the choice of the memory type of
    [NRC::createBuffer], each with the conventions stated where it
    starts. *)

From Stdlib Require Import ZArith List Lia QArith Bool Permutation.
From Stdlib Require String.
Import ListNotations.
Open Scope Z_scope.

(** ** Machine integers *)

(** Conversion to [uint32_t] (and [unsigned int]). *)
Definition u32 (z : Z) : Z := z mod 2 ^ 32.

(** The least and the greatest value of [int]. *)
Definition INT_MIN : Z := - 2 ^ 31.
Definition INT_MAX : Z := 2 ^ 31 - 1.

(** [for (i = 0; i < n; i++)] over an [int] or [unsigned] counter. *)
Definition range (n : Z) : list Z := map Z.of_nat (seq 0 (Z.to_nat n)).

(** ** Faults *)

Inductive fault : Type :=
| DivisionByZero
| OutOfRange
| SignedOverflow.

Inductive result (A : Type) : Type :=
| Ok (a : A)
| Fault (f : fault).
Arguments Ok {A} a.
Arguments Fault {A} f.

Definition bind {A B : Type} (r : result A) (k : A -> result B) : result B :=
  match r with
  | Ok a => k a
  | Fault f => Fault f
  end.

Notation "x <- r ;; k" := (bind r (fun x => k))
  (at level 61, r at next level, right associativity).

(** A loop whose body may fault, over the values of its counter. *)
Fixpoint foldM {S A : Type} (body : S -> A -> result S) (l : list A) (s : S)
  : result S :=
  match l with
  | [] => Ok s
  | a :: l' => s' <- body s a ;; foldM body l' s'
  end.

Fixpoint mapM {A B : Type} (f : A -> result B) (l : list A) : result (list B) :=
  match l with
  | [] => Ok []
  | a :: l' => b <- f a ;; bs <- mapM f l' ;; Ok (b :: bs)
  end.

(** A loop that pushes back what each of its passes makes. *)
Definition for_each {A B : Type} (l : list A) (body : A -> result (list B))
  : result (list B) :=
  pushed <- mapM body l ;; Ok (concat pushed).

(** The result of an [int] operation whose exact value is [z]: undefined
    when [z] is not a value of [int]. *)
Definition int (z : Z) : result Z :=
  if (INT_MIN <=? z) && (z <=? INT_MAX) then Ok z else Fault SignedOverflow.

(** The sum, the difference and the product of two [int] expressions. *)
Definition int_add (a b : result Z) : result Z := x <- a ;; y <- b ;; int (x + y).
Definition int_sub (a b : result Z) : result Z := x <- a ;; y <- b ;; int (x - y).
Definition int_mul (a b : result Z) : result Z := x <- a ;; y <- b ;; int (x * y).

Declare Scope int_scope.
Delimit Scope int_scope with int.
Notation "a + b" := (int_add a b) : int_scope.
Notation "a - b" := (int_sub a b) : int_scope.
Notation "a * b" := (int_mul a b) : int_scope.

(** [v[i]] on a [std::vector]. *)
Definition at_index {A : Type} (v : list A) (i : nat) : result A :=
  match nth_error v i with
  | Some a => Ok a
  | None => Fault OutOfRange
  end.

(** [v[i] = a] on a [std::vector] (the index is in range where it is used). *)
Fixpoint set_index {A : Type} (v : list A) (i : nat) (a : A) : list A :=
  match v, i with
  | [], _ => []
  | _ :: v', O => a :: v'
  | b :: v', S i' => b :: set_index v' i' a
  end.

(** A computation that may not return: [None] when the steps allowed
    ([fuel]) are used up before it does. *)
Definition and_then {A B : Type} (r : option (result A))
  (k : A -> option (result B)) : option (result B) :=
  match r with
  | None => None
  | Some (Fault f) => Some (Fault f)
  | Some (Ok a) => k a
  end.

(** [for (i = ...; i < src.size(); i++) push(src[i])], where the pushes
    may change [src]: [src] is read from the current state at every pass. *)
Fixpoint push_loop {St A : Type} (fuel : nat) (src : St -> list A)
  (push : St -> A -> St) (i : nat) (s : St) : option (result St) :=
  match fuel with
  | O => None
  | S fuel' =>
      if (i <? length (src s))%nat then
        match at_index (src s) i with
        | Ok a => push_loop fuel' src push (S i) (push s a)
        | Fault f => Some (Fault f)
        end
      else Some (Ok s)
  end.

(** ** GLM vectors *)

Record vec2 (T : Type) : Type := Vec2 { v2x : T; v2y : T }.
Record vec3 (T : Type) : Type := Vec3 { v3x : T; v3y : T; v3z : T }.
Record vec4 (T : Type) : Type := Vec4 { v4x : T; v4y : T; v4z : T; v4w : T }.
Arguments Vec2 {T}. Arguments v2x {T}. Arguments v2y {T}.
Arguments Vec3 {T}. Arguments v3x {T}. Arguments v3y {T}. Arguments v3z {T}.
Arguments Vec4 {T}. Arguments v4x {T}. Arguments v4y {T}. Arguments v4z {T}.
Arguments v4w {T}.

(** [glm::uvec3] and [glm::uvec2]: components are [uint32_t]. *)
Record uvec3 : Type := UVec3 { ux : Z; uy : Z; uz : Z }.
Record uvec2 : Type := UVec2 { lx : Z; ly : Z }.

(** [a + glm::uvec3(offset)]: component-wise [uint32_t] addition. *)
Definition uvec3_add (a : uvec3) (offset : Z) : uvec3 :=
  UVec3 (u32 (ux a + offset)) (u32 (uy a + offset)) (u32 (uz a + offset)).

Definition uvec2_add (a : uvec2) (offset : Z) : uvec2 :=
  UVec2 (u32 (lx a + offset)) (u32 (ly a + offset)).

(** ** The numeric kernel

    What the header takes from the language and its libraries: [float]
    arithmetic, [sinf] and [cosf], GLM's 4x4 matrices, and the process-wide
    random source behind [rand()], here an explicit state. *)

Class Kernel : Type := {
  scalar : Type;
  lit : Q -> scalar;
  pi : scalar;
  of_int : Z -> scalar;
  fadd : scalar -> scalar -> scalar;
  fsub : scalar -> scalar -> scalar;
  fmul : scalar -> scalar -> scalar;
  fdiv : scalar -> scalar -> scalar;
  fneg : scalar -> scalar;
  fltb : scalar -> scalar -> bool;
  fis_zero : scalar -> bool;
  sinf : scalar -> scalar;
  cosf : scalar -> scalar;
  mat4 : Type;
  mat4_1 : mat4;
  mat_mul : mat4 -> mat4 -> mat4;
  mat_vec : mat4 -> vec4 scalar -> vec4 scalar;
  rotate : mat4 -> scalar -> vec3 scalar -> mat4;
  translate : mat4 -> vec3 scalar -> mat4;
  scale : mat4 -> vec3 scalar -> mat4;
  rng : Type;
  rand : rng -> Z * rng;
  RAND_MAX : Z
}.

(** The one fact about [float] the totality results rest on: converting a
    non-zero integer gives a non-zero [float]. *)
Class KernelLaws (K : Kernel) : Prop := {
  of_int_nonzero : forall n : Z, n <> 0 -> fis_zero (of_int n) = false
}.

(** [a / b] where [b] comes from an argument of the call: undefined when
    [b] is zero. A division by a non-zero constant is [fdiv] itself. *)
Definition fdiv_checked {K : Kernel} (a b : scalar) : result scalar :=
  if fis_zero b then Fault DivisionByZero else Ok (fdiv a b).

(** ** Vertex *)

Record Vertex {K : Kernel} : Type := MkVertex {
  position : vec4 scalar;
  normal : vec4 scalar;
  texcoord : vec4 scalar
}.

(** The constructor [Vertex(position, normal, texcoord)]. *)
Definition Vertex_new {K : Kernel}
  (pos nrm : vec3 scalar) (tc : vec2 scalar) : Vertex :=
  {| position := Vec4 (v3x pos) (v3y pos) (v3z pos) (lit 1);
     normal := Vec4 (v3x nrm) (v3y nrm) (v3z nrm) (lit 0);
     texcoord := Vec4 (v2x tc) (v2y tc) (lit 0) (lit 0) |}.

(** [vert.position = mat * vert.position; vert.normal = mat * vert.normal]. *)
Definition Vertex_transform {K : Kernel} (mat : mat4) (vert : Vertex) : Vertex :=
  {| position := mat_vec mat (position vert);
     normal := mat_vec mat (normal vert);
     texcoord := texcoord vert |}.

(** The template parameter [TVertex] with its constructor from [Vertex]. *)
Class VertexFormat (K : Kernel) : Type := {
  TVertex : Type;
  TVertex_of : Vertex -> TVertex
}.

(** ** Mesh *)

Record Mesh {K : Kernel} {V : VertexFormat K} : Type := MkMesh {
  m_vertices : list TVertex;
  m_indicesTriangles : list uvec3;
  m_indicesOutline : list uvec2
}.

(** [m_vertices.size()]. *)
Definition vertex_count {K : Kernel} {V : VertexFormat K} (m : Mesh) : Z :=
  Z.of_nat (length (m_vertices m)).

Definition empty_mesh {K : Kernel} {V : VertexFormat K} : Mesh :=
  {| m_vertices := []; m_indicesTriangles := []; m_indicesOutline := [] |}.

(** [std::swap(t.x, t.z)]. *)
Definition swap_xz (t : uvec3) : uvec3 := UVec3 (uz t) (uy t) (ux t).

Module Mesh.
Section WithKernel.
Context {K : Kernel} {V : VertexFormat K}.

(** The argument [geo] of [append] is a reference: to another mesh, or to
    the receiver itself. *)
Inductive argument : Type :=
| Other (geo : Mesh)
| Self.

(** The mesh [geo] refers to, the receiver being [self] at that time. *)
Definition deref (geo : argument) (self : Mesh) : Mesh :=
  match geo with
  | Other m => m
  | Self => self
  end.

Definition push_vertex (self : Mesh) (v : TVertex) : Mesh :=
  {| m_vertices := m_vertices self ++ [v];
     m_indicesTriangles := m_indicesTriangles self;
     m_indicesOutline := m_indicesOutline self |}.

Definition push_triangle (offset : Z) (self : Mesh) (t : uvec3) : Mesh :=
  {| m_vertices := m_vertices self;
     m_indicesTriangles := m_indicesTriangles self ++ [uvec3_add t offset];
     m_indicesOutline := m_indicesOutline self |}.

Definition push_line (offset : Z) (self : Mesh) (o : uvec2) : Mesh :=
  {| m_vertices := m_vertices self;
     m_indicesTriangles := m_indicesTriangles self;
     m_indicesOutline := m_indicesOutline self ++ [uvec2_add o offset] |}.

(** [append]: each loop runs while [i < geo.<vector>.size()], a size that
    grows with the pushes when [geo] is the receiver. *)
Definition append (fuel : nat) (self : Mesh) (geo : argument)
  : option (result Mesh) :=
  let offset := u32 (Z.of_nat (length (m_vertices self))) in
  and_then (push_loop fuel (fun s => m_vertices (deref geo s)) push_vertex 0 self)
    (fun self1 =>
  and_then (push_loop fuel (fun s => m_indicesTriangles (deref geo s))
                      (push_triangle offset) 0 self1)
    (fun self2 =>
  push_loop fuel (fun s => m_indicesOutline (deref geo s))
            (push_line offset) 0 self2)).

(** Steps that let [append] of another mesh [geo] return. *)
Definition append_fuel (geo : Mesh) : nat :=
  S (length (m_vertices geo) + length (m_indicesTriangles geo)
     + length (m_indicesOutline geo)).

(** [flipWinding]: the swaps leave the size of the vector, which bounds
    the loop, as it is. *)
Definition flipWinding (self : Mesh) : result Mesh :=
  ts <- foldM (fun ts i => t <- at_index ts i ;; Ok (set_index ts i (swap_xz t)))
              (seq 0 (length (m_indicesTriangles self)))
              (m_indicesTriangles self) ;;
  Ok {| m_vertices := m_vertices self;
        m_indicesTriangles := ts;
        m_indicesOutline := m_indicesOutline self |}.

End WithKernel.
End Mesh.

Module Plane.
Section WithKernel.
Context {K : Kernel} {V : VertexFormat K}.

(** The vertex of grid point [(x, y)] before the transform. *)
Definition local_vertex (xmove ymove : scalar) (x y : Z) : Vertex :=
  let xpos := fmul (of_int x) xmove in
  let ypos := fmul (of_int y) ymove in
  let pos := Vec3 (fmul (fsub xpos (lit (1 # 2))) (lit 2))
                  (fmul (fsub ypos (lit (1 # 2))) (lit 2))
                  (of_int 0) in
  let uv := Vec2 xpos ypos in
  let normal := Vec3 (lit 0) (lit 0) (lit 1) in
  Vertex_new pos normal uv.

(** The vertex loops, [for (y = 0; y < ydim + 1; y++)] over
    [for (x = 0; x < xdim + 1; x++)]: the bounds are [int] sums. *)
Definition vertices (mat : mat4) (xmove ymove : scalar) (xdim ydim : Z)
  : result (list TVertex) :=
  ybound <- (Ok ydim + Ok 1)%int ;;
  for_each (range ybound) (fun y =>
    xbound <- (Ok xdim + Ok 1)%int ;;
    Ok (map (fun x =>
               TVertex_of (Vertex_transform mat (local_vertex xmove ymove x y)))
            (range xbound))).

(** An index [a + b * width + vertOffset]: the product and the first sum
    are [int] operations, the sum with the [uint32_t] [vertOffset] is
    unsigned. *)
Definition upper_tri (width vertOffset x y : Z) : result uvec3 :=
  i0 <- (Ok x + (Ok y + Ok 1) * Ok width)%int ;;
  i1 <- (Ok x + Ok y * Ok width)%int ;;
  i2 <- ((Ok x + Ok 1) + (Ok y + Ok 1) * Ok width)%int ;;
  Ok (UVec3 (u32 (i0 + vertOffset)) (u32 (i1 + vertOffset)) (u32 (i2 + vertOffset))).

Definition lower_tri (width vertOffset x y : Z) : result uvec3 :=
  i0 <- ((Ok x + Ok 1) + (Ok y + Ok 1) * Ok width)%int ;;
  i1 <- (Ok x + Ok y * Ok width)%int ;;
  i2 <- ((Ok x + Ok 1) + Ok y * Ok width)%int ;;
  Ok (UVec3 (u32 (i0 + vertOffset)) (u32 (i1 + vertOffset)) (u32 (i2 + vertOffset))).

Definition triangles (xdim ydim width vertOffset : Z) : result (list uvec3) :=
  for_each (range ydim) (fun y =>
    for_each (range xdim) (fun x =>
      upper <- upper_tri width vertOffset x y ;;
      lower <- lower_tri width vertOffset x y ;;
      Ok [upper; lower])).

(** The four outline loops. *)
Definition outline (xdim ydim width vertOffset : Z) : result (list uvec2) :=
  left <- mapM (fun y =>
            a <- (Ok y * Ok width)%int ;;
            b <- ((Ok y + Ok 1) * Ok width)%int ;;
            Ok (UVec2 (u32 (a + vertOffset)) (u32 (b + vertOffset))))
          (range ydim) ;;
  right <- mapM (fun y =>
             a <- (Ok y * Ok width + Ok xdim)%int ;;
             b <- ((Ok y + Ok 1) * Ok width + Ok xdim)%int ;;
             Ok (UVec2 (u32 (a + vertOffset)) (u32 (b + vertOffset))))
           (range ydim) ;;
  bottom <- mapM (fun x =>
              b <- (Ok x + Ok 1)%int ;;
              Ok (UVec2 (u32 (x + vertOffset)) (u32 (b + vertOffset))))
            (range xdim) ;;
  top <- mapM (fun x =>
           a <- (Ok x + Ok ydim * Ok width)%int ;;
           b <- ((Ok x + Ok 1) + Ok ydim * Ok width)%int ;;
           Ok (UVec2 (u32 (a + vertOffset)) (u32 (b + vertOffset))))
         (range xdim) ;;
  Ok (left ++ right ++ bottom ++ top).

Definition add (geo : Mesh) (mat : mat4) (w h : Z) : result Mesh :=
  let xdim := w in
  let ydim := h in
  xmove <- fdiv_checked (lit 1) (of_int xdim) ;;
  ymove <- fdiv_checked (lit 1) (of_int ydim) ;;
  width <- (Ok xdim + Ok 1)%int ;;
  let vertOffset := u32 (Z.of_nat (length (m_vertices geo))) in
  vs <- vertices mat xmove ymove xdim ydim ;;
  ts <- triangles xdim ydim width vertOffset ;;
  os <- outline xdim ydim width vertOffset ;;
  Ok {| m_vertices := m_vertices geo ++ vs;
        m_indicesTriangles := m_indicesTriangles geo ++ ts;
        m_indicesOutline := m_indicesOutline geo ++ os |}.

End WithKernel.
End Plane.

Module Box.
Section WithKernel.
Context {K : Kernel} {V : VertexFormat K}.

(** [int configs[6][2]]. *)
Definition configs (w h d : Z) : list (Z * Z) :=
  [(w, h); (w, h); (d, h); (d, h); (w, d); (w, d)].

(** The [switch (side)] that sets [matrixRot]. *)
Definition matrixRot (side : nat) : mat4 :=
  match side with
  | 1%nat => rotate mat4_1 pi (Vec3 (of_int 0) (of_int 1) (of_int 0))
  | 2%nat => rotate mat4_1 (fmul pi (lit (1 # 2)))
                    (Vec3 (of_int 0) (of_int 1) (of_int 0))
  | 3%nat => rotate mat4_1 (fmul pi (lit (3 # 2)))
                    (Vec3 (of_int 0) (of_int 1) (of_int 0))
  | 4%nat => rotate mat4_1 (fmul pi (lit (1 # 2)))
                    (Vec3 (of_int 1) (of_int 0) (of_int 0))
  | 5%nat => rotate mat4_1 (fmul pi (lit (3 # 2)))
                    (Vec3 (of_int 1) (of_int 0) (of_int 0))
  | _ => mat4_1
  end.

Definition matrixMove : mat4 :=
  translate mat4_1 (Vec3 (lit 0) (lit 0) (lit 1)).

(** The body of [for (int side = 0; side < 6; side++)]. *)
Definition add_side (mat : mat4) (w h d : Z) (geo : Mesh) (side : nat)
  : result Mesh :=
  let config := nth side (configs w h d) (0, 0) in
  Plane.add geo (mat_mul (mat_mul mat (matrixRot side)) matrixMove)
            (fst config) (snd config).

Definition add (geo : Mesh) (mat : mat4) (w h d : Z) : result Mesh :=
  foldM (add_side mat w h d) (seq 0 6) geo.

End WithKernel.
End Box.

Module Sphere.
Section WithKernel.
Context {K : Kernel} {V : VertexFormat K}.

Definition local_vertex (xyshift zshift : scalar) (xy z : Z) : Vertex :=
  let curxy := fmul xyshift (of_int xy) in
  let curz := fmul zshift (of_int z) in
  let anglexy := fmul (fmul curxy pi) (lit 2) in
  let anglez := fmul (fsub (lit 1) curz) pi in
  let pos := Vec3 (fmul (cosf anglexy) (sinf anglez))
                  (fmul (sinf anglexy) (sinf anglez))
                  (cosf anglez) in
  let normal := pos in
  let uv := Vec2 curxy curz in
  Vertex_new pos normal uv.

(** The vertex loops, [for (z = 0; z < zdim + 1; z++)] over
    [for (xy = 0; xy < xydim + 1; xy++)]. *)
Definition vertices (mat : mat4) (xyshift zshift : scalar) (xydim zdim : Z)
  : result (list TVertex) :=
  zbound <- (Ok zdim + Ok 1)%int ;;
  for_each (range zbound) (fun z =>
    xybound <- (Ok xydim + Ok 1)%int ;;
    Ok (map (fun xy =>
               TVertex_of (Vertex_transform mat (local_vertex xyshift zshift xy z)))
            (range xybound))).

(** The triangle pushed under [if (z != zdim - 1)]: the sums of [vertex],
    [width] and 1 are [int] sums, the sum with [vertOffset] is unsigned. *)
Definition upper_tri (width vertOffset vertex : Z) : result uvec3 :=
  i1 <- (Ok vertex + Ok width)%int ;;
  i0 <- (Ok vertex + Ok width + Ok 1)%int ;;
  Ok (UVec3 (u32 (i0 + vertOffset)) (u32 (i1 + vertOffset))
            (u32 (vertex + vertOffset))).

(** The triangle pushed under [if (z != 0)]. *)
Definition lower_tri (width vertOffset vertex : Z) : result uvec3 :=
  i2 <- (Ok vertex + Ok width + Ok 1)%int ;;
  i1 <- (Ok vertex + Ok 1)%int ;;
  Ok (UVec3 (u32 (vertex + vertOffset)) (u32 (i1 + vertOffset))
            (u32 (i2 + vertOffset))).

(** What one pass of the inner triangle loop pushes. *)
Definition quad (zdim width vertOffset z vertex : Z) : result (list uvec3) :=
  last <- (Ok zdim - Ok 1)%int ;;
  upper <- (if z =? last then Ok []
            else t <- upper_tri width vertOffset vertex ;; Ok [t]) ;;
  lower <- (if z =? 0 then Ok []
            else t <- lower_tri width vertOffset vertex ;; Ok [t]) ;;
  Ok (upper ++ lower).

(** The triangle loops, with the running [int] counter [vertex]: it is
    incremented with [xy], and once more at the end of each ring. *)
Definition triangle_row (xydim zdim width vertOffset : Z)
  (st : Z * list uvec3) (z : Z) : result (Z * list uvec3) :=
  st' <- foldM (fun (st : Z * list uvec3) (xy : Z) =>
                  pushed <- quad zdim width vertOffset z (fst st) ;;
                  vertex <- (Ok (fst st) + Ok 1)%int ;;
                  Ok (vertex, snd st ++ pushed))
               (range xydim) st ;;
  vertex <- (Ok (fst st') + Ok 1)%int ;;
  Ok (vertex, snd st').

Definition triangles (xydim zdim width vertOffset : Z) : result (list uvec3) :=
  st <- foldM (triangle_row xydim zdim width vertOffset) (range zdim) (0, []) ;;
  Ok (snd st).

(** The ring at [middlez = zdim / 2] and the four arcs at
    [x = (xydim * i) / 4]. *)
Definition outline (xydim zdim width vertOffset : Z) : result (list uvec2) :=
  let middlez := Z.quot zdim 2 in
  ring <- mapM (fun xy =>
            a <- (Ok middlez * Ok width + Ok xy)%int ;;
            b <- (Ok middlez * Ok width + Ok xy + Ok 1)%int ;;
            Ok (UVec2 (u32 (a + vertOffset)) (u32 (b + vertOffset))))
          (range xydim) ;;
  arcs <- for_each (range 4) (fun i =>
            product <- (Ok xydim * Ok i)%int ;;
            let x := Z.quot product 4 in
            mapM (fun z =>
                    a <- (Ok x + Ok width * Ok z)%int ;;
                    b <- (Ok x + Ok width * (Ok z + Ok 1))%int ;;
                    Ok (UVec2 (u32 (a + vertOffset)) (u32 (b + vertOffset))))
                 (range zdim)) ;;
  Ok (ring ++ arcs).

Definition add (geo : Mesh) (mat : mat4) (w h : Z) : result Mesh :=
  let xydim := w in
  let zdim := h in
  let vertOffset := u32 (Z.of_nat (length (m_vertices geo))) in
  xyshift <- fdiv_checked (lit 1) (of_int xydim) ;;
  zshift <- fdiv_checked (lit 1) (of_int zdim) ;;
  width <- (Ok xydim + Ok 1)%int ;;
  vs <- vertices mat xyshift zshift xydim zdim ;;
  ts <- triangles xydim zdim width vertOffset ;;
  os <- outline xydim zdim width vertOffset ;;
  Ok {| m_vertices := m_vertices geo ++ vs;
        m_indicesTriangles := m_indicesTriangles geo ++ ts;
        m_indicesOutline := m_indicesOutline geo ++ os |}.

End WithKernel.
End Sphere.

Module Torus.
Section WithKernel.
Context {K : Kernel} {V : VertexFormat K}.

Definition innerRadius : scalar := lit (8 # 10).
Definition outerRadius : scalar := lit (2 # 10).

(** The body of the inner vertex loop. *)
Definition vertex_at (wf hf phi_step theta_step : scalar)
  (latitude longitude : Z) : result TVertex :=
  let theta := fmul (of_int latitude) theta_step in
  let sinTheta := sinf theta in
  let cosTheta := cosf theta in
  let radius := fadd innerRadius (fmul outerRadius cosTheta) in
  let phi := fmul (of_int longitude) phi_step in
  let sinPhi := sinf phi in
  let cosPhi := cosf phi in
  let position := Vec3 (fmul radius cosPhi) (fmul outerRadius sinTheta)
                       (fmul radius (fneg sinPhi)) in
  let normal := Vec3 (fmul cosPhi cosTheta) sinTheta
                     (fmul (fneg sinPhi) cosTheta) in
  u <- fdiv_checked (of_int longitude) wf ;;
  v <- fdiv_checked (of_int latitude) hf ;;
  Ok (TVertex_of (Vertex_new position normal (Vec2 u v))).

(** [for (latitude = 0; latitude <= (unsigned) w; latitude++)
      for (longitude = 0; longitude <= (unsigned) h; longitude++)]. *)
Definition vertices (wf hf phi_step theta_step : scalar) (w h : Z)
  : result (list TVertex) :=
  rows <- mapM (fun latitude =>
                  mapM (vertex_at wf hf phi_step theta_step latitude)
                       (range (u32 h + 1)))
               (range (u32 w + 1)) ;;
  Ok (concat rows).

Definition triangle1 (columns latitude longitude : Z) : uvec3 :=
  UVec3 (u32 (latitude * columns + longitude))
        (u32 (latitude * columns + longitude + 1))
        (u32 ((latitude + 1) * columns + longitude)).

Definition triangle2 (columns latitude longitude : Z) : uvec3 :=
  UVec3 (u32 ((latitude + 1) * columns + longitude))
        (u32 (latitude * columns + longitude + 1))
        (u32 ((latitude + 1) * columns + longitude + 1)).

Definition triangles (columns w h : Z) : list uvec3 :=
  flat_map (fun latitude =>
    flat_map (fun longitude => [triangle1 columns latitude longitude;
                                triangle2 columns latitude longitude])
             (range (u32 h)))
    (range (u32 w)).

(** [unsigned int k = y * (0.25 * n)]: the product is computed in [double],
    exactly for an [int] [n] and [y < 4], and truncated. *)
Definition quarter (y n : Z) : Z := u32 (Z.quot (y * n) 4).

Definition outline (columns w h : Z) : list uvec2 :=
  flat_map (fun longitude =>
    map (fun y =>
           let latitude := quarter y h in
           UVec2 (u32 (latitude * columns + longitude))
                 (u32 (latitude * columns + longitude + 1)))
        (range 4))
    (range (u32 w))
  ++ flat_map (fun x =>
    map (fun latitude =>
           let longitude := quarter x w in
           UVec2 (u32 (latitude * columns + longitude))
                 (u32 ((latitude + 1) * columns + longitude)))
        (range (u32 h)))
    (range 4).

(** The parameter [mat] is not used, and no index is offset by the number
    of vertices [geo] already holds. [numVertices], which is not used
    either, and [columns] are made by [int] operations and converted to
    [unsigned int]; the loops count and compute in [unsigned int]. *)
Definition add (geo : Mesh) (mat : mat4) (w h : Z) : result Mesh :=
  numVertices <- ((Ok w + Ok 1) * (Ok h + Ok 1))%int ;;
  let wf := of_int w in
  let hf := of_int h in
  phi_step <- fdiv_checked (fmul (lit 2) pi) wf ;;
  theta_step <- fdiv_checked (fmul (lit 2) pi) hf ;;
  vs <- vertices wf hf phi_step theta_step w h ;;
  columns <- (Ok w + Ok 1)%int ;;
  let columns := u32 columns in
  Ok {| m_vertices := m_vertices geo ++ vs;
        m_indicesTriangles := m_indicesTriangles geo ++ triangles columns w h;
        m_indicesOutline := m_indicesOutline geo ++ outline columns w h |}.

End WithKernel.
End Torus.

Module RandomMengerSponge.
Section WithKernel.
Context {K : Kernel} {V : VertexFormat K}.

Record Cube : Type := MkCube {
  m_topLeftFront : vec3 scalar;
  m_size : scalar
}.

(** The cube pushed at grid position [(x, y, z)]. *)
Definition sub_cube (c : Cube) (size : scalar) (x y z : Z) : Cube :=
  {| m_topLeftFront :=
       Vec3 (fadd (v3x (m_topLeftFront c)) (fmul (of_int x) size))
            (fadd (v3y (m_topLeftFront c)) (fmul (of_int y) size))
            (fadd (v3z (m_topLeftFront c)) (fmul (of_int z) size));
     m_size := size |}.

(** [Cube::split]: each [continue] leaves the pass of its loop. The
    divisor of [m_size / 3.f] is a non-zero constant. *)
Definition split (c : Cube) (cubes : list Cube) : list Cube :=
  let size := fdiv (m_size c) (lit 3) in
  cubes ++
  flat_map (fun x =>
    flat_map (fun y =>
      if (x =? 1) && (y =? 1) then [] else
      flat_map (fun z =>
        if (x =? 1) && (z =? 1) then [] else
        if (y =? 1) && (z =? 1) then [] else
        [sub_cube c size x y z])
      (range 3))
    (range 3))
  (range 3).

(** [Cube::splitProb]: one [rand()] per grid position; [sample > prob]
    skips the position. The divisor [RAND_MAX] is a positive constant. *)
Definition splitProb (c : Cube) (prob : scalar) (st : list Cube * rng)
  : list Cube * rng :=
  let size := fdiv (m_size c) (lit 3) in
  fold_left (fun st x =>
    fold_left (fun st y =>
      fold_left (fun (st : list Cube * rng) z =>
        let (r, g) := rand (snd st) in
        let sample := fdiv (of_int r) (of_int RAND_MAX) in
        if fltb prob sample then (fst st, g)
        else (fst st ++ [sub_cube c size x y z], g))
      (range 3) st)
    (range 3) st)
  (range 3) st.

Definition initial_cube : Cube :=
  {| m_topLeftFront := Vec3 (lit (- (1 # 4))) (lit (- (1 # 4))) (lit (- (1 # 4)));
     m_size := lit (1 # 2) |}.

(** One pass of [for (int i = 0; i < level; i++)] on the state
    [(previous, next, random source)]: every cube of [previous] is split
    into [next], the two are exchanged and [next] is cleared. *)
Definition level_step (probability : scalar)
  (st : list Cube * list Cube * rng) : list Cube * list Cube * rng :=
  let '(previous, next, g) := st in
  let filled :=
    fold_left (fun (acc : list Cube * rng) c =>
                 if fltb probability (lit 0) then (split c (fst acc), snd acc)
                 else splitProb c probability acc)
              previous (next, g) in
  (fst filled, [], snd filled).

(** The cubes [previous] points to after the loop, and the random source. *)
Definition refine (level : Z) (probability : scalar) (g : rng)
  : list Cube * rng :=
  let '(previous, _, g') :=
    fold_left (fun st _ => level_step probability st) (range level)
              ([initial_cube], [], g) in
  (previous, g').

(** The body of the final loop over the cubes. *)
Definition add_cube (geo : Mesh) (c : Cube) : result Mesh :=
  let matrixMove := translate mat4_1 (m_topLeftFront c) in
  let matrixScale := scale mat4_1 (Vec3 (m_size c) (m_size c) (m_size c)) in
  Box.add geo (mat_mul matrixMove matrixScale) 1 1 1.

(** The parameters [mat], [w], [h] and [d] are not used. *)
Definition add (geo : Mesh) (mat : mat4) (w h d : Z) (level : Z)
  (probability : scalar) (g : rng) : result Mesh * rng :=
  let (cubes, g') := refine level probability g in
  (foldM add_cube cubes geo, g').

End WithKernel.
End RandomMengerSponge.

(** ** Properties of meshes *)

(** An unsigned index below [n]. *)
Definition index_below (n i : Z) : Prop := 0 <= i < n.

Definition index_belowb (n i : Z) : bool := (0 <=? i) && (i <? n).

(** Every component of a triangle (of a line) is below [n]. *)
Definition tri_below (n : Z) (t : uvec3) : Prop :=
  index_below n (ux t) /\ index_below n (uy t) /\ index_below n (uz t).

Definition line_below (n : Z) (o : uvec2) : Prop :=
  index_below n (lx o) /\ index_below n (ly o).

Definition tri_belowb (n : Z) (t : uvec3) : bool :=
  index_belowb n (ux t) && index_belowb n (uy t) && index_belowb n (uz t).

Definition line_belowb (n : Z) (o : uvec2) : bool :=
  index_belowb n (lx o) && index_belowb n (ly o).

(** Every component of a triangle (of a line) is in [[lo, hi)]. *)
Definition tri_within (lo hi : Z) (t : uvec3) : Prop :=
  (lo <= ux t < hi) /\ (lo <= uy t < hi) /\ (lo <= uz t < hi).

Definition line_within (lo hi : Z) (o : uvec2) : Prop :=
  (lo <= lx o < hi) /\ (lo <= ly o < hi).

(** The invariant of a mesh: every index is below the number of vertices. *)
Definition indices_in_range {K : Kernel} {V : VertexFormat K} (m : Mesh) : Prop :=
  Forall (tri_below (vertex_count m)) (m_indicesTriangles m)
  /\ Forall (line_below (vertex_count m)) (m_indicesOutline m).

Definition indices_in_rangeb {K : Kernel} {V : VertexFormat K} (m : Mesh) : bool :=
  forallb (tri_belowb (vertex_count m)) (m_indicesTriangles m)
  && forallb (line_belowb (vertex_count m)) (m_indicesOutline m).

(** [post] is [pre] with [k] vertices and some triangles and lines
    pushed back. *)
Definition extends {K : Kernel} {V : VertexFormat K}
  (pre post : Mesh) (vs : list TVertex) (ts : list uvec3) (os : list uvec2)
  : Prop :=
  m_vertices post = m_vertices pre ++ vs
  /\ m_indicesTriangles post = m_indicesTriangles pre ++ ts
  /\ m_indicesOutline post = m_indicesOutline pre ++ os.

(** [post] is [pre] with [nv] vertices, [nt] triangles and some lines
    pushed back; the new indices are below the new number of vertices, and
    they are indices of the new vertices when that number fits [uint32_t]. *)
Definition grows {K : Kernel} {V : VertexFormat K}
  (pre post : Mesh) (nv nt : Z) : Prop :=
  exists vs ts os,
    extends pre post vs ts os
    /\ Z.of_nat (length vs) = nv
    /\ Z.of_nat (length ts) = nt
    /\ Forall (tri_below (vertex_count pre + nv)) ts
    /\ Forall (line_below (vertex_count pre + nv)) os
    /\ (vertex_count pre + nv <= 2 ^ 32 ->
        Forall (tri_within (vertex_count pre) (vertex_count pre + nv)) ts
        /\ Forall (line_within (vertex_count pre) (vertex_count pre + nv)) os).

(** The meshes built from a mesh that satisfies the invariant by the
    generators with segment counts of at least 1, [append] of another
    such mesh and [flipWinding], in any sequence; [Torus::add] with no more
    rings than segments per ring ([w <= h]). The segment counts are in
    the range where the [int] operations of the call stay in range: for
    a plane of [w] by [h] segments a grid of no more than [2^31] points,
    for [Sphere::add] also [3 * w] an [int], for [Torus::add]
    [(w+1)*(h+1)] an [int]. *)
Inductive built {K : Kernel} {V : VertexFormat K} : Mesh -> Prop :=
| built_target (geo : Mesh) :
    indices_in_range geo -> built geo
| built_plane (geo geo' : Mesh) (mat : mat4) (w h : Z) :
    built geo -> 1 <= w -> 1 <= h -> (w + 1) * (h + 1) <= 2 ^ 31 ->
    Plane.add geo mat w h = Ok geo' -> built geo'
| built_box (geo geo' : Mesh) (mat : mat4) (w h d : Z) :
    built geo -> 1 <= w -> 1 <= h -> 1 <= d ->
    (w + 1) * (h + 1) <= 2 ^ 31 -> (d + 1) * (h + 1) <= 2 ^ 31 ->
    (w + 1) * (d + 1) <= 2 ^ 31 ->
    Box.add geo mat w h d = Ok geo' -> built geo'
| built_sphere (geo geo' : Mesh) (mat : mat4) (w h : Z) :
    built geo -> 1 <= w -> 1 <= h ->
    (w + 1) * (h + 1) <= 2 ^ 31 -> 3 * w < 2 ^ 31 ->
    Sphere.add geo mat w h = Ok geo' -> built geo'
| built_torus (geo geo' : Mesh) (mat : mat4) (w h : Z) :
    built geo -> 1 <= w <= h -> (w + 1) * (h + 1) < 2 ^ 31 ->
    Torus.add geo mat w h = Ok geo' -> built geo'
| built_sponge (geo geo' : Mesh) (mat : mat4) (w h d level : Z)
    (probability : scalar) (g : rng) :
    built geo -> 1 <= w -> 1 <= h -> 1 <= d ->
    fst (RandomMengerSponge.add geo mat w h d level probability g) = Ok geo' ->
    built geo'
| built_append (self geo merged : Mesh) (fuel : nat) :
    built self -> built geo ->
    Mesh.append fuel self (Mesh.Other geo) = Some (Ok merged) -> built merged
| built_flipWinding (self flipped : Mesh) :
    built self -> Mesh.flipWinding self = Ok flipped -> built flipped.

(** The 3x3x3 grid of [Cube::split], in the order of its loops. *)
Definition grid27 : list (Z * Z * Z) :=
  flat_map (fun x =>
    flat_map (fun y => map (fun z => (x, y, z)) (range 3)) (range 3))
  (range 3).

(** How many of the three grid indices are the centre index [1]. *)
Definition centred (p : Z * Z * Z) : Z :=
  let '(x, y, z) := p in
  (if x =? 1 then 1 else 0) + (if y =? 1 then 1 else 0) + (if z =? 1 then 1 else 0).

(** The centre cube (three centred indices) and the six face centres
    (exactly two). *)
Definition is_centre_or_face_centre (p : Z * Z * Z) : bool :=
  (centred p =? 3) || (centred p =? 2).

(** ** A kernel to run the generators on

    Scalars are the expressions the code evaluates, matrices are four
    columns of them with the usual products, and [rand] is the sample
    generator of the C standard. Comparisons are decided on the rational
    value of an expression and are false where it has none. *)

Module Sym.

Inductive expr : Type :=
| Lit (q : Q)
| Pi
| OfInt (n : Z)
| Add (a b : expr)
| Sub (a b : expr)
| Mul (a b : expr)
| Div (a b : expr)
| Neg (a : expr)
| Sin (a : expr)
| Cos (a : expr)
| Rsqrt (a : expr).

Definition lift2 (f : Q -> Q -> Q) (a b : option Q) : option Q :=
  match a, b with
  | Some x, Some y => Some (f x y)
  | _, _ => None
  end.

Fixpoint value (e : expr) : option Q :=
  match e with
  | Lit q => Some q
  | OfInt n => Some (inject_Z n)
  | Add a b => lift2 Qplus (value a) (value b)
  | Sub a b => lift2 Qminus (value a) (value b)
  | Mul a b => lift2 Qmult (value a) (value b)
  | Div a b =>
      match value b with
      | Some y => if Qeq_bool y 0 then None else lift2 Qdiv (value a) (Some y)
      | None => None
      end
  | Neg a => option_map Qopp (value a)
  | Pi | Sin _ | Cos _ | Rsqrt _ => None
  end.

Definition ltb (a b : expr) : bool :=
  match value a, value b with
  | Some x, Some y => negb (Qle_bool y x)
  | _, _ => false
  end.

Definition is_zero (a : expr) : bool :=
  match value a with
  | Some x => Qeq_bool x 0
  | None => false
  end.

Definition col : Type := vec4 expr.
Definition mat : Type := vec4 col.

Definition col_scale (c : col) (s : expr) : col :=
  Vec4 (Mul (v4x c) s) (Mul (v4y c) s) (Mul (v4z c) s) (Mul (v4w c) s).

Definition col_add (a b : col) : col :=
  Vec4 (Add (v4x a) (v4x b)) (Add (v4y a) (v4y b))
       (Add (v4z a) (v4z b)) (Add (v4w a) (v4w b)).

Definition identity : mat :=
  Vec4 (Vec4 (Lit 1) (Lit 0) (Lit 0) (Lit 0))
       (Vec4 (Lit 0) (Lit 1) (Lit 0) (Lit 0))
       (Vec4 (Lit 0) (Lit 0) (Lit 1) (Lit 0))
       (Vec4 (Lit 0) (Lit 0) (Lit 0) (Lit 1)).

Definition mul_vec (m : mat) (v : col) : col :=
  col_add (col_add (col_scale (v4x m) (v4x v)) (col_scale (v4y m) (v4y v)))
          (col_add (col_scale (v4z m) (v4z v)) (col_scale (v4w m) (v4w v))).

Definition mul (a b : mat) : mat :=
  Vec4 (mul_vec a (v4x b)) (mul_vec a (v4y b))
       (mul_vec a (v4z b)) (mul_vec a (v4w b)).

Definition translation (m : mat) (v : vec3 expr) : mat :=
  Vec4 (v4x m) (v4y m) (v4z m)
       (col_add (col_add (col_add (col_scale (v4x m) (v3x v))
                                  (col_scale (v4y m) (v3y v)))
                         (col_scale (v4z m) (v3z v)))
                (v4w m)).

Definition scaling (m : mat) (v : vec3 expr) : mat :=
  Vec4 (col_scale (v4x m) (v3x v)) (col_scale (v4y m) (v3y v))
       (col_scale (v4z m) (v3z v)) (v4w m).

(** Rotation by [angle] about the normalised [v] (Rodrigues' formula). *)
Definition rotation (m : mat) (angle : expr) (v : vec3 expr) : mat :=
  let c := Cos angle in
  let s := Sin angle in
  let n := Rsqrt (Add (Add (Mul (v3x v) (v3x v)) (Mul (v3y v) (v3y v)))
                      (Mul (v3z v) (v3z v))) in
  let ax := Mul (v3x v) n in
  let ay := Mul (v3y v) n in
  let az := Mul (v3z v) n in
  let tx := Mul (Sub (Lit 1) c) ax in
  let ty := Mul (Sub (Lit 1) c) ay in
  let tz := Mul (Sub (Lit 1) c) az in
  let column (a b d : expr) : col :=
    col_add (col_add (col_scale (v4x m) a) (col_scale (v4y m) b))
            (col_scale (v4z m) d) in
  Vec4 (column (Add c (Mul tx ax)) (Add (Mul tx ay) (Mul s az))
               (Sub (Mul tx az) (Mul s ay)))
       (column (Sub (Mul ty ax) (Mul s az)) (Add c (Mul ty ay))
               (Add (Mul ty az) (Mul s ax)))
       (column (Add (Mul tz ax) (Mul s ay)) (Sub (Mul tz ay) (Mul s ax))
               (Add c (Mul tz az)))
       (v4w m).

(** The [rand] of the C standard's example, with [RAND_MAX = 32767]. *)
Definition lcg (next : Z) : Z * Z :=
  let next' := u32 (next * 1103515245 + 12345) in
  (Z.quot next' 65536 mod 32768, next').

Definition kernel : Kernel :=
  {| scalar := expr;
     lit := Lit;
     pi := Pi;
     of_int := OfInt;
     fadd := Add;
     fsub := Sub;
     fmul := Mul;
     fdiv := Div;
     fneg := Neg;
     fltb := ltb;
     fis_zero := is_zero;
     sinf := Sin;
     cosf := Cos;
     mat4 := mat;
     mat4_1 := identity;
     mat_mul := mul;
     mat_vec := mul_vec;
     rotate := rotation;
     translate := translation;
     scale := scaling;
     rng := Z;
     rand := lcg;
     RAND_MAX := 32767 |}.

(** The rational value of an expression, in lowest terms, and the point
    of a vector by its rational coordinates. *)
Definition reduced (e : expr) : option Q := option_map Qred (value e).

Definition point3 (v : vec3 expr) : option Q * option Q * option Q :=
  (reduced (v3x v), reduced (v3y v), reduced (v3z v)).

Definition point4 (v : vec4 expr) : option Q * option Q * option Q :=
  (reduced (v4x v), reduced (v4y v), reduced (v4z v)).

(** The default template argument: [TVertex = Vertex]. *)
Definition vertex_format : VertexFormat kernel :=
  {| TVertex := @Vertex kernel; TVertex_of := fun v => v |}.

Definition mesh : Type := @Mesh kernel vertex_format.

(** A mesh of one triangle, to run [append] and [flipWinding] on. *)
Definition corner (x y : Q) : @Vertex kernel :=
  @Vertex_new kernel (Vec3 (Lit x) (Lit y) (Lit 0))
              (Vec3 (Lit 0) (Lit 0) (Lit 1)) (Vec2 (Lit x) (Lit y)).

Definition triangle_mesh : mesh :=
  @MkMesh kernel vertex_format
          (map (@TVertex_of kernel vertex_format)
               [corner 0 0; corner 1 0; corner 0 1])
          [UVec3 0 1 2]
          [UVec2 0 1; UVec2 1 2; UVec2 2 0].

End Sym.

(** ** Closed forms used by the proofs *)

(** The sum of [f] over the passes of a loop. *)
Fixpoint total (f : Z -> Z) (l : list Z) : Z :=
  match l with
  | [] => 0
  | z :: l' => f z + total f l'
  end.

(** What the loops of [Plane::add] and [Sphere::add] push when none of
    their [int] operations leaves the range of [int], with the sums and
    products taken in [Z]. *)

Definition Plane_upper_tri (width vertOffset x y : Z) : uvec3 :=
  UVec3 (u32 (x + (y + 1) * width + vertOffset))
        (u32 (x + y * width + vertOffset))
        (u32 (x + 1 + (y + 1) * width + vertOffset)).

Definition Plane_lower_tri (width vertOffset x y : Z) : uvec3 :=
  UVec3 (u32 (x + 1 + (y + 1) * width + vertOffset))
        (u32 (x + y * width + vertOffset))
        (u32 (x + 1 + y * width + vertOffset)).

Definition Plane_triangles (xdim ydim width vertOffset : Z) : list uvec3 :=
  flat_map (fun y =>
    flat_map (fun x => [Plane_upper_tri width vertOffset x y;
                        Plane_lower_tri width vertOffset x y])
             (range xdim))
    (range ydim).

Definition Plane_outline (xdim ydim width vertOffset : Z) : list uvec2 :=
  map (fun y => UVec2 (u32 (y * width + vertOffset))
                      (u32 ((y + 1) * width + vertOffset))) (range ydim)
  ++ map (fun y => UVec2 (u32 (y * width + xdim + vertOffset))
                         (u32 ((y + 1) * width + xdim + vertOffset))) (range ydim)
  ++ map (fun x => UVec2 (u32 (x + vertOffset))
                         (u32 (x + 1 + vertOffset))) (range xdim)
  ++ map (fun x => UVec2 (u32 (x + ydim * width + vertOffset))
                         (u32 (x + 1 + ydim * width + vertOffset))) (range xdim).

Definition Sphere_upper_tri (width vertOffset vertex : Z) : uvec3 :=
  UVec3 (u32 (vertex + width + 1 + vertOffset))
        (u32 (vertex + width + vertOffset))
        (u32 (vertex + vertOffset)).

Definition Sphere_lower_tri (width vertOffset vertex : Z) : uvec3 :=
  UVec3 (u32 (vertex + vertOffset))
        (u32 (vertex + 1 + vertOffset))
        (u32 (vertex + width + 1 + vertOffset)).

Definition Sphere_quad (zdim width vertOffset z vertex : Z) : list uvec3 :=
  (if z =? zdim - 1 then [] else [Sphere_upper_tri width vertOffset vertex])
  ++ (if z =? 0 then [] else [Sphere_lower_tri width vertOffset vertex]).

(** The triangles of ring [z], with the counter [vertex] in closed form. *)
Definition Sphere_ring (xydim zdim width off z : Z) : list uvec3 :=
  flat_map (fun xy => Sphere_quad zdim width off z (z * width + xy)) (range xydim).

Definition Sphere_triangles (xydim zdim width vertOffset : Z) : list uvec3 :=
  flat_map (Sphere_ring xydim zdim width vertOffset) (range zdim).

Definition Sphere_outline (xydim zdim width vertOffset : Z) : list uvec2 :=
  let middlez := Z.quot zdim 2 in
  map (fun xy => UVec2 (u32 (middlez * width + xy + vertOffset))
                       (u32 (middlez * width + xy + 1 + vertOffset)))
      (range xydim)
  ++ flat_map (fun i =>
       let x := Z.quot (xydim * i) 4 in
       map (fun z => UVec2 (u32 (x + width * z + vertOffset))
                           (u32 (x + width * (z + 1) + vertOffset)))
           (range zdim))
     (range 4).

Section ClosedForms.
Context {K : Kernel} {V : VertexFormat K}.

Definition Plane_vertices (mat : mat4) (xmove ymove : scalar) (xdim ydim : Z)
  : list TVertex :=
  flat_map (fun y =>
    map (fun x =>
           TVertex_of (Vertex_transform mat (Plane.local_vertex xmove ymove x y)))
        (range (xdim + 1)))
    (range (ydim + 1)).

Definition Sphere_vertices (mat : mat4) (xyshift zshift : scalar) (xydim zdim : Z)
  : list TVertex :=
  flat_map (fun z =>
    map (fun xy =>
           TVertex_of (Vertex_transform mat (Sphere.local_vertex xyshift zshift xy z)))
        (range (xydim + 1)))
    (range (zdim + 1)).

(** The vertex of [vertex_at] once its two divisions are defined. *)
Definition Torus_vertex (wf hf phi_step theta_step : scalar)
  (latitude longitude : Z) : TVertex :=
  let theta := fmul (of_int latitude) theta_step in
  let radius := fadd Torus.innerRadius (fmul Torus.outerRadius (cosf theta)) in
  let phi := fmul (of_int longitude) phi_step in
  TVertex_of
    (Vertex_new
       (Vec3 (fmul radius (cosf phi)) (fmul Torus.outerRadius (sinf theta))
             (fmul radius (fneg (sinf phi))))
       (Vec3 (fmul (cosf phi) (cosf theta)) (sinf theta)
             (fmul (fneg (sinf phi)) (cosf theta)))
       (Vec2 (fdiv (of_int longitude) wf) (fdiv (of_int latitude) hf))).

End ClosedForms.

(** ** The rest of the geometry header *)

Section MeshQueries.
Context {K : Kernel} {V : VertexFormat K}.

(** [(uint32_t) m_indicesTriangles.size() * 3]. *)
Definition getTriangleIndicesCount (m : Mesh) : Z :=
  u32 (u32 (Z.of_nat (length (m_indicesTriangles m))) * 3).

(** [(uint32_t) m_indicesOutline.size() * 2]. *)
Definition getOutlineIndicesCount (m : Mesh) : Z :=
  u32 (u32 (Z.of_nat (length (m_indicesOutline m))) * 2).

(** [(uint32_t) m_vertices.size()]. *)
Definition getVerticesCount (m : Mesh) : Z :=
  u32 (Z.of_nat (length (m_vertices m))).

(** The [size()] of the three vectors. *)
Definition sizes (m : Mesh) : Z * Z * Z :=
  (Z.of_nat (length (m_vertices m)),
   Z.of_nat (length (m_indicesTriangles m)),
   Z.of_nat (length (m_indicesOutline m))).

(** The mesh [append] leaves in the receiver [a] for another mesh [b]. *)
Definition merge (a b : Mesh) : Mesh :=
  {| m_vertices := m_vertices a ++ m_vertices b;
     m_indicesTriangles :=
       m_indicesTriangles a
       ++ map (fun t => uvec3_add t (u32 (vertex_count a))) (m_indicesTriangles b);
     m_indicesOutline :=
       m_indicesOutline a
       ++ map (fun o => uvec2_add o (u32 (vertex_count a))) (m_indicesOutline b) |}.

(** The constructors: each calls its [add] on the new, empty mesh with the
    identity matrix. *)
Definition Plane_new (segments : Z) : result Mesh :=
  Plane.add empty_mesh mat4_1 segments segments.

Definition Box_new (segments : Z) : result Mesh :=
  Box.add empty_mesh mat4_1 segments segments segments.

Definition Sphere_new (w h : Z) : result Mesh :=
  Sphere.add empty_mesh mat4_1 w h.

Definition Torus_new (w h : Z) : result Mesh :=
  Torus.add empty_mesh mat4_1 w h.

(** The state of the random source after [n] calls of [rand()], and the
    values they return, first call first. *)
Fixpoint after_draws (n : nat) (g : rng) : rng :=
  match n with
  | O => g
  | S n' => after_draws n' (snd (rand g))
  end.

Fixpoint draws (n : nat) (g : rng) : list Z :=
  match n with
  | O => []
  | S n' => fst (rand g) :: draws n' (snd (rand g))
  end.

(** [sample > prob] in [Cube::splitProb], for the value [r] of [rand()]. *)
Definition rejected (prob : scalar) (r : Z) : bool :=
  fltb prob (fdiv (of_int r) (of_int RAND_MAX)).

(** [size] divided [n] times by [3.f]. *)
Fixpoint thirds (n : nat) (size : scalar) : scalar :=
  match n with
  | O => size
  | S n' => thirds n' (fdiv size (lit 3))
  end.

End MeshQueries.

Section SpongeQueries.
Context {K : Kernel} {V : VertexFormat K}.

(** The cube [Cube::split] and [Cube::splitProb] push for the grid
    position [p], [c] being the receiver. *)
Definition cube_at (c : RandomMengerSponge.Cube) (p : Z * Z * Z)
  : RandomMengerSponge.Cube :=
  let '(x, y, z) := p in
  RandomMengerSponge.sub_cube c (fdiv (RandomMengerSponge.m_size c) (lit 3)) x y z.

(** The grid positions [Cube::splitProb] keeps: those whose value of
    [rand()], the positions and the values taken in the order of the
    loops, does not make [sample > prob] true. *)
Definition kept (prob : scalar) (positions : list (Z * Z * Z)) (rs : list Z)
  : list (Z * Z * Z) :=
  map fst (filter (fun pr => negb (rejected prob (snd pr))) (combine positions rs)).

(** Cubes of one size, at most [bound] of them. *)
Definition sized (size : scalar) (bound : nat)
  (cubes : list RandomMengerSponge.Cube) : Prop :=
  Forall (fun c => RandomMengerSponge.m_size c = size) cubes
  /\ (length cubes <= bound)%nat.

End SpongeQueries.

(** * nvvk: the graphics pipeline state

    A shallow embedding of [nvvk::GraphicsPipelineState] and
    [nvvk::GraphicShaderObjectPipeline], which share the file of the
    geometry header.

    Conventions of the embedding.
    - The enumerations, flags, [VkBool32] and [uint32_t] of
      [vulkan_core.h] are integers of [Z]; the enumerators the code names
      are the constants of [VulkanHeader], none of them code of this
      repository. [float] is the [scalar] of the numeric kernel.
    - The structures of [vulkan_core.h] are records of the members other
      than [pNext], which the code never names in these two classes (it
      is null throughout).
    - A pointer member is [nullptr] or [data]: the address its member
      function assigns to it, which is the [data()] of one member vector
      (or [&sampleMask]). Reading through it reads that member as it is
      at the time of the read.
    - [assert(c)] is no code when [NDEBUG] is defined; without it the
      program is aborted when [c] is false. *)

Class VulkanHeader : Type := {
  VK_TRUE : Z;
  VK_POLYGON_MODE_FILL : Z;
  VK_CULL_MODE_BACK_BIT : Z;
  VK_FRONT_FACE_COUNTER_CLOCKWISE : Z;
  VK_PRIMITIVE_TOPOLOGY_TRIANGLE_LIST : Z;
  VK_LOGIC_OP_CLEAR : Z;
  VK_COMPARE_OP_LESS_OR_EQUAL : Z;
  VK_SAMPLE_COUNT_1_BIT : Z;
  VK_COLOR_COMPONENT_R_BIT : Z;
  VK_COLOR_COMPONENT_G_BIT : Z;
  VK_COLOR_COMPONENT_B_BIT : Z;
  VK_COLOR_COMPONENT_A_BIT : Z;
  VK_BLEND_FACTOR_ZERO : Z;
  VK_BLEND_OP_ADD : Z;
  VK_VERTEX_INPUT_RATE_VERTEX : Z;
  VK_DYNAMIC_STATE_VIEWPORT : Z;
  VK_DYNAMIC_STATE_SCISSOR : Z;
  VK_STRUCTURE_TYPE_PIPELINE_INPUT_ASSEMBLY_STATE_CREATE_INFO : Z;
  VK_STRUCTURE_TYPE_PIPELINE_RASTERIZATION_STATE_CREATE_INFO : Z;
  VK_STRUCTURE_TYPE_PIPELINE_MULTISAMPLE_STATE_CREATE_INFO : Z;
  VK_STRUCTURE_TYPE_PIPELINE_DEPTH_STENCIL_STATE_CREATE_INFO : Z;
  VK_STRUCTURE_TYPE_PIPELINE_VIEWPORT_STATE_CREATE_INFO : Z;
  VK_STRUCTURE_TYPE_PIPELINE_DYNAMIC_STATE_CREATE_INFO : Z;
  VK_STRUCTURE_TYPE_PIPELINE_COLOR_BLEND_STATE_CREATE_INFO : Z;
  VK_STRUCTURE_TYPE_PIPELINE_VERTEX_INPUT_STATE_CREATE_INFO : Z;
  VK_STRUCTURE_TYPE_VERTEX_INPUT_BINDING_DESCRIPTION_2_EXT : Z;
  VK_STRUCTURE_TYPE_VERTEX_INPUT_ATTRIBUTE_DESCRIPTION_2_EXT : Z;
  VK_STRUCTURE_TYPE_SHADER_MODULE_CREATE_INFO : Z;
  VK_STRUCTURE_TYPE_PIPELINE_SHADER_STAGE_CREATE_INFO : Z;
  VK_STRUCTURE_TYPE_GRAPHICS_PIPELINE_CREATE_INFO : Z;
  VK_STRUCTURE_TYPE_PIPELINE_RENDERING_CREATE_INFO : Z;
  VK_NULL_HANDLE : Z
}.

Inductive pointer : Type :=
| nullptr
| data.

(** [assert(c); rest]. *)
Inductive asserted (A : Type) : Type :=
| Aborted
| Continues (r : result A).
Arguments Aborted {A}.
Arguments Continues {A} r.

(** [v.resize(n)]: the first [n] elements, then value-initialized ones. *)
Definition resize {A : Type} (zero : A) (n : Z) (v : list A) : list A :=
  firstn (Z.to_nat n) v ++ repeat zero (Z.to_nat n - length v).

(** [(uint32_t) v.size()]. *)
Definition size32 {A : Type} (v : list A) : Z := u32 (Z.of_nat (length v)).

(** ** The structures of [vulkan_core.h] *)

Record VkOffset2D : Type := MkOffset2D { off_x : Z; off_y : Z }.
Record VkExtent2D : Type := MkExtent2D { ext_width : Z; ext_height : Z }.
Record VkRect2D : Type := MkRect2D {
  rect_offset : VkOffset2D;
  rect_extent : VkExtent2D
}.

Record VkStencilOpState : Type := MkStencilOpState {
  failOp : Z;
  passOp : Z;
  depthFailOp : Z;
  compareOp : Z;
  compareMask : Z;
  writeMask : Z;
  reference : Z
}.

Record VkPipelineColorBlendAttachmentState : Type := MkBlendAttachment {
  blendEnable : Z;
  srcColorBlendFactor : Z;
  dstColorBlendFactor : Z;
  colorBlendOp : Z;
  srcAlphaBlendFactor : Z;
  dstAlphaBlendFactor : Z;
  alphaBlendOp : Z;
  colorWriteMask : Z
}.

Record VkVertexInputBindingDescription : Type := MkBinding {
  vb_binding : Z;
  vb_stride : Z;
  vb_inputRate : Z
}.

Record VkVertexInputAttributeDescription : Type := MkAttribute {
  va_location : Z;
  va_binding : Z;
  va_format : Z;
  va_offset : Z
}.

Record VkVertexInputBindingDescription2EXT : Type := MkBinding2 {
  vb2_sType : Z;
  vb2_binding : Z;
  vb2_stride : Z;
  vb2_inputRate : Z;
  vb2_divisor : Z
}.

Record VkVertexInputAttributeDescription2EXT : Type := MkAttribute2 {
  va2_sType : Z;
  va2_location : Z;
  va2_binding : Z;
  va2_format : Z;
  va2_offset : Z
}.

Record VkColorBlendEquationEXT : Type := MkBlendEquation {
  eq_srcColorBlendFactor : Z;
  eq_dstColorBlendFactor : Z;
  eq_colorBlendOp : Z;
  eq_srcAlphaBlendFactor : Z;
  eq_dstAlphaBlendFactor : Z;
  eq_alphaBlendOp : Z
}.

Record VkPipelineInputAssemblyStateCreateInfo : Type := MkInputAssembly {
  ia_sType : Z;
  ia_flags : Z;
  topology : Z;
  primitiveRestartEnable : Z
}.

Record VkPipelineViewportStateCreateInfo : Type := MkViewportState {
  vs_sType : Z;
  vs_flags : Z;
  viewportCount : Z;
  pViewports : pointer;
  scissorCount : Z;
  pScissors : pointer
}.

Record VkPipelineDynamicStateCreateInfo : Type := MkDynamicState {
  dy_sType : Z;
  dy_flags : Z;
  dynamicStateCount : Z;
  pDynamicStates : pointer
}.

Record VkPipelineVertexInputStateCreateInfo : Type := MkVertexInputState {
  vi_sType : Z;
  vi_flags : Z;
  vertexBindingDescriptionCount : Z;
  pVertexBindingDescriptions : pointer;
  vertexAttributeDescriptionCount : Z;
  pVertexAttributeDescriptions : pointer
}.

Section PipelineStructures.
Context {K : Kernel}.

Record VkViewport : Type := MkViewport {
  vp_x : scalar;
  vp_y : scalar;
  vp_width : scalar;
  vp_height : scalar;
  vp_minDepth : scalar;
  vp_maxDepth : scalar
}.

Record VkPipelineRasterizationStateCreateInfo : Type := MkRasterization {
  rs_sType : Z;
  rs_flags : Z;
  depthClampEnable : Z;
  rasterizerDiscardEnable : Z;
  polygonMode : Z;
  cullMode : Z;
  frontFace : Z;
  depthBiasEnable : Z;
  depthBiasConstantFactor : scalar;
  depthBiasClamp : scalar;
  depthBiasSlopeFactor : scalar;
  lineWidth : scalar
}.

Record VkPipelineMultisampleStateCreateInfo : Type := MkMultisample {
  ms_sType : Z;
  ms_flags : Z;
  rasterizationSamples : Z;
  sampleShadingEnable : Z;
  minSampleShading : scalar;
  pSampleMask : pointer;
  alphaToCoverageEnable : Z;
  alphaToOneEnable : Z
}.

Record VkPipelineDepthStencilStateCreateInfo : Type := MkDepthStencil {
  ds_sType : Z;
  ds_flags : Z;
  depthTestEnable : Z;
  depthWriteEnable : Z;
  depthCompareOp : Z;
  depthBoundsTestEnable : Z;
  stencilTestEnable : Z;
  front : VkStencilOpState;
  back : VkStencilOpState;
  minDepthBounds : scalar;
  maxDepthBounds : scalar
}.

Record VkPipelineColorBlendStateCreateInfo : Type := MkColorBlendState {
  cb_sType : Z;
  cb_flags : Z;
  logicOpEnable : Z;
  logicOp : Z;
  attachmentCount : Z;
  pAttachments : pointer;
  blendConstants : list scalar
}.

(** ** GraphicsPipelineState *)

Record GraphicsPipelineState : Type := MkGraphicsPipelineState {
  inputAssemblyState : VkPipelineInputAssemblyStateCreateInfo;
  rasterizationState : VkPipelineRasterizationStateCreateInfo;
  multisampleState : VkPipelineMultisampleStateCreateInfo;
  depthStencilState : VkPipelineDepthStencilStateCreateInfo;
  viewportState : VkPipelineViewportStateCreateInfo;
  dynamicState : VkPipelineDynamicStateCreateInfo;
  colorBlendState : VkPipelineColorBlendStateCreateInfo;
  vertexInputState : VkPipelineVertexInputStateCreateInfo;
  blendAttachmentStates : list VkPipelineColorBlendAttachmentState;
  dynamicStateEnables : list Z;
  bindingDescriptions : list VkVertexInputBindingDescription;
  attributeDescriptions : list VkVertexInputAttributeDescription;
  viewports : list VkViewport;
  scissors : list VkRect2D
}.

(** Value-initialized elements, as [resize] makes them. *)
Definition zero_blendAttachment : VkPipelineColorBlendAttachmentState :=
  MkBlendAttachment 0 0 0 0 0 0 0 0.
Definition zero_binding : VkVertexInputBindingDescription := MkBinding 0 0 0.
Definition zero_attribute : VkVertexInputAttributeDescription :=
  MkAttribute 0 0 0 0.
Definition zero_viewport : VkViewport :=
  MkViewport (lit 0) (lit 0) (lit 0) (lit 0) (lit 0) (lit 0).
Definition zero_rect : VkRect2D := MkRect2D (MkOffset2D 0 0) (MkExtent2D 0 0).
Definition zero_binding2 : VkVertexInputBindingDescription2EXT :=
  MkBinding2 0 0 0 0 0.
Definition zero_attribute2 : VkVertexInputAttributeDescription2EXT :=
  MkAttribute2 0 0 0 0 0.
Definition zero_blendEquation : VkColorBlendEquationEXT :=
  MkBlendEquation 0 0 0 0 0 0.

(** Assignments to one member, the others as they are. *)
Definition with_blendAttachmentStates (s : GraphicsPipelineState)
  (v : list VkPipelineColorBlendAttachmentState) : GraphicsPipelineState :=
  MkGraphicsPipelineState
    (inputAssemblyState s) (rasterizationState s) (multisampleState s)
    (depthStencilState s) (viewportState s) (dynamicState s) (colorBlendState s)
    (vertexInputState s) v (dynamicStateEnables s) (bindingDescriptions s)
    (attributeDescriptions s) (viewports s) (scissors s).

Definition with_dynamicStateEnables (s : GraphicsPipelineState) (v : list Z)
  : GraphicsPipelineState :=
  MkGraphicsPipelineState
    (inputAssemblyState s) (rasterizationState s) (multisampleState s)
    (depthStencilState s) (viewportState s) (dynamicState s) (colorBlendState s)
    (vertexInputState s) (blendAttachmentStates s) v (bindingDescriptions s)
    (attributeDescriptions s) (viewports s) (scissors s).

Definition with_bindingDescriptions (s : GraphicsPipelineState)
  (v : list VkVertexInputBindingDescription) : GraphicsPipelineState :=
  MkGraphicsPipelineState
    (inputAssemblyState s) (rasterizationState s) (multisampleState s)
    (depthStencilState s) (viewportState s) (dynamicState s) (colorBlendState s)
    (vertexInputState s) (blendAttachmentStates s) (dynamicStateEnables s) v
    (attributeDescriptions s) (viewports s) (scissors s).

Definition with_attributeDescriptions (s : GraphicsPipelineState)
  (v : list VkVertexInputAttributeDescription) : GraphicsPipelineState :=
  MkGraphicsPipelineState
    (inputAssemblyState s) (rasterizationState s) (multisampleState s)
    (depthStencilState s) (viewportState s) (dynamicState s) (colorBlendState s)
    (vertexInputState s) (blendAttachmentStates s) (dynamicStateEnables s)
    (bindingDescriptions s) v (viewports s) (scissors s).

Definition with_viewports (s : GraphicsPipelineState) (v : list VkViewport)
  : GraphicsPipelineState :=
  MkGraphicsPipelineState
    (inputAssemblyState s) (rasterizationState s) (multisampleState s)
    (depthStencilState s) (viewportState s) (dynamicState s) (colorBlendState s)
    (vertexInputState s) (blendAttachmentStates s) (dynamicStateEnables s)
    (bindingDescriptions s) (attributeDescriptions s) v (scissors s).

Definition with_scissors (s : GraphicsPipelineState) (v : list VkRect2D)
  : GraphicsPipelineState :=
  MkGraphicsPipelineState
    (inputAssemblyState s) (rasterizationState s) (multisampleState s)
    (depthStencilState s) (viewportState s) (dynamicState s) (colorBlendState s)
    (vertexInputState s) (blendAttachmentStates s) (dynamicStateEnables s)
    (bindingDescriptions s) (attributeDescriptions s) (viewports s) v.

Definition with_pSampleMask (s : GraphicsPipelineState) (p : pointer)
  : GraphicsPipelineState :=
  let m := multisampleState s in
  MkGraphicsPipelineState
    (inputAssemblyState s) (rasterizationState s)
    (MkMultisample (ms_sType m) (ms_flags m) (rasterizationSamples m)
                   (sampleShadingEnable m) (minSampleShading m) p
                   (alphaToCoverageEnable m) (alphaToOneEnable m))
    (depthStencilState s) (viewportState s) (dynamicState s) (colorBlendState s)
    (vertexInputState s) (blendAttachmentStates s) (dynamicStateEnables s)
    (bindingDescriptions s) (attributeDescriptions s) (viewports s) (scissors s).

End PipelineStructures.

Module GraphicsPipelineState.
Section WithKernel.
Context {K : Kernel} {H : VulkanHeader}.

Definition makePipelineColorBlendAttachmentState
  (colorWriteMask_ blendEnable_ srcColorBlendFactor_ dstColorBlendFactor_
   colorBlendOp_ srcAlphaBlendFactor_ dstAlphaBlendFactor_ alphaBlendOp_ : Z)
  : VkPipelineColorBlendAttachmentState :=
  {| blendEnable := blendEnable_;
     srcColorBlendFactor := srcColorBlendFactor_;
     dstColorBlendFactor := dstColorBlendFactor_;
     colorBlendOp := colorBlendOp_;
     srcAlphaBlendFactor := srcAlphaBlendFactor_;
     dstAlphaBlendFactor := dstAlphaBlendFactor_;
     alphaBlendOp := alphaBlendOp_;
     colorWriteMask := colorWriteMask_ |}.

(** [makePipelineColorBlendAttachmentState()], every argument defaulted. *)
Definition default_blendAttachment : VkPipelineColorBlendAttachmentState :=
  makePipelineColorBlendAttachmentState
    (Z.lor (Z.lor (Z.lor VK_COLOR_COMPONENT_R_BIT VK_COLOR_COMPONENT_G_BIT)
                  VK_COLOR_COMPONENT_B_BIT)
           VK_COLOR_COMPONENT_A_BIT)
    0 VK_BLEND_FACTOR_ZERO VK_BLEND_FACTOR_ZERO VK_BLEND_OP_ADD
    VK_BLEND_FACTOR_ZERO VK_BLEND_FACTOR_ZERO VK_BLEND_OP_ADD.

Definition makeVertexInputBinding (binding stride rate : Z)
  : VkVertexInputBindingDescription :=
  {| vb_binding := binding; vb_stride := stride; vb_inputRate := rate |}.

Definition makeVertexInputAttribute (location binding format offset : Z)
  : VkVertexInputAttributeDescription :=
  {| va_location := location; va_binding := binding; va_format := format;
     va_offset := offset |}.

(** The constructor, after the default member initializers: each
    structure with its [sType] and zeros, one default blend attachment,
    the two dynamic states, the other vectors empty. *)
Definition new : GraphicsPipelineState :=
  {| inputAssemblyState :=
       {| ia_sType := VK_STRUCTURE_TYPE_PIPELINE_INPUT_ASSEMBLY_STATE_CREATE_INFO;
          ia_flags := 0;
          topology := VK_PRIMITIVE_TOPOLOGY_TRIANGLE_LIST;
          primitiveRestartEnable := 0 |};
     rasterizationState :=
       {| rs_sType := VK_STRUCTURE_TYPE_PIPELINE_RASTERIZATION_STATE_CREATE_INFO;
          rs_flags := 0;
          depthClampEnable := 0;
          rasterizerDiscardEnable := 0;
          polygonMode := VK_POLYGON_MODE_FILL;
          cullMode := VK_CULL_MODE_BACK_BIT;
          frontFace := VK_FRONT_FACE_COUNTER_CLOCKWISE;
          depthBiasEnable := 0;
          depthBiasConstantFactor := lit 0;
          depthBiasClamp := lit 0;
          depthBiasSlopeFactor := lit 0;
          lineWidth := lit 1 |};
     multisampleState :=
       {| ms_sType := VK_STRUCTURE_TYPE_PIPELINE_MULTISAMPLE_STATE_CREATE_INFO;
          ms_flags := 0;
          rasterizationSamples := VK_SAMPLE_COUNT_1_BIT;
          sampleShadingEnable := 0;
          minSampleShading := lit 0;
          pSampleMask := nullptr;
          alphaToCoverageEnable := 0;
          alphaToOneEnable := 0 |};
     depthStencilState :=
       {| ds_sType := VK_STRUCTURE_TYPE_PIPELINE_DEPTH_STENCIL_STATE_CREATE_INFO;
          ds_flags := 0;
          depthTestEnable := VK_TRUE;
          depthWriteEnable := VK_TRUE;
          depthCompareOp := VK_COMPARE_OP_LESS_OR_EQUAL;
          depthBoundsTestEnable := 0;
          stencilTestEnable := 0;
          front := MkStencilOpState 0 0 0 0 0 0 0;
          back := MkStencilOpState 0 0 0 0 0 0 0;
          minDepthBounds := lit 0;
          maxDepthBounds := lit 0 |};
     viewportState :=
       {| vs_sType := VK_STRUCTURE_TYPE_PIPELINE_VIEWPORT_STATE_CREATE_INFO;
          vs_flags := 0;
          viewportCount := 0;
          pViewports := nullptr;
          scissorCount := 0;
          pScissors := nullptr |};
     dynamicState :=
       {| dy_sType := VK_STRUCTURE_TYPE_PIPELINE_DYNAMIC_STATE_CREATE_INFO;
          dy_flags := 0;
          dynamicStateCount := 0;
          pDynamicStates := nullptr |};
     colorBlendState :=
       {| cb_sType := VK_STRUCTURE_TYPE_PIPELINE_COLOR_BLEND_STATE_CREATE_INFO;
          cb_flags := 0;
          logicOpEnable := 0;
          logicOp := VK_LOGIC_OP_CLEAR;
          attachmentCount := 0;
          pAttachments := nullptr;
          blendConstants := [lit 0; lit 0; lit 0; lit 0] |};
     vertexInputState :=
       {| vi_sType := VK_STRUCTURE_TYPE_PIPELINE_VERTEX_INPUT_STATE_CREATE_INFO;
          vi_flags := 0;
          vertexBindingDescriptionCount := 0;
          pVertexBindingDescriptions := nullptr;
          vertexAttributeDescriptionCount := 0;
          pVertexAttributeDescriptions := nullptr |};
     blendAttachmentStates := [default_blendAttachment];
     dynamicStateEnables := [VK_DYNAMIC_STATE_VIEWPORT; VK_DYNAMIC_STATE_SCISSOR];
     bindingDescriptions := [];
     attributeDescriptions := [];
     viewports := [];
     scissors := [] |}.

(** [update]: the counts and pointers of the structures are set from the
    vectors; one viewport and one scissor are announced, with no array,
    when there is none. *)
Definition update (s : GraphicsPipelineState) : GraphicsPipelineState :=
  {| inputAssemblyState := inputAssemblyState s;
     rasterizationState := rasterizationState s;
     multisampleState := multisampleState s;
     depthStencilState := depthStencilState s;
     viewportState :=
       {| vs_sType := vs_sType (viewportState s);
          vs_flags := vs_flags (viewportState s);
          viewportCount :=
            match viewports s with [] => 1 | _ => size32 (viewports s) end;
          pViewports := match viewports s with [] => nullptr | _ => data end;
          scissorCount :=
            match scissors s with [] => 1 | _ => size32 (scissors s) end;
          pScissors := match scissors s with [] => nullptr | _ => data end |};
     dynamicState :=
       {| dy_sType := dy_sType (dynamicState s);
          dy_flags := dy_flags (dynamicState s);
          dynamicStateCount := size32 (dynamicStateEnables s);
          pDynamicStates := data |};
     colorBlendState :=
       {| cb_sType := cb_sType (colorBlendState s);
          cb_flags := cb_flags (colorBlendState s);
          logicOpEnable := logicOpEnable (colorBlendState s);
          logicOp := logicOp (colorBlendState s);
          attachmentCount := size32 (blendAttachmentStates s);
          pAttachments := data;
          blendConstants := blendConstants (colorBlendState s) |};
     vertexInputState :=
       {| vi_sType := vi_sType (vertexInputState s);
          vi_flags := vi_flags (vertexInputState s);
          vertexBindingDescriptionCount := size32 (bindingDescriptions s);
          pVertexBindingDescriptions := data;
          vertexAttributeDescriptionCount := size32 (attributeDescriptions s);
          pVertexAttributeDescriptions := data |};
     blendAttachmentStates := blendAttachmentStates s;
     dynamicStateEnables := dynamicStateEnables s;
     bindingDescriptions := bindingDescriptions s;
     attributeDescriptions := attributeDescriptions s;
     viewports := viewports s;
     scissors := scissors s |}.

(** The body the six setters share:
    [assert(i < v.size()); if (i <= v.size()) v[i] = a;]. *)
Definition guarded_set {A : Type} (NDEBUG : bool) (v : list A) (i : Z) (a : A)
  : asserted (list A) :=
  if negb NDEBUG && negb (i <? Z.of_nat (length v)) then Aborted
  else Continues
         (if i <=? Z.of_nat (length v)
          then _ <- at_index v (Z.to_nat i) ;; Ok (set_index v (Z.to_nat i) a)
          else Ok v).

(** The member a setter has written, put back in the object. *)
Definition stored {A B : Type} (store : A -> B) (r : asserted A) : asserted B :=
  match r with
  | Aborted => Aborted
  | Continues (Ok a) => Continues (Ok (store a))
  | Continues (Fault f) => Continues (Fault f)
  end.

(** [v.push_back(a); return (uint32_t)(v.size() - 1);]. *)
Definition pushed {A : Type} (v : list A) (a : A) : Z * list A :=
  (u32 (Z.of_nat (length (v ++ [a])) - 1), v ++ [a]).

Definition clearBlendAttachmentStates (s : GraphicsPipelineState) :=
  with_blendAttachmentStates s [].
Definition setBlendAttachmentCount (s : GraphicsPipelineState)
  (attachmentCount : Z) :=
  with_blendAttachmentStates s
    (resize zero_blendAttachment attachmentCount (blendAttachmentStates s)).
Definition setBlendAttachmentState (NDEBUG : bool) (s : GraphicsPipelineState)
  (attachment : Z) (blendState : VkPipelineColorBlendAttachmentState) :=
  stored (with_blendAttachmentStates s)
         (guarded_set NDEBUG (blendAttachmentStates s) attachment blendState).
Definition addBlendAttachmentState (s : GraphicsPipelineState)
  (blendState : VkPipelineColorBlendAttachmentState) :=
  let (index, v) := pushed (blendAttachmentStates s) blendState in
  (index, with_blendAttachmentStates s v).

Definition clearDynamicStateEnables (s : GraphicsPipelineState) :=
  with_dynamicStateEnables s [].
Definition setDynamicStateEnablesCount (s : GraphicsPipelineState)
  (dynamicStateCount : Z) :=
  with_dynamicStateEnables s (resize 0 dynamicStateCount (dynamicStateEnables s)).
Definition setDynamicStateEnable (NDEBUG : bool) (s : GraphicsPipelineState)
  (state dynamicState : Z) :=
  stored (with_dynamicStateEnables s)
         (guarded_set NDEBUG (dynamicStateEnables s) state dynamicState).
Definition addDynamicStateEnable (s : GraphicsPipelineState) (dynamicState : Z) :=
  let (index, v) := pushed (dynamicStateEnables s) dynamicState in
  (index, with_dynamicStateEnables s v).

Definition clearBindingDescriptions (s : GraphicsPipelineState) :=
  with_bindingDescriptions s [].
Definition setBindingDescriptionsCount (s : GraphicsPipelineState)
  (bindingDescriptionCount : Z) :=
  with_bindingDescriptions s
    (resize zero_binding bindingDescriptionCount (bindingDescriptions s)).
Definition setBindingDescription (NDEBUG : bool) (s : GraphicsPipelineState)
  (binding : Z) (bindingDescription : VkVertexInputBindingDescription) :=
  stored (with_bindingDescriptions s)
         (guarded_set NDEBUG (bindingDescriptions s) binding bindingDescription).
Definition addBindingDescription (s : GraphicsPipelineState)
  (bindingDescription : VkVertexInputBindingDescription) :=
  let (index, v) := pushed (bindingDescriptions s) bindingDescription in
  (index, with_bindingDescriptions s v).
Definition addBindingDescriptions (s : GraphicsPipelineState)
  (bindingDescriptions_ : list VkVertexInputBindingDescription) :=
  with_bindingDescriptions s (bindingDescriptions s ++ bindingDescriptions_).

Definition clearAttributeDescriptions (s : GraphicsPipelineState) :=
  with_attributeDescriptions s [].
Definition setAttributeDescriptionsCount (s : GraphicsPipelineState)
  (attributeDescriptionCount : Z) :=
  with_attributeDescriptions s
    (resize zero_attribute attributeDescriptionCount (attributeDescriptions s)).
Definition setAttributeDescription (NDEBUG : bool) (s : GraphicsPipelineState)
  (attribute : Z) (attributeDescription : VkVertexInputAttributeDescription) :=
  stored (with_attributeDescriptions s)
         (guarded_set NDEBUG (attributeDescriptions s) attribute
                      attributeDescription).
Definition addAttributeDescription (s : GraphicsPipelineState)
  (attributeDescription : VkVertexInputAttributeDescription) :=
  let (index, v) := pushed (attributeDescriptions s) attributeDescription in
  (index, with_attributeDescriptions s v).
Definition addAttributeDescriptions (s : GraphicsPipelineState)
  (attributeDescriptions_ : list VkVertexInputAttributeDescription) :=
  with_attributeDescriptions s (attributeDescriptions s ++ attributeDescriptions_).

Definition clearViewports (s : GraphicsPipelineState) := with_viewports s [].
Definition setViewportsCount (s : GraphicsPipelineState) (viewportCount : Z) :=
  with_viewports s (resize zero_viewport viewportCount (viewports s)).
Definition setViewport (NDEBUG : bool) (s : GraphicsPipelineState)
  (attribute : Z) (viewport : VkViewport) :=
  stored (with_viewports s) (guarded_set NDEBUG (viewports s) attribute viewport).
Definition addViewport (s : GraphicsPipelineState) (viewport : VkViewport) :=
  let (index, v) := pushed (viewports s) viewport in
  (index, with_viewports s v).

Definition clearScissors (s : GraphicsPipelineState) := with_scissors s [].
Definition setScissorsCount (s : GraphicsPipelineState) (scissorCount : Z) :=
  with_scissors s (resize zero_rect scissorCount (scissors s)).
Definition setScissor (NDEBUG : bool) (s : GraphicsPipelineState)
  (attribute : Z) (scissor : VkRect2D) :=
  stored (with_scissors s) (guarded_set NDEBUG (scissors s) attribute scissor).
Definition addScissor (s : GraphicsPipelineState) (scissor : VkRect2D) :=
  let (index, v) := pushed (scissors s) scissor in
  (index, with_scissors s v).

End WithKernel.
End GraphicsPipelineState.

(** ** GraphicShaderObjectPipeline *)

Record GraphicShaderObjectPipeline {K : Kernel} : Type := MkShaderObjectPipeline {
  state : GraphicsPipelineState;
  sampleMask : Z;
  vertexBindingDescriptions2 : list VkVertexInputBindingDescription2EXT;
  colorBlendEquationState : list VkColorBlendEquationEXT;
  colorBlendEnables : list Z;
  colorWriteMasks : list Z;
  vertexAttributeDescriptions2 : list VkVertexInputAttributeDescription2EXT
}.

(** [p[i]] for a pointer member [p] that, when not null, is the [data()]
    of [member]. *)
Definition read {A : Type} (p : pointer) (member : list A) (i : Z) : result A :=
  match p with
  | nullptr => Fault OutOfRange
  | data => at_index member (Z.to_nat i)
  end.

Module GraphicShaderObjectPipeline.
Section WithKernel.
Context {K : Kernel} {H : VulkanHeader}.

(** The constructor: the base class, then [viewports.resize(1)] and
    [scissors.resize(1)]; [sampleMask{~0U}]. *)
Definition new : GraphicShaderObjectPipeline :=
  let s := GraphicsPipelineState.new in
  let s := with_viewports s (resize zero_viewport 1 (viewports s)) in
  let s := with_scissors s (resize zero_rect 1 (scissors s)) in
  {| state := s;
     sampleMask := 2 ^ 32 - 1;
     vertexBindingDescriptions2 := [];
     colorBlendEquationState := [];
     colorBlendEnables := [];
     colorWriteMasks := [];
     vertexAttributeDescriptions2 := [] |}.

Definition with_state (p : GraphicShaderObjectPipeline)
  (s : GraphicsPipelineState) : GraphicShaderObjectPipeline :=
  {| state := s;
     sampleMask := sampleMask p;
     vertexBindingDescriptions2 := vertexBindingDescriptions2 p;
     colorBlendEquationState := colorBlendEquationState p;
     colorBlendEnables := colorBlendEnables p;
     colorWriteMasks := colorWriteMasks p;
     vertexAttributeDescriptions2 := vertexAttributeDescriptions2 p |}.

(** [setViewportScissor]: every member of [viewports[0]], then of
    [scissors[0]], is assigned; both elements have to exist. *)
Definition setViewportScissor (p : GraphicShaderObjectPipeline)
  (extent : VkExtent2D) : result GraphicShaderObjectPipeline :=
  let s := state p in
  _ <- at_index (viewports s) 0 ;;
  let s := with_viewports s
             (set_index (viewports s) 0
                {| vp_x := of_int 0;
                   vp_y := of_int 0;
                   vp_width := of_int (ext_width extent);
                   vp_height := of_int (ext_height extent);
                   vp_minDepth := of_int 0;
                   vp_maxDepth := of_int 1 |}) in
  _ <- at_index (scissors s) 0 ;;
  let s := with_scissors s
             (set_index (scissors s) 0
                {| rect_offset := MkOffset2D 0 0; rect_extent := extent |}) in
  Ok (with_state p s).

(** What the first loop of [update] leaves in
    [vertexBindingDescriptions2[i]] for the source element [src]. *)
Definition binding2_of (src : VkVertexInputBindingDescription)
  : VkVertexInputBindingDescription2EXT :=
  {| vb2_sType := VK_STRUCTURE_TYPE_VERTEX_INPUT_BINDING_DESCRIPTION_2_EXT;
     vb2_binding := vb_binding src;
     vb2_stride := vb_stride src;
     vb2_inputRate := vb_inputRate src;
     vb2_divisor := 1 |}.

Definition attribute2_of (src : VkVertexInputAttributeDescription)
  : VkVertexInputAttributeDescription2EXT :=
  {| va2_sType := VK_STRUCTURE_TYPE_VERTEX_INPUT_ATTRIBUTE_DESCRIPTION_2_EXT;
     va2_location := va_location src;
     va2_binding := va_binding src;
     va2_format := va_format src;
     va2_offset := va_offset src |}.

Definition blendEquation_of (src : VkPipelineColorBlendAttachmentState)
  : VkColorBlendEquationEXT :=
  {| eq_srcColorBlendFactor := srcColorBlendFactor src;
     eq_dstColorBlendFactor := dstColorBlendFactor src;
     eq_colorBlendOp := colorBlendOp src;
     eq_srcAlphaBlendFactor := srcAlphaBlendFactor src;
     eq_dstAlphaBlendFactor := dstAlphaBlendFactor src;
     eq_alphaBlendOp := alphaBlendOp src |}.

(** A loop [for (uint32_t i = 0; i < count; i++) dst[i] = f(p[i])], every
    member of [dst[i]] being assigned from [p[i]]. *)
Definition copy_loop {A B : Type} (f : A -> B) (p : pointer) (member : list A)
  (count : Z) (dst : list B) : result (list B) :=
  foldM (fun dst i =>
           _ <- at_index dst (Z.to_nat i) ;;
           src <- read p member i ;;
           Ok (set_index dst (Z.to_nat i) (f src)))
        (range count) dst.

(** [update]: the base class's [update], then the arrays of the dynamic
    state are resized to the counts it has set and filled through the
    pointers it has set. *)
Definition update (p : GraphicShaderObjectPipeline)
  : result GraphicShaderObjectPipeline :=
  let s := with_pSampleMask (GraphicsPipelineState.update (state p)) data in
  let vi := vertexInputState s in
  let cb := colorBlendState s in
  bindings2 <- copy_loop binding2_of (pVertexBindingDescriptions vi)
                 (bindingDescriptions s) (vertexBindingDescriptionCount vi)
                 (resize zero_binding2 (vertexBindingDescriptionCount vi)
                         (vertexBindingDescriptions2 p)) ;;
  attributes2 <- copy_loop attribute2_of (pVertexAttributeDescriptions vi)
                   (attributeDescriptions s) (vertexAttributeDescriptionCount vi)
                   (resize zero_attribute2 (vertexAttributeDescriptionCount vi)
                           (vertexAttributeDescriptions2 p)) ;;
  blend <- foldM (fun (dst : list VkColorBlendEquationEXT * list Z * list Z) i =>
                    let '(equations, enables, masks) := dst in
                    _ <- at_index equations (Z.to_nat i) ;;
                    src <- read (pAttachments cb) (blendAttachmentStates s) i ;;
                    _ <- at_index enables (Z.to_nat i) ;;
                    _ <- at_index masks (Z.to_nat i) ;;
                    Ok (set_index equations (Z.to_nat i) (blendEquation_of src),
                        set_index enables (Z.to_nat i) (blendEnable src),
                        set_index masks (Z.to_nat i) (colorWriteMask src)))
                 (range (attachmentCount cb))
                 (resize zero_blendEquation (attachmentCount cb)
                         (colorBlendEquationState p),
                  resize 0 (attachmentCount cb) (colorBlendEnables p),
                  resize 0 (attachmentCount cb) (colorWriteMasks p)) ;;
  let '(equations, enables, masks) := blend in
  Ok {| state := s;
        sampleMask := sampleMask p;
        vertexBindingDescriptions2 := bindings2;
        colorBlendEquationState := equations;
        colorBlendEnables := enables;
        colorWriteMasks := masks;
        vertexAttributeDescriptions2 := attributes2 |}.

End WithKernel.
End GraphicShaderObjectPipeline.

(** ** Properties of the pipeline state *)

Section PipelineProperties.
Context {St A : Type}.

(** A setter [set] of the member vector [member], put back by [store]:
    below the size it assigns the element; at the size its guard lets the
    assignment through, one past the end; above the size it does nothing.
    Without [NDEBUG] the last two abort. *)
Definition off_by_one_guard (set : bool -> St -> Z -> A -> asserted St)
  (member : St -> list A) (store : St -> list A -> St) : Prop :=
  forall (NDEBUG : bool) (s : St) (i : Z) (a : A),
    0 <= i ->
    (i < Z.of_nat (length (member s)) ->
     set NDEBUG s i a
     = Continues (Ok (store s (set_index (member s) (Z.to_nat i) a))))
    /\ (i = Z.of_nat (length (member s)) ->
        set NDEBUG s i a
        = if NDEBUG then Continues (Fault OutOfRange) else Aborted)
    /\ (Z.of_nat (length (member s)) < i ->
        set NDEBUG s i a = if NDEBUG then Continues (Ok s) else Aborted).

(** An adder [add] of the member vector [member], whose size fits
    [uint32_t]: it pushes the element back and returns its index, at
    which the setter then assigns, in either build. *)
Definition add_returns_index (add : St -> A -> Z * St)
  (set : bool -> St -> Z -> A -> asserted St)
  (member : St -> list A) (store : St -> list A -> St) : Prop :=
  forall (s : St) (a : A),
    Z.of_nat (length (member s)) < 2 ^ 32 ->
    fst (add s a) = Z.of_nat (length (member s))
    /\ snd (add s a) = store s (member s ++ [a])
    /\ member (snd (add s a)) = member s ++ [a]
    /\ forall (NDEBUG : bool) (b : A),
         set NDEBUG (snd (add s a)) (fst (add s a)) b
         = Continues (Ok (store s (member s ++ [b]))).

End PipelineProperties.

Section PipelineClosedForms.
Context {K : Kernel} {H : VulkanHeader}.

(** What [GraphicShaderObjectPipeline::update] leaves, in closed form:
    the arrays are the images of the first [count] elements of the
    vectors, [count] being the size converted to [uint32_t]. *)
Definition updated (p : GraphicShaderObjectPipeline) : GraphicShaderObjectPipeline :=
  let s := state p in
  let attachments :=
    firstn (Z.to_nat (size32 (blendAttachmentStates s))) (blendAttachmentStates s) in
  {| state := with_pSampleMask (GraphicsPipelineState.update s) data;
     sampleMask := sampleMask p;
     vertexBindingDescriptions2 :=
       map GraphicShaderObjectPipeline.binding2_of
           (firstn (Z.to_nat (size32 (bindingDescriptions s)))
                   (bindingDescriptions s));
     colorBlendEquationState :=
       map GraphicShaderObjectPipeline.blendEquation_of attachments;
     colorBlendEnables := map blendEnable attachments;
     colorWriteMasks := map colorWriteMask attachments;
     vertexAttributeDescriptions2 :=
       map GraphicShaderObjectPipeline.attribute2_of
           (firstn (Z.to_nat (size32 (attributeDescriptions s)))
                   (attributeDescriptions s)) |}.

(** The viewport and the scissor [setViewportScissor] assigns. *)
Definition full_viewport (extent : VkExtent2D) : VkViewport :=
  {| vp_x := of_int 0;
     vp_y := of_int 0;
     vp_width := of_int (ext_width extent);
     vp_height := of_int (ext_height extent);
     vp_minDepth := of_int 0;
     vp_maxDepth := of_int 1 |}.

Definition full_scissor (extent : VkExtent2D) : VkRect2D :=
  {| rect_offset := MkOffset2D 0 0; rect_extent := extent |}.

(** Reading [count] elements through the pointer [p] into [member] stays
    in the vector and gives its elements. *)
Definition readable {A : Type} (count : Z) (p : pointer) (member : list A) : Prop :=
  forall i, 0 <= i < count ->
    exists a, read p member i = Ok a /\ nth_error member (Z.to_nat i) = Some a.

End PipelineClosedForms.

(** The values [vulkan_core.h] gives the enumerators, to run the pipeline
    state on. *)
Definition vulkan_core : VulkanHeader :=
  {| VK_TRUE := 1;
     VK_POLYGON_MODE_FILL := 0;
     VK_CULL_MODE_BACK_BIT := 2;
     VK_FRONT_FACE_COUNTER_CLOCKWISE := 0;
     VK_PRIMITIVE_TOPOLOGY_TRIANGLE_LIST := 3;
     VK_LOGIC_OP_CLEAR := 0;
     VK_COMPARE_OP_LESS_OR_EQUAL := 3;
     VK_SAMPLE_COUNT_1_BIT := 1;
     VK_COLOR_COMPONENT_R_BIT := 1;
     VK_COLOR_COMPONENT_G_BIT := 2;
     VK_COLOR_COMPONENT_B_BIT := 4;
     VK_COLOR_COMPONENT_A_BIT := 8;
     VK_BLEND_FACTOR_ZERO := 0;
     VK_BLEND_OP_ADD := 0;
     VK_VERTEX_INPUT_RATE_VERTEX := 0;
     VK_DYNAMIC_STATE_VIEWPORT := 0;
     VK_DYNAMIC_STATE_SCISSOR := 1;
     VK_STRUCTURE_TYPE_PIPELINE_INPUT_ASSEMBLY_STATE_CREATE_INFO := 20;
     VK_STRUCTURE_TYPE_PIPELINE_RASTERIZATION_STATE_CREATE_INFO := 23;
     VK_STRUCTURE_TYPE_PIPELINE_MULTISAMPLE_STATE_CREATE_INFO := 24;
     VK_STRUCTURE_TYPE_PIPELINE_DEPTH_STENCIL_STATE_CREATE_INFO := 25;
     VK_STRUCTURE_TYPE_PIPELINE_VIEWPORT_STATE_CREATE_INFO := 22;
     VK_STRUCTURE_TYPE_PIPELINE_DYNAMIC_STATE_CREATE_INFO := 27;
     VK_STRUCTURE_TYPE_PIPELINE_COLOR_BLEND_STATE_CREATE_INFO := 26;
     VK_STRUCTURE_TYPE_PIPELINE_VERTEX_INPUT_STATE_CREATE_INFO := 19;
     VK_STRUCTURE_TYPE_VERTEX_INPUT_BINDING_DESCRIPTION_2_EXT := 1000352001;
     VK_STRUCTURE_TYPE_VERTEX_INPUT_ATTRIBUTE_DESCRIPTION_2_EXT := 1000352002;
     VK_STRUCTURE_TYPE_SHADER_MODULE_CREATE_INFO := 16;
     VK_STRUCTURE_TYPE_PIPELINE_SHADER_STAGE_CREATE_INFO := 18;
     VK_STRUCTURE_TYPE_GRAPHICS_PIPELINE_CREATE_INFO := 28;
     VK_STRUCTURE_TYPE_PIPELINE_RENDERING_CREATE_INFO := 1000044002;
     VK_NULL_HANDLE := 0 |}.

(** * nvvk: the graphics pipeline generator

    [nvvk::GraphicsPipelineGenerator]: its shader stages, the shader
    modules it creates and destroys, and the creation of the pipeline.
    The calls into the Vulkan library are the entries of a log, in the
    order they are made; the handle a creating call stores is a value
    the caller of the model supplies. The generator refers to a pipeline
    state that is not part of it: the functions that use it take it and
    return it. A pointer of [createInfo] that is [data] is the address
    [init] or [update] has stored: of the structure of that name in the
    pipeline state, or [shaderStages.data()]. [device] has no value until
    a constructor or [setDevice] gives it one. The copy constructor, the
    assignment and the functions of dynamic rendering are not part of the
    model. *)

Record VkPipelineShaderStageCreateInfo : Type := MkShaderStage {
  ss_sType : Z;
  ss_flags : Z;
  ss_stage : Z;
  ss_module : Z;
  ss_pName : String.string
}.

Record VkGraphicsPipelineCreateInfo : Type := MkGraphicsPipelineCreateInfo {
  gp_sType : Z;
  gp_pNext : pointer;
  gp_flags : Z;
  stageCount : Z;
  pStages : pointer;
  pVertexInputState : pointer;
  pInputAssemblyState : pointer;
  pTessellationState : pointer;
  pViewportState : pointer;
  pRasterizationState : pointer;
  pMultisampleState : pointer;
  pDepthStencilState : pointer;
  pColorBlendState : pointer;
  pDynamicState : pointer;
  layout : Z;
  renderPass : Z;
  subpass : Z;
  basePipelineHandle : Z;
  basePipelineIndex : Z
}.

Record VkPipelineRenderingCreateInfo : Type := MkPipelineRendering {
  pr_sType : Z;
  viewMask : Z;
  colorAttachmentCount : Z;
  pColorAttachmentFormats : pointer;
  depthAttachmentFormat : Z;
  stencilAttachmentFormat : Z
}.

Record GraphicsPipelineGenerator : Type := MkGraphicsPipelineGenerator {
  createInfo : VkGraphicsPipelineCreateInfo;
  device : option Z;
  pipelineCache : Z;
  shaderStages : list VkPipelineShaderStageCreateInfo;
  temporaryModules : list Z;
  dynamicRenderingColorFormats : list Z;
  dynamicRenderingInfo : VkPipelineRenderingCreateInfo
}.

(** The calls into the Vulkan library, with the arguments that are not
    constant. *)
Inductive call : Type :=
| vkCreateShaderModule (device_ sType codeSize : Z)
| vkDestroyShaderModule (device_ shaderModule : Z)
| vkCreateGraphicsPipelines (device_ cache : Z)
    (createInfo_ : VkGraphicsPipelineCreateInfo).

(** A call that reads a member: [Indeterminate] when the member has no
    value yet. *)
Inductive reading (A : Type) : Type :=
| Determined (a : A)
| Indeterminate.
Arguments Determined {A} a.
Arguments Indeterminate {A}.

Definition with_createInfo (g : GraphicsPipelineGenerator)
  (c : VkGraphicsPipelineCreateInfo) : GraphicsPipelineGenerator :=
  MkGraphicsPipelineGenerator c (device g) (pipelineCache g) (shaderStages g)
    (temporaryModules g) (dynamicRenderingColorFormats g)
    (dynamicRenderingInfo g).

Definition with_device (g : GraphicsPipelineGenerator) (d : option Z)
  : GraphicsPipelineGenerator :=
  MkGraphicsPipelineGenerator (createInfo g) d (pipelineCache g) (shaderStages g)
    (temporaryModules g) (dynamicRenderingColorFormats g)
    (dynamicRenderingInfo g).

Definition with_shaderStages (g : GraphicsPipelineGenerator)
  (v : list VkPipelineShaderStageCreateInfo) : GraphicsPipelineGenerator :=
  MkGraphicsPipelineGenerator (createInfo g) (device g) (pipelineCache g) v
    (temporaryModules g) (dynamicRenderingColorFormats g)
    (dynamicRenderingInfo g).

Definition with_temporaryModules (g : GraphicsPipelineGenerator) (v : list Z)
  : GraphicsPipelineGenerator :=
  MkGraphicsPipelineGenerator (createInfo g) (device g) (pipelineCache g)
    (shaderStages g) v (dynamicRenderingColorFormats g)
    (dynamicRenderingInfo g).

Module GraphicsPipelineGenerator.
Section WithKernel.
Context {K : Kernel} {H : VulkanHeader}.

(** [init]: the eight pointers to the structures of the pipeline state. *)
Definition init (g : GraphicsPipelineGenerator) : GraphicsPipelineGenerator :=
  let c := createInfo g in
  with_createInfo g
    {| gp_sType := gp_sType c;
       gp_pNext := gp_pNext c;
       gp_flags := gp_flags c;
       stageCount := stageCount c;
       pStages := pStages c;
       pVertexInputState := data;
       pInputAssemblyState := data;
       pTessellationState := pTessellationState c;
       pViewportState := data;
       pRasterizationState := data;
       pMultisampleState := data;
       pDepthStencilState := data;
       pColorBlendState := data;
       pDynamicState := data;
       layout := layout c;
       renderPass := renderPass c;
       subpass := subpass c;
       basePipelineHandle := basePipelineHandle c;
       basePipelineIndex := basePipelineIndex c |}.

(** The members as their initializers leave them, [device] with the
    value the constructor gives it, if any, and the layout and the render
    pass it assigns. *)
Definition constructed (device_ : option Z) (layout_ renderPass_ : Z)
  : GraphicsPipelineGenerator :=
  init
    {| createInfo :=
         {| gp_sType := VK_STRUCTURE_TYPE_GRAPHICS_PIPELINE_CREATE_INFO;
            gp_pNext := nullptr;
            gp_flags := 0;
            stageCount := 0;
            pStages := nullptr;
            pVertexInputState := nullptr;
            pInputAssemblyState := nullptr;
            pTessellationState := nullptr;
            pViewportState := nullptr;
            pRasterizationState := nullptr;
            pMultisampleState := nullptr;
            pDepthStencilState := nullptr;
            pColorBlendState := nullptr;
            pDynamicState := nullptr;
            layout := layout_;
            renderPass := renderPass_;
            subpass := 0;
            basePipelineHandle := VK_NULL_HANDLE;
            basePipelineIndex := 0 |};
       device := device_;
       pipelineCache := VK_NULL_HANDLE;
       shaderStages := [];
       temporaryModules := [];
       dynamicRenderingColorFormats := [];
       dynamicRenderingInfo :=
         {| pr_sType := VK_STRUCTURE_TYPE_PIPELINE_RENDERING_CREATE_INFO;
            viewMask := 0;
            colorAttachmentCount := 0;
            pColorAttachmentFormats := nullptr;
            depthAttachmentFormat := 0;
            stencilAttachmentFormat := 0 |} |}.

(** [GraphicsPipelineGenerator(pipelineState_)]: [device] is given no
    value, [layout] and [renderPass] stay null. *)
Definition new_of_state : GraphicsPipelineGenerator :=
  constructed None VK_NULL_HANDLE VK_NULL_HANDLE.

(** [GraphicsPipelineGenerator(device_, layout, renderPass, pipelineState_)]. *)
Definition new (device_ layout_ renderPass_ : Z) : GraphicsPipelineGenerator :=
  constructed (Some device_) layout_ renderPass_.

Definition setDevice (g : GraphicsPipelineGenerator) (device_ : Z)
  : GraphicsPipelineGenerator :=
  with_device g (Some device_).

Definition setRenderPass (g : GraphicsPipelineGenerator) (renderPass_ : Z)
  : GraphicsPipelineGenerator :=
  let c := createInfo g in
  with_createInfo g
    (MkGraphicsPipelineCreateInfo (gp_sType c) nullptr (gp_flags c) (stageCount c)
       (pStages c) (pVertexInputState c) (pInputAssemblyState c)
       (pTessellationState c) (pViewportState c) (pRasterizationState c)
       (pMultisampleState c) (pDepthStencilState c) (pColorBlendState c)
       (pDynamicState c) (layout c) renderPass_ (subpass c)
       (basePipelineHandle c) (basePipelineIndex c)).

Definition setLayout (g : GraphicsPipelineGenerator) (layout_ : Z)
  : GraphicsPipelineGenerator :=
  let c := createInfo g in
  with_createInfo g
    (MkGraphicsPipelineCreateInfo (gp_sType c) (gp_pNext c) (gp_flags c)
       (stageCount c) (pStages c) (pVertexInputState c) (pInputAssemblyState c)
       (pTessellationState c) (pViewportState c) (pRasterizationState c)
       (pMultisampleState c) (pDepthStencilState c) (pColorBlendState c)
       (pDynamicState c) layout_ (renderPass c) (subpass c)
       (basePipelineHandle c) (basePipelineIndex c)).

(** [addShader(shaderModule, stage, entryPoint)]: the stage it pushes
    back, to which it returns a reference. *)
Definition addShader (g : GraphicsPipelineGenerator) (shaderModule stage : Z)
  (entryPoint : String.string)
  : VkPipelineShaderStageCreateInfo * GraphicsPipelineGenerator :=
  let shaderStage :=
    {| ss_sType := VK_STRUCTURE_TYPE_PIPELINE_SHADER_STAGE_CREATE_INFO;
       ss_flags := 0;
       ss_stage := stage;
       ss_module := shaderModule;
       ss_pName := entryPoint |} in
  (shaderStage, with_shaderStages g (shaderStages g ++ [shaderStage])).

(** [addShader(code, stage, entryPoint)] for a [std::vector<T>] (and for
    a [std::string], copied into a vector of [char], of size 1):
    [created] is the handle [vkCreateShaderModule] stores. *)
Definition addShader_code {T : Type} (sizeof_T : Z) (created : Z)
  (log : list call) (g : GraphicsPipelineGenerator) (code : list T)
  (stage : Z) (entryPoint : String.string)
  : reading (VkPipelineShaderStageCreateInfo * GraphicsPipelineGenerator
             * list call) :=
  match device g with
  | None => Indeterminate
  | Some d =>
      let codeSize := sizeof_T * Z.of_nat (length code) in
      let log := log ++ [vkCreateShaderModule
                           d VK_STRUCTURE_TYPE_SHADER_MODULE_CREATE_INFO codeSize] in
      let g := with_temporaryModules g (temporaryModules g ++ [created]) in
      Determined (addShader g created stage entryPoint, log)
  end.

(** [destroyShaderModules]: [device] is read in the body of the loop. *)
Definition destroyShaderModules (log : list call) (g : GraphicsPipelineGenerator)
  : reading (GraphicsPipelineGenerator * list call) :=
  match temporaryModules g, device g with
  | [], _ => Determined (with_temporaryModules g [], log)
  | _ :: _, None => Indeterminate
  | _ :: _, Some d =>
      Determined (with_temporaryModules g [],
                  log ++ map (vkDestroyShaderModule d) (temporaryModules g))
  end.

Definition clearShaders (log : list call) (g : GraphicsPipelineGenerator)
  : reading (GraphicsPipelineGenerator * list call) :=
  destroyShaderModules log (with_shaderStages g []).

(** The destructor. *)
Definition destroy (log : list call) (g : GraphicsPipelineGenerator)
  : reading (list call) :=
  match destroyShaderModules log g with
  | Determined (_, log) => Determined log
  | Indeterminate => Indeterminate
  end.

Definition getShaderModule (g : GraphicsPipelineGenerator) (index : Z) : Z :=
  if index <? Z.of_nat (length (shaderStages g))
  then match nth_error (shaderStages g) (Z.to_nat index) with
       | Some shaderStage => ss_module shaderStage
       | None => VK_NULL_HANDLE
       end
  else VK_NULL_HANDLE.

(** [update], on the generator and the pipeline state it refers to. *)
Definition update (g : GraphicsPipelineGenerator) (pipelineState : GraphicsPipelineState)
  : GraphicsPipelineGenerator * GraphicsPipelineState :=
  let c := createInfo g in
  (with_createInfo g
     (MkGraphicsPipelineCreateInfo (gp_sType c) (gp_pNext c) (gp_flags c)
        (size32 (shaderStages g)) data (pVertexInputState c)
        (pInputAssemblyState c) (pTessellationState c) (pViewportState c)
        (pRasterizationState c) (pMultisampleState c) (pDepthStencilState c)
        (pColorBlendState c) (pDynamicState c) (layout c) (renderPass c)
        (subpass c) (basePipelineHandle c) (basePipelineIndex c)),
   GraphicsPipelineState.update pipelineState).

(** [createPipeline(cache)]: [created] is the handle
    [vkCreateGraphicsPipelines] stores, which is returned. *)
Definition createPipeline_with (created : Z) (log : list call)
  (g : GraphicsPipelineGenerator) (pipelineState : GraphicsPipelineState)
  (cache : Z)
  : reading (Z * GraphicsPipelineGenerator * GraphicsPipelineState * list call) :=
  let (g, pipelineState) := update g pipelineState in
  match device g with
  | None => Indeterminate
  | Some d =>
      Determined (created, g, pipelineState,
                  log ++ [vkCreateGraphicsPipelines d cache (createInfo g)])
  end.

(** [createPipeline()]. *)
Definition createPipeline (created : Z) (log : list call)
  (g : GraphicsPipelineGenerator) (pipelineState : GraphicsPipelineState)
  : reading (Z * GraphicsPipelineGenerator * GraphicsPipelineState * list call) :=
  createPipeline_with created log g pipelineState (pipelineCache g).

End WithKernel.
End GraphicsPipelineGenerator.

(** ** Sequences of calls on a generator *)

(** The calls a user makes on a generator after its construction, with
    their arguments; [created] is the handle the Vulkan library stores
    during the call. *)
Inductive operation : Type :=
| AddShaderCode (sizeof_T created : Z) (code : list Z) (stage : Z)
    (entryPoint : String.string)
| AddShader (shaderModule stage : Z) (entryPoint : String.string)
| ClearShaders
| DestroyShaderModules
| SetDevice (device_ : Z)
| SetRenderPass (renderPass_ : Z)
| SetLayout (layout_ : Z)
| Update
| CreatePipelineWith (created cache : Z)
| CreatePipeline (created : Z).

Section GeneratorRuns.
Context {K : Kernel} {H : VulkanHeader}.

(** The generator, the pipeline state it refers to, and the log. *)
Definition generator_state : Type :=
  GraphicsPipelineGenerator * GraphicsPipelineState * list call.

Definition run_operation (st : generator_state) (op : operation)
  : reading generator_state :=
  let '(g, s, log) := st in
  match op with
  | AddShaderCode sizeof_T created code stage entryPoint =>
      match GraphicsPipelineGenerator.addShader_code sizeof_T created log g code
              stage entryPoint with
      | Determined (_, g, log) => Determined (g, s, log)
      | Indeterminate => Indeterminate
      end
  | AddShader shaderModule stage entryPoint =>
      Determined (snd (GraphicsPipelineGenerator.addShader g shaderModule stage
                         entryPoint), s, log)
  | ClearShaders =>
      match GraphicsPipelineGenerator.clearShaders log g with
      | Determined (g, log) => Determined (g, s, log)
      | Indeterminate => Indeterminate
      end
  | DestroyShaderModules =>
      match GraphicsPipelineGenerator.destroyShaderModules log g with
      | Determined (g, log) => Determined (g, s, log)
      | Indeterminate => Indeterminate
      end
  | SetDevice device_ =>
      Determined (GraphicsPipelineGenerator.setDevice g device_, s, log)
  | SetRenderPass renderPass_ =>
      Determined (GraphicsPipelineGenerator.setRenderPass g renderPass_, s, log)
  | SetLayout layout_ =>
      Determined (GraphicsPipelineGenerator.setLayout g layout_, s, log)
  | Update =>
      let (g, s) := GraphicsPipelineGenerator.update g s in Determined (g, s, log)
  | CreatePipelineWith created cache =>
      match GraphicsPipelineGenerator.createPipeline_with created log g s cache with
      | Determined (_, g, s, log) => Determined (g, s, log)
      | Indeterminate => Indeterminate
      end
  | CreatePipeline created =>
      match GraphicsPipelineGenerator.createPipeline created log g s with
      | Determined (_, g, s, log) => Determined (g, s, log)
      | Indeterminate => Indeterminate
      end
  end.

Fixpoint run (ops : list operation) (st : generator_state)
  : reading generator_state :=
  match ops with
  | [] => Determined st
  | op :: ops' =>
      match run_operation st op with
      | Determined st' => run ops' st'
      | Indeterminate => Indeterminate
      end
  end.

End GeneratorRuns.

(** The shader modules a log destroys, and those a sequence of calls
    has [vkCreateShaderModule] create, in order. *)
Definition destroyed (log : list call) : list Z :=
  flat_map (fun c => match c with
                     | vkDestroyShaderModule _ shaderModule => [shaderModule]
                     | _ => []
                     end) log.

Definition created_modules (ops : list operation) : list Z :=
  flat_map (fun op => match op with
                      | AddShaderCode _ created _ _ _ => [created]
                      | _ => []
                      end) ops.

(** The pipelines a log creates: the structure each was created from. *)
Definition pipelines (log : list call) : list VkGraphicsPipelineCreateInfo :=
  flat_map (fun c => match c with
                     | vkCreateGraphicsPipelines _ _ createInfo_ => [createInfo_]
                     | _ => []
                     end) log.

(** The pointers [init] sets, and the null [pNext] of a generator made
    for a render pass. *)
Definition wired (c : VkGraphicsPipelineCreateInfo) : Prop :=
  pVertexInputState c = data
  /\ pInputAssemblyState c = data
  /\ pViewportState c = data
  /\ pRasterizationState c = data
  /\ pMultisampleState c = data
  /\ pDepthStencilState c = data
  /\ pColorBlendState c = data
  /\ pDynamicState c = data
  /\ gp_pNext c = nullptr.

(** The calls that read [device] whatever the state of the generator. *)
Definition reads_device (op : operation) : bool :=
  match op with
  | AddShaderCode _ _ _ _ _ | CreatePipelineWith _ _ | CreatePipeline _ => true
  | _ => false
  end.

Definition sets_device (op : operation) : bool :=
  match op with
  | SetDevice _ => true
  | _ => false
  end.

(** * The compute shader and its dispatch

    [main] of the compute shader [raytracer.comp.glsl], run by one
    invocation on the storage buffer [imageData], and the dispatch of the
    program that runs it. [uint] is [uint32_t]. A write to [imageData]
    outside the buffer is a [fault]. The invocations of a dispatch run in
    an order the program does not choose: the model runs them one after
    another, in the order of a list. *)

Module Raytracer.
Section WithKernel.
Context {K : Kernel}.

(** [local_size_x], [local_size_y] and [local_size_z] of the layout. *)
Definition local_size : Z * Z * Z := (16, 8, 1).

(** [imageData[i] = a]. *)
Definition store (imageData : list scalar) (i : Z) (a : scalar)
  : result (list scalar) :=
  _ <- at_index imageData (Z.to_nat i) ;; Ok (set_index imageData (Z.to_nat i) a).

(** [vec3(float(pixel.x) / resolution.x, float(pixel.y) / resolution.y, 0.0)]. *)
Definition color (pixel : Z * Z) : vec3 scalar :=
  Vec3 (fdiv (of_int (fst pixel)) (of_int 800))
       (fdiv (of_int (snd pixel)) (of_int 600))
       (lit 0).

Definition main (gl_GlobalInvocationID : uvec3) (imageData : list scalar)
  : result (list scalar) :=
  let resolution := (800, 600) in
  let pixel := (ux gl_GlobalInvocationID, uy gl_GlobalInvocationID) in
  if (fst resolution <=? fst pixel) || (snd resolution <=? snd pixel)
  then Ok imageData
  else
    let c := color pixel in
    let index := u32 (u32 (snd pixel * fst resolution) + fst pixel) in
    imageData <- store imageData (u32 (u32 (3 * index) + 0)) (v3x c) ;;
    imageData <- store imageData (u32 (u32 (3 * index) + 1)) (v3y c) ;;
    store imageData (u32 (u32 (3 * index) + 2)) (v3z c).

(** The invocations, one after another. *)
Definition run (invocations : list uvec3) (imageData : list scalar)
  : result (list scalar) :=
  foldM (fun imageData id => main id imageData) invocations imageData.

End WithKernel.

(** The program: the size of the image and of the work groups, the
    number of [float] of the buffer it creates, and the group counts of
    its [vkCmdDispatch]. *)
Definition img_width : Z := 800.
Definition img_height : Z := 600.
Definition workgroup_width : Z := 16.
Definition workgroup_height : Z := 8.

(** [bufferSizeBytes / sizeof(float)]. *)
Definition buffer_floats : Z := img_width * img_height * 3.

(** [(uint32_t(img) + workgroup - 1) / workgroup]. *)
Definition group_count (img workgroup : Z) : Z :=
  u32 (u32 (u32 img + workgroup) - 1) / workgroup.

(** The values of [gl_GlobalInvocationID] of a dispatch of
    [groups_x * groups_y * groups_z] work groups. *)
Definition invocations (groups_x groups_y groups_z : Z) : list uvec3 :=
  let '(size_x, size_y, size_z) := local_size in
  flat_map (fun z =>
    flat_map (fun y =>
      map (fun x => UVec3 x y z) (range (groups_x * size_x)))
    (range (groups_y * size_y)))
  (range (groups_z * size_z)).

(** The invocations of the program's dispatch. *)
Definition dispatched : list uvec3 :=
  invocations (group_count img_width workgroup_width)
              (group_count img_height workgroup_height) 1.

(** Whether an invocation is the one of the pixel [(x, y)]. *)
Definition at_pixel (x y : Z) (id : uvec3) : bool :=
  (ux id =? x) && (uy id =? y).

(** The component [c] of a colour. *)
Definition component {T : Type} (c : Z) (v : vec3 T) : T :=
  if c =? 0 then v3x v else if c =? 1 then v3y v else v3z v.

End Raytracer.

(** ** The shader on a buffer of [vec3]

    The other version of the shader declares [vec3 imageData[]] in a
    block of scalar layout, where a [vec3] is three consecutive [float]. *)

Module RaytracerVec3.
Section WithKernel.
Context {K : Kernel}.

Definition main (gl_GlobalInvocationID : uvec3) (imageData : list (vec3 scalar))
  : result (list (vec3 scalar)) :=
  let resolution := (800, 600) in
  let pixel := (ux gl_GlobalInvocationID, uy gl_GlobalInvocationID) in
  if (fst resolution <=? fst pixel) || (snd resolution <=? snd pixel)
  then Ok imageData
  else
    let c := Raytracer.color pixel in
    let index := Z.to_nat (u32 (u32 (snd pixel * fst resolution) + fst pixel)) in
    v <- at_index imageData index ;;
    let imageData := set_index imageData index (Vec3 (v3x c) (v3y v) (v3z v)) in
    v <- at_index imageData index ;;
    let imageData := set_index imageData index (Vec3 (v3x v) (v3y c) (v3z v)) in
    v <- at_index imageData index ;;
    Ok (set_index imageData index (Vec3 (v3x v) (v3y v) (v3z c))).

(** The [float] values of the buffer, in the order of the memory. *)
Definition floats (imageData : list (vec3 scalar)) : list scalar :=
  flat_map (fun v => [v3x v; v3y v; v3z v]) imageData.

End WithKernel.
End RaytracerVec3.

(** * NRC::createBuffer: the choice of the memory type

    The loop of [NRC::createBuffer] that chooses [memTypeIndex], on the
    [memoryTypeBits] of the requirements of the buffer and the
    [memoryTypeCount] and the [propertyFlags] of the [memoryTypes] the
    device reports. [memTypeIndex] has no initializer: it is [None] until
    the loop assigns it. [1 << i] is undefined from [i = 32] on, and
    [memoryTypes[i]] is read only when the first test holds. *)

Module NRC.

Definition suitable (memoryTypeBits _memUsages : Z) (memoryTypes : list Z)
  (i : Z) : result bool :=
  if 32 <=? i then Fault OutOfRange
  else if Z.land memoryTypeBits (u32 (Z.shiftl 1 i)) =? 0 then Ok false
  else propertyFlags <- at_index memoryTypes (Z.to_nat i) ;;
       Ok (Z.land propertyFlags _memUsages =? _memUsages).

Definition find_memory_type (memoryTypeBits memoryTypeCount : Z)
  (memoryTypes : list Z) (_memUsages : Z) : result (option Z) :=
  foldM (fun memTypeIndex i =>
           found <- suitable memoryTypeBits _memUsages memoryTypes i ;;
           Ok (if found then Some i else memTypeIndex))
        (range memoryTypeCount) None.

(** The two tests on the memory type [i], when it exists. *)
Definition fits (memoryTypeBits _memUsages : Z) (memoryTypes : list Z) (i : Z)
  : Prop :=
  Z.testbit memoryTypeBits i = true
  /\ exists propertyFlags,
       nth_error memoryTypes (Z.to_nat i) = Some propertyFlags
       /\ Z.land propertyFlags _memUsages = _memUsages.

End NRC.

(** * Theorems *)

(** ** Machine integers and loops *)

Lemma u32_bounds (z : Z) : 0 <= u32 z < 2 ^ 32.
Proof. unfold u32. apply Z.mod_pos_bound. lia. Qed.

Lemma u32_small (z : Z) : 0 <= z < 2 ^ 32 -> u32 z = z.
Proof. intros H. unfold u32. apply Z.mod_small. exact H. Qed.

Lemma u32_le (z : Z) : 0 <= z -> u32 z <= z.
Proof. intros H. unfold u32. apply Z.mod_le; lia. Qed.

Lemma u32_add_u32_r (a b : Z) : u32 (a + u32 b) = u32 (a + b).
Proof. unfold u32. apply Zplus_mod_idemp_r. Qed.

(** An index formed as [local + vertOffset] in [uint32_t] stays below the
    new number of vertices, however many vertices there are. *)
Lemma u32_offset_below (n k local : Z) :
  0 <= n -> 0 <= local < k -> index_below (n + k) (u32 (local + u32 n)).
Proof.
  intros Hn Hl. unfold index_below. rewrite u32_add_u32_r.
  pose proof (u32_le (local + n)). pose proof (u32_bounds (local + n)). lia.
Qed.

(** An index formed without offset stays below any bound of its value. *)
Lemma u32_below (k x : Z) : 0 <= x < k -> index_below k (u32 x).
Proof.
  intros H. unfold index_below.
  pose proof (u32_le x). pose proof (u32_bounds x). lia.
Qed.

(** Without wrap-around it is the offset index itself. *)
Lemma u32_offset_exact (n k local : Z) :
  0 <= n -> 0 <= local < k -> n + k <= 2 ^ 32 ->
  u32 (local + u32 n) = n + local.
Proof.
  intros Hn Hl Hk. rewrite u32_add_u32_r, u32_small; lia.
Qed.

Lemma in_range (n x : Z) : In x (range n) <-> 0 <= x < n.
Proof.
  unfold range. rewrite in_map_iff. split.
  - intros [i [<- Hi]]. apply in_seq in Hi. lia.
  - intros H. exists (Z.to_nat x). split; [lia|]. apply in_seq. lia.
Qed.

Lemma length_range (n : Z) : length (range n) = Z.to_nat n.
Proof. unfold range. now rewrite length_map, length_seq. Qed.

Lemma range_nonpos (n : Z) : n <= 0 -> range n = [].
Proof.
  intros H. unfold range. replace (Z.to_nat n) with 0%nat by lia. reflexivity.
Qed.

Lemma range_succ (n : Z) : 0 <= n -> range (n + 1) = range n ++ [n].
Proof.
  intros H. unfold range.
  replace (Z.to_nat (n + 1)) with (S (Z.to_nat n)) by lia.
  rewrite seq_S, map_app. simpl. now rewrite Z2Nat.id.
Qed.

Lemma length_flat_map_const {A B : Type} (f : A -> list B) (l : list A) (c : nat) :
  (forall a, In a l -> length (f a) = c) ->
  length (flat_map f l) = (length l * c)%nat.
Proof.
  induction l as [|a l IH]; intros H; simpl; [reflexivity|].
  rewrite length_app, H by (now left).
  rewrite IH; [reflexivity|].
  intros b Hb. apply H. now right.
Qed.

Lemma map_flat_map {A B C : Type} (f : B -> C) (g : A -> list B) (l : list A) :
  map f (flat_map g l) = flat_map (fun a => map f (g a)) l.
Proof.
  induction l as [|a l IH]; [reflexivity|].
  simpl. now rewrite map_app, IH.
Qed.

Lemma bind_ok {A B : Type} (a : A) (k : A -> result B) : bind (Ok a) k = k a.
Proof. reflexivity. Qed.

Lemma bind_ret {A : Type} (r : result A) : bind r Ok = r.
Proof. destruct r; reflexivity. Qed.

Lemma mapM_pure {A B : Type} (f : A -> result B) (g : A -> B) (l : list A) :
  (forall a, In a l -> f a = Ok (g a)) -> mapM f l = Ok (map g l).
Proof.
  induction l as [|a l IH]; intros H; simpl; [reflexivity|].
  rewrite H by (now left). simpl. rewrite IH; [reflexivity|].
  intros b Hb. apply H. now right.
Qed.

Lemma for_each_pure {A B : Type} (body : A -> result (list B)) (g : A -> list B)
  (l : list A) :
  (forall a, In a l -> body a = Ok (g a)) -> for_each l body = Ok (flat_map g l).
Proof.
  intros H. unfold for_each. rewrite (mapM_pure body g l H). cbn [bind].
  now rewrite flat_map_concat_map.
Qed.

(** An [int] operation whose exact result is a value of [int] gives it. *)
Lemma int_ok (z : Z) : INT_MIN <= z <= INT_MAX -> int z = Ok z.
Proof.
  intros [Hlo Hhi]. unfold int.
  apply Z.leb_le in Hlo, Hhi. now rewrite Hlo, Hhi.
Qed.

Lemma int_above (z : Z) : INT_MAX < z -> int z = Fault SignedOverflow.
Proof.
  intros H. unfold int. apply Z.leb_gt in H. now rewrite H, andb_false_r.
Qed.

Lemma int_add_ok (a b : Z) :
  INT_MIN <= a + b <= INT_MAX -> (Ok a + Ok b)%int = Ok (a + b).
Proof. apply int_ok. Qed.

Lemma int_sub_ok (a b : Z) :
  INT_MIN <= a - b <= INT_MAX -> (Ok a - Ok b)%int = Ok (a - b).
Proof. apply int_ok. Qed.

Lemma int_mul_ok (a b : Z) :
  INT_MIN <= a * b <= INT_MAX -> (Ok a * Ok b)%int = Ok (a * b).
Proof. apply int_ok. Qed.

(** Evaluates the [int] operations of a goal whose results are in range
    by the bounds at hand. *)
Ltac int_range := unfold INT_MIN, INT_MAX in *; nia.

Ltac int_ops :=
  repeat first
    [ rewrite int_add_ok by int_range
    | rewrite int_sub_ok by int_range
    | rewrite int_mul_ok by int_range
    | progress cbn [bind] ].

Lemma at_index_app_mid {A : Type} (pre post : list A) (a : A) :
  at_index (pre ++ a :: post) (length pre) = Ok a.
Proof.
  unfold at_index. rewrite nth_error_app2 by lia.
  now rewrite Nat.sub_diag.
Qed.

Lemma set_index_app_mid {A : Type} (pre post : list A) (a b : A) :
  set_index (pre ++ a :: post) (length pre) b = pre ++ b :: post.
Proof.
  induction pre as [|p pre IH]; simpl; [reflexivity|]. now rewrite IH.
Qed.

(** ** Mesh::append and Mesh::flipWinding *)

Section MeshFacts.
Context {K : Kernel} {V : VertexFormat K}.

(** A loop over a vector that its pushes leave alone makes one pass per
    element and returns. *)
Lemma push_loop_other {St A : Type} (push : St -> A -> St)
  (pre post : list A) (fuel : nat) (s : St) :
  (length post < fuel)%nat ->
  push_loop fuel (fun _ => pre ++ post) push (length pre) s
  = Some (Ok (fold_left push post s)).
Proof.
  revert pre fuel s. induction post as [|a post IH]; intros pre fuel s Hfuel.
  - destruct fuel as [|fuel]; [inversion Hfuel|]. cbn [push_loop fold_left].
    rewrite app_nil_r, Nat.ltb_irrefl. reflexivity.
  - destruct fuel as [|fuel]; [inversion Hfuel|]. cbn [push_loop fold_left].
    replace (length pre <? length (pre ++ a :: post))%nat with true
      by (symmetry; apply Nat.ltb_lt; rewrite length_app; simpl; lia).
    rewrite at_index_app_mid.
    replace (pre ++ a :: post) with ((pre ++ [a]) ++ post)
      by (now rewrite <- app_assoc).
    replace (S (length pre)) with (length (pre ++ [a]))
      by (rewrite length_app; simpl; lia).
    apply IH. simpl in Hfuel. lia.
Qed.

Lemma fold_push_vertex (l : list TVertex) (self : Mesh) :
  fold_left Mesh.push_vertex l self
  = {| m_vertices := m_vertices self ++ l;
       m_indicesTriangles := m_indicesTriangles self;
       m_indicesOutline := m_indicesOutline self |}.
Proof.
  revert self. induction l as [|v l IH]; intros self; cbn [fold_left].
  - rewrite app_nil_r. now destruct self.
  - rewrite IH. unfold Mesh.push_vertex. cbn [m_vertices m_indicesTriangles m_indicesOutline].
    now rewrite <- app_assoc.
Qed.

Lemma fold_push_triangle (offset : Z) (l : list uvec3) (self : Mesh) :
  fold_left (Mesh.push_triangle offset) l self
  = {| m_vertices := m_vertices self;
       m_indicesTriangles :=
         m_indicesTriangles self ++ map (fun t => uvec3_add t offset) l;
       m_indicesOutline := m_indicesOutline self |}.
Proof.
  revert self. induction l as [|t l IH]; intros self; cbn [fold_left map].
  - rewrite app_nil_r. now destruct self.
  - rewrite IH. unfold Mesh.push_triangle. cbn [m_vertices m_indicesTriangles m_indicesOutline].
    now rewrite <- app_assoc.
Qed.

Lemma fold_push_line (offset : Z) (l : list uvec2) (self : Mesh) :
  fold_left (Mesh.push_line offset) l self
  = {| m_vertices := m_vertices self;
       m_indicesTriangles := m_indicesTriangles self;
       m_indicesOutline :=
         m_indicesOutline self ++ map (fun o => uvec2_add o offset) l |}.
Proof.
  revert self. induction l as [|o l IH]; intros self; cbn [fold_left map].
  - rewrite app_nil_r. now destruct self.
  - rewrite IH. unfold Mesh.push_line. cbn [m_vertices m_indicesTriangles m_indicesOutline].
    now rewrite <- app_assoc.
Qed.

(** [append] of another mesh returns: its loops read in range, and push
    back the vertices as they are and the indices moved by [offset]. *)
Lemma append_ok (fuel : nat) (self geo : Mesh) :
  (Mesh.append_fuel geo <= fuel)%nat ->
  Mesh.append fuel self (Mesh.Other geo) =
  Some (Ok {| m_vertices := m_vertices self ++ m_vertices geo;
              m_indicesTriangles :=
                m_indicesTriangles self
                ++ map (fun t => uvec3_add t (u32 (vertex_count self)))
                       (m_indicesTriangles geo);
              m_indicesOutline :=
                m_indicesOutline self
                ++ map (fun o => uvec2_add o (u32 (vertex_count self)))
                       (m_indicesOutline geo) |}).
Proof.
  unfold Mesh.append_fuel. intros Hfuel. unfold Mesh.append. cbn [Mesh.deref].
  rewrite (push_loop_other Mesh.push_vertex [] (m_vertices geo)) by (simpl; lia).
  cbn [and_then].
  rewrite (push_loop_other (Mesh.push_triangle _) [] (m_indicesTriangles geo))
    by (simpl; lia).
  cbn [and_then].
  rewrite (push_loop_other (Mesh.push_line _) [] (m_indicesOutline geo))
    by (simpl; lia).
  rewrite fold_push_vertex, fold_push_triangle, fold_push_line.
  reflexivity.
Qed.

(** A loop over the vector it pushes to never leaves: the size it
    compares its counter with grows as fast as the counter. *)
Lemma push_loop_self (fuel i : nat) (self : Mesh) :
  (i < length (m_vertices self))%nat ->
  push_loop fuel (fun s => m_vertices (Mesh.deref Mesh.Self s))
            Mesh.push_vertex i self = None.
Proof.
  revert i self. induction fuel as [|fuel IH]; intros i self Hi; [reflexivity|].
  cbn [push_loop Mesh.deref].
  replace (i <? length (m_vertices self))%nat with true
    by (symmetry; now apply Nat.ltb_lt).
  unfold at_index. destruct (nth_error (m_vertices self) i) as [v|] eqn:E.
  - apply IH. unfold Mesh.push_vertex. cbn [m_vertices].
    rewrite length_app. simpl. lia.
  - apply nth_error_None in E. lia.
Qed.

(** [append] of the receiver itself does not return when it has a vertex. *)
Lemma append_self_never_returns (fuel : nat) (self : Mesh) :
  m_vertices self <> [] -> Mesh.append fuel self Mesh.Self = None.
Proof.
  intros Hne. unfold Mesh.append. rewrite push_loop_self; [reflexivity|].
  destruct (m_vertices self); [contradiction|simpl; lia].
Qed.

(** More steps do not change what a loop that returns has returned. *)
Lemma push_loop_mono {St A : Type} (src : St -> list A) (push : St -> A -> St)
  (fuel fuel' i : nat) (s : St) (r : result St) :
  push_loop fuel src push i s = Some r -> (fuel <= fuel')%nat ->
  push_loop fuel' src push i s = Some r.
Proof.
  revert fuel' i s. induction fuel as [|fuel IH]; intros fuel' i s E Hle.
  - discriminate E.
  - destruct fuel' as [|fuel']; [inversion Hle|].
    cbn [push_loop] in *.
    destruct (i <? length (src s))%nat; [|exact E].
    destruct (at_index (src s) i) as [a|f]; [|exact E].
    apply IH; [exact E|lia].
Qed.

Lemma append_mono (fuel fuel' : nat) (self : Mesh) (geo : Mesh.argument)
  (r : result Mesh) :
  Mesh.append fuel self geo = Some r -> (fuel <= fuel')%nat ->
  Mesh.append fuel' self geo = Some r.
Proof.
  unfold Mesh.append. intros E Hle.
  destruct (push_loop fuel (fun s => m_vertices (Mesh.deref geo s))
                      Mesh.push_vertex 0 self) as [r1|] eqn:E1; [|discriminate E].
  rewrite (push_loop_mono _ _ _ _ _ _ _ E1 Hle).
  destruct r1 as [self1|f]; [|exact E]. cbn [and_then] in *.
  destruct (push_loop fuel (fun s => m_indicesTriangles (Mesh.deref geo s))
                      (Mesh.push_triangle _) 0 self1) as [r2|] eqn:E2;
    [|discriminate E].
  rewrite (push_loop_mono _ _ _ _ _ _ _ E2 Hle).
  destruct r2 as [self2|f]; [|exact E]. cbn [and_then] in *.
  exact (push_loop_mono _ _ _ _ _ _ _ E Hle).
Qed.

(** Whatever the steps allowed, [append] of another mesh returns nothing
    but the merged mesh. *)
Lemma append_returns (fuel : nat) (self geo : Mesh) (r : result Mesh) :
  Mesh.append fuel self (Mesh.Other geo) = Some r ->
  r = Ok {| m_vertices := m_vertices self ++ m_vertices geo;
            m_indicesTriangles :=
              m_indicesTriangles self
              ++ map (fun t => uvec3_add t (u32 (vertex_count self)))
                     (m_indicesTriangles geo);
            m_indicesOutline :=
              m_indicesOutline self
              ++ map (fun o => uvec2_add o (u32 (vertex_count self)))
                     (m_indicesOutline geo) |}.
Proof.
  intros E.
  pose proof (append_mono _ (Nat.max fuel (Mesh.append_fuel geo)) _ _ _ E
                (Nat.le_max_l _ _)) as E'.
  rewrite (append_ok _ self geo (Nat.le_max_r _ _)) in E'.
  now injection E' as <-.
Qed.

Lemma flip_loop_from (pre post : list uvec3) :
  foldM (fun ts i => t <- at_index ts i ;; Ok (set_index ts i (swap_xz t)))
        (seq (length pre) (length post)) (pre ++ post)
  = Ok (pre ++ map swap_xz post).
Proof.
  revert pre. induction post as [|t post IH]; intros pre; simpl.
  - reflexivity.
  - rewrite at_index_app_mid. simpl. rewrite set_index_app_mid.
    replace (pre ++ swap_xz t :: post) with ((pre ++ [swap_xz t]) ++ post)
      by (now rewrite <- app_assoc).
    replace (S (length pre)) with (length (pre ++ [swap_xz t]))
      by (rewrite length_app; simpl; lia).
    rewrite IH. now rewrite <- app_assoc.
Qed.

Lemma flipWinding_ok (self : Mesh) :
  Mesh.flipWinding self =
  Ok {| m_vertices := m_vertices self;
        m_indicesTriangles := map swap_xz (m_indicesTriangles self);
        m_indicesOutline := m_indicesOutline self |}.
Proof.
  unfold Mesh.flipWinding.
  pose proof (flip_loop_from [] (m_indicesTriangles self)) as H.
  simpl in H. now rewrite H.
Qed.

Lemma swap_xz_involutive (t : uvec3) : swap_xz (swap_xz t) = t.
Proof. now destruct t. Qed.

End MeshFacts.

(** ** Index bounds, by loop *)

(** Reduces a bound on every element pushed by nested loops to a bound on
    the element of one pass, with the ranges of the counters at hand. *)
Ltac each_pass :=
  repeat first
    [ apply Forall_nil
    | apply Forall_cons
    | apply Forall_app; split
    | rewrite Forall_flat_map
    | rewrite Forall_map
    | match goal with
      | |- Forall _ (range _) =>
          rewrite Forall_forall;
          let x := fresh "i" in
          let H := fresh "Hi" in
          intros x H; apply in_range in H
      end ].

Ltac below_offset :=
  match goal with
  | |- index_below (_ + _) (u32 (_ + u32 _)) =>
      apply u32_offset_below; [lia | nia]
  end.

Ltac within_offset k :=
  match goal with
  | |- context [u32 (?l + u32 ?n)] =>
      rewrite (u32_offset_exact n k l); [nia | lia | nia | lia]
  end.

Section PlaneFacts.
Context {K : Kernel} {V : VertexFormat K}.

Lemma Plane_length_vertices (mat : mat4) (xmove ymove : scalar) (w h : Z) :
  0 <= w -> 0 <= h ->
  Z.of_nat (length (Plane_vertices mat xmove ymove w h)) = (w + 1) * (h + 1).
Proof.
  intros Hw Hh. unfold Plane_vertices.
  rewrite (length_flat_map_const _ _ (Z.to_nat (w + 1))).
  - rewrite length_range. nia.
  - intros y _. now rewrite length_map, length_range.
Qed.

Lemma Plane_length_triangles (w h width off : Z) :
  0 <= w -> 0 <= h ->
  Z.of_nat (length (Plane_triangles w h width off)) = 2 * w * h.
Proof.
  intros Hw Hh. unfold Plane_triangles.
  rewrite (length_flat_map_const _ _ (Z.to_nat w * 2)%nat).
  - rewrite length_range. nia.
  - intros y _. rewrite (length_flat_map_const _ _ 2%nat).
    + now rewrite length_range.
    + reflexivity.
Qed.

Lemma Plane_length_outline (w h width off : Z) :
  0 <= w -> 0 <= h ->
  Z.of_nat (length (Plane_outline w h width off)) = 2 * w + 2 * h.
Proof.
  intros Hw Hh. unfold Plane_outline.
  rewrite !length_app, !length_map, !length_range. lia.
Qed.

Lemma Plane_triangles_below (n w h : Z) :
  0 <= n -> 0 <= w -> 0 <= h ->
  Forall (tri_below (n + (w + 1) * (h + 1)))
         (Plane_triangles w h (w + 1) (u32 n)).
Proof.
  intros Hn Hw Hh. unfold Plane_triangles. each_pass.
  all: unfold tri_below, Plane_upper_tri, Plane_lower_tri; simpl.
  all: repeat match goal with |- _ /\ _ => split end; below_offset.
Qed.

Lemma Plane_outline_below (n w h : Z) :
  0 <= n -> 0 <= w -> 0 <= h ->
  Forall (line_below (n + (w + 1) * (h + 1)))
         (Plane_outline w h (w + 1) (u32 n)).
Proof.
  intros Hn Hw Hh. unfold Plane_outline. each_pass.
  all: unfold line_below; simpl.
  all: repeat match goal with |- _ /\ _ => split end; below_offset.
Qed.

Lemma Plane_triangles_within (n w h : Z) :
  0 <= n -> 0 <= w -> 0 <= h -> n + (w + 1) * (h + 1) <= 2 ^ 32 ->
  Forall (tri_within n (n + (w + 1) * (h + 1)))
         (Plane_triangles w h (w + 1) (u32 n)).
Proof.
  intros Hn Hw Hh Hfit. unfold Plane_triangles. each_pass.
  all: unfold tri_within, Plane_upper_tri, Plane_lower_tri; simpl.
  all: repeat split; within_offset ((w + 1) * (h + 1)).
Qed.

Lemma Plane_outline_within (n w h : Z) :
  0 <= n -> 0 <= w -> 0 <= h -> n + (w + 1) * (h + 1) <= 2 ^ 32 ->
  Forall (line_within n (n + (w + 1) * (h + 1)))
         (Plane_outline w h (w + 1) (u32 n)).
Proof.
  intros Hn Hw Hh Hfit. unfold Plane_outline. each_pass.
  all: unfold line_within; simpl.
  all: repeat split; within_offset ((w + 1) * (h + 1)).
Qed.

End PlaneFacts.

(** ** Growing a mesh *)

Section GrowFacts.
Context {K : Kernel} {V : VertexFormat K}.

Lemma vertex_count_nonneg (m : Mesh) : 0 <= vertex_count m.
Proof. unfold vertex_count. lia. Qed.

Lemma tri_below_mono (n n' : Z) (t : uvec3) :
  n <= n' -> tri_below n t -> tri_below n' t.
Proof. unfold tri_below, index_below. lia. Qed.

Lemma line_below_mono (n n' : Z) (o : uvec2) :
  n <= n' -> line_below n o -> line_below n' o.
Proof. unfold line_below, index_below. lia. Qed.

Lemma tri_within_mono (lo lo' hi hi' : Z) (t : uvec3) :
  lo' <= lo -> hi <= hi' -> tri_within lo hi t -> tri_within lo' hi' t.
Proof. unfold tri_within. lia. Qed.

Lemma line_within_mono (lo lo' hi hi' : Z) (o : uvec2) :
  lo' <= lo -> hi <= hi' -> line_within lo hi o -> line_within lo' hi' o.
Proof. unfold line_within. lia. Qed.

Lemma grows_refl (m : Mesh) : grows m m 0 0.
Proof.
  exists [], [], []. unfold extends. rewrite !app_nil_r.
  repeat split; constructor.
Qed.

Lemma grows_vertex_count (pre post : Mesh) (nv nt : Z) :
  grows pre post nv nt -> vertex_count post = vertex_count pre + nv.
Proof.
  intros (vs & ts & os & (Hv & _ & _) & Hnv & _).
  unfold vertex_count. rewrite Hv, length_app. lia.
Qed.

Lemma grows_nonneg (pre post : Mesh) (nv nt : Z) :
  grows pre post nv nt -> 0 <= nv /\ 0 <= nt.
Proof. intros (vs & ts & os & _ & Hnv & Hnt & _). lia. Qed.

Lemma grows_trans (a b c : Mesh) (nv1 nt1 nv2 nt2 : Z) :
  grows a b nv1 nt1 -> grows b c nv2 nt2 ->
  grows a c (nv1 + nv2) (nt1 + nt2).
Proof.
  intros H1 H2.
  pose proof (grows_vertex_count _ _ _ _ H1) as Hb.
  pose proof (grows_nonneg _ _ _ _ H1) as [Hn1 _].
  pose proof (grows_nonneg _ _ _ _ H2) as [Hn2 _].
  pose proof (vertex_count_nonneg a) as Ha.
  destruct H1 as (vs1 & ts1 & os1 & (Hv1 & Ht1 & Ho1) & Hnv1 & Hnt1 & Bt1 & Bo1 & W1).
  destruct H2 as (vs2 & ts2 & os2 & (Hv2 & Ht2 & Ho2) & Hnv2 & Hnt2 & Bt2 & Bo2 & W2).
  exists (vs1 ++ vs2), (ts1 ++ ts2), (os1 ++ os2).
  split; [|split; [|split; [|split; [|split]]]].
  - unfold extends. rewrite Hv2, Ht2, Ho2, Hv1, Ht1, Ho1.
    now rewrite !app_assoc.
  - rewrite length_app. lia.
  - rewrite length_app. lia.
  - apply Forall_app. split.
    + eapply Forall_impl; [|exact Bt1]. intros t. apply tri_below_mono. lia.
    + eapply Forall_impl; [|exact Bt2]. intros t. apply tri_below_mono. lia.
  - apply Forall_app. split.
    + eapply Forall_impl; [|exact Bo1]. intros t. apply line_below_mono. lia.
    + eapply Forall_impl; [|exact Bo2]. intros t. apply line_below_mono. lia.
  - intros Hfit.
    destruct W1 as [Wt1 Wo1]; [lia|]. destruct W2 as [Wt2 Wo2]; [lia|].
    split; apply Forall_app; split.
    + eapply Forall_impl; [|exact Wt1]. intros t. apply tri_within_mono; lia.
    + eapply Forall_impl; [|exact Wt2]. intros t. apply tri_within_mono; lia.
    + eapply Forall_impl; [|exact Wo1]. intros t. apply line_within_mono; lia.
    + eapply Forall_impl; [|exact Wo2]. intros t. apply line_within_mono; lia.
Qed.

(** Growing keeps the invariant of the mesh. *)
Lemma grows_in_range (pre post : Mesh) (nv nt : Z) :
  grows pre post nv nt -> indices_in_range pre -> indices_in_range post.
Proof.
  intros H [It Io].
  pose proof (grows_vertex_count _ _ _ _ H) as Hc.
  pose proof (grows_nonneg _ _ _ _ H) as [Hn _].
  destruct H as (vs & ts & os & (Hv & Ht & Ho) & _ & _ & Bt & Bo & _).
  unfold indices_in_range. rewrite Hc, Ht, Ho. split; apply Forall_app; split.
  - eapply Forall_impl; [|exact It]. intros t. apply tri_below_mono. lia.
  - exact Bt.
  - eapply Forall_impl; [|exact Io]. intros t. apply line_below_mono. lia.
  - exact Bo.
Qed.

(** A loop of calls that each grow the mesh by the same amount. *)
Lemma foldM_grows {A : Type} (body : Mesh -> A -> result Mesh) (nv nt : Z)
  (l : list A) :
  (forall geo a, In a l -> exists geo', body geo a = Ok geo' /\ grows geo geo' nv nt) ->
  forall geo, exists geo',
    foldM body l geo = Ok geo'
    /\ grows geo geo' (Z.of_nat (length l) * nv) (Z.of_nat (length l) * nt).
Proof.
  induction l as [|a l IH]; intros Hbody geo.
  - exists geo. split; [reflexivity|]. apply grows_refl.
  - destruct (Hbody geo a) as (geo1 & E1 & G1); [now left|].
    destruct (IH (fun g b Hb => Hbody g b (or_intror Hb)) geo1) as (geo2 & E2 & G2).
    exists geo2. split.
    + simpl. rewrite E1. exact E2.
    + replace (Z.of_nat (length (a :: l)) * nv)
        with (nv + Z.of_nat (length l) * nv) by (simpl length; lia).
      replace (Z.of_nat (length (a :: l)) * nt)
        with (nt + Z.of_nat (length l) * nt) by (simpl length; lia).
      eapply grows_trans; eassumption.
Qed.

End GrowFacts.

(** ** Plane::add and Box::add *)

Section PlaneBoxFacts.
Context {K : Kernel} {V : VertexFormat K} {L : KernelLaws K}.

Lemma fdiv_checked_ok (a : scalar) (n : Z) :
  n <> 0 -> fdiv_checked a (of_int n) = Ok (fdiv a (of_int n)).
Proof.
  intros H. unfold fdiv_checked. now rewrite of_int_nonzero.
Qed.

(** The loops of [Plane::add] with segment counts whose grid has no more
    than [2^31] points: the greatest [int] value they compute is
    [(w+1)*(h+1) - 1]. *)
Lemma Plane_vertices_ok (mat : mat4) (xmove ymove : scalar) (w h : Z) :
  1 <= w -> 1 <= h -> (w + 1) * (h + 1) <= 2 ^ 31 ->
  Plane.vertices mat xmove ymove w h = Ok (Plane_vertices mat xmove ymove w h).
Proof.
  intros Hw Hh Hfit. unfold Plane.vertices. int_ops.
  apply for_each_pure. intros y _. int_ops. reflexivity.
Qed.

Lemma Plane_triangles_ok (w h off : Z) :
  1 <= w -> 1 <= h -> (w + 1) * (h + 1) <= 2 ^ 31 ->
  Plane.triangles w h (w + 1) off = Ok (Plane_triangles w h (w + 1) off).
Proof.
  intros Hw Hh Hfit. unfold Plane.triangles.
  apply for_each_pure. intros y Hy. apply in_range in Hy.
  apply for_each_pure. intros x Hx. apply in_range in Hx.
  unfold Plane.upper_tri, Plane.lower_tri. int_ops. reflexivity.
Qed.

Lemma Plane_outline_ok (w h off : Z) :
  1 <= w -> 1 <= h -> (w + 1) * (h + 1) <= 2 ^ 31 ->
  Plane.outline w h (w + 1) off = Ok (Plane_outline w h (w + 1) off).
Proof.
  intros Hw Hh Hfit. unfold Plane.outline, Plane_outline.
  rewrite (mapM_pure _ (fun y => UVec2 (u32 (y * (w + 1) + off))
                                      (u32 ((y + 1) * (w + 1) + off))))
    by (intros y Hy; apply in_range in Hy; int_ops; reflexivity).
  cbn [bind].
  rewrite (mapM_pure _ (fun y => UVec2 (u32 (y * (w + 1) + w + off))
                                      (u32 ((y + 1) * (w + 1) + w + off))))
    by (intros y Hy; apply in_range in Hy; int_ops; reflexivity).
  cbn [bind].
  rewrite (mapM_pure _ (fun x => UVec2 (u32 (x + off)) (u32 (x + 1 + off))))
    by (intros x Hx; apply in_range in Hx; int_ops; reflexivity).
  cbn [bind].
  rewrite (mapM_pure _ (fun x => UVec2 (u32 (x + h * (w + 1) + off))
                                      (u32 (x + 1 + h * (w + 1) + off))))
    by (intros x Hx; apply in_range in Hx; int_ops; reflexivity).
  reflexivity.
Qed.

Lemma Plane_add_ok (geo : Mesh) (mat : mat4) (w h : Z) :
  1 <= w -> 1 <= h -> (w + 1) * (h + 1) <= 2 ^ 31 ->
  Plane.add geo mat w h =
  Ok {| m_vertices :=
          m_vertices geo
          ++ Plane_vertices mat (fdiv (lit 1) (of_int w)) (fdiv (lit 1) (of_int h)) w h;
        m_indicesTriangles :=
          m_indicesTriangles geo
          ++ Plane_triangles w h (w + 1) (u32 (vertex_count geo));
        m_indicesOutline :=
          m_indicesOutline geo
          ++ Plane_outline w h (w + 1) (u32 (vertex_count geo)) |}.
Proof.
  intros Hw Hh Hfit. unfold Plane.add.
  rewrite !fdiv_checked_ok by lia. int_ops.
  rewrite Plane_vertices_ok by assumption. cbn [bind].
  rewrite Plane_triangles_ok by assumption. cbn [bind].
  rewrite Plane_outline_ok by assumption. reflexivity.
Qed.

(** The first [int] operation of [Plane::add], [xdim + 1], overflows for
    the greatest [int]. *)
Lemma Plane_add_overflow (geo : Mesh) (mat : mat4) (h : Z) :
  h <> 0 -> Plane.add geo mat INT_MAX h = Fault SignedOverflow.
Proof.
  intros Hh. unfold Plane.add.
  rewrite !fdiv_checked_ok by (unfold INT_MAX; lia). reflexivity.
Qed.

Lemma Plane_add_grows (geo : Mesh) (mat : mat4) (w h : Z) :
  1 <= w -> 1 <= h -> (w + 1) * (h + 1) <= 2 ^ 31 ->
  exists geo', Plane.add geo mat w h = Ok geo'
               /\ grows geo geo' ((w + 1) * (h + 1)) (2 * w * h).
Proof.
  intros Hw Hh Hint. eexists. split; [now apply Plane_add_ok|].
  pose proof (vertex_count_nonneg geo) as Hn.
  do 3 eexists. split; [|split; [|split; [|split; [|split]]]].
  - unfold extends. simpl. repeat split.
  - apply Plane_length_vertices; lia.
  - apply Plane_length_triangles; lia.
  - apply Plane_triangles_below; lia.
  - apply Plane_outline_below; lia.
  - intros Hfit. split.
    + apply Plane_triangles_within; lia.
    + apply Plane_outline_within; lia.
Qed.

(** The six passes of the loop of [Box::add], one [Plane::add] each. *)
Lemma Box_add_unfold (geo : Mesh) (mat : mat4) (w h d : Z) :
  Box.add geo mat w h d =
  (g1 <- Plane.add geo (mat_mul (mat_mul mat (Box.matrixRot 0)) Box.matrixMove) w h ;;
   g2 <- Plane.add g1 (mat_mul (mat_mul mat (Box.matrixRot 1)) Box.matrixMove) w h ;;
   g3 <- Plane.add g2 (mat_mul (mat_mul mat (Box.matrixRot 2)) Box.matrixMove) d h ;;
   g4 <- Plane.add g3 (mat_mul (mat_mul mat (Box.matrixRot 3)) Box.matrixMove) d h ;;
   g5 <- Plane.add g4 (mat_mul (mat_mul mat (Box.matrixRot 4)) Box.matrixMove) w d ;;
   Plane.add g5 (mat_mul (mat_mul mat (Box.matrixRot 5)) Box.matrixMove) w d).
Proof.
  unfold Box.add, Box.add_side. simpl foldM. simpl nth. simpl fst. simpl snd.
  destruct (Plane.add geo _ w h) as [g1|]; [|reflexivity]. simpl.
  destruct (Plane.add g1 _ w h) as [g2|]; [|reflexivity]. simpl.
  destruct (Plane.add g2 _ d h) as [g3|]; [|reflexivity]. simpl.
  destruct (Plane.add g3 _ d h) as [g4|]; [|reflexivity]. simpl.
  destruct (Plane.add g4 _ w d) as [g5|]; [|reflexivity]. simpl.
  now rewrite bind_ret.
Qed.

Lemma Box_add_grows (geo : Mesh) (mat : mat4) (w h d : Z) :
  1 <= w -> 1 <= h -> 1 <= d ->
  (w + 1) * (h + 1) <= 2 ^ 31 -> (d + 1) * (h + 1) <= 2 ^ 31 ->
  (w + 1) * (d + 1) <= 2 ^ 31 ->
  exists geo', Box.add geo mat w h d = Ok geo'
    /\ grows geo geo'
         (2 * ((w + 1) * (h + 1)) + 2 * ((d + 1) * (h + 1)) + 2 * ((w + 1) * (d + 1)))
         (2 * (2 * w * h) + 2 * (2 * d * h) + 2 * (2 * w * d)).
Proof.
  intros Hw Hh Hd Hwh Hdh Hwd. rewrite Box_add_unfold.
  destruct (Plane_add_grows geo (mat_mul (mat_mul mat (Box.matrixRot 0)) Box.matrixMove)
              w h Hw Hh Hwh) as (g1 & E1 & G1). rewrite E1. cbn [bind].
  destruct (Plane_add_grows g1 (mat_mul (mat_mul mat (Box.matrixRot 1)) Box.matrixMove)
              w h Hw Hh Hwh) as (g2 & E2 & G2). rewrite E2. cbn [bind].
  destruct (Plane_add_grows g2 (mat_mul (mat_mul mat (Box.matrixRot 2)) Box.matrixMove)
              d h Hd Hh Hdh) as (g3 & E3 & G3). rewrite E3. cbn [bind].
  destruct (Plane_add_grows g3 (mat_mul (mat_mul mat (Box.matrixRot 3)) Box.matrixMove)
              d h Hd Hh Hdh) as (g4 & E4 & G4). rewrite E4. cbn [bind].
  destruct (Plane_add_grows g4 (mat_mul (mat_mul mat (Box.matrixRot 4)) Box.matrixMove)
              w d Hw Hd Hwd) as (g5 & E5 & G5). rewrite E5. cbn [bind].
  destruct (Plane_add_grows g5 (mat_mul (mat_mul mat (Box.matrixRot 5)) Box.matrixMove)
              w d Hw Hd Hwd) as (g6 & E6 & G6).
  exists g6. split; [exact E6|].
  pose proof (grows_trans _ _ _ _ _ _ _ G1 G2) as G12.
  pose proof (grows_trans _ _ _ _ _ _ _ G12 G3) as G13.
  pose proof (grows_trans _ _ _ _ _ _ _ G13 G4) as G14.
  pose proof (grows_trans _ _ _ _ _ _ _ G14 G5) as G15.
  pose proof (grows_trans _ _ _ _ _ _ _ G15 G6) as G16.
  match goal with
  | H : grows geo g6 ?a ?b |- grows geo g6 ?a' ?b' =>
      replace a' with a by lia; replace b' with b by lia; exact H
  end.
Qed.

End PlaneBoxFacts.

(** ** Sums over the passes of a loop *)

Lemma total_app (f : Z -> Z) (l1 l2 : list Z) :
  total f (l1 ++ l2) = total f l1 + total f l2.
Proof. induction l1 as [|z l1 IH]; simpl; lia. Qed.

Lemma total_add (f g : Z -> Z) (l : list Z) :
  total (fun z => f z + g z) l = total f l + total g l.
Proof. induction l as [|z l IH]; simpl; lia. Qed.

Lemma total_scale (c : Z) (f : Z -> Z) (l : list Z) :
  total (fun z => c * f z) l = c * total f l.
Proof. induction l as [|z l IH]; simpl; lia. Qed.

Lemma length_flat_map_total {B : Type} (f : Z -> list B) (l : list Z) :
  Z.of_nat (length (flat_map f l)) = total (fun z => Z.of_nat (length (f z))) l.
Proof.
  induction l as [|z l IH]; simpl; [reflexivity|].
  rewrite length_app. lia.
Qed.

(** A loop of [n] passes of which the pass [k] is left out. *)
Lemma total_all_but (k : Z) (m : nat) :
  total (fun z => if z =? k then 0 else 1) (range (Z.of_nat m))
  = Z.of_nat m - (if (0 <=? k) && (k <? Z.of_nat m) then 1 else 0).
Proof.
  induction m as [|m IH].
  - simpl. destruct (0 <=? k) eqn:E1, (k <? 0) eqn:E2; simpl; lia.
  - rewrite Nat2Z.inj_succ. unfold Z.succ.
    rewrite range_succ, total_app, IH by lia. simpl.
    destruct (Z.eqb_spec (Z.of_nat m) k) as [Heq|Hne].
    + subst k.
      replace (0 <=? Z.of_nat m) with true by (symmetry; apply Z.leb_le; lia).
      replace (Z.of_nat m <? Z.of_nat m) with false by (symmetry; apply Z.ltb_ge; lia).
      replace (Z.of_nat m <? Z.of_nat m + 1) with true by (symmetry; apply Z.ltb_lt; lia).
      simpl. lia.
    + destruct (0 <=? k) eqn:E1; simpl; [|lia].
      destruct (Z.ltb_spec k (Z.of_nat m)), (Z.ltb_spec k (Z.of_nat m + 1)); lia.
Qed.

Lemma total_all_but_range (k n : Z) :
  0 <= n ->
  total (fun z => if z =? k then 0 else 1) (range n)
  = n - (if (0 <=? k) && (k <? n) then 1 else 0).
Proof.
  intros Hn. pose proof (total_all_but k (Z.to_nat n)) as H.
  now rewrite Z2Nat.id in H by exact Hn.
Qed.

Lemma quot_nonneg_le (a b : Z) : 0 <= a -> 0 < b -> 0 <= Z.quot a b <= a.
Proof.
  intros Ha Hb. rewrite Z.quot_div_nonneg by lia. split.
  - apply Z.div_pos; lia.
  - apply Z.div_le_upper_bound; nia.
Qed.

(** ** Sphere::add *)

Section SphereFacts.
Context {K : Kernel} {V : VertexFormat K}.

Lemma Sphere_quad_ok (zdim width off z vertex : Z) :
  1 <= zdim <= INT_MAX -> 0 <= width -> 0 <= vertex ->
  vertex + width + 1 <= INT_MAX ->
  Sphere.quad zdim width off z vertex = Ok (Sphere_quad zdim width off z vertex).
Proof.
  intros Hz Hwidth Hv Hfit.
  unfold Sphere.quad, Sphere_quad, Sphere.upper_tri, Sphere.lower_tri,
    Sphere_upper_tri, Sphere_lower_tri.
  int_ops. destruct (z =? zdim - 1), (z =? 0); reflexivity.
Qed.

(** The counter of the triangle loops is [z * width + xy]. *)
Lemma Sphere_inner_loop (zdim width off z : Z) (n s : nat) (v : Z)
  (acc : list uvec3) :
  1 <= zdim <= INT_MAX -> 0 <= width -> 0 <= v ->
  v + Z.of_nat n + width <= INT_MAX ->
  foldM (fun (st : Z * list uvec3) (xy : Z) =>
           pushed <- Sphere.quad zdim width off z (fst st) ;;
           vertex <- (Ok (fst st) + Ok 1)%int ;;
           Ok (vertex, snd st ++ pushed))
        (map Z.of_nat (seq s n)) (v, acc)
  = Ok (v + Z.of_nat n,
        acc ++ flat_map (fun xy => Sphere_quad zdim width off z (v + (xy - Z.of_nat s)))
                        (map Z.of_nat (seq s n))).
Proof.
  intros Hz Hwidth. revert s v acc.
  induction n as [|n IH]; intros s v acc Hv Hfit.
  - simpl. now rewrite Z.add_0_r, app_nil_r.
  - cbn [seq map foldM flat_map fst snd].
    rewrite Sphere_quad_ok by lia. int_ops.
    rewrite IH by lia. do 2 f_equal; [lia|].
    rewrite <- app_assoc. f_equal.
    replace (v + (Z.of_nat s - Z.of_nat s)) with v by lia. f_equal.
    apply flat_map_ext. intros xy. f_equal. lia.
Qed.

Lemma Sphere_row (xydim zdim off z : Z) (acc : list uvec3) :
  0 <= xydim -> 1 <= zdim <= INT_MAX -> 0 <= z ->
  (z + 1) * (xydim + 1) + xydim <= INT_MAX ->
  Sphere.triangle_row xydim zdim (xydim + 1) off (z * (xydim + 1), acc) z
  = Ok ((z + 1) * (xydim + 1), acc ++ Sphere_ring xydim zdim (xydim + 1) off z).
Proof.
  intros Hx Hzdim Hz Hfit. unfold Sphere.triangle_row, range.
  rewrite Sphere_inner_loop by nia. cbn [bind fst snd]. int_ops.
  do 2 f_equal; [lia|]. f_equal. unfold Sphere_ring, range.
  apply flat_map_ext. intros xy. f_equal. simpl. lia.
Qed.

Lemma Sphere_outer_loop (xydim zdim off : Z) (n s : nat) (acc : list uvec3) :
  0 <= xydim -> 1 <= zdim <= INT_MAX ->
  Z.of_nat (s + n) * (xydim + 1) + xydim <= INT_MAX ->
  foldM (Sphere.triangle_row xydim zdim (xydim + 1) off)
        (map Z.of_nat (seq s n)) (Z.of_nat s * (xydim + 1), acc)
  = Ok (Z.of_nat (s + n) * (xydim + 1),
        acc ++ flat_map (Sphere_ring xydim zdim (xydim + 1) off)
                        (map Z.of_nat (seq s n))).
Proof.
  intros Hx Hzdim. revert s acc. induction n as [|n IH]; intros s acc Hfit.
  - simpl. now rewrite Nat.add_0_r, app_nil_r.
  - cbn [seq map foldM flat_map]. rewrite Sphere_row by nia. cbn [bind].
    replace (Z.of_nat s + 1) with (Z.of_nat (S s)) by lia.
    rewrite IH by (replace (S s + n)%nat with (s + S n)%nat by lia; exact Hfit).
    do 2 f_equal; [f_equal; lia|]. now rewrite <- app_assoc.
Qed.

(** The loops of [Sphere::add] with segment counts whose grid has no more
    than [2^31] points and whose [3 * w] is an [int]: the greatest [int]
    values they compute are [(w+1)*(h+1) - 1] and [3 * w]. *)
Lemma Sphere_triangles_ok (w h off : Z) :
  1 <= w -> 1 <= h -> (w + 1) * (h + 1) <= 2 ^ 31 ->
  Sphere.triangles w h (w + 1) off = Ok (Sphere_triangles w h (w + 1) off).
Proof.
  intros Hw Hh Hfit. unfold Sphere.triangles, Sphere_triangles, range.
  pose proof (Sphere_outer_loop w h off (Z.to_nat h) 0 []) as H.
  simpl in H. rewrite H by (unfold INT_MAX; nia). reflexivity.
Qed.

Lemma Sphere_triangles_closed (xydim zdim off : Z) :
  Sphere_triangles xydim zdim (xydim + 1) off
  = flat_map (Sphere_ring xydim zdim (xydim + 1) off) (range zdim).
Proof. reflexivity. Qed.

Lemma Sphere_vertices_ok (mat : mat4) (xyshift zshift : scalar) (w h : Z) :
  1 <= w -> 1 <= h -> (w + 1) * (h + 1) <= 2 ^ 31 ->
  Sphere.vertices mat xyshift zshift w h
  = Ok (Sphere_vertices mat xyshift zshift w h).
Proof.
  intros Hw Hh Hfit. unfold Sphere.vertices. int_ops.
  apply for_each_pure. intros z _. int_ops. reflexivity.
Qed.

Lemma Sphere_outline_ok (w h off : Z) :
  1 <= w -> 1 <= h -> (w + 1) * (h + 1) <= 2 ^ 31 -> 3 * w < 2 ^ 31 ->
  Sphere.outline w h (w + 1) off = Ok (Sphere_outline w h (w + 1) off).
Proof.
  intros Hw Hh Hfit Hthree. unfold Sphere.outline, Sphere_outline. cbv zeta.
  pose proof (Z.quot_pos h 2 ltac:(lia) ltac:(lia)) as Hm0.
  assert (Z.quot h 2 <= h) as Hm1 by (apply Z.quot_le_upper_bound; lia).
  rewrite (mapM_pure _ (fun xy => UVec2 (u32 (Z.quot h 2 * (w + 1) + xy + off))
                                       (u32 (Z.quot h 2 * (w + 1) + xy + 1 + off))))
    by (intros xy Hxy; apply in_range in Hxy; int_ops; reflexivity).
  cbn [bind].
  rewrite (for_each_pure _ (fun i =>
             map (fun z => UVec2 (u32 (Z.quot (w * i) 4 + (w + 1) * z + off))
                                 (u32 (Z.quot (w * i) 4 + (w + 1) * (z + 1) + off)))
                 (range h))).
  - reflexivity.
  - intros i Hi. apply in_range in Hi. int_ops.
    pose proof (Z.quot_pos (w * i) 4 ltac:(nia) ltac:(lia)) as Hq0.
    assert (Z.quot (w * i) 4 <= w) as Hq1 by (apply Z.quot_le_upper_bound; nia).
    apply mapM_pure. intros z Hz. apply in_range in Hz. int_ops. reflexivity.
Qed.

Lemma Sphere_length_quad (zdim width off z vertex : Z) :
  Z.of_nat (length (Sphere_quad zdim width off z vertex))
  = (if z =? zdim - 1 then 0 else 1) + (if z =? 0 then 0 else 1).
Proof.
  unfold Sphere_quad. rewrite length_app.
  destruct (z =? zdim - 1), (z =? 0); reflexivity.
Qed.

Lemma Sphere_length_ring (xydim zdim width off z : Z) :
  0 <= xydim ->
  Z.of_nat (length (Sphere_ring xydim zdim width off z))
  = xydim * ((if z =? zdim - 1 then 0 else 1) + (if z =? 0 then 0 else 1)).
Proof.
  intros Hx. unfold Sphere_ring.
  pose proof (Sphere_length_quad zdim width off z 0) as Hq.
  rewrite (length_flat_map_const _ _
             (length (Sphere_quad zdim width off z 0))).
  - rewrite length_range. nia.
  - intros xy _. unfold Sphere_quad. rewrite !length_app.
    destruct (z =? zdim - 1), (z =? 0); reflexivity.
Qed.

Lemma Sphere_length_triangles (w h off : Z) :
  0 <= w -> 1 <= h ->
  Z.of_nat (length (Sphere_triangles w h (w + 1) off)) = 2 * w * h - 2 * w.
Proof.
  intros Hw Hh. rewrite Sphere_triangles_closed by exact Hw.
  rewrite length_flat_map_total.
  transitivity
    (total (fun z => w * ((if z =? h - 1 then 0 else 1) + (if z =? 0 then 0 else 1)))
           (range h)).
  - clear Hh. induction (range h) as [|z l IH]; simpl; [reflexivity|].
    now rewrite IH, Sphere_length_ring.
  - rewrite total_scale, total_add.
    rewrite !total_all_but_range by lia.
    replace ((0 <=? h - 1) && (h - 1 <? h)) with true
      by (symmetry; apply andb_true_iff; split; [apply Z.leb_le|apply Z.ltb_lt]; lia).
    replace ((0 <=? 0) && (0 <? h)) with true
      by (symmetry; apply andb_true_iff; split; [apply Z.leb_le|apply Z.ltb_lt]; lia).
    lia.
Qed.

Lemma Sphere_length_vertices (mat : mat4) (xyshift zshift : scalar) (w h : Z) :
  0 <= w -> 0 <= h ->
  Z.of_nat (length (Sphere_vertices mat xyshift zshift w h)) = (w + 1) * (h + 1).
Proof.
  intros Hw Hh. unfold Sphere_vertices.
  rewrite (length_flat_map_const _ _ (Z.to_nat (w + 1))).
  - rewrite length_range. nia.
  - intros y _. now rewrite length_map, length_range.
Qed.

End SphereFacts.

Section SphereBounds.
Context {K : Kernel} {V : VertexFormat K} {L : KernelLaws K}.

Ltac open_quad :=
  unfold Sphere_ring, Sphere_quad; each_pass;
  repeat match goal with
    | |- Forall _ (if ?a =? ?b then _ else _) => destruct (Z.eqb_spec a b)
    end; each_pass.

Lemma Sphere_triangles_below (n w h : Z) :
  0 <= n -> 0 <= w -> 0 <= h ->
  Forall (tri_below (n + (w + 1) * (h + 1)))
         (Sphere_triangles w h (w + 1) (u32 n)).
Proof.
  intros Hn Hw Hh. rewrite Sphere_triangles_closed by exact Hw. open_quad.
  all: unfold tri_below, Sphere_upper_tri, Sphere_lower_tri; simpl.
  all: repeat match goal with |- _ /\ _ => split end; below_offset.
Qed.

Lemma Sphere_triangles_within (n w h : Z) :
  0 <= n -> 0 <= w -> 0 <= h -> n + (w + 1) * (h + 1) <= 2 ^ 32 ->
  Forall (tri_within n (n + (w + 1) * (h + 1)))
         (Sphere_triangles w h (w + 1) (u32 n)).
Proof.
  intros Hn Hw Hh Hfit. rewrite Sphere_triangles_closed by exact Hw. open_quad.
  all: unfold tri_within, Sphere_upper_tri, Sphere_lower_tri; simpl.
  all: repeat split; within_offset ((w + 1) * (h + 1)).
Qed.

Ltac quot_facts w h :=
  pose proof (quot_nonneg_le h 2 ltac:(lia) ltac:(lia));
  repeat match goal with
    | |- context [Z.quot (w * ?i) 4] =>
        lazymatch goal with
        | _ : 0 <= Z.quot (w * i) 4 <= w |- _ => fail
        | _ => assert (0 <= Z.quot (w * i) 4 <= w)
                 by (rewrite Z.quot_div_nonneg by nia; split;
                     [apply Z.div_pos; nia | apply Z.div_le_upper_bound; nia])
        end
    end.

Lemma Sphere_outline_below (n w h : Z) :
  0 <= n -> 0 <= w -> 0 <= h ->
  Forall (line_below (n + (w + 1) * (h + 1)))
         (Sphere_outline w h (w + 1) (u32 n)).
Proof.
  intros Hn Hw Hh. unfold Sphere_outline. each_pass.
  all: unfold line_below; simpl.
  all: quot_facts w h.
  all: repeat match goal with |- _ /\ _ => split end; below_offset.
Qed.

Lemma Sphere_outline_within (n w h : Z) :
  0 <= n -> 0 <= w -> 0 <= h -> n + (w + 1) * (h + 1) <= 2 ^ 32 ->
  Forall (line_within n (n + (w + 1) * (h + 1)))
         (Sphere_outline w h (w + 1) (u32 n)).
Proof.
  intros Hn Hw Hh Hfit. unfold Sphere_outline. each_pass.
  all: unfold line_within; simpl.
  all: quot_facts w h.
  all: repeat split; within_offset ((w + 1) * (h + 1)).
Qed.

Lemma Sphere_add_ok (geo : Mesh) (mat : mat4) (w h : Z) :
  1 <= w -> 1 <= h -> (w + 1) * (h + 1) <= 2 ^ 31 -> 3 * w < 2 ^ 31 ->
  Sphere.add geo mat w h =
  Ok {| m_vertices :=
          m_vertices geo
          ++ Sphere_vertices mat (fdiv (lit 1) (of_int w)) (fdiv (lit 1) (of_int h)) w h;
        m_indicesTriangles :=
          m_indicesTriangles geo
          ++ Sphere_triangles w h (w + 1) (u32 (vertex_count geo));
        m_indicesOutline :=
          m_indicesOutline geo
          ++ Sphere_outline w h (w + 1) (u32 (vertex_count geo)) |}.
Proof.
  intros Hw Hh Hfit Hthree. unfold Sphere.add.
  rewrite !fdiv_checked_ok by lia. int_ops.
  rewrite Sphere_vertices_ok by assumption. cbn [bind].
  rewrite Sphere_triangles_ok by assumption. cbn [bind].
  rewrite Sphere_outline_ok by assumption. reflexivity.
Qed.

(** The first [int] operation of [Sphere::add], [xydim + 1], overflows for
    the greatest [int]. *)
Lemma Sphere_add_overflow (geo : Mesh) (mat : mat4) (h : Z) :
  h <> 0 -> Sphere.add geo mat INT_MAX h = Fault SignedOverflow.
Proof.
  intros Hh. unfold Sphere.add.
  rewrite !fdiv_checked_ok by (unfold INT_MAX; lia). reflexivity.
Qed.

Lemma Sphere_add_grows (geo : Mesh) (mat : mat4) (w h : Z) :
  1 <= w -> 1 <= h -> (w + 1) * (h + 1) <= 2 ^ 31 -> 3 * w < 2 ^ 31 ->
  exists geo', Sphere.add geo mat w h = Ok geo'
               /\ grows geo geo' ((w + 1) * (h + 1)) (2 * w * h - 2 * w).
Proof.
  intros Hw Hh Hint Hthree. eexists. split; [now apply Sphere_add_ok|].
  pose proof (vertex_count_nonneg geo) as Hn.
  do 3 eexists. split; [|split; [|split; [|split; [|split]]]].
  - unfold extends. simpl. repeat split.
  - apply Sphere_length_vertices; lia.
  - apply Sphere_length_triangles; lia.
  - apply Sphere_triangles_below; lia.
  - apply Sphere_outline_below; lia.
  - intros Hfit. split.
    + apply Sphere_triangles_within; lia.
    + apply Sphere_outline_within; lia.
Qed.

End SphereBounds.

(** ** Torus::add *)

Section TorusFacts.
Context {K : Kernel} {V : VertexFormat K} {L : KernelLaws K}.

Lemma Torus_vertices_ok (w h : Z) (phi_step theta_step : scalar) :
  w <> 0 -> h <> 0 ->
  Torus.vertices (of_int w) (of_int h) phi_step theta_step w h
  = Ok (flat_map (fun latitude =>
                    map (Torus_vertex (of_int w) (of_int h) phi_step theta_step latitude)
                        (range (u32 h + 1)))
                 (range (u32 w + 1))).
Proof.
  intros Hw Hh. unfold Torus.vertices.
  rewrite (mapM_pure _ (fun latitude =>
             map (Torus_vertex (of_int w) (of_int h) phi_step theta_step latitude)
                 (range (u32 h + 1)))).
  - cbn [bind]. now rewrite flat_map_concat_map.
  - intros latitude _. apply mapM_pure. intros longitude _.
    unfold Torus.vertex_at. rewrite !fdiv_checked_ok by assumption. reflexivity.
Qed.

(** [Torus::add] with segment counts whose [(w + 1) * (h + 1)] is an
    [int]. *)
Lemma Torus_add_ok (geo : Mesh) (mat : mat4) (w h : Z) :
  1 <= w -> 1 <= h -> (w + 1) * (h + 1) < 2 ^ 31 ->
  exists vs,
    Torus.add geo mat w h =
    Ok {| m_vertices := m_vertices geo ++ vs;
          m_indicesTriangles :=
            m_indicesTriangles geo ++ Torus.triangles (u32 (w + 1)) w h;
          m_indicesOutline :=
            m_indicesOutline geo ++ Torus.outline (u32 (w + 1)) w h |}
    /\ Z.of_nat (length vs) = (u32 w + 1) * (u32 h + 1).
Proof.
  intros Hw Hh Hint. unfold Torus.add. int_ops.
  rewrite !fdiv_checked_ok by lia. cbn [bind].
  rewrite Torus_vertices_ok by lia. int_ops.
  eexists. split; [reflexivity|].
  pose proof (u32_bounds w). pose proof (u32_bounds h).
  rewrite (length_flat_map_const _ _ (Z.to_nat (u32 h + 1))).
  - rewrite length_range. nia.
  - intros y _. now rewrite length_map, length_range.
Qed.

End TorusFacts.

(** ** RandomMengerSponge::add *)

Section SpongeFacts.
Context {K : Kernel} {V : VertexFormat K}.

(** [split] pushes the cubes of the grid positions it does not skip. *)
Lemma split_grid (c : RandomMengerSponge.Cube) (cubes : list RandomMengerSponge.Cube) :
  RandomMengerSponge.split c cubes
  = cubes
    ++ map (fun p : Z * Z * Z =>
              let '(x, y, z) := p in
              RandomMengerSponge.sub_cube c (fdiv (RandomMengerSponge.m_size c) (lit 3)) x y z)
           (filter (fun p => negb (is_centre_or_face_centre p)) grid27).
Proof. reflexivity. Qed.

Lemma kept_count :
  length (filter (fun p => negb (is_centre_or_face_centre p)) grid27) = 20%nat.
Proof. reflexivity. Qed.

Lemma split_length (c : RandomMengerSponge.Cube) (cubes : list RandomMengerSponge.Cube) :
  length (RandomMengerSponge.split c cubes) = (length cubes + 20)%nat.
Proof. rewrite split_grid, length_app, length_map, kept_count. reflexivity. Qed.

(** The deterministic pass splits every cube of [previous] into [next]. *)
Lemma level_step_deterministic (probability : scalar)
  (previous next : list RandomMengerSponge.Cube) (g : rng) :
  fltb probability (lit 0) = true ->
  RandomMengerSponge.level_step probability (previous, next, g)
  = (fold_left (fun acc c => RandomMengerSponge.split c acc) previous next, [], g).
Proof.
  intros Hneg. unfold RandomMengerSponge.level_step. rewrite Hneg.
  assert (forall acc,
    fold_left (fun (acc : list RandomMengerSponge.Cube * rng) c =>
                 (RandomMengerSponge.split c (fst acc), snd acc)) previous (acc, g)
    = (fold_left (fun acc c => RandomMengerSponge.split c acc) previous acc, g)) as H.
  { induction previous as [|c previous IH]; intros acc; [reflexivity|].
    simpl. apply IH. }
  now rewrite H.
Qed.

Lemma refine_zero (probability : scalar) (g : rng) :
  RandomMengerSponge.refine 0 probability g = ([RandomMengerSponge.initial_cube], g).
Proof. reflexivity. Qed.

Lemma refine_one_deterministic (probability : scalar) (g : rng) :
  fltb probability (lit 0) = true ->
  RandomMengerSponge.refine 1 probability g
  = (RandomMengerSponge.split RandomMengerSponge.initial_cube [], g).
Proof.
  intros Hneg. unfold RandomMengerSponge.refine.
  change (range 1) with [0]. cbn [fold_left].
  now rewrite level_step_deterministic.
Qed.

Context {L : KernelLaws K}.

Lemma add_cube_grows (geo : Mesh) (c : RandomMengerSponge.Cube) :
  exists geo', RandomMengerSponge.add_cube geo c = Ok geo' /\ grows geo geo' 24 12.
Proof.
  unfold RandomMengerSponge.add_cube.
  destruct (Box_add_grows geo
              (mat_mul (translate mat4_1 (RandomMengerSponge.m_topLeftFront c))
                       (scale mat4_1 (Vec3 (RandomMengerSponge.m_size c)
                                           (RandomMengerSponge.m_size c)
                                           (RandomMengerSponge.m_size c))))
              1 1 1) as (geo' & E & G); try lia.
  exists geo'. split; [exact E|exact G].
Qed.

Lemma Sponge_add_grows (geo : Mesh) (mat : mat4) (w h d level : Z)
  (probability : scalar) (g : rng) :
  exists geo',
    fst (RandomMengerSponge.add geo mat w h d level probability g) = Ok geo'
    /\ grows geo geo'
         (Z.of_nat (length (fst (RandomMengerSponge.refine level probability g))) * 24)
         (Z.of_nat (length (fst (RandomMengerSponge.refine level probability g))) * 12).
Proof.
  unfold RandomMengerSponge.add.
  destruct (RandomMengerSponge.refine level probability g) as [cubes g'].
  cbn [fst]. apply foldM_grows. intros geo0 c _. apply add_cube_grows.
Qed.

End SpongeFacts.

(** ** The kernel [Sym.kernel] satisfies the law *)

Lemma Sym_laws : KernelLaws Sym.kernel.
Proof.
  constructor. intros n Hn. destruct n as [|p|p]; [contradiction| |]; reflexivity.
Qed.

(** * Stated properties *)

Section Stated.
Context {K : Kernel} {V : VertexFormat K}.

(** C3. If [meshA] is an element-wise copy of [meshB] (another mesh with
    the same content), then [append(meshA, meshB)] returns, after one pass
    per element of [meshB]; the merged mesh has twice the vertices
    of [meshB], the vertices of [meshB] follow the original ones as they
    are, and every triangle and outline index of the appended portion is
    the index of [meshB] plus the vertex count of [meshA] before the merge
    (which is that of [meshB]). The sum is the [uint32_t] sum of
    [glm::uvec3] and [glm::uvec2]; for a mesh whose indices are below its
    number of vertices, and twice that number within [2^32], it is the sum
    of the integers. *)
Theorem C3_append_copy (meshA meshB : Mesh) :
  meshA = meshB ->
  exists merged,
    (forall fuel, (Mesh.append_fuel meshB <= fuel)%nat ->
       Mesh.append fuel meshA (Mesh.Other meshB) = Some (Ok merged))
    /\ vertex_count merged = 2 * vertex_count meshB
    /\ vertex_count meshA = vertex_count meshB
    /\ m_vertices merged = m_vertices meshA ++ m_vertices meshB
    /\ m_indicesTriangles merged =
         m_indicesTriangles meshA
         ++ map (fun t => uvec3_add t (u32 (vertex_count meshA)))
                (m_indicesTriangles meshB)
    /\ m_indicesOutline merged =
         m_indicesOutline meshA
         ++ map (fun o => uvec2_add o (u32 (vertex_count meshA)))
                (m_indicesOutline meshB)
    /\ (indices_in_range meshB -> 2 * vertex_count meshB <= 2 ^ 32 ->
        m_indicesTriangles merged =
          m_indicesTriangles meshA
          ++ map (fun t => UVec3 (ux t + vertex_count meshA)
                                 (uy t + vertex_count meshA)
                                 (uz t + vertex_count meshA))
                 (m_indicesTriangles meshB)
        /\ m_indicesOutline merged =
             m_indicesOutline meshA
             ++ map (fun o => UVec2 (lx o + vertex_count meshA)
                                    (ly o + vertex_count meshA))
                    (m_indicesOutline meshB)).
Proof.
  intros ->. eexists. split; [intros fuel Hfuel; apply append_ok; exact Hfuel|].
  cbn [m_vertices m_indicesTriangles m_indicesOutline].
  pose proof (vertex_count_nonneg meshB) as Hn.
  split; [unfold vertex_count; cbn [m_vertices]; rewrite length_app; lia|].
  do 4 (split; [reflexivity|]).
  intros [Ht Ho] Hfit. split; f_equal; apply map_ext_in.
  - intros t Hin. rewrite Forall_forall in Ht.
    destruct (Ht t Hin) as (Hx & Hy & Hz). unfold index_below in *.
    unfold uvec3_add. rewrite !u32_add_u32_r, !u32_small by lia. reflexivity.
  - intros o Hin. rewrite Forall_forall in Ho.
    destruct (Ho o Hin) as (Hx & Hy). unfold index_below in *.
    unfold uvec2_add. rewrite !u32_add_u32_r, !u32_small by lia. reflexivity.
Qed.

(** C7. [flipWinding] returns on every mesh. One application leaves,
    at every place of the triangle index sequence, the triangle whose
    first index is the third index of the original, whose third index is
    its first and whose second index is its second; it changes neither the
    vertices nor the outline. A second application gives back the original
    mesh, so its triangle index sequence. *)
Theorem C7_flipWinding_involution (self : Mesh) :
  exists flipped twice,
    Mesh.flipWinding self = Ok flipped
    /\ m_indicesTriangles flipped
       = map (fun t => UVec3 (uz t) (uy t) (ux t)) (m_indicesTriangles self)
    /\ length (m_indicesTriangles flipped) = length (m_indicesTriangles self)
    /\ (forall i t, nth_error (m_indicesTriangles self) i = Some t ->
          exists t', nth_error (m_indicesTriangles flipped) i = Some t'
                     /\ ux t' = uz t /\ uy t' = uy t /\ uz t' = ux t)
    /\ m_vertices flipped = m_vertices self
    /\ m_indicesOutline flipped = m_indicesOutline self
    /\ Mesh.flipWinding flipped = Ok twice
    /\ m_indicesTriangles twice = m_indicesTriangles self
    /\ twice = self.
Proof.
  assert (map swap_xz (map swap_xz (m_indicesTriangles self))
          = m_indicesTriangles self) as Htwice.
  { rewrite map_map.
    rewrite (map_ext _ (fun t => t) swap_xz_involutive). apply map_id. }
  exists {| m_vertices := m_vertices self;
            m_indicesTriangles := map swap_xz (m_indicesTriangles self);
            m_indicesOutline := m_indicesOutline self |}, self.
  split; [apply flipWinding_ok|].
  cbn [m_vertices m_indicesTriangles m_indicesOutline].
  split; [reflexivity|]. split; [apply length_map|].
  split.
  { intros i t Hi. exists (swap_xz t). split; [|now repeat split].
    rewrite nth_error_map, Hi. reflexivity. }
  split; [reflexivity|]. split; [reflexivity|].
  split; [|split; reflexivity].
  rewrite flipWinding_ok. cbn [m_vertices m_indicesTriangles m_indicesOutline].
  rewrite Htwice. now destruct self.
Qed.

(** The vertices of [Plane::add] and of [Sphere::add] are the vertices of
    their grid points, position and normal multiplied by the matrix. *)
Lemma Plane_vertices_moved (mat : mat4) (xmove ymove : scalar) (w h : Z) :
  Plane_vertices mat xmove ymove w h
  = map (fun v => TVertex_of {| position := mat_vec mat (position v);
                                normal := mat_vec mat (normal v);
                                texcoord := texcoord v |})
        (flat_map (fun y => map (fun x => Plane.local_vertex xmove ymove x y)
                                (range (w + 1)))
                  (range (h + 1))).
Proof.
  unfold Plane_vertices. rewrite map_flat_map.
  apply flat_map_ext. intros y. now rewrite map_map.
Qed.

Lemma Sphere_vertices_moved (mat : mat4) (xyshift zshift : scalar) (w h : Z) :
  Sphere_vertices mat xyshift zshift w h
  = map (fun v => TVertex_of {| position := mat_vec mat (position v);
                                normal := mat_vec mat (normal v);
                                texcoord := texcoord v |})
        (flat_map (fun z => map (fun xy => Sphere.local_vertex xyshift zshift xy z)
                                (range (w + 1)))
                  (range (h + 1))).
Proof.
  unfold Sphere_vertices. rewrite map_flat_map.
  apply flat_map_ext. intros z. now rewrite map_map.
Qed.

End Stated.

(** ** The transform of [Plane::add] and of [Sphere::add] matters *)

(** [Plane::add] does depend on its transform: on the kernel [Sym.kernel]
    the identity and a scaling by 2 give different first vertices. *)
Lemma Plane_depends_on_transform :
  Plane.add (empty_mesh : Sym.mesh) (@mat4_1 Sym.kernel) 1 1
  <> Plane.add (empty_mesh : Sym.mesh)
       (@scale Sym.kernel mat4_1 (Vec3 (Sym.Lit 2) (Sym.Lit 2) (Sym.Lit 2))) 1 1.
Proof.
  rewrite !(@Plane_add_ok Sym.kernel Sym.vertex_format Sym_laws) by lia.
  intros H. injection H. intros. discriminate.
Qed.

Lemma Sphere_depends_on_transform :
  Sphere.add (empty_mesh : Sym.mesh) (@mat4_1 Sym.kernel) 1 1
  <> Sphere.add (empty_mesh : Sym.mesh)
       (@scale Sym.kernel mat4_1 (Vec3 (Sym.Lit 2) (Sym.Lit 2) (Sym.Lit 2))) 1 1.
Proof.
  rewrite !(@Sphere_add_ok Sym.kernel Sym.vertex_format Sym_laws) by lia.
  intros H. injection H. intros. discriminate.
Qed.

Section StatedOfGenerators.
Context {K : Kernel} {V : VertexFormat K} {L : KernelLaws K}.

(** C9. [Torus::add] does not use its transform: with any two matrices it
    gives the same result on the same mesh and segment counts, and where
    it returns (segment counts of at least 1 whose [(w+1)*(h+1)] is an
    [int]) the mesh it returns is the same for every matrix, so the same
    vertices, triangle indices and outline indices. [Plane::add] and
    [Sphere::add], where they return, push for every grid point the vertex
    whose position is the matrix times the position, and whose normal is
    the matrix times the normal, of a vertex that does not depend on the
    matrix; on the kernel [Sym.kernel] two matrices give them different
    results. *)
Theorem C9_torus_ignores_transform (geo : Mesh) (w h : Z) :
  (forall m1 m2 : mat4, Torus.add geo m1 w h = Torus.add geo m2 w h)
  /\ (1 <= w -> 1 <= h -> (w + 1) * (h + 1) < 2 ^ 31 ->
      exists geo', forall mat : mat4, Torus.add geo mat w h = Ok geo')
  /\ (1 <= w -> 1 <= h -> (w + 1) * (h + 1) <= 2 ^ 31 -> 3 * w < 2 ^ 31 ->
      exists plane_locals sphere_locals : list Vertex,
        Z.of_nat (length plane_locals) = (w + 1) * (h + 1)
        /\ Z.of_nat (length sphere_locals) = (w + 1) * (h + 1)
        /\ forall mat : mat4,
             (exists plane,
                Plane.add geo mat w h = Ok plane
                /\ m_vertices plane
                   = m_vertices geo
                     ++ map (fun v =>
                               TVertex_of {| position := mat_vec mat (position v);
                                             normal := mat_vec mat (normal v);
                                             texcoord := texcoord v |})
                            plane_locals)
             /\ (exists sphere,
                   Sphere.add geo mat w h = Ok sphere
                   /\ m_vertices sphere
                      = m_vertices geo
                        ++ map (fun v =>
                                  TVertex_of {| position := mat_vec mat (position v);
                                                normal := mat_vec mat (normal v);
                                                texcoord := texcoord v |})
                               sphere_locals))
  /\ Plane.add (empty_mesh : Sym.mesh) (@mat4_1 Sym.kernel) 1 1
     <> Plane.add (empty_mesh : Sym.mesh)
          (@scale Sym.kernel mat4_1 (Vec3 (Sym.Lit 2) (Sym.Lit 2) (Sym.Lit 2))) 1 1
  /\ Sphere.add (empty_mesh : Sym.mesh) (@mat4_1 Sym.kernel) 1 1
     <> Sphere.add (empty_mesh : Sym.mesh)
          (@scale Sym.kernel mat4_1 (Vec3 (Sym.Lit 2) (Sym.Lit 2) (Sym.Lit 2))) 1 1.
Proof.
  split; [intros m1 m2; reflexivity|].
  split.
  { intros Hw Hh Hint.
    exists {| m_vertices :=
                m_vertices geo
                ++ flat_map
                     (fun latitude =>
                        map (Torus_vertex (of_int w) (of_int h)
                               (fdiv (fmul (lit 2) pi) (of_int w))
                               (fdiv (fmul (lit 2) pi) (of_int h)) latitude)
                            (range (u32 h + 1)))
                     (range (u32 w + 1));
              m_indicesTriangles :=
                m_indicesTriangles geo ++ Torus.triangles (u32 (w + 1)) w h;
              m_indicesOutline :=
                m_indicesOutline geo ++ Torus.outline (u32 (w + 1)) w h |}.
    intros mat. unfold Torus.add. int_ops.
    rewrite !fdiv_checked_ok by lia. cbn [bind].
    rewrite Torus_vertices_ok by lia. int_ops. reflexivity. }
  split; [|split; [exact Plane_depends_on_transform
                  |exact Sphere_depends_on_transform]].
  intros Hw Hh Hint Hthree.
  exists (flat_map (fun y =>
            map (fun x => Plane.local_vertex (fdiv (lit 1) (of_int w))
                                             (fdiv (lit 1) (of_int h)) x y)
                (range (w + 1))) (range (h + 1))),
         (flat_map (fun z =>
            map (fun xy => Sphere.local_vertex (fdiv (lit 1) (of_int w))
                                               (fdiv (lit 1) (of_int h)) xy z)
                (range (w + 1))) (range (h + 1))).
  split.
  { rewrite (length_flat_map_const _ _ (Z.to_nat (w + 1)))
      by (intros; now rewrite length_map, length_range).
    rewrite length_range. nia. }
  split.
  { rewrite (length_flat_map_const _ _ (Z.to_nat (w + 1)))
      by (intros; now rewrite length_map, length_range).
    rewrite length_range. nia. }
  intros mat. split.
  - eexists. split; [now apply Plane_add_ok|].
    cbn [m_vertices]. now rewrite Plane_vertices_moved.
  - eexists. split; [now apply Sphere_add_ok|].
    cbn [m_vertices]. now rewrite Sphere_vertices_moved.
Qed.

(** C6, as the code has it. With [w >= 1] and [h >= 1] segments whose
    grid has no more than [2^31] points, so that the [int] operations of
    the call stay in range, and any transform, [Plane::add] returns and
    pushes back exactly [(w+1)*(h+1)] vertices and exactly [2*w*h]
    triangles, the upper and the lower triangle of each cell of the
    grid. *)
Theorem C6_plane_counts (geo : Mesh) (mat : mat4) (w h : Z) :
  1 <= w -> 1 <= h -> (w + 1) * (h + 1) <= 2 ^ 31 ->
  exists geo' vs ts os,
    Plane.add geo mat w h = Ok geo'
    /\ extends geo geo' vs ts os
    /\ Z.of_nat (length vs) = (w + 1) * (h + 1)
    /\ Z.of_nat (length ts) = 2 * w * h
    /\ ts = flat_map (fun y =>
              flat_map (fun x =>
                [Plane_upper_tri (w + 1) (u32 (vertex_count geo)) x y;
                 Plane_lower_tri (w + 1) (u32 (vertex_count geo)) x y])
              (range w))
            (range h).
Proof.
  intros Hw Hh Hint. do 4 eexists.
  split; [now apply Plane_add_ok|].
  split; [unfold extends; cbn [m_vertices m_indicesTriangles m_indicesOutline];
          repeat split|].
  split; [apply Plane_length_vertices; lia|].
  split; [apply Plane_length_triangles; lia|].
  reflexivity.
Qed.

(** C4, as the code has it. With [w >= 1] longitude and [h >= 1] latitude
    segments whose grid has no more than [2^31] points and with [3 * w]
    an [int], so that the [int] operations of the call stay in range, and
    any transform, [Sphere::add] returns and pushes back exactly
    [(w+1)*(h+1)] vertices and exactly [2*w*h - 2*w] triangles. The
    triangles are those of the quads ring by ring; a quad of an interior
    ring gives its upper and its lower triangle, a quad of the first ring
    (colatitude 0) only the upper one and a quad of the last ring only the
    lower one; with a single ring, which is both, a quad gives none. *)
Theorem C4_sphere_counts (geo : Mesh) (mat : mat4) (w h : Z) :
  1 <= w -> 1 <= h -> (w + 1) * (h + 1) <= 2 ^ 31 -> 3 * w < 2 ^ 31 ->
  exists geo' vs ts os,
    Sphere.add geo mat w h = Ok geo'
    /\ extends geo geo' vs ts os
    /\ Z.of_nat (length vs) = (w + 1) * (h + 1)
    /\ Z.of_nat (length ts) = 2 * w * h - 2 * w
    /\ ts = flat_map (fun z =>
              flat_map (fun xy =>
                Sphere_quad h (w + 1) (u32 (vertex_count geo)) z (z * (w + 1) + xy))
              (range w))
            (range h)
    /\ (forall off z vertex, 0 < z < h - 1 ->
          Sphere_quad h (w + 1) off z vertex
          = [Sphere_upper_tri (w + 1) off vertex; Sphere_lower_tri (w + 1) off vertex])
    /\ (forall off vertex, 1 < h ->
          Sphere_quad h (w + 1) off 0 vertex = [Sphere_upper_tri (w + 1) off vertex])
    /\ (forall off vertex, 1 < h ->
          Sphere_quad h (w + 1) off (h - 1) vertex
          = [Sphere_lower_tri (w + 1) off vertex])
    /\ (forall off vertex, h = 1 -> Sphere_quad h (w + 1) off 0 vertex = []).
Proof.
  intros Hw Hh Hint Hthree. do 4 eexists.
  split; [now apply Sphere_add_ok|].
  split; [unfold extends; cbn [m_vertices m_indicesTriangles m_indicesOutline];
          repeat split|].
  split; [apply Sphere_length_vertices; lia|].
  split; [apply Sphere_length_triangles; lia|].
  split; [reflexivity|].
  repeat split.
  - intros off z vertex Hz. unfold Sphere_quad.
    destruct (Z.eqb_spec z (h - 1)); [lia|].
    destruct (Z.eqb_spec z 0); [lia|]. reflexivity.
  - intros off vertex H1. unfold Sphere_quad.
    destruct (Z.eqb_spec 0 (h - 1)); [lia|]. reflexivity.
  - intros off vertex H1. unfold Sphere_quad.
    rewrite Z.eqb_refl. destruct (Z.eqb_spec (h - 1) 0); [lia|]. reflexivity.
  - intros off vertex ->. reflexivity.
Qed.

(** C5. When the probability is below zero, one pass of the level loop
    over a single cube [c] is [Cube::split]: of the 27 positions of the
    3x3x3 grid it pushes, in the order of the loops, the cubes of the 20
    positions that are neither the centre nor one of the six face centres
    (the positions with exactly two indices equal to 1). The cube of the
    position [(x, y, z)] has a third of the size of [c] and its corner at
    the corner of [c] moved by [x], [y] and [z] times that size. At level
    1 the cubes left at the end of the loop are those 20 cubes of the
    initial cube. *)
Theorem C5_menger_split (probability : scalar) (g : rng)
  (c : RandomMengerSponge.Cube) :
  fltb probability (lit 0) = true ->
  let third (parent : RandomMengerSponge.Cube) (p : Z * Z * Z) :=
    let '(x, y, z) := p in
    let size := fdiv (RandomMengerSponge.m_size parent) (lit 3) in
    let corner := RandomMengerSponge.m_topLeftFront parent in
    RandomMengerSponge.MkCube
      (Vec3 (fadd (v3x corner) (fmul (of_int x) size))
            (fadd (v3y corner) (fmul (of_int y) size))
            (fadd (v3z corner) (fmul (of_int z) size)))
      size in
  let kept_positions :=
    [(0, 0, 0); (0, 0, 1); (0, 0, 2); (0, 1, 0); (0, 1, 2);
     (0, 2, 0); (0, 2, 1); (0, 2, 2);
     (1, 0, 0); (1, 0, 2); (1, 2, 0); (1, 2, 2);
     (2, 0, 0); (2, 0, 1); (2, 0, 2); (2, 1, 0); (2, 1, 2);
     (2, 2, 0); (2, 2, 1); (2, 2, 2)] in
  RandomMengerSponge.level_step probability ([c], [], g)
  = (RandomMengerSponge.split c [], [], g)
  /\ RandomMengerSponge.split c [] = map (third c) kept_positions
  /\ kept_positions = filter (fun p => negb (is_centre_or_face_centre p)) grid27
  /\ length grid27 = 27%nat
  /\ length (RandomMengerSponge.split c []) = 20%nat
  /\ filter is_centre_or_face_centre grid27
     = [(0, 1, 1); (1, 0, 1); (1, 1, 0); (1, 1, 1); (1, 1, 2); (1, 2, 1); (2, 1, 1)]
  /\ (forall p, In p grid27 ->
        is_centre_or_face_centre p = true <-> p = (1, 1, 1) \/ centred p = 2)
  /\ fst (RandomMengerSponge.refine 1 probability g)
     = map (third (RandomMengerSponge.MkCube
                     (Vec3 (lit (- (1 # 4))) (lit (- (1 # 4))) (lit (- (1 # 4))))
                     (lit (1 # 2))))
           kept_positions.
Proof.
  intros Hneg third kept_positions.
  split; [rewrite level_step_deterministic by exact Hneg; reflexivity|].
  split; [reflexivity|].
  split; [reflexivity|].
  split; [reflexivity|].
  split; [apply (split_length c [])|].
  split; [reflexivity|].
  split.
  - intros p Hp. unfold grid27 in Hp. cbn in Hp.
    repeat (destruct Hp as [<-|Hp];
            [cbn; split; [intros E; first [discriminate E | now left | now right]
                         | intros [E|E]; first [discriminate E | reflexivity]]|]).
    contradiction.
  - rewrite refine_one_deterministic by exact Hneg. reflexivity.
Qed.

(** With [level = 0], any mesh, transform and probability,
    [RandomMengerSponge::add] is one [Box::add] with segment counts 1, 1, 1
    and the matrix [translate(corner) * scale(size)] of the initial cube:
    it returns, the six [Plane::add] calls of that box push back 24
    vertices and 12 triangles in all, and the random source is left as it
    was. *)
Lemma Sponge_level_zero (geo : Mesh) (mat : mat4) (w h d : Z)
  (probability : scalar) (g : rng) :
  let corner := Vec3 (lit (- (1 # 4))) (lit (- (1 # 4))) (lit (- (1 # 4))) in
  let size := Vec3 (lit (1 # 2)) (lit (1 # 2)) (lit (1 # 2)) in
  let placed := mat_mul (translate mat4_1 corner) (scale mat4_1 size) in
  RandomMengerSponge.add geo mat w h d 0 probability g
  = (Box.add geo placed 1 1 1, g)
  /\ Box.add geo placed 1 1 1
     = foldM (fun geo side =>
                Plane.add geo (mat_mul (mat_mul placed (Box.matrixRot side))
                                       Box.matrixMove) 1 1)
             (seq 0 6) geo
  /\ exists geo' vs ts os,
       fst (RandomMengerSponge.add geo mat w h d 0 probability g) = Ok geo'
       /\ extends geo geo' vs ts os
       /\ length vs = 24%nat
       /\ length ts = 12%nat.
Proof.
  intros corner size placed.
  assert (RandomMengerSponge.add geo mat w h d 0 probability g
          = (Box.add geo placed 1 1 1, g)) as Hadd.
  { unfold RandomMengerSponge.add. rewrite refine_zero.
    cbn [foldM]. unfold RandomMengerSponge.add_cube. cbn [RandomMengerSponge.m_topLeftFront
      RandomMengerSponge.m_size RandomMengerSponge.initial_cube].
    now rewrite bind_ret. }
  split; [exact Hadd|]. split; [reflexivity|].
  rewrite Hadd. cbn [fst].
  destruct (Box_add_grows geo placed 1 1 1) as (geo' & E & G); try lia.
  destruct G as (vs & ts & os & Hext & Hnv & Hnt & _).
  exists geo', vs, ts, os. repeat split; try assumption; try apply Hext; lia.
Qed.

(** The vertices of the first face of the box of the initial cube come
    first in the mesh the sponge of level 0 builds from an empty mesh. *)
Lemma Sponge_level_zero_face (mat : mat4) (w h d : Z) (probability : scalar)
  (g : rng) :
  let corner := Vec3 (lit (- (1 # 4))) (lit (- (1 # 4))) (lit (- (1 # 4))) in
  let size := Vec3 (lit (1 # 2)) (lit (1 # 2)) (lit (1 # 2)) in
  let placed := mat_mul (translate mat4_1 corner) (scale mat4_1 size) in
  exists geo' others,
    RandomMengerSponge.add empty_mesh mat w h d 0 probability g = (Ok geo', g)
    /\ length (m_vertices geo') = 24%nat
    /\ length (m_indicesTriangles geo') = 12%nat
    /\ m_vertices geo'
       = map (fun p : Z * Z =>
                TVertex_of
                  (Vertex_transform
                     (mat_mul (mat_mul placed (Box.matrixRot 0)) Box.matrixMove)
                     (Plane.local_vertex (fdiv (lit 1) (of_int 1))
                                         (fdiv (lit 1) (of_int 1))
                                         (fst p) (snd p))))
             [(0, 0); (1, 0); (0, 1); (1, 1)]
         ++ others.
Proof.
  intros corner size placed.
  destruct (Sponge_level_zero empty_mesh mat w h d probability g)
    as (Hadd & _ & geo' & vs & ts & os & E & (Hv & Ht & _) & Hnv & Hnt).
  fold corner size placed in Hadd. rewrite Hadd in E |- *. cbn [fst] in E.
  cbn [m_vertices m_indicesTriangles empty_mesh app] in Hv, Ht.
  pose proof E as Ebox. rewrite Box_add_unfold in E.
  rewrite Plane_add_ok in E by lia. cbn [bind] in E.
  set (face := {| m_vertices := _ |}) in E.
  assert (forall (a b : Mesh) (m : mat4),
            Plane.add a m 1 1 = Ok b ->
            exists more, m_vertices b = m_vertices a ++ more) as Hmore.
  { intros a b m Eab. rewrite Plane_add_ok in Eab by lia.
    injection Eab as <-. cbn [m_vertices]. eexists. reflexivity. }
  destruct (Plane.add face _ 1 1) as [g2|] eqn:E2; [|discriminate E].
  cbn [bind] in E.
  destruct (Plane.add g2 _ 1 1) as [g3|] eqn:E3; [|discriminate E].
  cbn [bind] in E.
  destruct (Plane.add g3 _ 1 1) as [g4|] eqn:E4; [|discriminate E].
  cbn [bind] in E.
  destruct (Plane.add g4 _ 1 1) as [g5|] eqn:E5; [|discriminate E].
  cbn [bind] in E.
  destruct (Hmore _ _ _ E2) as (m2 & H2). destruct (Hmore _ _ _ E3) as (m3 & H3).
  destruct (Hmore _ _ _ E4) as (m4 & H4). destruct (Hmore _ _ _ E5) as (m5 & H5).
  destruct (Hmore _ _ _ E) as (m6 & H6).
  exists geo', (m2 ++ m3 ++ m4 ++ m5 ++ m6).
  split; [now rewrite Ebox|].
  split; [rewrite Hv; exact Hnv|]. split; [rewrite Ht; exact Hnt|].
  rewrite H6, H5, H4, H3, H2. unfold face. cbn [m_vertices empty_mesh app].
  rewrite <- !app_assoc. reflexivity.
Qed.

(** C10, as the code has it. With all segment counts at least 1 and in
    the range where the [int] operations of the call stay in range,
    [append] of a mesh other than the receiver, [flipWinding] and every
    generator return a mesh and report no fault, for every mesh, transform,
    level, probability and state of the random source: no read is out of
    range, no [int] operation overflows and no division has a zero
    divisor, the divisors [(float) w], [(float) h] and [(float) d] made
    from the segment counts being non-zero. The range is, for a plane of
    [w] by [h] segments, a grid of no more than [2^31] points; for
    [Box::add] that of its three kinds of plane; for [Sphere::add] that
    and [3 * w] an [int]; for [Torus::add] [(w+1)*(h+1)] an [int];
    [RandomMengerSponge::add] does not use its segment counts. *)
Theorem C10_total (w h d level : Z) :
  1 <= w -> 1 <= h -> 1 <= d -> 0 <= level ->
  (forall self geo : Mesh, exists fuel m,
      Mesh.append fuel self (Mesh.Other geo) = Some (Ok m))
  /\ (forall self : Mesh, exists m, Mesh.flipWinding self = Ok m)
  /\ ((w + 1) * (h + 1) <= 2 ^ 31 ->
      forall geo mat, exists m, Plane.add geo mat w h = Ok m)
  /\ ((w + 1) * (h + 1) <= 2 ^ 31 -> (d + 1) * (h + 1) <= 2 ^ 31 ->
      (w + 1) * (d + 1) <= 2 ^ 31 ->
      forall geo mat, exists m, Box.add geo mat w h d = Ok m)
  /\ ((w + 1) * (h + 1) <= 2 ^ 31 -> 3 * w < 2 ^ 31 ->
      forall geo mat, exists m, Sphere.add geo mat w h = Ok m)
  /\ ((w + 1) * (h + 1) < 2 ^ 31 ->
      forall geo mat, exists m, Torus.add geo mat w h = Ok m)
  /\ (forall geo mat probability g, exists m,
        fst (RandomMengerSponge.add geo mat w h d level probability g) = Ok m)
  /\ fis_zero (of_int w) = false
  /\ fis_zero (of_int h) = false
  /\ fis_zero (of_int d) = false.
Proof.
  intros Hw Hh Hd Hl.
  split.
  { intros self geo. exists (Mesh.append_fuel geo). eexists.
    apply append_ok. apply Nat.le_refl. }
  split; [intros self; eexists; apply flipWinding_ok|].
  split; [intros Hwh geo mat; eexists; now apply Plane_add_ok|].
  split.
  { intros Hwh Hdh Hwd geo mat.
    destruct (Box_add_grows geo mat w h d) as (m & E & _); try assumption.
    now exists m. }
  split; [intros Hwh Hthree geo mat; eexists; now apply Sphere_add_ok|].
  split.
  { intros Hwh geo mat.
    destruct (Torus_add_ok geo mat w h) as (vs & E & _); try assumption.
    eexists. exact E. }
  split.
  { intros geo mat probability g.
    destruct (Sponge_add_grows geo mat w h d level probability g) as (m & E & _).
    now exists m. }
  repeat split; apply of_int_nonzero; lia.
Qed.

End StatedOfGenerators.

(** ** The invariant, operation by operation *)

Ltac split_components :=
  unfold tri_below, line_below, tri_within, line_within;
  cbn [ux uy uz lx ly];
  repeat match goal with |- _ /\ _ => split end.

Lemma index_belowb_spec (n i : Z) : index_belowb n i = true <-> index_below n i.
Proof.
  unfold index_belowb, index_below.
  rewrite andb_true_iff, Z.leb_le, Z.ltb_lt. reflexivity.
Qed.

Lemma tri_belowb_spec (n : Z) (t : uvec3) : tri_belowb n t = true <-> tri_below n t.
Proof.
  unfold tri_belowb, tri_below.
  rewrite !andb_true_iff, !index_belowb_spec. tauto.
Qed.

Lemma line_belowb_spec (n : Z) (o : uvec2) :
  line_belowb n o = true <-> line_below n o.
Proof.
  unfold line_belowb, line_below.
  rewrite !andb_true_iff, !index_belowb_spec. tauto.
Qed.

Lemma quarter_bounds (y n : Z) :
  0 <= y < 4 -> 0 <= n < 2 ^ 31 -> 0 <= Torus.quarter y n <= n.
Proof.
  intros Hy Hn. unfold Torus.quarter.
  assert (0 <= Z.quot (y * n) 4 <= n) as Hq.
  { rewrite Z.quot_div_nonneg by nia. split.
    - apply Z.div_pos; nia.
    - apply Z.div_le_upper_bound; nia. }
  rewrite u32_small; lia.
Qed.

Section InvariantFacts.
Context {K : Kernel} {V : VertexFormat K}.

Lemma indices_in_rangeb_spec (m : Mesh) :
  indices_in_rangeb m = true <-> indices_in_range m.
Proof.
  unfold indices_in_rangeb, indices_in_range.
  rewrite andb_true_iff, !forallb_forall, !Forall_forall.
  split; intros [Ht Ho]; split; intros x Hx.
  - apply tri_belowb_spec. now apply Ht.
  - apply line_belowb_spec. now apply Ho.
  - apply tri_belowb_spec. now apply Ht.
  - apply line_belowb_spec. now apply Ho.
Qed.

Lemma empty_in_range : indices_in_range empty_mesh.
Proof. split; constructor. Qed.

Lemma append_in_range (fuel : nat) (self geo merged : Mesh) :
  indices_in_range self -> indices_in_range geo ->
  Mesh.append fuel self (Mesh.Other geo) = Some (Ok merged) ->
  indices_in_range merged.
Proof.
  intros [St So] [Gt Go] E. apply append_returns in E. injection E as ->.
  pose proof (vertex_count_nonneg self) as Hs.
  pose proof (vertex_count_nonneg geo) as Hg.
  unfold indices_in_range, vertex_count in *.
  cbn [m_vertices m_indicesTriangles m_indicesOutline].
  rewrite length_app, Nat2Z.inj_add.
  split; apply Forall_app; split.
  - eapply Forall_impl; [|exact St]. intros t. apply tri_below_mono. lia.
  - rewrite Forall_map. eapply Forall_impl; [|exact Gt].
    intros t (Hx & Hy & Hz). unfold uvec3_add. split_components.
    all: apply u32_offset_below; assumption.
  - eapply Forall_impl; [|exact So]. intros o. apply line_below_mono. lia.
  - rewrite Forall_map. eapply Forall_impl; [|exact Go].
    intros o (Hx & Hy). unfold uvec2_add. split_components.
    all: apply u32_offset_below; assumption.
Qed.

Lemma flipWinding_in_range (self : Mesh) :
  indices_in_range self ->
  exists flipped, Mesh.flipWinding self = Ok flipped /\ indices_in_range flipped.
Proof.
  intros [St So]. eexists. split; [apply flipWinding_ok|].
  unfold indices_in_range, vertex_count in *.
  cbn [m_vertices m_indicesTriangles m_indicesOutline].
  split; [|exact So]. rewrite Forall_map.
  eapply Forall_impl; [|exact St].
  intros t (Hx & Hy & Hz). unfold swap_xz. split_components; assumption.
Qed.

Lemma Torus_triangles_below (k w h : Z) :
  1 <= w <= h -> h < 2 ^ 31 -> (w + 1) * (h + 1) <= k ->
  Forall (tri_below k) (Torus.triangles (u32 (w + 1)) w h).
Proof.
  intros Hw Hh Hk. unfold Torus.triangles.
  rewrite !u32_small by lia. each_pass.
  all: unfold Torus.triangle1, Torus.triangle2; split_components.
  all: apply u32_below; nia.
Qed.

Lemma Torus_outline_below (k w h : Z) :
  1 <= w < 2 ^ 31 -> 1 <= h < 2 ^ 31 -> (w + 1) * (h + 1) <= k ->
  Forall (line_below k) (Torus.outline (u32 (w + 1)) w h).
Proof.
  intros Hw Hh Hk. unfold Torus.outline.
  rewrite !u32_small by lia.
  each_pass.
  all: split_components.
  all: change (Z.of_nat 0) with 0; change (Z.of_nat 1) with 1;
       change (Z.of_nat 2) with 2; change (Z.of_nat 3) with 3.
  all: match goal with
       | |- context [Torus.quarter ?y ?n] =>
           pose proof (quarter_bounds y n ltac:(lia) ltac:(lia))
       end.
  all: apply u32_below; nia.
Qed.

End InvariantFacts.

Section TorusDefects.
Context {K : Kernel} {V : VertexFormat K} {L : KernelLaws K}.

(** Two rings of one segment: the triangle loops step by [columns = 3]
    over rows of two vertices. *)
Lemma Torus_add_2_1 (geo : Mesh) (mat : mat4) :
  exists vs,
    Torus.add geo mat 2 1 =
    Ok {| m_vertices := m_vertices geo ++ vs;
          m_indicesTriangles :=
            m_indicesTriangles geo
            ++ [UVec3 0 1 3; UVec3 3 1 4; UVec3 3 4 6; UVec3 6 4 7];
          m_indicesOutline := m_indicesOutline geo ++ Torus.outline 3 2 1 |}
    /\ length vs = 6%nat.
Proof.
  destruct (Torus_add_ok geo mat 2 1) as (vs & E & Hl); try lia.
  exists vs. split; [exact E|].
  change ((u32 2 + 1) * (u32 1 + 1)) with 6 in Hl. lia.
Qed.

(** One ring of one segment: the indices start at 0 whatever [geo] holds. *)
Lemma Torus_add_1_1 (geo : Mesh) (mat : mat4) :
  exists vs,
    Torus.add geo mat 1 1 =
    Ok {| m_vertices := m_vertices geo ++ vs;
          m_indicesTriangles :=
            m_indicesTriangles geo ++ [UVec3 0 1 2; UVec3 2 1 3];
          m_indicesOutline := m_indicesOutline geo ++ Torus.outline 2 1 1 |}
    /\ length vs = 4%nat.
Proof.
  destruct (Torus_add_ok geo mat 1 1) as (vs & E & Hl); try lia.
  exists vs. split; [exact E|].
  change ((u32 1 + 1) * (u32 1 + 1)) with 4 in Hl. lia.
Qed.

Lemma Torus_add_in_range (geo : Mesh) (mat : mat4) (w h : Z) :
  1 <= w <= h -> (w + 1) * (h + 1) < 2 ^ 31 -> indices_in_range geo ->
  exists geo',
    Torus.add geo mat w h = Ok geo'
    /\ vertex_count geo' = vertex_count geo + (w + 1) * (h + 1)
    /\ indices_in_range geo'.
Proof.
  intros Hw Hint [Gt Go].
  assert (h < 2 ^ 31) as Hh by nia.
  destruct (Torus_add_ok geo mat w h) as (vs & E & Hl); try lia.
  rewrite !u32_small in Hl by lia.
  pose proof (vertex_count_nonneg geo) as Hn.
  eexists. split; [exact E|].
  assert (vertex_count {| m_vertices := m_vertices geo ++ vs;
                          m_indicesTriangles :=
                            m_indicesTriangles geo ++ Torus.triangles (u32 (w + 1)) w h;
                          m_indicesOutline :=
                            m_indicesOutline geo ++ Torus.outline (u32 (w + 1)) w h |}
          = vertex_count geo + (w + 1) * (h + 1)) as Hc.
  { unfold vertex_count. cbn [m_vertices]. rewrite length_app. lia. }
  split; [exact Hc|].
  unfold indices_in_range. rewrite Hc.
  cbn [m_indicesTriangles m_indicesOutline].
  split; apply Forall_app; split.
  - eapply Forall_impl; [|exact Gt]. intros t. apply tri_below_mono. nia.
  - apply Torus_triangles_below; lia.
  - eapply Forall_impl; [|exact Go]. intros o. apply line_below_mono. nia.
  - apply Torus_outline_below; lia.
Qed.

End TorusDefects.

(** * Stated properties that [Torus::add] breaks *)

(** C1 (the code breaks it). On the empty mesh, [Torus::add] with
    [w = 2] rings of [h = 1] segment returns a mesh of 6 vertices whose
    triangles name the indices 6 and 7: the invariant that every index is
    below the number of vertices does not hold, although the segment
    counts are at least 1 and the target mesh satisfies it. *)
Theorem C1_torus_index_out_of_range :
  exists geo' : Sym.mesh,
    Torus.add (empty_mesh : Sym.mesh) (@mat4_1 Sym.kernel) 2 1 = Ok geo'
    /\ indices_in_range (empty_mesh : Sym.mesh)
    /\ vertex_count geo' = 6
    /\ m_indicesTriangles geo'
       = [UVec3 0 1 3; UVec3 3 1 4; UVec3 3 4 6; UVec3 6 4 7]
    /\ ~ indices_in_range geo'.
Proof.
  destruct (@Torus_add_2_1 Sym.kernel Sym.vertex_format Sym_laws
              empty_mesh (@mat4_1 Sym.kernel)) as (vs & E & Hl).
  eexists. split; [exact E|].
  split; [apply empty_in_range|].
  assert (vertex_count
            {| m_vertices := m_vertices (empty_mesh : Sym.mesh) ++ vs;
               m_indicesTriangles :=
                 m_indicesTriangles (empty_mesh : Sym.mesh)
                 ++ [UVec3 0 1 3; UVec3 3 1 4; UVec3 3 4 6; UVec3 6 4 7];
               m_indicesOutline :=
                 m_indicesOutline (empty_mesh : Sym.mesh) ++ Torus.outline 3 2 1 |}
          = 6) as Hc.
  { unfold vertex_count. cbn [m_vertices empty_mesh app]. rewrite Hl. reflexivity. }
  split; [exact Hc|]. split; [reflexivity|].
  intros [Ht _]. rewrite Hc in Ht.
  cbn [m_indicesTriangles empty_mesh app] in Ht.
  apply Forall_inv_tail, Forall_inv_tail, Forall_inv in Ht.
  destruct Ht as (_ & _ & Hz). unfold index_below in Hz. cbn [uz] in Hz. lia.
Qed.

(** C2 (the code breaks it). [Torus::add] on a mesh that already holds
    [n = 4] vertices (one plane) pushes 4 vertices and the triangles
    [(0, 1, 2)] and [(2, 1, 3)]: its indices are not offset by [n], and
    none of its triangles has its indices in [[n, n + 4)]. *)
Theorem C2_torus_indices_not_offset :
  exists (geo geo' : Sym.mesh) vs os,
    Plane.add (empty_mesh : Sym.mesh) (@mat4_1 Sym.kernel) 1 1 = Ok geo
    /\ vertex_count geo = 4
    /\ Torus.add geo (@mat4_1 Sym.kernel) 1 1 = Ok geo'
    /\ extends geo geo' vs [UVec3 0 1 2; UVec3 2 1 3] os
    /\ length vs = 4%nat
    /\ Forall (fun t => ~ tri_within 4 (4 + 4) t) [UVec3 0 1 2; UVec3 2 1 3].
Proof.
  pose proof (@Plane_add_ok Sym.kernel Sym.vertex_format Sym_laws
                empty_mesh (@mat4_1 Sym.kernel) 1 1
                ltac:(lia) ltac:(lia) ltac:(lia)) as EP.
  match type of EP with _ = Ok ?m => set (geo := m) in EP end.
  destruct (@Torus_add_1_1 Sym.kernel Sym.vertex_format Sym_laws
              geo (@mat4_1 Sym.kernel)) as (vs & ET & Hl).
  exists geo. eexists. exists vs, (Torus.outline 2 1 1).
  split; [exact EP|].
  split.
  { unfold vertex_count, geo. cbn [m_vertices empty_mesh app].
    apply (Plane_length_vertices (K := Sym.kernel) (V := Sym.vertex_format)); lia. }
  split; [exact ET|].
  split; [unfold extends; cbn [m_vertices m_indicesTriangles m_indicesOutline];
          repeat split|].
  split; [exact Hl|].
  apply Forall_cons; [|apply Forall_cons; [|apply Forall_nil]].
  all: unfold tri_within; cbn [ux uy uz]; lia.
Qed.

(** * The stated properties at concrete inputs *)

Lemma C3_append_copy_witness :
  exists merged : Sym.mesh,
    Mesh.append 8 Sym.triangle_mesh (Mesh.Other Sym.triangle_mesh)
    = Some (Ok merged)
    /\ vertex_count merged = 6
    /\ m_indicesTriangles merged = [UVec3 0 1 2; UVec3 3 4 5]
    /\ m_indicesOutline merged
       = [UVec2 0 1; UVec2 1 2; UVec2 2 0; UVec2 3 4; UVec2 4 5; UVec2 5 3].
Proof.
  destruct (@C3_append_copy Sym.kernel Sym.vertex_format
              Sym.triangle_mesh Sym.triangle_mesh eq_refl)
    as (merged & E & Hc & _ & _ & _ & _ & Hexact).
  exists merged. split; [apply E; vm_compute; apply Nat.le_refl|].
  split; [rewrite Hc; reflexivity|].
  destruct Hexact as [Ht Ho].
  - apply indices_in_rangeb_spec. reflexivity.
  - vm_compute. discriminate.
  - split; [rewrite Ht; reflexivity|rewrite Ho; reflexivity].
Defined.

Lemma C6_plane_counts_witness :
  exists (geo' : Sym.mesh) vs ts os,
    Plane.add (empty_mesh : Sym.mesh) (@mat4_1 Sym.kernel) 2 3 = Ok geo'
    /\ extends empty_mesh geo' vs ts os
    /\ Z.of_nat (length vs) = 12
    /\ Z.of_nat (length ts) = 12.
Proof.
  destruct (@C6_plane_counts Sym.kernel Sym.vertex_format Sym_laws
              empty_mesh (@mat4_1 Sym.kernel) 2 3
              ltac:(lia) ltac:(lia) ltac:(lia))
    as (geo' & vs & ts & os & E & X & Hv & Ht & _).
  exists geo', vs, ts, os.
  split; [exact E|]. split; [exact X|]. split; [exact Hv|exact Ht].
Defined.

Lemma C4_sphere_counts_witness :
  exists (geo' : Sym.mesh) vs ts os,
    Sphere.add (empty_mesh : Sym.mesh) (@mat4_1 Sym.kernel) 4 3 = Ok geo'
    /\ extends empty_mesh geo' vs ts os
    /\ Z.of_nat (length vs) = 20
    /\ Z.of_nat (length ts) = 16.
Proof.
  destruct (@C4_sphere_counts Sym.kernel Sym.vertex_format Sym_laws
              empty_mesh (@mat4_1 Sym.kernel) 4 3
              ltac:(lia) ltac:(lia) ltac:(lia) ltac:(lia))
    as (geo' & vs & ts & os & E & X & Hv & Ht & _).
  exists geo', vs, ts, os.
  split; [exact E|]. split; [exact X|]. split; [exact Hv|exact Ht].
Defined.

Lemma C5_menger_split_witness :
  @fltb Sym.kernel (Sym.Lit (-1)) (Sym.Lit 0) = true
  /\ map (fun c => (Sym.point3 (@RandomMengerSponge.m_topLeftFront Sym.kernel c),
                    Sym.reduced (@RandomMengerSponge.m_size Sym.kernel c)))
         (fst (@RandomMengerSponge.refine Sym.kernel 1 (Sym.Lit (-1)) 0))
     = [(Some (-1 # 4), Some (-1 # 4), Some (-1 # 4), Some (1 # 6));
        (Some (-1 # 4), Some (-1 # 4), Some (-1 # 12), Some (1 # 6));
        (Some (-1 # 4), Some (-1 # 4), Some (1 # 12), Some (1 # 6));
        (Some (-1 # 4), Some (-1 # 12), Some (-1 # 4), Some (1 # 6));
        (Some (-1 # 4), Some (-1 # 12), Some (1 # 12), Some (1 # 6));
        (Some (-1 # 4), Some (1 # 12), Some (-1 # 4), Some (1 # 6));
        (Some (-1 # 4), Some (1 # 12), Some (-1 # 12), Some (1 # 6));
        (Some (-1 # 4), Some (1 # 12), Some (1 # 12), Some (1 # 6));
        (Some (-1 # 12), Some (-1 # 4), Some (-1 # 4), Some (1 # 6));
        (Some (-1 # 12), Some (-1 # 4), Some (1 # 12), Some (1 # 6));
        (Some (-1 # 12), Some (1 # 12), Some (-1 # 4), Some (1 # 6));
        (Some (-1 # 12), Some (1 # 12), Some (1 # 12), Some (1 # 6));
        (Some (1 # 12), Some (-1 # 4), Some (-1 # 4), Some (1 # 6));
        (Some (1 # 12), Some (-1 # 4), Some (-1 # 12), Some (1 # 6));
        (Some (1 # 12), Some (-1 # 4), Some (1 # 12), Some (1 # 6));
        (Some (1 # 12), Some (-1 # 12), Some (-1 # 4), Some (1 # 6));
        (Some (1 # 12), Some (-1 # 12), Some (1 # 12), Some (1 # 6));
        (Some (1 # 12), Some (1 # 12), Some (-1 # 4), Some (1 # 6));
        (Some (1 # 12), Some (1 # 12), Some (-1 # 12), Some (1 # 6));
        (Some (1 # 12), Some (1 # 12), Some (1 # 12), Some (1 # 6))].
Proof.
  split; [reflexivity|].
  destruct (@C5_menger_split Sym.kernel (Sym.Lit (-1)) 0
              RandomMengerSponge.initial_cube eq_refl)
    as (_ & _ & _ & _ & _ & _ & _ & Hrefine).
  rewrite Hrefine. reflexivity.
Defined.

Lemma C7_flipWinding_involution_witness :
  exists flipped : Sym.mesh,
    Mesh.flipWinding Sym.triangle_mesh = Ok flipped
    /\ m_indicesTriangles Sym.triangle_mesh = [UVec3 0 1 2]
    /\ m_indicesTriangles flipped = [UVec3 2 1 0]
    /\ Mesh.flipWinding flipped = Ok Sym.triangle_mesh.
Proof.
  destruct (@C7_flipWinding_involution Sym.kernel Sym.vertex_format
              Sym.triangle_mesh)
    as (flipped & twice & E & Ht & _ & _ & _ & _ & E2 & _ & Hsame).
  exists flipped. split; [exact E|]. split; [reflexivity|].
  split; [rewrite Ht; reflexivity|]. rewrite E2, Hsame. reflexivity.
Defined.

Lemma C9_torus_ignores_transform_witness :
  Torus.add Sym.triangle_mesh (@mat4_1 Sym.kernel) 2 3
  = Torus.add Sym.triangle_mesh
      (@scale Sym.kernel mat4_1 (Vec3 (Sym.Lit 2) (Sym.Lit 2) (Sym.Lit 2))) 2 3
  /\ (exists geo' : Sym.mesh,
        Torus.add Sym.triangle_mesh (@mat4_1 Sym.kernel) 2 3 = Ok geo')
  /\ Plane.add (empty_mesh : Sym.mesh) (@mat4_1 Sym.kernel) 1 1
     <> Plane.add (empty_mesh : Sym.mesh)
          (@scale Sym.kernel mat4_1 (Vec3 (Sym.Lit 2) (Sym.Lit 2) (Sym.Lit 2))) 1 1.
Proof.
  destruct (@C9_torus_ignores_transform Sym.kernel Sym.vertex_format Sym_laws
              Sym.triangle_mesh 2 3) as (Hsame & Hreturns & _ & Hplane & _).
  split; [apply Hsame|]. split; [|exact Hplane].
  destruct (Hreturns ltac:(lia) ltac:(lia) ltac:(lia)) as (geo' & E).
  exists geo'. apply E.
Defined.

(** C6, as stated, fails: with [w = 2147483647], the greatest [int], and
    [h = 1], [Plane::add] does not return a mesh. Its first [int]
    operation, [int width = (xdim + 1)], overflows. *)
Lemma C6_plane_overflow :
  1 <= 2147483647 /\ 1 <= 1
  /\ Plane.add (empty_mesh : Sym.mesh) (@mat4_1 Sym.kernel) 2147483647 1
     = Fault SignedOverflow
  /\ ~ exists (geo' : Sym.mesh) vs ts os,
         Plane.add (empty_mesh : Sym.mesh) (@mat4_1 Sym.kernel) 2147483647 1
         = Ok geo'
         /\ extends empty_mesh geo' vs ts os
         /\ Z.of_nat (length vs) = (2147483647 + 1) * (1 + 1)
         /\ Z.of_nat (length ts) = 2 * 2147483647 * 1.
Proof.
  pose proof (@Plane_add_overflow Sym.kernel Sym.vertex_format Sym_laws
                empty_mesh (@mat4_1 Sym.kernel) 1 ltac:(lia)) as E.
  change INT_MAX with 2147483647 in E.
  split; [lia|]. split; [lia|]. split; [exact E|].
  intros (geo' & vs & ts & os & E' & _). rewrite E in E'. discriminate E'.
Qed.

(** C4, as stated, fails: with [w = 2147483647], the greatest [int], and
    [h = 1], [Sphere::add] does not return a mesh. Its first [int]
    operation, [int width = xydim + 1], overflows. *)
Lemma C4_sphere_overflow :
  1 <= 2147483647 /\ 1 <= 1
  /\ Sphere.add (empty_mesh : Sym.mesh) (@mat4_1 Sym.kernel) 2147483647 1
     = Fault SignedOverflow
  /\ ~ exists (geo' : Sym.mesh) vs ts os,
         Sphere.add (empty_mesh : Sym.mesh) (@mat4_1 Sym.kernel) 2147483647 1
         = Ok geo'
         /\ extends empty_mesh geo' vs ts os
         /\ Z.of_nat (length vs) = (2147483647 + 1) * (1 + 1)
         /\ Z.of_nat (length ts) = 2 * 2147483647 * 1 - 2 * 2147483647.
Proof.
  pose proof (@Sphere_add_overflow Sym.kernel Sym.vertex_format Sym_laws
                empty_mesh (@mat4_1 Sym.kernel) 1 ltac:(lia)) as E.
  change INT_MAX with 2147483647 in E.
  split; [lia|]. split; [lia|]. split; [exact E|].
  intros (geo' & vs & ts & os & E' & _). rewrite E in E'. discriminate E'.
Qed.

(** C8 (the code breaks it). With [level = 0] on the empty mesh,
    [RandomMengerSponge::add] returns the mesh of one [Box::add] with
    segment counts 1, 1, 1, of 24 vertices and 12 triangles, and leaves
    the random source as it was. The box is not at the extent of the
    initial cube, whose corner is [(-1/4, -1/4, -1/4)] and whose size is
    [1/2]: the four vertices of its first face are at [x] and [y] equal to
    [-3/4] and [1/4], the box of [Box::add] being the cube from -1 to 1
    that the matrix [translate(corner) * scale(size)] takes to the cube
    from [corner - size] to [corner + size]. *)
Theorem C8_sponge_box_misplaced :
  exists (geo' : Sym.mesh) (face others : list (@Vertex Sym.kernel)),
    RandomMengerSponge.add (empty_mesh : Sym.mesh) (@mat4_1 Sym.kernel)
      1 1 1 0 (Sym.Lit (-1)) 0 = (Ok geo', 0)
    /\ length (m_vertices geo') = 24%nat
    /\ length (m_indicesTriangles geo') = 12%nat
    /\ m_vertices geo' = face ++ others
    /\ map (fun v => Sym.point4 (@position Sym.kernel v)) face
       = [(Some (-3 # 4), Some (-3 # 4), Some (1 # 4));
          (Some (1 # 4), Some (-3 # 4), Some (1 # 4));
          (Some (-3 # 4), Some (1 # 4), Some (1 # 4));
          (Some (1 # 4), Some (1 # 4), Some (1 # 4))]
    /\ Sym.point3 (@RandomMengerSponge.m_topLeftFront Sym.kernel
                     RandomMengerSponge.initial_cube)
       = (Some (-1 # 4), Some (-1 # 4), Some (-1 # 4))
    /\ Sym.reduced (@RandomMengerSponge.m_size Sym.kernel
                      RandomMengerSponge.initial_cube)
       = Some (1 # 2).
Proof.
  destruct (@Sponge_level_zero_face Sym.kernel Sym.vertex_format Sym_laws
              (@mat4_1 Sym.kernel) 1 1 1 (Sym.Lit (-1)) 0)
    as (geo' & others & E & Hnv & Hnt & Hv).
  exists geo'. eexists. exists others.
  split; [exact E|]. split; [exact Hnv|]. split; [exact Hnt|].
  split; [exact Hv|].
  split; [|split; reflexivity].
  vm_compute. reflexivity.
Qed.

Lemma C10_total_witness :
  (exists fuel (m : Sym.mesh),
     Mesh.append fuel Sym.triangle_mesh (Mesh.Other Sym.triangle_mesh)
     = Some (Ok m))
  /\ (exists m : Sym.mesh,
        Plane.add (empty_mesh : Sym.mesh) (@mat4_1 Sym.kernel) 2 3 = Ok m)
  /\ (exists m : Sym.mesh,
        Sphere.add (empty_mesh : Sym.mesh) (@mat4_1 Sym.kernel) 2 3 = Ok m)
  /\ (exists m : Sym.mesh,
        Torus.add (empty_mesh : Sym.mesh) (@mat4_1 Sym.kernel) 2 3 = Ok m)
  /\ (exists m : Sym.mesh,
        fst (RandomMengerSponge.add (empty_mesh : Sym.mesh) (@mat4_1 Sym.kernel)
               2 3 1 2 (Sym.Lit (1 # 2)) 0) = Ok m)
  /\ @fis_zero Sym.kernel (of_int 2) = false.
Proof.
  destruct (@C10_total Sym.kernel Sym.vertex_format Sym_laws 2 3 1 2
              ltac:(lia) ltac:(lia) ltac:(lia) ltac:(lia))
    as (Ha & _ & Hp & _ & Hsp & Ht & Hs & Hw & _).
  split; [apply Ha|]. split; [apply Hp; lia|]. split; [apply Hsp; lia|].
  split; [apply Ht; lia|]. split; [apply Hs|exact Hw].
Defined.

(** C10, as stated, fails: with the segment count [w = 2147483647], the
    greatest [int], and [h = 1], neither [Plane::add] nor [Torus::add]
    returns a mesh. Their first [int] operations,
    [int width = (xdim + 1)] and
    [unsigned int numVertices = (w + 1) * (h + 1)], overflow. *)
Lemma C10_generators_overflow :
  1 <= 2147483647 /\ 1 <= 1
  /\ Plane.add (empty_mesh : Sym.mesh) (@mat4_1 Sym.kernel) 2147483647 1
     = Fault SignedOverflow
  /\ Torus.add (empty_mesh : Sym.mesh) (@mat4_1 Sym.kernel) 2147483647 1
     = Fault SignedOverflow
  /\ ~ (exists m : Sym.mesh,
          Plane.add (empty_mesh : Sym.mesh) (@mat4_1 Sym.kernel) 2147483647 1
          = Ok m)
  /\ ~ (exists m : Sym.mesh,
          Torus.add (empty_mesh : Sym.mesh) (@mat4_1 Sym.kernel) 2147483647 1
          = Ok m).
Proof.
  pose proof (@Plane_add_overflow Sym.kernel Sym.vertex_format Sym_laws
                empty_mesh (@mat4_1 Sym.kernel) 1 ltac:(lia)) as EP.
  change INT_MAX with 2147483647 in EP.
  assert (Torus.add (empty_mesh : Sym.mesh) (@mat4_1 Sym.kernel) 2147483647 1
          = Fault SignedOverflow) as ET by reflexivity.
  split; [lia|]. split; [lia|]. split; [exact EP|]. split; [exact ET|].
  split; intros (m & E).
  - rewrite EP in E. discriminate E.
  - rewrite ET in E. discriminate E.
Qed.

(** [append] with the receiver itself as argument, on a mesh of three
    vertices: its first loop pushes a vertex per pass and compares its
    counter with the size it has just increased, so no number of passes
    ends it. *)
Lemma self_append_does_not_end :
  ~ exists fuel r, Mesh.append fuel Sym.triangle_mesh Mesh.Self = Some r.
Proof.
  intros (fuel & r & E).
  rewrite append_self_never_returns in E; discriminate.
Qed.

(** * Further properties *)

Section Further.
Context {K : Kernel} {V : VertexFormat K} {L : KernelLaws K}.

(** The invariant of meshes. Every mesh built from one that satisfies the
    invariant, by [Plane::add], [Box::add], [Sphere::add] and
    [RandomMengerSponge::add] with segment counts of at least 1, by
    [Torus::add] with [1 <= w <= h], by [append] of another such mesh and
    by [flipWinding], in any sequence, satisfies it: every index of a
    triangle and of an outline segment is below the number of vertices.
    The segment counts are those for which the [int] operations of the
    call stay in range, as [built] says. *)
Theorem built_in_range (m : Mesh) : built m -> indices_in_range m.
Proof.
  induction 1 as
    [ geo Hgeo
    | geo geo' mat w h _ IH Hw Hh Hwh E
    | geo geo' mat w h d _ IH Hw Hh Hd Hwh Hdh Hwd E
    | geo geo' mat w h _ IH Hw Hh Hwh Hthree E
    | geo geo' mat w h _ IH Hw Hh E
    | geo geo' mat w h d level probability g _ IH Hw Hh Hd E
    | self geo merged fuel _ IHs _ IHg E
    | self flipped _ IH E ].
  - exact Hgeo.
  - destruct (Plane_add_grows geo mat w h Hw Hh Hwh) as (m & Em & G).
    rewrite E in Em. injection Em as <-. exact (grows_in_range _ _ _ _ G IH).
  - destruct (Box_add_grows geo mat w h d Hw Hh Hd Hwh Hdh Hwd) as (m & Em & G).
    rewrite E in Em. injection Em as <-. exact (grows_in_range _ _ _ _ G IH).
  - destruct (Sphere_add_grows geo mat w h Hw Hh Hwh Hthree) as (m & Em & G).
    rewrite E in Em. injection Em as <-. exact (grows_in_range _ _ _ _ G IH).
  - destruct (Torus_add_in_range geo mat w h Hw Hh IH) as (m & Em & _ & R).
    rewrite E in Em. injection Em as <-. exact R.
  - destruct (Sponge_add_grows geo mat w h d level probability g) as (m & Em & G).
    rewrite E in Em. injection Em as <-. exact (grows_in_range _ _ _ _ G IH).
  - exact (append_in_range fuel self geo merged IHs IHg E).
  - destruct (flipWinding_in_range self IH) as (m & Em & R).
    rewrite E in Em. injection Em as <-. exact R.
Qed.

(** Indices of the vertices of the same call. [Plane::add], [Box::add] and
    [Sphere::add], called on a mesh of [n] vertices with segment counts of
    at least 1 for which their [int] operations stay in range (a grid of
    no more than [2^31] points for each plane, and [3 * w] an [int] for
    [Sphere::add]), push [k] vertices; when [n + k] fits [uint32_t] every
    triangle and outline index they push is in [[n, n + k)]. *)
Theorem appended_indices_offset (geo : Mesh) (mat : mat4) (w h d : Z) :
  1 <= w -> 1 <= h -> 1 <= d ->
  (w + 1) * (h + 1) <= 2 ^ 31 -> (d + 1) * (h + 1) <= 2 ^ 31 ->
  (w + 1) * (d + 1) <= 2 ^ 31 -> 3 * w < 2 ^ 31 ->
  (exists geo' vs ts os,
     Plane.add geo mat w h = Ok geo' /\ extends geo geo' vs ts os
     /\ Z.of_nat (length vs) = (w + 1) * (h + 1)
     /\ (vertex_count geo + (w + 1) * (h + 1) <= 2 ^ 32 ->
         Forall (tri_within (vertex_count geo)
                            (vertex_count geo + (w + 1) * (h + 1))) ts
         /\ Forall (line_within (vertex_count geo)
                                (vertex_count geo + (w + 1) * (h + 1))) os))
  /\ (exists geo' vs ts os,
        Sphere.add geo mat w h = Ok geo' /\ extends geo geo' vs ts os
        /\ Z.of_nat (length vs) = (w + 1) * (h + 1)
        /\ (vertex_count geo + (w + 1) * (h + 1) <= 2 ^ 32 ->
            Forall (tri_within (vertex_count geo)
                               (vertex_count geo + (w + 1) * (h + 1))) ts
            /\ Forall (line_within (vertex_count geo)
                                   (vertex_count geo + (w + 1) * (h + 1))) os))
  /\ (let k := 2 * ((w + 1) * (h + 1)) + 2 * ((d + 1) * (h + 1))
               + 2 * ((w + 1) * (d + 1)) in
      exists geo' vs ts os,
        Box.add geo mat w h d = Ok geo' /\ extends geo geo' vs ts os
        /\ Z.of_nat (length vs) = k
        /\ (vertex_count geo + k <= 2 ^ 32 ->
            Forall (tri_within (vertex_count geo) (vertex_count geo + k)) ts
            /\ Forall (line_within (vertex_count geo) (vertex_count geo + k)) os)).
Proof.
  intros Hw Hh Hd Hwh Hdh Hwd Hthree. split; [|split].
  - destruct (Plane_add_grows geo mat w h Hw Hh Hwh)
      as (geo' & E & vs & ts & os & X & Hv & _ & _ & _ & W).
    now exists geo', vs, ts, os.
  - destruct (Sphere_add_grows geo mat w h Hw Hh Hwh Hthree)
      as (geo' & E & vs & ts & os & X & Hv & _ & _ & _ & W).
    now exists geo', vs, ts, os.
  - intros k.
    destruct (Box_add_grows geo mat w h d Hw Hh Hd Hwh Hdh Hwd)
      as (geo' & E & vs & ts & os & X & Hv & _ & _ & _ & W).
    now exists geo', vs, ts, os.
Qed.

(** The counts of [Box::add], for segment counts of at least 1 whose
    three kinds of plane have grids of no more than [2^31] points (the
    [int] operations of the six [Plane::add] calls stay in range): six
    planes that share no vertex, so [6*(w+1)*(h+1)] vertices when
    [w = h = d]. *)
Theorem Box_counts (geo : Mesh) (mat : mat4) (w h d : Z) :
  1 <= w -> 1 <= h -> 1 <= d ->
  (w + 1) * (h + 1) <= 2 ^ 31 -> (d + 1) * (h + 1) <= 2 ^ 31 ->
  (w + 1) * (d + 1) <= 2 ^ 31 ->
  exists geo' vs ts os,
    Box.add geo mat w h d = Ok geo'
    /\ extends geo geo' vs ts os
    /\ Z.of_nat (length vs)
       = 2 * ((w + 1) * (h + 1)) + 2 * ((d + 1) * (h + 1)) + 2 * ((w + 1) * (d + 1))
    /\ Z.of_nat (length ts) = 4 * w * h + 4 * d * h + 4 * w * d
    /\ (w = h -> h = d -> Z.of_nat (length vs) = 6 * (w + 1) * (h + 1)).
Proof.
  intros Hw Hh Hd Hwh Hdh Hwd.
  destruct (Box_add_grows geo mat w h d Hw Hh Hd Hwh Hdh Hwd)
    as (geo' & E & vs & ts & os & X & Hv & Ht & _).
  exists geo', vs, ts, os. repeat split; try assumption; try apply X; nia.
Qed.

(** The counts of [Torus::add], for segment counts of at least 1 whose
    [(w+1)*(h+1)] is an [int] (the two [int] operations of the call,
    [(w + 1) * (h + 1)] and [w + 1], stay in range): [(w+1)*(h+1)]
    vertices and [2*w*h] triangles. *)
Theorem Torus_counts (geo : Mesh) (mat : mat4) (w h : Z) :
  1 <= w -> 1 <= h -> (w + 1) * (h + 1) < 2 ^ 31 ->
  exists geo' vs ts os,
    Torus.add geo mat w h = Ok geo'
    /\ extends geo geo' vs ts os
    /\ Z.of_nat (length vs) = (w + 1) * (h + 1)
    /\ Z.of_nat (length ts) = 2 * w * h.
Proof.
  intros Hw Hh Hint.
  assert (w < 2 ^ 31 /\ h < 2 ^ 31) as [Hw' Hh'] by nia.
  destruct (Torus_add_ok geo mat w h) as (vs & E & Hl); try lia.
  rewrite !u32_small in Hl by lia.
  eexists. exists vs. do 2 eexists.
  split; [exact E|].
  split; [unfold extends; cbn [m_vertices m_indicesTriangles m_indicesOutline];
          repeat split|].
  split; [exact Hl|].
  unfold Torus.triangles. rewrite !u32_small by lia.
  rewrite (length_flat_map_const _ _ (Z.to_nat h * 2)%nat).
  - rewrite length_range. nia.
  - intros y _. rewrite (length_flat_map_const _ _ 2%nat).
    + now rewrite length_range.
    + reflexivity.
Qed.

End Further.

Lemma built_in_range_witness :
  exists geo' : Sym.mesh,
    Plane.add (empty_mesh : Sym.mesh) (@mat4_1 Sym.kernel) 1 1 = Ok geo'
    /\ indices_in_range geo'.
Proof.
  eexists. split.
  - apply (@Plane_add_ok Sym.kernel Sym.vertex_format Sym_laws); lia.
  - apply (@built_in_range Sym.kernel Sym.vertex_format Sym_laws).
    apply (built_plane empty_mesh _ (@mat4_1 Sym.kernel) 1 1).
    + apply built_target, empty_in_range.
    + lia.
    + lia.
    + lia.
    + apply (@Plane_add_ok Sym.kernel Sym.vertex_format Sym_laws); lia.
Defined.

Lemma appended_indices_offset_witness :
  exists (geo' : Sym.mesh) vs ts os,
    Sphere.add Sym.triangle_mesh (@mat4_1 Sym.kernel) 2 2 = Ok geo'
    /\ extends Sym.triangle_mesh geo' vs ts os
    /\ Forall (tri_within 3 (3 + 9)) ts.
Proof.
  destruct (@appended_indices_offset Sym.kernel Sym.vertex_format Sym_laws
              Sym.triangle_mesh (@mat4_1 Sym.kernel) 2 2 2
              ltac:(lia) ltac:(lia) ltac:(lia) ltac:(lia) ltac:(lia)
              ltac:(lia) ltac:(lia))
    as (_ & (geo' & vs & ts & os & E & X & _ & W) & _).
  exists geo', vs, ts, os. split; [exact E|]. split; [exact X|].
  apply W. vm_compute. discriminate.
Defined.

Lemma Box_counts_witness :
  exists (geo' : Sym.mesh) vs ts os,
    Box.add (empty_mesh : Sym.mesh) (@mat4_1 Sym.kernel) 2 2 2 = Ok geo'
    /\ extends empty_mesh geo' vs ts os
    /\ Z.of_nat (length vs) = 54
    /\ Z.of_nat (length ts) = 48.
Proof.
  destruct (@Box_counts Sym.kernel Sym.vertex_format Sym_laws
              empty_mesh (@mat4_1 Sym.kernel) 2 2 2
              ltac:(lia) ltac:(lia) ltac:(lia) ltac:(lia) ltac:(lia) ltac:(lia))
    as (geo' & vs & ts & os & E & X & Hv & Ht & _).
  exists geo', vs, ts, os.
  split; [exact E|]. split; [exact X|]. split; [exact Hv|exact Ht].
Defined.

Lemma Torus_counts_witness :
  exists (geo' : Sym.mesh) vs ts os,
    Torus.add (empty_mesh : Sym.mesh) (@mat4_1 Sym.kernel) 2 3 = Ok geo'
    /\ extends empty_mesh geo' vs ts os
    /\ Z.of_nat (length vs) = 12
    /\ Z.of_nat (length ts) = 12.
Proof.
  destruct (@Torus_counts Sym.kernel Sym.vertex_format Sym_laws
              empty_mesh (@mat4_1 Sym.kernel) 2 3
              ltac:(lia) ltac:(lia) ltac:(lia))
    as (geo' & vs & ts & os & E & X & Hv & Ht).
  exists geo', vs, ts, os.
  split; [exact E|]. split; [exact X|]. split; [exact Hv|exact Ht].
Defined.

(** * How the operations compose *)

Lemma u32_add_u32_l (a b : Z) : u32 (u32 a + b) = u32 (a + b).
Proof. unfold u32. apply Zplus_mod_idemp_l. Qed.

Lemma u32_zero : u32 0 = 0.
Proof. reflexivity. Qed.

Lemma u32_sum (b a : Z) : u32 (u32 b + u32 a) = u32 (a + b).
Proof. rewrite u32_add_u32_l, u32_add_u32_r. f_equal. lia. Qed.

Lemma uvec3_add_add (t : uvec3) (a b : Z) :
  uvec3_add (uvec3_add t a) b = uvec3_add t (a + b).
Proof.
  unfold uvec3_add. cbn [ux uy uz].
  rewrite !u32_add_u32_l, !Z.add_assoc. reflexivity.
Qed.

Lemma uvec2_add_add (o : uvec2) (a b : Z) :
  uvec2_add (uvec2_add o a) b = uvec2_add o (a + b).
Proof.
  unfold uvec2_add. cbn [lx ly].
  rewrite !u32_add_u32_l, !Z.add_assoc. reflexivity.
Qed.

Lemma uvec3_add_u32 (t : uvec3) (a : Z) : uvec3_add t (u32 a) = uvec3_add t a.
Proof. unfold uvec3_add. now rewrite !u32_add_u32_r. Qed.

Lemma uvec2_add_u32 (o : uvec2) (a : Z) : uvec2_add o (u32 a) = uvec2_add o a.
Proof. unfold uvec2_add. now rewrite !u32_add_u32_r. Qed.

Lemma swap_xz_add (t : uvec3) (a : Z) :
  swap_xz (uvec3_add t a) = uvec3_add (swap_xz t) a.
Proof. reflexivity. Qed.

Section MergeFacts.
Context {K : Kernel} {V : VertexFormat K}.

Lemma append_merge (fuel : nat) (a b : Mesh) :
  (Mesh.append_fuel b <= fuel)%nat ->
  Mesh.append fuel a (Mesh.Other b) = Some (Ok (merge a b)).
Proof. apply append_ok. Qed.

Lemma vertex_count_merge (a b : Mesh) :
  vertex_count (merge a b) = vertex_count a + vertex_count b.
Proof.
  unfold vertex_count, merge. cbn [m_vertices]. rewrite length_app. lia.
Qed.

Lemma merge_assoc (a b c : Mesh) : merge (merge a b) c = merge a (merge b c).
Proof.
  unfold merge at 1 3. rewrite vertex_count_merge.
  unfold merge. cbn [m_vertices m_indicesTriangles m_indicesOutline].
  rewrite !map_app, !map_map, <- !app_assoc.
  f_equal; do 2 f_equal; apply map_ext; intros x.
  - rewrite uvec3_add_add, <- (uvec3_add_u32 x (_ + _)), u32_sum. reflexivity.
  - rewrite uvec2_add_add, <- (uvec2_add_u32 x (_ + _)), u32_sum. reflexivity.
Qed.

Lemma merge_empty_r (a : Mesh) : merge a empty_mesh = a.
Proof.
  destruct a. unfold merge.
  cbn [m_vertices m_indicesTriangles m_indicesOutline empty_mesh map].
  now rewrite !app_nil_r.
Qed.

Lemma append_fuel_merge (b c : Mesh) :
  (Mesh.append_fuel (merge b c) <= Mesh.append_fuel b + Mesh.append_fuel c)%nat.
Proof.
  unfold Mesh.append_fuel, merge.
  cbn [m_vertices m_indicesTriangles m_indicesOutline].
  rewrite !length_app, !length_map. lia.
Qed.

Lemma flipWinding_merge (a b fa fb : Mesh) :
  Mesh.flipWinding a = Ok fa -> Mesh.flipWinding b = Ok fb ->
  Mesh.flipWinding (merge a b) = Ok (merge fa fb).
Proof.
  rewrite !flipWinding_ok. intros [= <-] [= <-]. f_equal.
  unfold merge, vertex_count.
  cbn [m_vertices m_indicesTriangles m_indicesOutline].
  rewrite map_app, !map_map. reflexivity.
Qed.

End MergeFacts.

Section Composition.
Context {K : Kernel} {V : VertexFormat K}.

(** [append] is associative, and appending an empty mesh changes nothing.
    For meshes [a], [b] and [c], none of them the receiver of a call it is
    the argument of, [a.append(b); a.append(c)] leaves in [a] the mesh
    that [b.append(c); a.append(b)] leaves in it, whatever the number of
    vertices (the offsets are added modulo [2^32] on both sides). *)
Theorem append_assoc (a b c : Mesh) (fuel : nat) :
  (Mesh.append_fuel b + Mesh.append_fuel c <= fuel)%nat ->
  (exists ab bc abc,
     Mesh.append fuel a (Mesh.Other b) = Some (Ok ab)
     /\ Mesh.append fuel ab (Mesh.Other c) = Some (Ok abc)
     /\ Mesh.append fuel b (Mesh.Other c) = Some (Ok bc)
     /\ Mesh.append fuel a (Mesh.Other bc) = Some (Ok abc))
  /\ Mesh.append fuel a (Mesh.Other empty_mesh) = Some (Ok a).
Proof.
  intros Hfuel.
  pose proof (append_fuel_merge b c) as Hbc.
  assert (1 <= Mesh.append_fuel b)%nat as Hb by (unfold Mesh.append_fuel; lia).
  assert (1 <= Mesh.append_fuel c)%nat as Hc by (unfold Mesh.append_fuel; lia).
  split.
  - exists (merge a b), (merge b c), (merge (merge a b) c).
    split; [apply append_merge; lia|].
    split; [apply append_merge; lia|].
    split; [apply append_merge; lia|].
    rewrite merge_assoc. apply append_merge. lia.
  - rewrite append_merge by (unfold Mesh.append_fuel; simpl; lia).
    now rewrite merge_empty_r.
Qed.

(** [flipWinding] commutes with [append]: flipping the mesh that
    [a.append(b)] leaves is appending the flipped [b] to the flipped [a]. *)
Theorem flipWinding_append (a b : Mesh) (fuel : nat) :
  (Mesh.append_fuel b <= fuel)%nat ->
  exists ab fa fb flipped,
    Mesh.append fuel a (Mesh.Other b) = Some (Ok ab)
    /\ Mesh.flipWinding ab = Ok flipped
    /\ Mesh.flipWinding a = Ok fa
    /\ Mesh.flipWinding b = Ok fb
    /\ Mesh.append fuel fa (Mesh.Other fb) = Some (Ok flipped).
Proof.
  intros Hfuel.
  destruct (Mesh.flipWinding a) as [fa|] eqn:Ea;
    [|rewrite flipWinding_ok in Ea; discriminate].
  destruct (Mesh.flipWinding b) as [fb|] eqn:Eb;
    [|rewrite flipWinding_ok in Eb; discriminate].
  exists (merge a b), fa, fb, (merge fa fb).
  split; [now apply append_merge|].
  split; [now apply flipWinding_merge|].
  split; [reflexivity|]. split; [reflexivity|].
  apply append_merge.
  rewrite flipWinding_ok in Eb. injection Eb as <-.
  unfold Mesh.append_fuel in *.
  cbn [m_vertices m_indicesTriangles m_indicesOutline].
  now rewrite length_map.
Qed.

End Composition.

(** ** A generator on a mesh is the generator on its own, appended *)

Lemma u32_offset_split (local n : Z) :
  u32 (local + u32 n) = u32 (u32 (local + 0) + u32 n).
Proof. now rewrite Z.add_0_r, u32_add_u32_l. Qed.

Lemma Plane_triangles_offset (w h width n : Z) :
  Plane_triangles w h width (u32 n)
  = map (fun t => uvec3_add t (u32 n)) (Plane_triangles w h width 0).
Proof.
  unfold Plane_triangles. rewrite map_flat_map.
  apply flat_map_ext. intros y. rewrite map_flat_map.
  apply flat_map_ext. intros x.
  unfold Plane_upper_tri, Plane_lower_tri, uvec3_add. cbn [map ux uy uz].
  now rewrite <- !u32_offset_split.
Qed.

Lemma Plane_outline_offset (w h width n : Z) :
  Plane_outline w h width (u32 n)
  = map (fun o => uvec2_add o (u32 n)) (Plane_outline w h width 0).
Proof.
  unfold Plane_outline. rewrite !map_app, !map_map.
  f_equal; [|f_equal; [|f_equal]]; apply map_ext; intros x;
    unfold uvec2_add; cbn [lx ly]; now rewrite <- !u32_offset_split.
Qed.

Lemma Sphere_quad_offset (zdim width n z vertex : Z) :
  Sphere_quad zdim width (u32 n) z vertex
  = map (fun t => uvec3_add t (u32 n)) (Sphere_quad zdim width 0 z vertex).
Proof.
  unfold Sphere_quad. rewrite map_app.
  f_equal.
  - destruct (z =? zdim - 1); [reflexivity|].
    unfold Sphere_upper_tri, uvec3_add. cbn [map ux uy uz].
    now rewrite <- !u32_offset_split.
  - destruct (z =? 0); [reflexivity|].
    unfold Sphere_lower_tri, uvec3_add. cbn [map ux uy uz].
    now rewrite <- !u32_offset_split.
Qed.

Section OffsetFacts.
Context {K : Kernel} {V : VertexFormat K}.

Lemma Sphere_triangles_offset (w h n : Z) :
  0 <= w ->
  Sphere_triangles w h (w + 1) (u32 n)
  = map (fun t => uvec3_add t (u32 n)) (Sphere_triangles w h (w + 1) 0).
Proof.
  intros Hw. rewrite !Sphere_triangles_closed by exact Hw.
  rewrite map_flat_map. apply flat_map_ext. intros z.
  unfold Sphere_ring. rewrite map_flat_map. apply flat_map_ext. intros xy.
  apply Sphere_quad_offset.
Qed.

Lemma Sphere_outline_offset (w h width n : Z) :
  Sphere_outline w h width (u32 n)
  = map (fun o => uvec2_add o (u32 n)) (Sphere_outline w h width 0).
Proof.
  unfold Sphere_outline. cbv zeta. rewrite map_app, map_map, map_flat_map.
  f_equal.
  - apply map_ext. intros x. unfold uvec2_add. cbn [lx ly].
    now rewrite <- !u32_offset_split.
  - apply flat_map_ext. intros i. rewrite map_map.
    apply map_ext. intros z. unfold uvec2_add. cbn [lx ly].
    now rewrite <- !u32_offset_split.
Qed.

Context {L : KernelLaws K}.

(** What a generator pushes on an empty mesh, merged into [geo], is what
    it pushes on [geo]. *)
Lemma Plane_add_merge (mat : mat4) (w h : Z) :
  1 <= w -> 1 <= h -> (w + 1) * (h + 1) <= 2 ^ 31 ->
  exists plane,
    Plane.add empty_mesh mat w h = Ok plane
    /\ forall geo, Plane.add geo mat w h = Ok (merge geo plane).
Proof.
  intros Hw Hh Hint. eexists. split; [apply Plane_add_ok; assumption|].
  intros geo. rewrite Plane_add_ok by assumption.
  unfold merge. cbn [m_vertices m_indicesTriangles m_indicesOutline empty_mesh app].
  change (u32 (vertex_count empty_mesh)) with 0.
  now rewrite <- Plane_triangles_offset, <- Plane_outline_offset.
Qed.

Lemma Sphere_add_merge (mat : mat4) (w h : Z) :
  1 <= w -> 1 <= h -> (w + 1) * (h + 1) <= 2 ^ 31 -> 3 * w < 2 ^ 31 ->
  exists sphere,
    Sphere.add empty_mesh mat w h = Ok sphere
    /\ forall geo, Sphere.add geo mat w h = Ok (merge geo sphere).
Proof.
  intros Hw Hh Hint Hthree. eexists. split; [apply Sphere_add_ok; assumption|].
  intros geo. rewrite Sphere_add_ok by assumption.
  unfold merge. cbn [m_vertices m_indicesTriangles m_indicesOutline empty_mesh app].
  change (u32 (vertex_count empty_mesh)) with 0.
  now rewrite <- Sphere_triangles_offset, <- Sphere_outline_offset by lia.
Qed.

Lemma foldM_merge {A : Type} (body : Mesh -> A -> result Mesh) (l : list A) :
  (forall a, In a l ->
     exists piece, body empty_mesh a = Ok piece
                   /\ forall geo, body geo a = Ok (merge geo piece)) ->
  exists whole,
    foldM body l empty_mesh = Ok whole
    /\ forall geo, foldM body l geo = Ok (merge geo whole).
Proof.
  induction l as [|a l IH]; intros Hbody.
  - exists empty_mesh. split; [reflexivity|].
    intros geo. now rewrite merge_empty_r.
  - destruct (Hbody a (or_introl eq_refl)) as (piece & E0 & E).
    destruct IH as (rest & _ & R); [intros b Hb; apply Hbody; now right|].
    exists (merge piece rest). split.
    + cbn [foldM]. rewrite E0. cbn [bind]. apply R.
    + intros geo. cbn [foldM]. rewrite E. cbn [bind].
      now rewrite R, merge_assoc.
Qed.

Lemma Box_add_merge (mat : mat4) (w h d : Z) :
  1 <= w -> 1 <= h -> 1 <= d ->
  (w + 1) * (h + 1) <= 2 ^ 31 -> (d + 1) * (h + 1) <= 2 ^ 31 ->
  (w + 1) * (d + 1) <= 2 ^ 31 ->
  exists box,
    Box.add empty_mesh mat w h d = Ok box
    /\ forall geo, Box.add geo mat w h d = Ok (merge geo box).
Proof.
  intros Hw Hh Hd Hwh Hdh Hwd. unfold Box.add. apply foldM_merge.
  intros side Hside. unfold Box.add_side.
  cbn in Hside.
  repeat (destruct Hside as [<-|Hside];
          [cbn [nth Box.configs fst snd]; now apply Plane_add_merge|]).
  contradiction.
Qed.

Lemma Sponge_add_merge (mat : mat4) (w h d level : Z) (probability : scalar)
  (g : rng) :
  exists sponge g',
    RandomMengerSponge.add empty_mesh mat w h d level probability g
    = (Ok sponge, g')
    /\ forall geo,
         RandomMengerSponge.add geo mat w h d level probability g
         = (Ok (merge geo sponge), g').
Proof.
  unfold RandomMengerSponge.add.
  destruct (RandomMengerSponge.refine level probability g) as [cubes g'].
  destruct (foldM_merge RandomMengerSponge.add_cube cubes) as (sponge & E0 & E).
  - intros c _. unfold RandomMengerSponge.add_cube. apply Box_add_merge; lia.
  - exists sponge, g'. split; [now rewrite E0|]. intros geo. now rewrite E.
Qed.

End OffsetFacts.

Section GeneratorsCompose.
Context {K : Kernel} {V : VertexFormat K} {L : KernelLaws K}.

(** [Plane::add], [Sphere::add] and [Box::add] on a mesh [geo], with
    segment counts of at least 1 for which their [int] operations stay in
    range (a grid of no more than [2^31] points for each plane, and
    [3 * w] an [int] for [Sphere::add]), leave in [geo] what appending the
    mesh they build from an empty one (as the constructors do) leaves in
    it: the new vertices after the old ones, and every new index the index
    in the stand-alone mesh plus the old number of vertices, modulo
    [2^32]. *)
Theorem add_is_append (geo : Mesh) (mat : mat4) (w h d : Z) :
  1 <= w -> 1 <= h -> 1 <= d ->
  (w + 1) * (h + 1) <= 2 ^ 31 -> (d + 1) * (h + 1) <= 2 ^ 31 ->
  (w + 1) * (d + 1) <= 2 ^ 31 -> 3 * w < 2 ^ 31 ->
  (exists plane geo',
     Plane.add empty_mesh mat w h = Ok plane
     /\ Plane.add geo mat w h = Ok geo'
     /\ Mesh.append (Mesh.append_fuel plane) geo (Mesh.Other plane)
        = Some (Ok geo'))
  /\ (exists sphere geo',
        Sphere.add empty_mesh mat w h = Ok sphere
        /\ Sphere.add geo mat w h = Ok geo'
        /\ Mesh.append (Mesh.append_fuel sphere) geo (Mesh.Other sphere)
           = Some (Ok geo'))
  /\ (exists box geo',
        Box.add empty_mesh mat w h d = Ok box
        /\ Box.add geo mat w h d = Ok geo'
        /\ Mesh.append (Mesh.append_fuel box) geo (Mesh.Other box)
           = Some (Ok geo')).
Proof.
  intros Hw Hh Hd Hwh Hdh Hwd Hthree. split; [|split].
  - destruct (Plane_add_merge mat w h) as (p & E0 & E); try assumption.
    exists p, (merge geo p).
    split; [exact E0|]. split; [apply E|]. now apply append_merge.
  - destruct (Sphere_add_merge mat w h) as (p & E0 & E); try assumption.
    exists p, (merge geo p).
    split; [exact E0|]. split; [apply E|]. now apply append_merge.
  - destruct (Box_add_merge mat w h d) as (p & E0 & E); try assumption.
    exists p, (merge geo p).
    split; [exact E0|]. split; [apply E|]. now apply append_merge.
Qed.

(** [RandomMengerSponge::add] on a mesh [geo], at any level and
    probability and from any state of the random source, leaves in [geo]
    what appending the sponge built on an empty mesh from the same state
    leaves in it, and the random source in the same state. *)
Theorem Sponge_add_is_append (geo : Mesh) (mat : mat4) (w h d level : Z)
  (probability : scalar) (g : rng) :
  exists sponge geo' g',
    RandomMengerSponge.add empty_mesh mat w h d level probability g
    = (Ok sponge, g')
    /\ RandomMengerSponge.add geo mat w h d level probability g = (Ok geo', g')
    /\ Mesh.append (Mesh.append_fuel sponge) geo (Mesh.Other sponge)
       = Some (Ok geo').
Proof.
  destruct (Sponge_add_merge mat w h d level probability g)
    as (sponge & g' & E0 & E).
  exists sponge, (merge geo sponge), g'.
  split; [exact E0|]. split; [apply E|]. now apply append_merge.
Qed.

End GeneratorsCompose.

(** * The sponge at any level *)

Lemma fold_left_invariant {S A : Type} (P : S -> Prop) (f : S -> A -> S)
  (l : list A) (s : S) :
  P s -> (forall s a, In a l -> P s -> P (f s a)) -> P (fold_left f l s).
Proof.
  revert s. induction l as [|a l IH]; intros s Hs Hf; [exact Hs|].
  simpl. apply IH.
  - apply Hf; [now left|exact Hs].
  - intros s' b Hb. apply Hf. now right.
Qed.

Lemma fold_left_ext {S A : Type} (f g : S -> A -> S) (l : list A) (s : S) :
  (forall s a, f s a = g s a) -> fold_left f l s = fold_left g l s.
Proof.
  intros H. revert s. induction l as [|a l IH]; intros s; [reflexivity|].
  simpl. now rewrite H, IH.
Qed.

Lemma fold_left_flat_map {S A B : Type} (f : S -> B -> S) (g : A -> list B)
  (l : list A) (s : S) :
  fold_left f (flat_map g l) s = fold_left (fun s a => fold_left f (g a) s) l s.
Proof.
  revert s. induction l as [|a l IH]; intros s; [reflexivity|].
  simpl. now rewrite fold_left_app, IH.
Qed.

Lemma fold_left_map {S A B : Type} (f : S -> B -> S) (h : A -> B)
  (l : list A) (s : S) :
  fold_left f (map h l) s = fold_left (fun s a => f s (h a)) l s.
Proof.
  revert s. induction l as [|a l IH]; intros s; [reflexivity|].
  simpl. now rewrite IH.
Qed.

Section SpongeLevels.
Context {K : Kernel} {V : VertexFormat K}.

(** The three loops of [splitProb] are one loop over the grid. *)
Lemma splitProb_flat (c : RandomMengerSponge.Cube) (prob : scalar)
  (st : list RandomMengerSponge.Cube * rng) :
  RandomMengerSponge.splitProb c prob st
  = fold_left (fun (st : list RandomMengerSponge.Cube * rng) p =>
                 if rejected prob (fst (rand (snd st)))
                 then (fst st, snd (rand (snd st)))
                 else (fst st ++ [cube_at c p], snd (rand (snd st))))
              grid27 st.
Proof.
  unfold RandomMengerSponge.splitProb, grid27.
  rewrite fold_left_flat_map. apply fold_left_ext. intros s x.
  rewrite fold_left_flat_map. apply fold_left_ext. intros s' y.
  rewrite fold_left_map. apply fold_left_ext. intros s'' z.
  unfold rejected, cube_at. destruct (rand (snd s'')) as [r g']. reflexivity.
Qed.

Lemma draw_loop (c : RandomMengerSponge.Cube) (prob : scalar)
  (positions : list (Z * Z * Z))
  (cubes : list RandomMengerSponge.Cube) (g : rng) :
  fold_left (fun (st : list RandomMengerSponge.Cube * rng) p =>
               if rejected prob (fst (rand (snd st)))
               then (fst st, snd (rand (snd st)))
               else (fst st ++ [cube_at c p], snd (rand (snd st))))
            positions (cubes, g)
  = (cubes ++ map (cube_at c) (kept prob positions (draws (length positions) g)),
     after_draws (length positions) g).
Proof.
  revert cubes g. induction positions as [|p positions IH]; intros cubes g.
  - cbn. now rewrite app_nil_r.
  - cbn [fold_left fst snd length draws after_draws]. unfold kept.
    cbn [combine filter snd].
    destruct (rejected prob (fst (rand g))); cbn [negb]; rewrite IH.
    + reflexivity.
    + unfold kept. cbn [map fst]. now rewrite <- app_assoc.
Qed.

Lemma kept_all (prob : scalar) (positions : list (Z * Z * Z)) (rs : list Z) :
  length rs = length positions ->
  forallb (fun r => negb (rejected prob r)) rs = true ->
  kept prob positions rs = positions.
Proof.
  unfold kept. revert rs.
  induction positions as [|p positions IH]; intros [|r rs] Hlen Hall;
    try discriminate; [reflexivity|].
  cbn in Hall. apply andb_prop in Hall as [Hr Hrs].
  cbn [combine filter snd]. rewrite Hr. cbn [map fst].
  f_equal. apply IH; [now injection Hlen|exact Hrs].
Qed.

Lemma kept_length (prob : scalar) (positions : list (Z * Z * Z)) (rs : list Z) :
  (length (kept prob positions rs) <= length positions)%nat.
Proof.
  unfold kept. rewrite length_map.
  etransitivity; [apply filter_length_le|].
  rewrite length_combine. apply Nat.le_min_l.
Qed.

Lemma length_draws (n : nat) (g : rng) : length (draws n g) = n.
Proof.
  revert g. induction n as [|n IH]; intros g; [reflexivity|].
  simpl. now rewrite IH.
Qed.

(** [Cube::splitProb] calls [rand()] 27 times, whatever it keeps: once
    per position of the 3x3x3 grid, in the order of the loops. It pushes
    the cube of every position whose sample is not greater than [prob],
    in that order, the centre and the face centres being positions like
    the others: when no sample is greater than [prob] it pushes all 27
    cubes, not the 20 of [Cube::split]. *)
Theorem splitProb_draws (c : RandomMengerSponge.Cube) (prob : scalar)
  (cubes : list RandomMengerSponge.Cube) (g : rng) :
  RandomMengerSponge.splitProb c prob (cubes, g)
  = (cubes ++ map (cube_at c) (kept prob grid27 (draws 27 g)),
     after_draws 27 g)
  /\ (length (kept prob grid27 (draws 27 g)) <= 27)%nat
  /\ (forallb (fun r => negb (rejected prob r)) (draws 27 g) = true ->
      kept prob grid27 (draws 27 g) = grid27
      /\ length (fst (RandomMengerSponge.splitProb c prob (cubes, g)))
         = (length cubes + 27)%nat).
Proof.
  assert (RandomMengerSponge.splitProb c prob (cubes, g)
          = (cubes ++ map (cube_at c) (kept prob grid27 (draws 27 g)),
             after_draws 27 g)) as E.
  { rewrite splitProb_flat. apply (draw_loop c prob grid27). }
  split; [exact E|]. split; [apply (kept_length prob grid27)|].
  intros Hall.
  assert (kept prob grid27 (draws 27 g) = grid27) as Hk.
  { apply kept_all; [now rewrite length_draws|exact Hall]. }
  split; [exact Hk|].
  rewrite E, Hk. cbn [fst]. now rewrite length_app, length_map.
Qed.

End SpongeLevels.

Section SpongeRefine.
Context {K : Kernel} {V : VertexFormat K}.

Lemma split_loop_length (previous next : list RandomMengerSponge.Cube) :
  length (fold_left (fun acc c => RandomMengerSponge.split c acc) previous next)
  = (length next + 20 * length previous)%nat.
Proof.
  revert next. induction previous as [|c previous IH]; intros next.
  - simpl. lia.
  - cbn [fold_left]. rewrite IH, split_length. simpl length. lia.
Qed.

(** The deterministic passes from the cubes [cubes]. *)
Lemma deterministic_levels {A : Type} (probability : scalar) (l : list A)
  (cubes : list RandomMengerSponge.Cube) (g : rng) :
  fltb probability (lit 0) = true ->
  exists cubes',
    fold_left (fun st _ => RandomMengerSponge.level_step probability st) l
              (cubes, [], g)
    = (cubes', [], g)
    /\ length cubes' = (length cubes * 20 ^ length l)%nat.
Proof.
  intros Hneg. revert cubes. induction l as [|a l IH]; intros cubes.
  - exists cubes. split; [reflexivity|]. simpl. lia.
  - cbn [fold_left]. rewrite level_step_deterministic by exact Hneg.
    destruct (IH (fold_left (fun acc c => RandomMengerSponge.split c acc) cubes []))
      as (cubes' & E & Hlen).
    exists cubes'. split; [exact E|].
    rewrite Hlen, split_loop_length. cbn [length Nat.pow]. lia.
Qed.

Lemma refine_deterministic (level : Z) (probability : scalar) (g : rng) :
  fltb probability (lit 0) = true -> 0 <= level ->
  exists cubes,
    RandomMengerSponge.refine level probability g = (cubes, g)
    /\ Z.of_nat (length cubes) = 20 ^ level.
Proof.
  intros Hneg Hlevel. unfold RandomMengerSponge.refine.
  destruct (deterministic_levels probability (range level)
              [RandomMengerSponge.initial_cube] g Hneg) as (cubes & E & Hlen).
  rewrite E. exists cubes. split; [reflexivity|].
  rewrite Hlen, length_range. cbn [length].
  rewrite Nat.mul_1_l, Nat2Z.inj_pow, Z2Nat.id by exact Hlevel. reflexivity.
Qed.

Lemma sized_app (size : scalar) (n m : nat)
  (cubes more : list RandomMengerSponge.Cube) :
  sized size n cubes -> sized size m more -> sized size (n + m) (cubes ++ more).
Proof.
  intros [Hs Hn] [Hs' Hm]. split.
  - apply Forall_app. now split.
  - rewrite length_app. lia.
Qed.

Lemma sized_cubes_at (c : RandomMengerSponge.Cube) (positions : list (Z * Z * Z)) :
  sized (fdiv (RandomMengerSponge.m_size c) (lit 3)) (length positions)
        (map (cube_at c) positions).
Proof.
  split.
  - apply Forall_forall. intros c' Hc'.
    apply in_map_iff in Hc' as ([[x y] z] & <- & _). reflexivity.
  - now rewrite length_map.
Qed.

Lemma sized_le (size : scalar) (n m : nat) (cubes : list RandomMengerSponge.Cube) :
  (n <= m)%nat -> sized size n cubes -> sized size m cubes.
Proof. intros Hnm [Hs Hn]. split; [exact Hs|lia]. Qed.

(** Either way of splitting [c] pushes at most 27 cubes of a third of
    its size. *)
Lemma split_either_sized (probability : scalar) (c : RandomMengerSponge.Cube)
  (acc : list RandomMengerSponge.Cube * rng) (n : nat) :
  sized (fdiv (RandomMengerSponge.m_size c) (lit 3)) n (fst acc) ->
  sized (fdiv (RandomMengerSponge.m_size c) (lit 3)) (n + 27)
        (fst (if fltb probability (lit 0)
              then (RandomMengerSponge.split c (fst acc), snd acc)
              else RandomMengerSponge.splitProb c probability acc)).
Proof.
  intros Hacc. destruct acc as [cubes g]. cbn [fst snd] in *.
  destruct (fltb probability (lit 0)); cbn [fst].
  - rewrite split_grid. apply sized_app; [exact Hacc|].
    apply (sized_le _ 20); [lia|].
    rewrite <- kept_count. apply (sized_cubes_at c).
  - rewrite splitProb_flat, draw_loop. cbn [fst].
    apply sized_app; [exact Hacc|].
    apply (sized_le _ (length (kept probability grid27 (draws (length grid27) g)))).
    + apply (kept_length probability grid27).
    + apply sized_cubes_at.
Qed.

Lemma split_loop_sized (probability size : scalar)
  (previous : list RandomMengerSponge.Cube)
  (acc : list RandomMengerSponge.Cube * rng) (n : nat) :
  Forall (fun c => RandomMengerSponge.m_size c = size) previous ->
  sized (fdiv size (lit 3)) n (fst acc) ->
  sized (fdiv size (lit 3)) (n + 27 * length previous)
        (fst (fold_left
                (fun (acc : list RandomMengerSponge.Cube * rng) c =>
                   if fltb probability (lit 0)
                   then (RandomMengerSponge.split c (fst acc), snd acc)
                   else RandomMengerSponge.splitProb c probability acc)
                previous acc)).
Proof.
  intros Hsize. revert acc n.
  induction Hsize as [|c previous Hc _ IH]; intros acc n Hacc.
  - cbn [fold_left length]. now rewrite Nat.mul_0_r, Nat.add_0_r.
  - cbn [fold_left length].
    replace (n + 27 * S (length previous))%nat
      with ((n + 27) + 27 * length previous)%nat by lia.
    apply IH. rewrite <- Hc in Hacc |- *. now apply split_either_sized.
Qed.

Lemma levels_sized {A : Type} (probability size : scalar) (l : list A)
  (previous : list RandomMengerSponge.Cube) (g : rng) (n : nat) :
  sized size n previous ->
  exists cubes g',
    fold_left (fun st _ => RandomMengerSponge.level_step probability st) l
              (previous, [], g)
    = (cubes, [], g')
    /\ sized (thirds (length l) size) (n * 27 ^ length l) cubes.
Proof.
  revert size previous g n. induction l as [|a l IH]; intros size previous g n Hp.
  - exists previous, g. split; [reflexivity|].
    cbn [length thirds Nat.pow]. now rewrite Nat.mul_1_r.
  - cbn [fold_left length thirds Nat.pow].
    unfold RandomMengerSponge.level_step at 2.
    match goal with
    | |- context [fold_left ?F previous ([], g)] =>
        pose proof (split_loop_sized probability size previous ([], g) 0
                      (proj1 Hp)) as Hstep;
        destruct (fold_left F previous ([], g)) as [next g1]
    end.
    cbn [fst snd] in *.
    destruct (IH (fdiv size (lit 3)) next g1 (27 * n)%nat) as (cubes & g' & E & Hs).
    + apply (sized_le _ (0 + 27 * length previous)).
      * destruct Hp as [_ Hn]. lia.
      * apply Hstep. split; [constructor|apply Nat.le_refl].
    + exists cubes, g'. split; [exact E|].
      replace (n * (27 * 27 ^ length l))%nat with (27 * n * 27 ^ length l)%nat
        by lia.
      exact Hs.
Qed.

Lemma refine_sized (level : Z) (probability : scalar) (g : rng) :
  sized (thirds (Z.to_nat level) (lit (1 # 2))) (27 ^ Z.to_nat level)
        (fst (RandomMengerSponge.refine level probability g)).
Proof.
  unfold RandomMengerSponge.refine.
  destruct (levels_sized probability (lit (1 # 2)) (range level)
              [RandomMengerSponge.initial_cube] g 1) as (cubes & g' & E & Hs).
  - split; [repeat constructor|apply Nat.le_refl].
  - rewrite E. cbn [fst]. rewrite length_range, Nat.mul_1_l in Hs. exact Hs.
Qed.

Context {L : KernelLaws K}.

(** The sponge without chance, at any level. With a probability below
    zero and [level >= 0], [RandomMengerSponge::add] leaves the random
    source as it was and pushes the boxes of [20^level] cubes:
    [24 * 20^level] vertices and [12 * 20^level] triangles. *)
Theorem Sponge_level_counts (geo : Mesh) (mat : mat4) (w h d level : Z)
  (probability : scalar) (g : rng) :
  fltb probability (lit 0) = true -> 0 <= level ->
  exists cubes geo' vs ts os,
    RandomMengerSponge.refine level probability g = (cubes, g)
    /\ Z.of_nat (length cubes) = 20 ^ level
    /\ RandomMengerSponge.add geo mat w h d level probability g = (Ok geo', g)
    /\ extends geo geo' vs ts os
    /\ Z.of_nat (length vs) = 24 * 20 ^ level
    /\ Z.of_nat (length ts) = 12 * 20 ^ level.
Proof.
  intros Hneg Hlevel.
  destruct (refine_deterministic level probability g Hneg Hlevel)
    as (cubes & E & Hlen).
  destruct (Sponge_add_grows geo mat w h d level probability g)
    as (geo' & Eadd & vs & ts & os & X & Hv & Ht & _).
  unfold RandomMengerSponge.add in *. rewrite E in *. cbn [fst] in *.
  exists cubes, geo', vs, ts, os.
  split; [reflexivity|]. split; [exact Hlen|].
  split; [now rewrite Eadd|]. split; [exact X|].
  split; lia.
Qed.

(** The sponge at any probability. After [level] passes every cube has
    the size of the initial cube, [0.5f], divided [level] times by [3.f],
    and there are at most [27^level] cubes; [RandomMengerSponge::add]
    returns and pushes 24 vertices and 12 triangles for each of them. *)
Theorem Sponge_cubes (geo : Mesh) (mat : mat4) (w h d level : Z)
  (probability : scalar) (g : rng) :
  let cubes := fst (RandomMengerSponge.refine level probability g) in
  Forall (fun c => RandomMengerSponge.m_size c
                   = thirds (Z.to_nat level) (lit (1 # 2))) cubes
  /\ (length cubes <= 27 ^ Z.to_nat level)%nat
  /\ exists geo' vs ts os,
       fst (RandomMengerSponge.add geo mat w h d level probability g) = Ok geo'
       /\ extends geo geo' vs ts os
       /\ Z.of_nat (length vs) = 24 * Z.of_nat (length cubes)
       /\ Z.of_nat (length ts) = 12 * Z.of_nat (length cubes).
Proof.
  intros cubes.
  destruct (refine_sized level probability g) as [Hsize Hn].
  split; [exact Hsize|]. split; [exact Hn|].
  destruct (Sponge_add_grows geo mat w h d level probability g)
    as (geo' & Eadd & vs & ts & os & X & Hv & Ht & _).
  exists geo', vs, ts, os.
  split; [exact Eadd|]. split; [exact X|]. fold cubes in Hv, Ht. split; lia.
Qed.

End SpongeRefine.

(** * What the constructors build, as the getters report it *)

Lemma u32_times (a k : Z) : u32 (u32 a * k) = u32 (a * k).
Proof. unfold u32. apply Zmult_mod_idemp_l. Qed.

Section Constructed.
Context {K : Kernel} {V : VertexFormat K}.

Lemma Sphere_length_outline (w h width off : Z) :
  0 <= w -> 0 <= h ->
  Z.of_nat (length (Sphere_outline w h width off)) = w + 4 * h.
Proof.
  intros Hw Hh. unfold Sphere_outline. cbv zeta.
  rewrite length_app, length_map, length_range.
  rewrite (length_flat_map_const _ _ (Z.to_nat h)).
  - rewrite length_range. change (Z.to_nat 4) with 4%nat. lia.
  - intros i _. now rewrite length_map, length_range.
Qed.

Lemma Torus_length_triangles (columns w h : Z) :
  Z.of_nat (length (Torus.triangles columns w h)) = 2 * u32 w * u32 h.
Proof.
  pose proof (u32_bounds w). pose proof (u32_bounds h).
  unfold Torus.triangles.
  rewrite (length_flat_map_const _ _ (Z.to_nat (u32 h) * 2)%nat).
  - rewrite length_range. nia.
  - intros y _. rewrite (length_flat_map_const _ _ 2%nat).
    + now rewrite length_range.
    + reflexivity.
Qed.

Lemma Torus_length_outline (columns w h : Z) :
  Z.of_nat (length (Torus.outline columns w h)) = 4 * u32 w + 4 * u32 h.
Proof.
  pose proof (u32_bounds w). pose proof (u32_bounds h).
  unfold Torus.outline. rewrite length_app.
  rewrite (length_flat_map_const _ _ 4%nat) by (intros; reflexivity).
  rewrite (length_flat_map_const _ _ (Z.to_nat (u32 h)))
    by (intros; now rewrite length_map, length_range).
  rewrite !length_range. change (Z.to_nat 4) with 4%nat. lia.
Qed.

Context {L : KernelLaws K}.

Lemma Plane_add_sizes (geo : Mesh) (mat : mat4) (w h nv nt no : Z) :
  1 <= w -> 1 <= h -> (w + 1) * (h + 1) <= 2 ^ 31 ->
  sizes geo = (nv, nt, no) ->
  exists geo',
    Plane.add geo mat w h = Ok geo'
    /\ sizes geo' = (nv + (w + 1) * (h + 1), nt + 2 * w * h, no + (2 * w + 2 * h)).
Proof.
  intros Hw Hh Hint Hs. eexists. split; [now apply Plane_add_ok|].
  unfold sizes in *. cbn [m_vertices m_indicesTriangles m_indicesOutline].
  injection Hs as <- <- <-.
  rewrite !length_app, !Nat2Z.inj_add.
  rewrite Plane_length_vertices, Plane_length_triangles, Plane_length_outline by lia.
  reflexivity.
Qed.

Lemma Box_add_sizes (geo : Mesh) (mat : mat4) (w h d nv nt no : Z) :
  1 <= w -> 1 <= h -> 1 <= d ->
  (w + 1) * (h + 1) <= 2 ^ 31 -> (d + 1) * (h + 1) <= 2 ^ 31 ->
  (w + 1) * (d + 1) <= 2 ^ 31 ->
  sizes geo = (nv, nt, no) ->
  exists geo',
    Box.add geo mat w h d = Ok geo'
    /\ sizes geo'
       = (nv + (2 * ((w + 1) * (h + 1)) + 2 * ((d + 1) * (h + 1))
                + 2 * ((w + 1) * (d + 1))),
          nt + (4 * w * h + 4 * d * h + 4 * w * d),
          no + (8 * w + 8 * h + 8 * d)).
Proof.
  intros Hw Hh Hd Hwh Hdh Hwd Hs. rewrite Box_add_unfold.
  destruct (Plane_add_sizes geo (mat_mul (mat_mul mat (Box.matrixRot 0)) Box.matrixMove)
              w h _ _ _ Hw Hh Hwh Hs) as (g1 & E1 & S1).
  destruct (Plane_add_sizes g1 (mat_mul (mat_mul mat (Box.matrixRot 1)) Box.matrixMove)
              w h _ _ _ Hw Hh Hwh S1) as (g2 & E2 & S2).
  destruct (Plane_add_sizes g2 (mat_mul (mat_mul mat (Box.matrixRot 2)) Box.matrixMove)
              d h _ _ _ Hd Hh Hdh S2) as (g3 & E3 & S3).
  destruct (Plane_add_sizes g3 (mat_mul (mat_mul mat (Box.matrixRot 3)) Box.matrixMove)
              d h _ _ _ Hd Hh Hdh S3) as (g4 & E4 & S4).
  destruct (Plane_add_sizes g4 (mat_mul (mat_mul mat (Box.matrixRot 4)) Box.matrixMove)
              w d _ _ _ Hw Hd Hwd S4) as (g5 & E5 & S5).
  destruct (Plane_add_sizes g5 (mat_mul (mat_mul mat (Box.matrixRot 5)) Box.matrixMove)
              w d _ _ _ Hw Hd Hwd S5) as (g6 & E6 & S6).
  exists g6. rewrite E1. cbn [bind]. rewrite E2. cbn [bind]. rewrite E3.
  cbn [bind]. rewrite E4. cbn [bind]. rewrite E5. cbn [bind].
  split; [exact E6|]. rewrite S6. f_equal; [f_equal|]; lia.
Qed.

Lemma getters_of_sizes (m : Mesh) (nv nt no : Z) :
  sizes m = (nv, nt, no) ->
  getVerticesCount m = u32 nv
  /\ getTriangleIndicesCount m = u32 (nt * 3)
  /\ getOutlineIndicesCount m = u32 (no * 2).
Proof.
  unfold sizes, getVerticesCount, getTriangleIndicesCount, getOutlineIndicesCount.
  intros [= <- <- <-]. now rewrite !u32_times.
Qed.

(** The meshes of the constructors, as the getters report them
    ([uint32_t], so modulo [2^32]), for segment counts of at least 1 for
    which the [int] operations of the constructor stay in range:
    [(s+1)^2 <= 2^31] for [Plane(s)] and [Box(s)],
    [(w+1)*(h+1) < 2^31] and [3*w < 2^31] for [Sphere(w, h)] and
    [Torus(w, h)]. [Plane(s)]: [(s+1)^2] vertices, [6*s^2] triangle
    indices and [8*s] outline indices. [Box(s)]: six times as many.
    [Sphere(w, h)]: [(w+1)*(h+1)] vertices, [6*w*(h-1)] triangle indices,
    [2*w + 8*h] outline indices. [Torus(w, h)]: [(w+1)*(h+1)] vertices,
    [6*w*h] triangle indices, [8*w + 8*h] outline indices. *)
Theorem constructor_counts (segments w h : Z) :
  1 <= segments -> (segments + 1) * (segments + 1) <= 2 ^ 31 ->
  1 <= w -> 1 <= h -> (w + 1) * (h + 1) < 2 ^ 31 -> 3 * w < 2 ^ 31 ->
  (exists plane,
     Plane_new segments = Ok plane
     /\ getVerticesCount plane = u32 ((segments + 1) * (segments + 1))
     /\ getTriangleIndicesCount plane = u32 (6 * segments * segments)
     /\ getOutlineIndicesCount plane = u32 (8 * segments))
  /\ (exists box,
        Box_new segments = Ok box
        /\ getVerticesCount box = u32 (6 * ((segments + 1) * (segments + 1)))
        /\ getTriangleIndicesCount box = u32 (36 * segments * segments)
        /\ getOutlineIndicesCount box = u32 (48 * segments))
  /\ (exists sphere,
        Sphere_new w h = Ok sphere
        /\ getVerticesCount sphere = u32 ((w + 1) * (h + 1))
        /\ getTriangleIndicesCount sphere = u32 (6 * w * (h - 1))
        /\ getOutlineIndicesCount sphere = u32 (2 * w + 8 * h))
  /\ (exists torus,
        Torus_new w h = Ok torus
        /\ getVerticesCount torus = u32 ((w + 1) * (h + 1))
        /\ getTriangleIndicesCount torus = u32 (6 * w * h)
        /\ getOutlineIndicesCount torus = u32 (8 * w + 8 * h)).
Proof.
  intros Hs Hss Hw Hh Hint Hthree.
  assert (w < 2 ^ 31 /\ h < 2 ^ 31) as [Hw' Hh'] by nia.
  assert (sizes empty_mesh = (0, 0, 0)) as H0 by reflexivity.
  split; [|split; [|split]].
  - destruct (Plane_add_sizes empty_mesh mat4_1 segments segments 0 0 0 Hs Hs Hss H0)
      as (m & E & S).
    exists m. split; [exact E|].
    destruct (getters_of_sizes m _ _ _ S) as (Gv & Gt & Go).
    rewrite Gv, Gt, Go. repeat split; f_equal; lia.
  - destruct (Box_add_sizes empty_mesh mat4_1 segments segments segments 0 0 0
                Hs Hs Hs Hss Hss Hss H0) as (m & E & S).
    exists m. split; [exact E|].
    destruct (getters_of_sizes m _ _ _ S) as (Gv & Gt & Go).
    rewrite Gv, Gt, Go. repeat split; f_equal; lia.
  - eexists. split; [apply Sphere_add_ok; lia|].
    unfold getVerticesCount, getTriangleIndicesCount, getOutlineIndicesCount.
    cbn [m_vertices m_indicesTriangles m_indicesOutline empty_mesh app].
    rewrite !u32_times.
    rewrite Sphere_length_vertices, Sphere_length_triangles, Sphere_length_outline
      by lia.
    repeat split; f_equal; lia.
  - destruct (Torus_add_ok empty_mesh mat4_1 w h) as (vs & E & Hv); try lia.
    eexists. split; [exact E|].
    unfold getVerticesCount, getTriangleIndicesCount, getOutlineIndicesCount.
    cbn [m_vertices m_indicesTriangles m_indicesOutline empty_mesh app].
    rewrite !u32_times.
    rewrite Hv, Torus_length_triangles, Torus_length_outline.
    rewrite !(u32_small w), !(u32_small h) by lia.
    repeat split; f_equal; lia.
Qed.

End Constructed.

(** * The further properties at concrete inputs *)

Lemma append_assoc_witness :
  exists ab bc abc : Sym.mesh,
    Mesh.append 16 Sym.triangle_mesh (Mesh.Other Sym.triangle_mesh) = Some (Ok ab)
    /\ Mesh.append 16 ab (Mesh.Other Sym.triangle_mesh) = Some (Ok abc)
    /\ Mesh.append 16 Sym.triangle_mesh (Mesh.Other Sym.triangle_mesh) = Some (Ok bc)
    /\ Mesh.append 16 Sym.triangle_mesh (Mesh.Other bc) = Some (Ok abc).
Proof.
  refine (proj1 (@append_assoc Sym.kernel Sym.vertex_format
                   Sym.triangle_mesh Sym.triangle_mesh Sym.triangle_mesh 16 _)).
  vm_compute. apply Nat.le_refl.
Defined.

Lemma flipWinding_append_witness :
  exists ab fa fb flipped : Sym.mesh,
    Mesh.append 8 Sym.triangle_mesh (Mesh.Other Sym.triangle_mesh) = Some (Ok ab)
    /\ Mesh.flipWinding ab = Ok flipped
    /\ Mesh.flipWinding Sym.triangle_mesh = Ok fa
    /\ Mesh.flipWinding Sym.triangle_mesh = Ok fb
    /\ Mesh.append 8 fa (Mesh.Other fb) = Some (Ok flipped).
Proof.
  refine (@flipWinding_append Sym.kernel Sym.vertex_format
            Sym.triangle_mesh Sym.triangle_mesh 8 _).
  vm_compute. apply Nat.le_refl.
Defined.

Lemma add_is_append_witness :
  exists plane geo' : Sym.mesh,
    Plane.add empty_mesh (@mat4_1 Sym.kernel) 1 1 = Ok plane
    /\ Plane.add Sym.triangle_mesh (@mat4_1 Sym.kernel) 1 1 = Ok geo'
    /\ Mesh.append (Mesh.append_fuel plane) Sym.triangle_mesh (Mesh.Other plane)
       = Some (Ok geo').
Proof.
  exact (proj1 (@add_is_append Sym.kernel Sym.vertex_format Sym_laws
                  Sym.triangle_mesh (@mat4_1 Sym.kernel) 1 1 1
                  ltac:(lia) ltac:(lia) ltac:(lia) ltac:(lia) ltac:(lia)
                  ltac:(lia) ltac:(lia))).
Defined.

Lemma Sponge_add_is_append_witness :
  exists (sponge geo' : Sym.mesh) (g' : Z),
    RandomMengerSponge.add (empty_mesh : Sym.mesh) (@mat4_1 Sym.kernel)
      1 1 1 1 (Sym.Lit (1 # 2)) 0 = (Ok sponge, g')
    /\ RandomMengerSponge.add Sym.triangle_mesh (@mat4_1 Sym.kernel)
         1 1 1 1 (Sym.Lit (1 # 2)) 0 = (Ok geo', g')
    /\ Mesh.append (Mesh.append_fuel sponge) Sym.triangle_mesh (Mesh.Other sponge)
       = Some (Ok geo').
Proof.
  exact (@Sponge_add_is_append Sym.kernel Sym.vertex_format Sym_laws
           Sym.triangle_mesh (@mat4_1 Sym.kernel) 1 1 1 1 (Sym.Lit (1 # 2)) 0).
Defined.

Lemma splitProb_draws_witness :
  length (fst (@RandomMengerSponge.splitProb Sym.kernel
                 RandomMengerSponge.initial_cube (Sym.Lit 1) ([], 0)))
  = 27%nat.
Proof.
  destruct (splitProb_draws (K := Sym.kernel)
              RandomMengerSponge.initial_cube (Sym.Lit 1) [] 0%Z) as (_ & _ & H).
  apply H. vm_compute. reflexivity.
Defined.

Lemma Sponge_level_counts_witness :
  exists cubes (geo' : Sym.mesh) vs ts os,
    @RandomMengerSponge.refine Sym.kernel 2 (Sym.Lit (-1)) 0 = (cubes, 0)
    /\ Z.of_nat (length cubes) = 400
    /\ RandomMengerSponge.add (empty_mesh : Sym.mesh) (@mat4_1 Sym.kernel)
         1 1 1 2 (Sym.Lit (-1)) 0 = (Ok geo', 0)
    /\ extends empty_mesh geo' vs ts os
    /\ Z.of_nat (length vs) = 9600
    /\ Z.of_nat (length ts) = 4800.
Proof.
  exact (@Sponge_level_counts Sym.kernel Sym.vertex_format Sym_laws
           empty_mesh (@mat4_1 Sym.kernel) 1 1 1 2 (Sym.Lit (-1)) 0
           eq_refl ltac:(lia)).
Defined.

Lemma Sponge_cubes_witness :
  Forall (fun c => @RandomMengerSponge.m_size Sym.kernel c
                   = Sym.Div (Sym.Lit (1 # 2)) (Sym.Lit 3))
         (fst (@RandomMengerSponge.refine Sym.kernel 1 (Sym.Lit (1 # 2)) 0))
  /\ Nat.le (length (fst (@RandomMengerSponge.refine Sym.kernel 1
                             (Sym.Lit (1 # 2)) 0)))
            27%nat.
Proof.
  destruct (@Sponge_cubes Sym.kernel Sym.vertex_format Sym_laws
              empty_mesh (@mat4_1 Sym.kernel) 1 1 1 1 (Sym.Lit (1 # 2)) 0)
    as (Hsize & Hn & _).
  split; [exact Hsize|exact Hn].
Defined.

Lemma constructor_counts_witness :
  exists plane : Sym.mesh,
    Plane_new 2 = Ok plane
    /\ getVerticesCount plane = 9
    /\ getTriangleIndicesCount plane = 24
    /\ getOutlineIndicesCount plane = 16.
Proof.
  exact (proj1 (@constructor_counts Sym.kernel Sym.vertex_format Sym_laws 2 4 3
                  ltac:(lia) ltac:(lia) ltac:(lia) ltac:(lia) ltac:(lia)
                  ltac:(lia))).
Defined.

(** * Where the vertex of a grid point is *)

Lemma nth_error_range (n x : Z) :
  0 <= x < n -> nth_error (range n) (Z.to_nat x) = Some x.
Proof.
  intros Hx. unfold range.
  rewrite nth_error_map, nth_error_seq.
  destruct (Nat.ltb_spec (Z.to_nat x) (Z.to_nat n)) as [_|Hge]; [|lia].
  cbn. f_equal. lia.
Qed.

Lemma nth_error_grid {B : Type} (f : Z -> Z -> B) (W H x y : Z) :
  0 <= x < W -> 0 <= y < H ->
  nth_error (flat_map (fun y => map (f y) (range W)) (range H))
            (Z.to_nat (y * W + x))
  = Some (f y x).
Proof.
  intros Hx Hy.
  rewrite <- (Z2Nat.id H) in * by lia.
  induction (Z.to_nat H) as [|n IH]; [lia|].
  rewrite Nat2Z.inj_succ, <- Z.add_1_r in *.
  rewrite range_succ, flat_map_app by lia.
  assert (length (flat_map (fun y => map (f y) (range W)) (range (Z.of_nat n)))
          = Z.to_nat (Z.of_nat n * W)) as Hlen.
  { rewrite (length_flat_map_const _ _ (Z.to_nat W))
      by (intros; now rewrite length_map, length_range).
    rewrite length_range. nia. }
  destruct (Z.eq_dec y (Z.of_nat n)) as [->|Hne].
  - rewrite nth_error_app2 by (rewrite Hlen; nia).
    rewrite Hlen.
    replace (Z.to_nat (Z.of_nat n * W + x) - Z.to_nat (Z.of_nat n * W))%nat
      with (Z.to_nat x) by nia.
    cbn [flat_map]. rewrite app_nil_r, nth_error_map, nth_error_range by lia.
    reflexivity.
  - rewrite nth_error_app1 by (rewrite Hlen; nia).
    apply IH. lia.
Qed.

(** Two lists of indices formed alike are equal when the sums are. *)
Ltac same_indices :=
  repeat match goal with
    | |- cons _ _ = cons _ _ => f_equal
    | |- UVec3 _ _ _ = UVec3 _ _ _ => f_equal
    | |- UVec2 _ _ = UVec2 _ _ => f_equal
    | |- u32 _ = u32 _ => rewrite ?u32_add_u32_r; f_equal; lia
    end.

Section Layout.
Context {K : Kernel} {V : VertexFormat K} {L : KernelLaws K}.

(** The vertex of grid point [(x, y)], and the indices that name it.
    [Plane::add] and [Sphere::add], on a mesh of [n] vertices and with
    segment counts of at least 1 for which their [int] operations stay in
    range, leave the vertex they make for the grid point [(x, y)],
    [0 <= x <= w] and [0 <= y <= h], at the place [n + y*(w+1) + x] of
    [m_vertices]. Every index they push is that place, taken modulo
    [2^32], of a grid point: the triangles of the cell [(x, y)] name its
    corners, the outline segments name two neighbours on a grid line.
    When [n + (w+1)*(h+1)] fits [uint32_t] the index is the place itself. *)
Theorem grid_vertex_layout (geo : Mesh) (mat : mat4) (w h : Z) :
  1 <= w -> 1 <= h -> (w + 1) * (h + 1) <= 2 ^ 31 -> 3 * w < 2 ^ 31 ->
  let place (x y : Z) := vertex_count geo + (y * (w + 1) + x) in
  let index (x y : Z) := u32 (place x y) in
  (exists plane,
     Plane.add geo mat w h = Ok plane
     /\ (forall x y, 0 <= x <= w -> 0 <= y <= h ->
           at_index (m_vertices plane) (Z.to_nat (place x y))
           = Ok (TVertex_of
                   (Vertex_transform mat
                      (Plane.local_vertex (fdiv (lit 1) (of_int w))
                                          (fdiv (lit 1) (of_int h)) x y))))
     /\ m_indicesTriangles plane
        = m_indicesTriangles geo
          ++ flat_map (fun y =>
               flat_map (fun x =>
                 [UVec3 (index x (y + 1)) (index x y) (index (x + 1) (y + 1));
                  UVec3 (index (x + 1) (y + 1)) (index x y) (index (x + 1) y)])
               (range w))
             (range h)
     /\ m_indicesOutline plane
        = m_indicesOutline geo
          ++ map (fun y => UVec2 (index 0 y) (index 0 (y + 1))) (range h)
          ++ map (fun y => UVec2 (index w y) (index w (y + 1))) (range h)
          ++ map (fun x => UVec2 (index x 0) (index (x + 1) 0)) (range w)
          ++ map (fun x => UVec2 (index x h) (index (x + 1) h)) (range w))
  /\ (exists sphere,
        Sphere.add geo mat w h = Ok sphere
        /\ (forall x y, 0 <= x <= w -> 0 <= y <= h ->
              at_index (m_vertices sphere) (Z.to_nat (place x y))
              = Ok (TVertex_of
                      (Vertex_transform mat
                         (Sphere.local_vertex (fdiv (lit 1) (of_int w))
                                              (fdiv (lit 1) (of_int h)) x y))))
        /\ m_indicesTriangles sphere
           = m_indicesTriangles geo
             ++ flat_map (fun z =>
                  flat_map (fun xy =>
                    (if z =? h - 1 then []
                     else [UVec3 (index (xy + 1) (z + 1)) (index xy (z + 1))
                                 (index xy z)])
                    ++ (if z =? 0 then []
                        else [UVec3 (index xy z) (index (xy + 1) z)
                                    (index (xy + 1) (z + 1))]))
                  (range w))
                (range h)
        /\ m_indicesOutline sphere
           = m_indicesOutline geo
             ++ map (fun xy => UVec2 (index xy (Z.quot h 2))
                                     (index (xy + 1) (Z.quot h 2)))
                    (range w)
             ++ flat_map (fun i =>
                  map (fun z => UVec2 (index (Z.quot (w * i) 4) z)
                                      (index (Z.quot (w * i) 4) (z + 1)))
                      (range h))
                (range 4))
  /\ (vertex_count geo + (w + 1) * (h + 1) <= 2 ^ 32 ->
      forall x y, 0 <= x <= w -> 0 <= y <= h -> index x y = place x y).
Proof.
  intros Hw Hh Hint Hthree place index.
  assert (forall x y, 0 <= x <= w -> 0 <= y <= h ->
            Z.to_nat (place x y)
            = (length (m_vertices geo) + Z.to_nat (y * (w + 1) + x))%nat) as Hi.
  { intros x y Hx Hy. unfold place, vertex_count. nia. }
  split; [|split].
  - eexists. split; [now apply Plane_add_ok|].
    cbn [m_vertices m_indicesTriangles m_indicesOutline].
    split; [|split].
    + intros x y Hx Hy. unfold at_index, Plane_vertices.
      rewrite Hi, nth_error_app2, Nat.add_comm, Nat.add_sub by lia.
      now rewrite (nth_error_grid
                     (fun y x => TVertex_of (Vertex_transform mat
                                   (Plane.local_vertex _ _ x y)))) by lia.
    + f_equal. unfold Plane_triangles.
      apply flat_map_ext. intros y. apply flat_map_ext. intros x.
      unfold Plane_upper_tri, Plane_lower_tri, index, place. same_indices.
    + f_equal. unfold Plane_outline.
      repeat (f_equal; [apply map_ext; intros i; unfold index, place;
                        same_indices|]).
      apply map_ext; intros i; unfold index, place. same_indices.
  - eexists. split; [now apply Sphere_add_ok|].
    cbn [m_vertices m_indicesTriangles m_indicesOutline].
    split; [|split].
    + intros x y Hx Hy. unfold at_index, Sphere_vertices.
      rewrite Hi, nth_error_app2, Nat.add_comm, Nat.add_sub by lia.
      now rewrite (nth_error_grid
                     (fun y x => TVertex_of (Vertex_transform mat
                                   (Sphere.local_vertex _ _ x y)))) by lia.
    + f_equal. unfold Sphere_triangles.
      apply flat_map_ext. intros z. unfold Sphere_ring.
      apply flat_map_ext. intros xy.
      unfold Sphere_quad, Sphere_upper_tri, Sphere_lower_tri, index, place.
      f_equal.
      * destruct (z =? h - 1); [reflexivity|]. same_indices.
      * destruct (z =? 0); [reflexivity|]. same_indices.
    + f_equal. unfold Sphere_outline. cbv zeta. f_equal.
      * apply map_ext; intros xy; unfold index, place. same_indices.
      * apply flat_map_ext. intros i. apply map_ext. intros z.
        unfold index, place. same_indices.
  - intros Hfit x y Hx Hy. unfold index, place.
    pose proof (vertex_count_nonneg geo). apply u32_small. nia.
Qed.

End Layout.

Lemma grid_vertex_layout_witness :
  exists plane : Sym.mesh,
    Plane.add Sym.triangle_mesh (@mat4_1 Sym.kernel) 2 2 = Ok plane
    /\ at_index (m_vertices plane) 7
       = Ok (Vertex_transform (@mat4_1 Sym.kernel)
               (@Plane.local_vertex Sym.kernel
                  (Sym.Div (Sym.Lit 1) (Sym.OfInt 2))
                  (Sym.Div (Sym.Lit 1) (Sym.OfInt 2)) 1 1))
    /\ m_indicesTriangles plane
       = [UVec3 0 1 2;
          UVec3 6 3 7; UVec3 7 3 4; UVec3 7 4 8; UVec3 8 4 5;
          UVec3 9 6 10; UVec3 10 6 7; UVec3 10 7 11; UVec3 11 7 8].
Proof.
  destruct (@grid_vertex_layout Sym.kernel Sym.vertex_format Sym_laws
              Sym.triangle_mesh (@mat4_1 Sym.kernel) 2 2
              ltac:(lia) ltac:(lia) ltac:(lia) ltac:(lia))
    as ((plane & E & Hv & Ht & _) & _).
  exists plane. split; [exact E|].
  split; [exact (Hv 1 1 ltac:(lia) ltac:(lia))|].
  rewrite Ht. reflexivity.
Defined.

(** * The segment counts the generators are defined for *)

Lemma bind_Ok {A B : Type} (r : result A) (k : A -> result B) (b : B) :
  bind r k = Ok b -> exists a, r = Ok a /\ k a = Ok b.
Proof. destruct r as [a|f]; [|discriminate]. intros H. now exists a. Qed.

(** An [int] operation that gives a value gives its exact result, which
    is a value of [int]. *)
Lemma int_Ok (z z' : Z) : int z = Ok z' -> z' = z /\ INT_MIN <= z <= INT_MAX.
Proof.
  unfold int.
  destruct (Z.leb_spec INT_MIN z), (Z.leb_spec z INT_MAX); cbn [andb];
    try discriminate.
  intros [= <-]. lia.
Qed.

Lemma int_add_Ok (a b c : Z) :
  (Ok a + Ok b)%int = Ok c -> c = a + b /\ INT_MIN <= a + b <= INT_MAX.
Proof. apply int_Ok. Qed.

Lemma int_mul_Ok (a b c : Z) :
  (Ok a * Ok b)%int = Ok c -> c = a * b /\ INT_MIN <= a * b <= INT_MAX.
Proof. apply int_Ok. Qed.

Lemma mapM_Ok {A B : Type} (f : A -> result B) (l : list A) (bs : list B) :
  mapM f l = Ok bs -> forall a, In a l -> exists b, f a = Ok b.
Proof.
  revert bs. induction l as [|x l IH]; intros bs H a Ha; [contradiction|].
  cbn [mapM] in H. apply bind_Ok in H as (b & Hb & H).
  apply bind_Ok in H as (bs' & Hbs & _).
  destruct Ha as [<-|Ha]; [now exists b|]. now apply (IH bs').
Qed.

Lemma for_each_Ok {A B : Type} (body : A -> result (list B)) (l : list A)
  (bs : list B) :
  for_each l body = Ok bs -> forall a, In a l -> exists b, body a = Ok b.
Proof.
  unfold for_each. intros H. apply bind_Ok in H as (pushed & H & _).
  now apply mapM_Ok with (bs := pushed).
Qed.

Section DefinedFor.
Context {K : Kernel} {V : VertexFormat K} {L : KernelLaws K}.

(** [Plane::add] that returns has computed [(x + 1) + ydim * width] in
    the last pass of its last loop. *)
Lemma Plane_add_returns (geo geo' : Mesh) (mat : mat4) (w h : Z) :
  1 <= w -> 1 <= h -> Plane.add geo mat w h = Ok geo' ->
  (w + 1) * (h + 1) <= 2 ^ 31.
Proof.
  intros Hw Hh E. unfold Plane.add in E.
  rewrite !fdiv_checked_ok in E by lia. cbn [bind] in E.
  apply bind_Ok in E as (width & Ewidth & E).
  apply int_add_Ok in Ewidth as [-> _].
  apply bind_Ok in E as (vs & _ & E). apply bind_Ok in E as (ts & _ & E).
  apply bind_Ok in E as (os & Eos & _). unfold Plane.outline in Eos.
  apply bind_Ok in Eos as (l1 & _ & Eos). apply bind_Ok in Eos as (l2 & _ & Eos).
  apply bind_Ok in Eos as (l3 & _ & Eos). apply bind_Ok in Eos as (l4 & Etop & _).
  destruct (mapM_Ok _ _ _ Etop (w - 1)) as (o & Eo); [apply in_range; lia|].
  apply bind_Ok in Eo as (a & _ & Eo). apply bind_Ok in Eo as (b & Eb & _).
  unfold int_add at 1 in Eb.
  apply bind_Ok in Eb as (x & Ex & Eb). apply int_add_Ok in Ex as [-> _].
  apply bind_Ok in Eb as (y & Ey & Eb). apply int_mul_Ok in Ey as [-> _].
  apply int_Ok in Eb as [_ Hb]. unfold INT_MAX in Hb. nia.
Qed.

Lemma Box_add_returns (geo geo' : Mesh) (mat : mat4) (w h d : Z) :
  1 <= w -> 1 <= h -> 1 <= d -> Box.add geo mat w h d = Ok geo' ->
  (w + 1) * (h + 1) <= 2 ^ 31 /\ (d + 1) * (h + 1) <= 2 ^ 31
  /\ (w + 1) * (d + 1) <= 2 ^ 31.
Proof.
  intros Hw Hh Hd E. rewrite Box_add_unfold in E.
  apply bind_Ok in E as (g1 & E1 & E). apply bind_Ok in E as (g2 & _ & E).
  apply bind_Ok in E as (g3 & E3 & E). apply bind_Ok in E as (g4 & _ & E).
  apply bind_Ok in E as (g5 & E5 & _).
  split; [exact (Plane_add_returns _ _ _ _ _ Hw Hh E1)|].
  split; [exact (Plane_add_returns _ _ _ _ _ Hd Hh E3)|].
  exact (Plane_add_returns _ _ _ _ _ Hw Hd E5).
Qed.

(** The passes of the triangle loops of [Sphere::add] that returns: the
    counter [vertex] is [z * width + xy] in the pass [(z, xy)]. *)
Lemma Sphere_inner_loop_returns (zdim width off z : Z) (n s : nat) (v : Z)
  (acc : list uvec3) (st : Z * list uvec3) :
  foldM (fun (st : Z * list uvec3) (xy : Z) =>
           pushed <- Sphere.quad zdim width off z (fst st) ;;
           vertex <- (Ok (fst st) + Ok 1)%int ;;
           Ok (vertex, snd st ++ pushed))
        (map Z.of_nat (seq s n)) (v, acc)
  = Ok st ->
  fst st = v + Z.of_nat n
  /\ forall k, 0 <= k < Z.of_nat n ->
       exists pushed, Sphere.quad zdim width off z (v + k) = Ok pushed.
Proof.
  revert s v acc. induction n as [|n IH]; intros s v acc E.
  - injection E as <-. cbn [fst]. split; [lia|]. intros k Hk. lia.
  - cbn [seq map foldM fst snd] in E.
    apply bind_Ok in E as (st1 & E1 & E).
    apply bind_Ok in E1 as (pushed & Equad & E1).
    apply bind_Ok in E1 as (vertex & Evertex & E1).
    apply int_add_Ok in Evertex as [-> _]. injection E1 as <-.
    destruct (IH _ _ _ E) as [Hfst Hquads].
    split; [lia|]. intros k Hk.
    destruct (Z.eq_dec k 0) as [->|Hne].
    + exists pushed. now rewrite Z.add_0_r.
    + destruct (Hquads (k - 1)) as (q & Eq); [lia|].
      exists q. rewrite <- Eq. f_equal. lia.
Qed.

Lemma Sphere_outer_loop_returns (xydim zdim width off : Z) (n s : nat) (v : Z)
  (acc : list uvec3) (st : Z * list uvec3) :
  0 <= xydim ->
  foldM (Sphere.triangle_row xydim zdim width off)
        (map Z.of_nat (seq s n)) (v, acc)
  = Ok st ->
  forall j k, 0 <= j < Z.of_nat n -> 0 <= k < xydim ->
    exists pushed,
      Sphere.quad zdim width off (Z.of_nat s + j) (v + j * (xydim + 1) + k)
      = Ok pushed.
Proof.
  intros Hx. revert s v acc. induction n as [|n IH]; intros s v acc E j k Hj Hk;
    [lia|].
  cbn [seq map foldM] in E. apply bind_Ok in E as (st1 & Erow & E).
  unfold Sphere.triangle_row in Erow.
  apply bind_Ok in Erow as (st' & Einner & Erow).
  apply bind_Ok in Erow as (vertex & Evertex & Erow).
  apply int_add_Ok in Evertex as [-> _]. injection Erow as <-.
  unfold range in Einner.
  apply Sphere_inner_loop_returns in Einner as [Hfst Hquads].
  cbn [fst] in Hfst. rewrite Z2Nat.id in Hfst, Hquads by exact Hx.
  destruct (Z.eq_dec j 0) as [->|Hne].
  - destruct (Hquads k Hk) as (q & Eq). exists q. rewrite <- Eq. f_equal; lia.
  - rewrite Hfst in E.
    destruct (IH _ _ _ E (j - 1) k ltac:(lia) Hk) as (q & Eq).
    exists q. rewrite <- Eq. f_equal; lia.
Qed.

(** [Sphere::add] that returns has computed [xydim * 3] and, with more
    than one ring, [vertex + width + 1] in the last pass of its triangle
    loops. *)
Lemma Sphere_add_returns (geo geo' : Mesh) (mat : mat4) (w h : Z) :
  1 <= w -> 1 <= h -> Sphere.add geo mat w h = Ok geo' ->
  (w + 1) * (h + 1) <= 2 ^ 31 /\ 3 * w < 2 ^ 31.
Proof.
  intros Hw Hh E. unfold Sphere.add in E.
  rewrite !fdiv_checked_ok in E by lia. cbn [bind] in E.
  apply bind_Ok in E as (width & Ewidth & E).
  apply int_add_Ok in Ewidth as [-> _].
  apply bind_Ok in E as (vs & _ & E). apply bind_Ok in E as (ts & Ets & E).
  apply bind_Ok in E as (os & Eos & _).
  assert (3 * w < 2 ^ 31) as Hthree.
  { unfold Sphere.outline in Eos. cbv zeta in Eos.
    apply bind_Ok in Eos as (ring & _ & Eos).
    apply bind_Ok in Eos as (arcs & Earcs & _).
    destruct (for_each_Ok _ _ _ Earcs 3) as (arc & Earc); [apply in_range; lia|].
    apply bind_Ok in Earc as (product & Eproduct & _).
    apply int_mul_Ok in Eproduct as [_ Hp]. unfold INT_MAX in Hp. lia. }
  split; [|exact Hthree].
  destruct (Z.eq_dec h 1) as [->|Hrings]; [lia|].
  unfold Sphere.triangles in Ets. apply bind_Ok in Ets as (st & Eloop & _).
  unfold range in Eloop.
  destruct (Sphere_outer_loop_returns w h (w + 1) _ _ 0 0 [] st ltac:(lia) Eloop
              (h - 1) (w - 1) ltac:(lia) ltac:(lia)) as (pushed & Equad).
  unfold Sphere.quad in Equad.
  apply bind_Ok in Equad as (last & _ & Equad).
  apply bind_Ok in Equad as (upper & _ & Equad).
  apply bind_Ok in Equad as (lower & Elower & _).
  replace (Z.of_nat 0 + (h - 1) =? 0) with false in Elower
    by (symmetry; apply Z.eqb_neq; lia).
  apply bind_Ok in Elower as (t & Et & _). unfold Sphere.lower_tri in Et.
  apply bind_Ok in Et as (i2 & Ei2 & _).
  unfold int_add at 1 in Ei2.
  apply bind_Ok in Ei2 as (x & Ex & Ei2). apply int_add_Ok in Ex as [-> _].
  cbn [bind] in Ei2. apply int_Ok in Ei2 as [_ Hi2]. unfold INT_MAX in Hi2. nia.
Qed.

(** [Torus::add] that returns has computed [(w + 1) * (h + 1)]. *)
Lemma Torus_add_returns (geo geo' : Mesh) (mat : mat4) (w h : Z) :
  Torus.add geo mat w h = Ok geo' ->
  INT_MIN <= (w + 1) * (h + 1) <= INT_MAX.
Proof.
  intros E. unfold Torus.add in E.
  apply bind_Ok in E as (numVertices & En & _).
  unfold int_mul in En.
  apply bind_Ok in En as (x & Ex & En). apply int_add_Ok in Ex as [-> _].
  apply bind_Ok in En as (y & Ey & En). apply int_add_Ok in Ey as [-> _].
  now apply int_Ok in En as [_ Hn].
Qed.

(** The segment counts the generators are defined for. With counts of at
    least 1, [Plane::add] returns exactly when its grid has no more than
    [2^31] points, [Box::add] when that holds of each of its three kinds
    of plane, [Sphere::add] when it holds and [3 * w] is an [int], and
    [Torus::add] when [(w+1)*(h+1)] is an [int]. [Torus::add] computes
    that product before anything else: when it is not an [int] the call
    is a signed overflow. *)
Theorem generators_defined_exactly (geo : Mesh) (mat : mat4) (w h d : Z) :
  1 <= w -> 1 <= h -> 1 <= d ->
  ((exists geo', Plane.add geo mat w h = Ok geo') <-> (w + 1) * (h + 1) <= 2 ^ 31)
  /\ ((exists geo', Box.add geo mat w h d = Ok geo')
      <-> (w + 1) * (h + 1) <= 2 ^ 31 /\ (d + 1) * (h + 1) <= 2 ^ 31
          /\ (w + 1) * (d + 1) <= 2 ^ 31)
  /\ ((exists geo', Sphere.add geo mat w h = Ok geo')
      <-> (w + 1) * (h + 1) <= 2 ^ 31 /\ 3 * w < 2 ^ 31)
  /\ ((exists geo', Torus.add geo mat w h = Ok geo') <-> (w + 1) * (h + 1) < 2 ^ 31)
  /\ (2 ^ 31 <= (w + 1) * (h + 1) ->
      Torus.add geo mat w h = Fault SignedOverflow).
Proof.
  intros Hw Hh Hd. split; [|split; [|split; [|split]]].
  - split.
    + intros (geo' & E). exact (Plane_add_returns _ _ _ _ _ Hw Hh E).
    + intros Hint. eexists. now apply Plane_add_ok.
  - split.
    + intros (geo' & E). exact (Box_add_returns _ _ _ _ _ _ Hw Hh Hd E).
    + intros (Hwh & Hdh & Hwd).
      destruct (Box_add_grows geo mat w h d) as (m & E & _); try assumption.
      now exists m.
  - split.
    + intros (geo' & E). exact (Sphere_add_returns _ _ _ _ _ Hw Hh E).
    + intros [Hint Hthree]. eexists. now apply Sphere_add_ok.
  - split.
    + intros (geo' & E). apply Torus_add_returns in E.
      unfold INT_MAX in E. lia.
    + intros Hint. destruct (Torus_add_ok geo mat w h) as (vs & E & _);
        try assumption.
      eexists. exact E.
  - intros Hover. unfold Torus.add.
    destruct (Z_lt_le_dec INT_MAX (w + 1)) as [Hw1|Hw1].
    { unfold int_mul, int_add at 1. cbn [bind]. now rewrite int_above. }
    destruct (Z_lt_le_dec INT_MAX (h + 1)) as [Hh1|Hh1].
    { unfold int_mul. rewrite int_add_ok by (unfold INT_MIN, INT_MAX in *; lia).
      cbn [bind]. unfold int_add. cbn [bind]. now rewrite int_above. }
    rewrite !int_add_ok by (unfold INT_MIN, INT_MAX in *; lia).
    unfold int_mul. cbn [bind]. rewrite int_above; [reflexivity|].
    unfold INT_MAX. lia.
Qed.

End DefinedFor.

Lemma generators_defined_exactly_witness :
  (exists geo' : Sym.mesh,
     Plane.add (empty_mesh : Sym.mesh) (@mat4_1 Sym.kernel) 46339 46340 = Ok geo')
  /\ ~ (exists geo' : Sym.mesh,
          Plane.add (empty_mesh : Sym.mesh) (@mat4_1 Sym.kernel) 46340 46340
          = Ok geo')
  /\ ~ (exists geo' : Sym.mesh,
          Sphere.add (empty_mesh : Sym.mesh) (@mat4_1 Sym.kernel) 715827883 1
          = Ok geo')
  /\ Torus.add (empty_mesh : Sym.mesh) (@mat4_1 Sym.kernel) 46340 46340
     = Fault SignedOverflow.
Proof.
  destruct (@generators_defined_exactly Sym.kernel Sym.vertex_format Sym_laws
              empty_mesh (@mat4_1 Sym.kernel) 46339 46340 1
              ltac:(lia) ltac:(lia) ltac:(lia)) as (Hplane & _).
  destruct (@generators_defined_exactly Sym.kernel Sym.vertex_format Sym_laws
              empty_mesh (@mat4_1 Sym.kernel) 46340 46340 1
              ltac:(lia) ltac:(lia) ltac:(lia)) as (Hplane' & _ & _ & _ & Htorus).
  destruct (@generators_defined_exactly Sym.kernel Sym.vertex_format Sym_laws
              empty_mesh (@mat4_1 Sym.kernel) 715827883 1 1
              ltac:(lia) ltac:(lia) ltac:(lia)) as (_ & _ & Hsphere & _).
  split; [apply Hplane; lia|].
  split; [intros H; apply Hplane' in H; lia|].
  split; [intros H; apply Hsphere in H; lia|].
  apply Htorus. lia.
Defined.

(** * The graphics pipeline state *)

Lemma set_index_length {A : Type} (v : list A) (i : nat) (a : A) :
  length (set_index v i a) = length v.
Proof.
  revert i. induction v as [|b v IH]; intros [|i]; simpl; try reflexivity.
  now rewrite IH.
Qed.

Lemma set_index_same {A : Type} (v : list A) (i : nat) (a : A) :
  (i < length v)%nat -> nth_error (set_index v i a) i = Some a.
Proof.
  revert i. induction v as [|b v IH]; intros [|i] Hi; simpl in *; try lia.
  - reflexivity.
  - apply IH. lia.
Qed.

Lemma set_index_other {A : Type} (v : list A) (i j : nat) (a : A) :
  i <> j -> nth_error (set_index v i a) j = nth_error v j.
Proof.
  revert i j. induction v as [|b v IH]; intros [|i] [|j] Hij; simpl;
    try reflexivity; try congruence.
  apply IH. congruence.
Qed.

Lemma at_index_below {A : Type} (v : list A) (i : nat) :
  (i < length v)%nat -> exists a, at_index v i = Ok a.
Proof.
  intros Hi. unfold at_index.
  destruct (nth_error v i) as [a|] eqn:E; [now exists a|].
  apply nth_error_None in E. lia.
Qed.

Lemma at_index_beyond {A : Type} (v : list A) (i : nat) :
  (length v <= i)%nat -> at_index v i = Fault OutOfRange.
Proof.
  intros Hi. unfold at_index.
  now rewrite (proj2 (nth_error_None v i) Hi).
Qed.

Lemma guarded_set_cases {A : Type} (NDEBUG : bool) (v : list A) (i : Z) (a : A) :
  0 <= i ->
  (i < Z.of_nat (length v) ->
   GraphicsPipelineState.guarded_set NDEBUG v i a
   = Continues (Ok (set_index v (Z.to_nat i) a)))
  /\ (i = Z.of_nat (length v) ->
      GraphicsPipelineState.guarded_set NDEBUG v i a
      = if NDEBUG then Continues (Fault OutOfRange) else Aborted)
  /\ (Z.of_nat (length v) < i ->
      GraphicsPipelineState.guarded_set NDEBUG v i a
      = if NDEBUG then Continues (Ok v) else Aborted).
Proof.
  intros Hi. unfold GraphicsPipelineState.guarded_set.
  repeat match goal with |- _ /\ _ => split end; intros Hcase.
  - destruct (Z.ltb_spec i (Z.of_nat (length v))) as [_|]; [|lia].
    destruct (Z.leb_spec i (Z.of_nat (length v))) as [_|]; [|lia].
    rewrite andb_false_r.
    destruct (at_index_below v (Z.to_nat i)) as (b & ->); [lia|]. reflexivity.
  - destruct (Z.ltb_spec i (Z.of_nat (length v))) as [|_]; [lia|].
    destruct (Z.leb_spec i (Z.of_nat (length v))) as [_|]; [|lia].
    rewrite at_index_beyond by lia. now destruct NDEBUG.
  - destruct (Z.ltb_spec i (Z.of_nat (length v))) as [|_]; [lia|].
    destruct (Z.leb_spec i (Z.of_nat (length v))) as [|_]; [lia|].
    now destruct NDEBUG.
Qed.

Lemma pushed_index {A : Type} (v : list A) (a : A) :
  Z.of_nat (length v) < 2 ^ 32 ->
  GraphicsPipelineState.pushed v a = (Z.of_nat (length v), v ++ [a]).
Proof.
  intros Hfit. unfold GraphicsPipelineState.pushed. f_equal.
  rewrite length_app. cbn [length]. rewrite u32_small; lia.
Qed.

Lemma guarded_set_last {A : Type} (NDEBUG : bool) (v : list A) (a b : A) :
  GraphicsPipelineState.guarded_set NDEBUG (v ++ [a]) (Z.of_nat (length v)) b
  = Continues (Ok (v ++ [b])).
Proof.
  destruct (guarded_set_cases NDEBUG (v ++ [a]) (Z.of_nat (length v)) b) as (E & _).
  - lia.
  - rewrite E by (rewrite length_app; cbn [length]; lia).
    now rewrite Nat2Z.id, set_index_app_mid.
Qed.

Section PipelineState.
Context {K : Kernel} {H : VulkanHeader}.

Ltac guard_of member :=
  intros NDEBUG s i a Hi;
  destruct (guarded_set_cases NDEBUG (member s) i a Hi) as (E1 & E2 & E3);
  repeat match goal with |- _ /\ _ => split end; intros Hcase;
  [ cbv beta delta [GraphicsPipelineState.setBlendAttachmentState
                    GraphicsPipelineState.setDynamicStateEnable
                    GraphicsPipelineState.setBindingDescription
                    GraphicsPipelineState.setAttributeDescription
                    GraphicsPipelineState.setViewport
                    GraphicsPipelineState.setScissor];
    rewrite E1 by exact Hcase; reflexivity
  | cbv beta delta [GraphicsPipelineState.setBlendAttachmentState
                    GraphicsPipelineState.setDynamicStateEnable
                    GraphicsPipelineState.setBindingDescription
                    GraphicsPipelineState.setAttributeDescription
                    GraphicsPipelineState.setViewport
                    GraphicsPipelineState.setScissor];
    rewrite E2 by exact Hcase; now destruct NDEBUG
  | cbv beta delta [GraphicsPipelineState.setBlendAttachmentState
                    GraphicsPipelineState.setDynamicStateEnable
                    GraphicsPipelineState.setBindingDescription
                    GraphicsPipelineState.setAttributeDescription
                    GraphicsPipelineState.setViewport
                    GraphicsPipelineState.setScissor];
    rewrite E3 by exact Hcase; destruct NDEBUG; [now destruct s|reflexivity] ].

(** The guard of the six setters is off by one. [setBlendAttachmentState],
    [setDynamicStateEnable], [setBindingDescription],
    [setAttributeDescription], [setViewport] and [setScissor] assign
    element [i] when [i] is below the size of their vector, and do
    nothing else; with [i] equal to the size, [if (i <= size)] lets the
    assignment through and it writes one past the end of the vector when
    [NDEBUG] is defined (the [assert] aborts when it is not); with [i]
    above the size nothing is written. An assignment [v[i] = a] in range
    changes element [i] only. *)
Theorem setters_guard :
  off_by_one_guard GraphicsPipelineState.setBlendAttachmentState
                   blendAttachmentStates with_blendAttachmentStates
  /\ off_by_one_guard GraphicsPipelineState.setDynamicStateEnable
                      dynamicStateEnables with_dynamicStateEnables
  /\ off_by_one_guard GraphicsPipelineState.setBindingDescription
                      bindingDescriptions with_bindingDescriptions
  /\ off_by_one_guard GraphicsPipelineState.setAttributeDescription
                      attributeDescriptions with_attributeDescriptions
  /\ off_by_one_guard GraphicsPipelineState.setViewport
                      viewports with_viewports
  /\ off_by_one_guard GraphicsPipelineState.setScissor
                      scissors with_scissors
  /\ (forall (A : Type) (v : list A) (i : nat) (a : A),
        length (set_index v i a) = length v
        /\ ((i < length v)%nat -> nth_error (set_index v i a) i = Some a)
        /\ (forall j, j <> i -> nth_error (set_index v i a) j = nth_error v j)).
Proof.
  repeat match goal with |- _ /\ _ => split end.
  - guard_of (@blendAttachmentStates K).
  - guard_of (@dynamicStateEnables K).
  - guard_of (@bindingDescriptions K).
  - guard_of (@attributeDescriptions K).
  - guard_of (@viewports K).
  - guard_of (@scissors K).
  - intros A v i a. split; [apply set_index_length|].
    split; [apply set_index_same|].
    intros j Hj. apply set_index_other. congruence.
Qed.

End PipelineState.

Section PipelineAdders.
Context {K : Kernel} {H : VulkanHeader}.

Ltac adder_of member :=
  intros s a Hfit;
  cbv beta delta [GraphicsPipelineState.addBlendAttachmentState
                  GraphicsPipelineState.addDynamicStateEnable
                  GraphicsPipelineState.addBindingDescription
                  GraphicsPipelineState.addAttributeDescription
                  GraphicsPipelineState.addViewport
                  GraphicsPipelineState.addScissor
                  GraphicsPipelineState.setBlendAttachmentState
                  GraphicsPipelineState.setDynamicStateEnable
                  GraphicsPipelineState.setBindingDescription
                  GraphicsPipelineState.setAttributeDescription
                  GraphicsPipelineState.setViewport
                  GraphicsPipelineState.setScissor];
  rewrite (pushed_index (member s) a Hfit); cbn [fst snd];
  repeat match goal with |- _ /\ _ => split end; try reflexivity;
  intros NDEBUG b;
  match goal with
  | |- context [GraphicsPipelineState.guarded_set _ ?v _ _] =>
      change v with (member s ++ [a])
  end;
  rewrite guarded_set_last; reflexivity.

(** The adders return the index of what they push.
    [addBlendAttachmentState], [addDynamicStateEnable],
    [addBindingDescription], [addAttributeDescription], [addViewport] and
    [addScissor], on a vector whose size fits [uint32_t], push the element
    back and return the index it has; the setter called with that index
    assigns that element and no other, with and without [NDEBUG]. *)
Theorem adders_return_index :
  add_returns_index GraphicsPipelineState.addBlendAttachmentState
                    GraphicsPipelineState.setBlendAttachmentState
                    blendAttachmentStates with_blendAttachmentStates
  /\ add_returns_index GraphicsPipelineState.addDynamicStateEnable
                       GraphicsPipelineState.setDynamicStateEnable
                       dynamicStateEnables with_dynamicStateEnables
  /\ add_returns_index GraphicsPipelineState.addBindingDescription
                       GraphicsPipelineState.setBindingDescription
                       bindingDescriptions with_bindingDescriptions
  /\ add_returns_index GraphicsPipelineState.addAttributeDescription
                       GraphicsPipelineState.setAttributeDescription
                       attributeDescriptions with_attributeDescriptions
  /\ add_returns_index GraphicsPipelineState.addViewport
                       GraphicsPipelineState.setViewport
                       viewports with_viewports
  /\ add_returns_index GraphicsPipelineState.addScissor
                       GraphicsPipelineState.setScissor
                       scissors with_scissors.
Proof.
  repeat match goal with |- _ /\ _ => split end.
  - adder_of (@blendAttachmentStates K).
  - adder_of (@dynamicStateEnables K).
  - adder_of (@bindingDescriptions K).
  - adder_of (@attributeDescriptions K).
  - adder_of (@viewports K).
  - adder_of (@scissors K).
Qed.

End PipelineAdders.

(** ** update *)

Lemma length_resize {A : Type} (zero : A) (n : Z) (v : list A) :
  length (resize zero n v) = Z.to_nat n.
Proof.
  unfold resize. rewrite length_app, length_firstn, repeat_length. lia.
Qed.

Lemma resize_same {A : Type} (zero : A) (n : Z) (v : list A) :
  length v = Z.to_nat n -> resize zero n v = v.
Proof.
  intros Hn. unfold resize. rewrite <- Hn, firstn_all, Nat.sub_diag.
  apply app_nil_r.
Qed.

Lemma size32_le {A : Type} (v : list A) : 0 <= size32 v <= Z.of_nat (length v).
Proof.
  unfold size32. pose proof (u32_bounds (Z.of_nat (length v))).
  pose proof (u32_le (Z.of_nat (length v))). lia.
Qed.

Lemma size32_fits {A : Type} (v : list A) :
  Z.of_nat (length v) < 2 ^ 32 -> size32 v = Z.of_nat (length v).
Proof. intros Hfit. unfold size32. apply u32_small. lia. Qed.

Lemma foldM_map {St A B : Type} (body : St -> B -> result St) (h : A -> B)
  (l : list A) (s : St) :
  foldM body (map h l) s = foldM (fun s a => body s (h a)) l s.
Proof.
  revert s. induction l as [|a l IH]; intros s; [reflexivity|].
  cbn [map foldM]. destruct (body s (h a)); [apply IH|reflexivity].
Qed.

Lemma foldM_ext {St A : Type} (f g : St -> A -> result St) (l : list A) (s : St) :
  (forall s a, f s a = g s a) -> foldM f l s = foldM g l s.
Proof.
  intros Hfg. revert s. induction l as [|a l IH]; intros s; [reflexivity|].
  cbn [foldM]. rewrite Hfg. destruct (g s a); [apply IH|reflexivity].
Qed.

(** The copying loop, from the pass that starts with [done] copied. *)
Lemma copy_loop_from {A B : Type} (f : A -> B) (src_done src_rest tail : list A)
  (done rest : list B) :
  length done = length src_done -> length rest = length src_rest ->
  foldM (fun dst i =>
           _ <- at_index dst i ;;
           src <- at_index (src_done ++ src_rest ++ tail) i ;;
           Ok (set_index dst i (f src)))
        (seq (length done) (length rest)) (done ++ rest)
  = Ok (done ++ map f src_rest).
Proof.
  revert src_done src_rest done.
  induction rest as [|r rest IH]; intros src_done src_rest done Hd Hr.
  - destruct src_rest; [reflexivity|discriminate].
  - destruct src_rest as [|a src_rest]; [discriminate|].
    cbn [length seq foldM app].
    rewrite at_index_app_mid. cbn [bind].
    rewrite Hd, at_index_app_mid. cbn [bind].
    rewrite <- Hd, set_index_app_mid.
    specialize (IH (src_done ++ [a]) src_rest (done ++ [f a])).
    rewrite !length_app, <- !app_assoc in IH. cbn [length app] in IH.
    rewrite !Nat.add_1_r in IH.
    rewrite IH by (cbn in Hr; lia).
    cbn [map]. reflexivity.
Qed.

Lemma copy_loop_ok {A B : Type} (f : A -> B) (member : list A) (count : Z)
  (dst : list B) :
  0 <= count <= Z.of_nat (length member) ->
  length dst = Z.to_nat count ->
  GraphicShaderObjectPipeline.copy_loop f data member count dst
  = Ok (map f (firstn (Z.to_nat count) member)).
Proof.
  intros Hcount Hdst. unfold GraphicShaderObjectPipeline.copy_loop, range.
  rewrite foldM_map. unfold read.
  pose proof (copy_loop_from f [] (firstn (Z.to_nat count) member)
                (skipn (Z.to_nat count) member) [] dst eq_refl) as E.
  cbn [app length] in E. rewrite firstn_skipn in E.
  rewrite length_firstn, Hdst in E.
  rewrite <- E by lia.
  apply foldM_ext. intros s i. now rewrite Nat2Z.id.
Qed.

Lemma at_index_at {A : Type} (k : nat) (pre post : list A) (a : A) :
  length pre = k -> at_index (pre ++ a :: post) k = Ok a.
Proof. intros <-. apply at_index_app_mid. Qed.

Lemma set_index_at {A : Type} (k : nat) (pre post : list A) (a b : A) :
  length pre = k -> set_index (pre ++ a :: post) k b = pre ++ b :: post.
Proof. intros <-. apply set_index_app_mid. Qed.

Lemma blend_loop_from (src_done src_rest tail : list VkPipelineColorBlendAttachmentState)
  (e_done e_rest : list VkColorBlendEquationEXT) (n_done n_rest m_done m_rest : list Z) :
  length e_done = length src_done -> length e_rest = length src_rest ->
  length n_done = length src_done -> length n_rest = length src_rest ->
  length m_done = length src_done -> length m_rest = length src_rest ->
  foldM (fun (dst : list VkColorBlendEquationEXT * list Z * list Z) i =>
           let '(equations, enables, masks) := dst in
           _ <- at_index equations i ;;
           src <- at_index (src_done ++ src_rest ++ tail) i ;;
           _ <- at_index enables i ;;
           _ <- at_index masks i ;;
           Ok (set_index equations i (GraphicShaderObjectPipeline.blendEquation_of src),
               set_index enables i (blendEnable src),
               set_index masks i (colorWriteMask src)))
        (seq (length src_done) (length src_rest))
        (e_done ++ e_rest, n_done ++ n_rest, m_done ++ m_rest)
  = Ok (e_done ++ map GraphicShaderObjectPipeline.blendEquation_of src_rest,
        n_done ++ map blendEnable src_rest,
        m_done ++ map colorWriteMask src_rest).
Proof.
  revert src_done e_done e_rest n_done n_rest m_done m_rest.
  induction src_rest as [|a src_rest IH];
    intros src_done e_done e_rest n_done n_rest m_done m_rest He He' Hn Hn' Hm Hm'.
  - destruct e_rest, n_rest, m_rest; try discriminate. reflexivity.
  - destruct e_rest as [|e e_rest], n_rest as [|n n_rest], m_rest as [|m m_rest];
      try discriminate.
    cbn [length seq foldM app].
    rewrite !(at_index_at (length src_done)) by (assumption || reflexivity).
    cbn [bind].
    rewrite !(set_index_at (length src_done)) by assumption.
    specialize (IH (src_done ++ [a])
                   (e_done ++ [GraphicShaderObjectPipeline.blendEquation_of a]) e_rest
                   (n_done ++ [blendEnable a]) n_rest
                   (m_done ++ [colorWriteMask a]) m_rest).
    rewrite !length_app, <- !app_assoc in IH. cbn [length app] in IH.
    rewrite !Nat.add_1_r in IH.
    cbn in He', Hn', Hm'.
    rewrite IH by lia.
    cbn [map]. reflexivity.
Qed.

Section ShaderObjectUpdate.
Context {K : Kernel} {H : VulkanHeader}.

Lemma update_ok (p : GraphicShaderObjectPipeline) :
  GraphicShaderObjectPipeline.update p = Ok (updated p).
Proof.
  unfold GraphicShaderObjectPipeline.update. cbv zeta.
  cbn [with_pSampleMask GraphicsPipelineState.update vertexInputState
       colorBlendState bindingDescriptions attributeDescriptions
       blendAttachmentStates pVertexBindingDescriptions
       pVertexAttributeDescriptions pAttachments vertexBindingDescriptionCount
       vertexAttributeDescriptionCount attachmentCount].
  rewrite !copy_loop_ok by (try apply size32_le; apply length_resize).
  cbn [bind].
  unfold range. rewrite foldM_map. unfold read.
  set (n := Z.to_nat (size32 (blendAttachmentStates (state p)))).
  pose proof (size32_le (blendAttachmentStates (state p))) as Hn.
  pose proof (blend_loop_from [] (firstn n (blendAttachmentStates (state p)))
                (skipn n (blendAttachmentStates (state p)))
                [] (resize zero_blendEquation (Z.of_nat n) (colorBlendEquationState p))
                [] (resize 0 (Z.of_nat n) (colorBlendEnables p))
                [] (resize 0 (Z.of_nat n) (colorWriteMasks p))) as E.
  cbn [app length] in E. rewrite firstn_skipn in E.
  rewrite !length_resize, length_firstn, Nat2Z.id in E.
  replace (Z.of_nat n) with (size32 (blendAttachmentStates (state p))) in E
    by (unfold n; lia).
  replace (Init.Nat.min n (length (blendAttachmentStates (state p)))) with n in E
    by (unfold n; lia).
  erewrite foldM_ext; [rewrite E by reflexivity|].
  - reflexivity.
  - intros [[e m] k] i. now rewrite Nat2Z.id.
Qed.

Lemma updated_twice (p : GraphicShaderObjectPipeline) : updated (updated p) = updated p.
Proof. reflexivity. Qed.

(** [GraphicShaderObjectPipeline::update] on any object: it returns, no
    read or write of its loops being out of range, whatever the sizes of
    the vectors; what it leaves is the base class's [update] with
    [pSampleMask] set; each of the five arrays has as many elements as
    the count its loop ran to; when the size of a vector fits [uint32_t]
    its array holds, element by element, the members copied from the
    vector (with [sType] set and [divisor] 1); and a second [update]
    changes nothing. *)
Theorem shader_object_update (p : GraphicShaderObjectPipeline) :
  exists p',
    GraphicShaderObjectPipeline.update p = Ok p'
    /\ GraphicShaderObjectPipeline.update p' = Ok p'
    /\ state p' = with_pSampleMask (GraphicsPipelineState.update (state p)) data
    /\ sampleMask p' = sampleMask p
    /\ (Z.of_nat (length (vertexBindingDescriptions2 p'))
        = vertexBindingDescriptionCount (vertexInputState (state p'))
        /\ Z.of_nat (length (vertexAttributeDescriptions2 p'))
           = vertexAttributeDescriptionCount (vertexInputState (state p'))
        /\ Z.of_nat (length (colorBlendEquationState p'))
           = attachmentCount (colorBlendState (state p'))
        /\ Z.of_nat (length (colorBlendEnables p'))
           = attachmentCount (colorBlendState (state p'))
        /\ Z.of_nat (length (colorWriteMasks p'))
           = attachmentCount (colorBlendState (state p')))
    /\ (Z.of_nat (length (bindingDescriptions (state p))) < 2 ^ 32 ->
        vertexBindingDescriptions2 p'
        = map GraphicShaderObjectPipeline.binding2_of (bindingDescriptions (state p)))
    /\ (Z.of_nat (length (attributeDescriptions (state p))) < 2 ^ 32 ->
        vertexAttributeDescriptions2 p'
        = map GraphicShaderObjectPipeline.attribute2_of
              (attributeDescriptions (state p)))
    /\ (Z.of_nat (length (blendAttachmentStates (state p))) < 2 ^ 32 ->
        colorBlendEquationState p'
        = map GraphicShaderObjectPipeline.blendEquation_of
              (blendAttachmentStates (state p))
        /\ colorBlendEnables p' = map blendEnable (blendAttachmentStates (state p))
        /\ colorWriteMasks p'
           = map colorWriteMask (blendAttachmentStates (state p))).
Proof.
  exists (updated p).
  split; [apply update_ok|].
  split; [rewrite update_ok; now rewrite updated_twice|].
  split; [reflexivity|]. split; [reflexivity|].
  pose proof (size32_le (bindingDescriptions (state p))).
  pose proof (size32_le (attributeDescriptions (state p))).
  pose proof (size32_le (blendAttachmentStates (state p))).
  split.
  { cbn [updated state vertexBindingDescriptions2 vertexAttributeDescriptions2
         colorBlendEquationState colorBlendEnables colorWriteMasks
         with_pSampleMask GraphicsPipelineState.update vertexInputState
         colorBlendState vertexBindingDescriptionCount
         vertexAttributeDescriptionCount attachmentCount].
    rewrite !length_map, !length_firstn.
    repeat match goal with |- _ /\ _ => split end; lia. }
  cbn [updated vertexBindingDescriptions2 vertexAttributeDescriptions2
       colorBlendEquationState colorBlendEnables colorWriteMasks].
  split; [|split].
  - intros Hfit. rewrite size32_fits, Nat2Z.id, firstn_all by exact Hfit.
    reflexivity.
  - intros Hfit. rewrite size32_fits, Nat2Z.id, firstn_all by exact Hfit.
    reflexivity.
  - intros Hfit. rewrite size32_fits, Nat2Z.id, firstn_all by exact Hfit.
    repeat match goal with |- _ /\ _ => split end; reflexivity.
Qed.

End ShaderObjectUpdate.

Section PipelineUpdate.
Context {K : Kernel} {H : VulkanHeader}.

Lemma readable_prefix {A : Type} (member : list A) :
  readable (size32 member) data member.
Proof.
  intros i Hi. pose proof (size32_le member) as Hle.
  destruct (at_index_below member (Z.to_nat i)) as (a & E); [lia|].
  exists a. split; [exact E|].
  unfold at_index in E. destruct (nth_error member (Z.to_nat i)); congruence.
Qed.

(** [GraphicsPipelineState::update]. It leaves the six vectors as they
    are, and calling it again changes nothing. Each count it sets is the
    size of its vector converted to [uint32_t], never more than the size:
    reading that many elements through the pointer set with it stays in
    the vector, even for a size that does not fit [uint32_t]. Only for an
    empty [viewports] (or [scissors]) is the count not the size: one
    viewport is announced with a null pointer. With sizes that fit
    [uint32_t], [viewportCount] and [scissorCount] are at least 1. *)
Theorem update_counts (s : GraphicsPipelineState) :
  let s' := GraphicsPipelineState.update s in
  GraphicsPipelineState.update s' = s'
  /\ (blendAttachmentStates s' = blendAttachmentStates s
      /\ dynamicStateEnables s' = dynamicStateEnables s
      /\ bindingDescriptions s' = bindingDescriptions s
      /\ attributeDescriptions s' = attributeDescriptions s
      /\ viewports s' = viewports s
      /\ scissors s' = scissors s)
  /\ (readable (attachmentCount (colorBlendState s'))
               (pAttachments (colorBlendState s')) (blendAttachmentStates s')
      /\ readable (dynamicStateCount (dynamicState s'))
                  (pDynamicStates (dynamicState s')) (dynamicStateEnables s')
      /\ readable (vertexBindingDescriptionCount (vertexInputState s'))
                  (pVertexBindingDescriptions (vertexInputState s'))
                  (bindingDescriptions s')
      /\ readable (vertexAttributeDescriptionCount (vertexInputState s'))
                  (pVertexAttributeDescriptions (vertexInputState s'))
                  (attributeDescriptions s'))
  /\ (viewports s = [] ->
      viewportCount (viewportState s') = 1
      /\ pViewports (viewportState s') = nullptr)
  /\ (viewports s <> [] ->
      viewportCount (viewportState s') = size32 (viewports s)
      /\ readable (viewportCount (viewportState s'))
                  (pViewports (viewportState s')) (viewports s'))
  /\ (scissors s = [] ->
      scissorCount (viewportState s') = 1
      /\ pScissors (viewportState s') = nullptr)
  /\ (scissors s <> [] ->
      scissorCount (viewportState s') = size32 (scissors s)
      /\ readable (scissorCount (viewportState s'))
                  (pScissors (viewportState s')) (scissors s'))
  /\ (Z.of_nat (length (viewports s)) < 2 ^ 32 ->
      1 <= viewportCount (viewportState s'))
  /\ (Z.of_nat (length (scissors s)) < 2 ^ 32 ->
      1 <= scissorCount (viewportState s')).
Proof.
  intros s'. subst s'.
  split; [reflexivity|].
  split; [repeat match goal with |- _ /\ _ => split end; reflexivity|].
  split; [repeat match goal with |- _ /\ _ => split end; apply readable_prefix|].
  cbn [GraphicsPipelineState.update viewportState viewportCount pViewports
       scissorCount pScissors viewports scissors].
  split; [intros ->; split; reflexivity|].
  split.
  { intros Hne. destruct (viewports s) as [|v vs] eqn:E; [congruence|].
    split; [reflexivity|]. apply readable_prefix. }
  split; [intros ->; split; reflexivity|].
  split.
  { intros Hne. destruct (scissors s) as [|v vs] eqn:E; [congruence|].
    split; [reflexivity|]. apply readable_prefix. }
  split.
  - intros Hfit. destruct (viewports s) as [|v vs]; [lia|].
    rewrite size32_fits by exact Hfit. cbn [length]. lia.
  - intros Hfit. destruct (scissors s) as [|v vs]; [lia|].
    rewrite size32_fits by exact Hfit. cbn [length]. lia.
Qed.

(** [setViewportScissor] needs a first viewport and a first scissor:
    called on an object whose [viewports] or [scissors] is empty (after
    [clearViewports], say) it writes to element 0 of an empty vector.
    The constructor makes one of each. On an object that has them, after
    [update], it returns and assigns exactly [viewports[0]] and
    [scissors[0]]; what it has assigned is what is read through
    [pViewports] and [pScissors], the counts are at least 1 when the
    sizes fit [uint32_t], and [update] need not be called again: it
    would change nothing. *)
Theorem setViewportScissor_after_update (p : GraphicShaderObjectPipeline)
  (extent : VkExtent2D) :
  (viewports (state p) = [] \/ scissors (state p) = [] ->
   GraphicShaderObjectPipeline.setViewportScissor p extent = Fault OutOfRange)
  /\ (viewports (state GraphicShaderObjectPipeline.new) = [zero_viewport]
      /\ scissors (state GraphicShaderObjectPipeline.new) = [zero_rect])
  /\ (viewports (state p) <> [] -> scissors (state p) <> [] ->
      exists p1 p2,
        GraphicShaderObjectPipeline.update p = Ok p1
        /\ GraphicShaderObjectPipeline.setViewportScissor p1 extent = Ok p2
        /\ viewports (state p2) = full_viewport extent :: tl (viewports (state p))
        /\ scissors (state p2) = full_scissor extent :: tl (scissors (state p))
        /\ p2 = GraphicShaderObjectPipeline.with_state p1
                  (with_scissors
                     (with_viewports (state p1) (viewports (state p2)))
                     (scissors (state p2)))
        /\ read (pViewports (viewportState (state p2))) (viewports (state p2)) 0
           = Ok (full_viewport extent)
        /\ read (pScissors (viewportState (state p2))) (scissors (state p2)) 0
           = Ok (full_scissor extent)
        /\ GraphicShaderObjectPipeline.update p2 = Ok p2).
Proof.
  destruct p as [s mask bindings2 equations enables masks attributes2].
  destruct s as [ia rs ms ds vps dyn cb vi attachments dynamics bindings
                 attributes vpl scl].
  cbn [state viewports scissors].
  split.
  { unfold GraphicShaderObjectPipeline.setViewportScissor.
    cbn [state viewports scissors with_viewports].
    intros [-> | ->]; [reflexivity|].
    destruct vpl; reflexivity. }
  split; [split; reflexivity|].
  intros Hv Hs.
  destruct vpl as [|v vs]; [congruence|].
  destruct scl as [|c cs]; [congruence|].
  eexists. eexists. split; [apply update_ok|].
  split; [reflexivity|].
  split; [reflexivity|]. split; [reflexivity|]. split; [reflexivity|].
  split; [reflexivity|]. split; [reflexivity|].
  rewrite update_ok. reflexivity.
Qed.

End PipelineUpdate.

(** ** The pipeline state at concrete inputs *)

Lemma setters_guard_witness :
  @GraphicsPipelineState.setBlendAttachmentState Sym.kernel true
    (@GraphicsPipelineState.new Sym.kernel vulkan_core) 1 zero_blendAttachment
  = Continues (Fault OutOfRange).
Proof.
  exact (proj1 (proj2 (proj1 (@setters_guard Sym.kernel) true
                         (@GraphicsPipelineState.new Sym.kernel vulkan_core) 1
                         zero_blendAttachment ltac:(lia)))
               eq_refl).
Defined.

Lemma adders_return_index_witness :
  fst (@GraphicsPipelineState.addBlendAttachmentState Sym.kernel
         (@GraphicsPipelineState.new Sym.kernel vulkan_core) zero_blendAttachment)
  = 1.
Proof.
  exact (proj1 (proj1 (@adders_return_index Sym.kernel)
                  (@GraphicsPipelineState.new Sym.kernel vulkan_core)
                  zero_blendAttachment eq_refl)).
Defined.

Lemma shader_object_update_witness :
  exists p',
    @GraphicShaderObjectPipeline.update Sym.kernel vulkan_core
      (@GraphicShaderObjectPipeline.new Sym.kernel vulkan_core) = Ok p'
    /\ colorBlendEnables p' = [0]
    /\ colorWriteMasks p' = [15].
Proof.
  destruct (@shader_object_update Sym.kernel vulkan_core
              (@GraphicShaderObjectPipeline.new Sym.kernel vulkan_core))
    as (p' & E & _ & _ & _ & _ & _ & _ & Hblend).
  exists p'. split; [exact E|].
  destruct (Hblend eq_refl) as (_ & He & Hm).
  split; [exact He|exact Hm].
Defined.

Lemma update_counts_witness :
  viewportCount (viewportState
                   (GraphicsPipelineState.update
                      (@GraphicsPipelineState.new Sym.kernel vulkan_core))) = 1
  /\ pViewports (viewportState
                   (GraphicsPipelineState.update
                      (@GraphicsPipelineState.new Sym.kernel vulkan_core)))
     = nullptr.
Proof.
  destruct (@update_counts Sym.kernel
              (@GraphicsPipelineState.new Sym.kernel vulkan_core))
    as (_ & _ & _ & Hempty & _).
  exact (Hempty eq_refl).
Defined.

Lemma setViewportScissor_after_update_witness :
  exists p1 p2,
    @GraphicShaderObjectPipeline.update Sym.kernel vulkan_core
      (@GraphicShaderObjectPipeline.new Sym.kernel vulkan_core) = Ok p1
    /\ GraphicShaderObjectPipeline.setViewportScissor p1 (MkExtent2D 800 600)
       = Ok p2
    /\ read (pViewports (viewportState (state p2))) (viewports (state p2)) 0
       = Ok (@MkViewport Sym.kernel (Sym.OfInt 0) (Sym.OfInt 0) (Sym.OfInt 800)
                         (Sym.OfInt 600) (Sym.OfInt 0) (Sym.OfInt 1))
    /\ @GraphicShaderObjectPipeline.update Sym.kernel vulkan_core p2 = Ok p2.
Proof.
  destruct (@setViewportScissor_after_update Sym.kernel vulkan_core
              (@GraphicShaderObjectPipeline.new Sym.kernel vulkan_core)
              (MkExtent2D 800 600))
    as (_ & _ & Hflow).
  destruct Hflow as (p1 & p2 & E1 & E2 & _ & _ & _ & Hv & _ & Hu);
    [discriminate|discriminate|].
  exists p1, p2. split; [exact E1|]. split; [exact E2|].
  split; [exact Hv|exact Hu].
Defined.

(** * Where Torus::add puts its vertices, and where it looks for them *)

Section TorusLayout.
Context {K : Kernel} {V : VertexFormat K} {L : KernelLaws K}.

Lemma Torus_add_closed (geo : Mesh) (mat : mat4) (w h : Z) :
  1 <= w -> 1 <= h -> (w + 1) * (h + 1) < 2 ^ 31 ->
  Torus.add geo mat w h
  = Ok {| m_vertices :=
            m_vertices geo
            ++ flat_map
                 (fun latitude =>
                    map (Torus_vertex (of_int w) (of_int h)
                           (fdiv (fmul (lit 2) pi) (of_int w))
                           (fdiv (fmul (lit 2) pi) (of_int h)) latitude)
                        (range (u32 h + 1)))
                 (range (u32 w + 1));
          m_indicesTriangles :=
            m_indicesTriangles geo ++ Torus.triangles (u32 (w + 1)) w h;
          m_indicesOutline :=
            m_indicesOutline geo ++ Torus.outline (u32 (w + 1)) w h |}.
Proof.
  intros Hw Hh Hint. unfold Torus.add. int_ops.
  rewrite !fdiv_checked_ok by lia. cbn [bind].
  rewrite Torus_vertices_ok by lia. int_ops. reflexivity.
Qed.

(** [Torus::add] with segment counts [1 <= w, h < 2^15] on a mesh of [n]
    vertices. The vertex of the grid point [(latitude, longitude)] is
    pushed at index [n + latitude*(h+1) + longitude]: the rows have
    [h+1] vertices. The triangles take the grid point
    [(latitude, longitude)] to be at index [latitude*(w+1) + longitude]:
    rows of [w+1]. The two agree on every grid point exactly when the
    mesh was empty and [w = h]. *)
Theorem Torus_vertex_layout (geo : Mesh) (mat : mat4) (w h : Z) :
  1 <= w < 2 ^ 15 -> 1 <= h < 2 ^ 15 ->
  exists geo',
    Torus.add geo mat w h = Ok geo'
    /\ (forall latitude longitude,
          0 <= latitude <= w -> 0 <= longitude <= h ->
          at_index (m_vertices geo')
                   (Z.to_nat (vertex_count geo + (latitude * (h + 1) + longitude)))
          = Ok (Torus_vertex (of_int w) (of_int h)
                  (fdiv (fmul (lit 2) pi) (of_int w))
                  (fdiv (fmul (lit 2) pi) (of_int h)) latitude longitude))
    /\ (forall latitude longitude,
          0 <= latitude < w -> 0 <= longitude < h ->
          In (UVec3 (latitude * (w + 1) + longitude)
                    (latitude * (w + 1) + longitude + 1)
                    ((latitude + 1) * (w + 1) + longitude))
             (m_indicesTriangles geo')
          /\ In (UVec3 ((latitude + 1) * (w + 1) + longitude)
                       (latitude * (w + 1) + longitude + 1)
                       ((latitude + 1) * (w + 1) + longitude + 1))
                (m_indicesTriangles geo'))
    /\ ((forall latitude longitude,
           0 <= latitude <= w -> 0 <= longitude <= h ->
           vertex_count geo + (latitude * (h + 1) + longitude)
           = latitude * (w + 1) + longitude)
        <-> vertex_count geo = 0 /\ w = h).
Proof.
  intros Hw Hh. eexists. split; [apply Torus_add_closed; nia|].
  cbn [m_vertices m_indicesTriangles].
  assert (2 ^ 15 * 2 ^ 15 < 2 ^ 32) as Hfit by reflexivity.
  rewrite !(u32_small w), !(u32_small h), (u32_small (w + 1)) by lia.
  split; [|split].
  - intros latitude longitude Hlat Hlon.
    replace (Z.to_nat (vertex_count geo + (latitude * (h + 1) + longitude)))
      with (length (m_vertices geo) + Z.to_nat (latitude * (h + 1) + longitude))%nat
      by (unfold vertex_count; nia).
    unfold at_index.
    rewrite nth_error_app2, Nat.add_comm, Nat.add_sub by lia.
    now rewrite (nth_error_grid (Torus_vertex _ _ _ _)) by lia.
  - intros latitude longitude Hlat Hlon.
    assert (In (Torus.triangle1 (w + 1) latitude longitude)
               (Torus.triangles (w + 1) w h)
            /\ In (Torus.triangle2 (w + 1) latitude longitude)
                  (Torus.triangles (w + 1) w h)) as [H1 H2].
    { unfold Torus.triangles. rewrite !(u32_small w), !(u32_small h) by lia.
      split; apply in_flat_map; exists latitude;
        (split; [apply in_range; lia|]);
        apply in_flat_map; exists longitude;
        (split; [apply in_range; lia|]); cbn; auto. }
    unfold Torus.triangle1 in H1. unfold Torus.triangle2 in H2.
    rewrite !u32_small in H1, H2 by nia.
    split; apply in_or_app; right; assumption.
  - split.
    + intros Hall.
      pose proof (Hall 0 0 ltac:(lia) ltac:(lia)) as H0.
      pose proof (Hall 1 0 ltac:(lia) ltac:(lia)) as H1.
      lia.
    + intros [Hn ->] latitude longitude _ _. lia.
Qed.

End TorusLayout.

Lemma Torus_vertex_layout_witness :
  exists geo' : Sym.mesh,
    Torus.add (empty_mesh : Sym.mesh) (@mat4_1 Sym.kernel) 1 2 = Ok geo'
    /\ In (UVec3 0 1 2) (m_indicesTriangles geo')
    /\ at_index (m_vertices geo') 2
       = Ok (@Torus_vertex Sym.kernel Sym.vertex_format
               (Sym.OfInt 1) (Sym.OfInt 2)
               (Sym.Div (Sym.Mul (Sym.Lit 2) Sym.Pi) (Sym.OfInt 1))
               (Sym.Div (Sym.Mul (Sym.Lit 2) Sym.Pi) (Sym.OfInt 2)) 0 2)
    /\ at_index (m_vertices geo') 3
       = Ok (@Torus_vertex Sym.kernel Sym.vertex_format
               (Sym.OfInt 1) (Sym.OfInt 2)
               (Sym.Div (Sym.Mul (Sym.Lit 2) Sym.Pi) (Sym.OfInt 1))
               (Sym.Div (Sym.Mul (Sym.Lit 2) Sym.Pi) (Sym.OfInt 2)) 1 0).
Proof.
  destruct (@Torus_vertex_layout Sym.kernel Sym.vertex_format Sym_laws
              empty_mesh (@mat4_1 Sym.kernel) 1 2 ltac:(lia) ltac:(lia))
    as (geo' & E & Hlayout & Hused & _).
  exists geo'. split; [exact E|].
  split; [exact (proj1 (Hused 0 0 ltac:(lia) ltac:(lia)))|].
  split.
  - exact (Hlayout 0 2 ltac:(lia) ltac:(lia)).
  - exact (Hlayout 1 0 ltac:(lia) ltac:(lia)).
Defined.

(** * The graphics pipeline generator *)

Lemma destroyed_app (l1 l2 : list call) :
  destroyed (l1 ++ l2) = destroyed l1 ++ destroyed l2.
Proof. apply flat_map_app. Qed.

Lemma destroyed_destroys (d : Z) (modules : list Z) :
  destroyed (map (vkDestroyShaderModule d) modules) = modules.
Proof.
  induction modules as [|m modules IH]; [reflexivity|].
  cbn. f_equal. exact IH.
Qed.

Section GeneratorFacts.
Context {K : Kernel} {H : VulkanHeader}.

(** What every call keeps: the device has a value, and the modules
    created and not yet destroyed are the temporary modules. *)
Lemma run_operation_modules (g : GraphicsPipelineGenerator)
  (s : GraphicsPipelineState) (log : list call) (op : operation) (d : Z) :
  device g = Some d ->
  exists g' s' log' d',
    run_operation (g, s, log) op = Determined (g', s', log')
    /\ device g' = Some d'
    /\ destroyed log' ++ temporaryModules g'
       = destroyed log ++ temporaryModules g ++ created_modules [op].
Proof.
  intros Hd. destruct g as [c dev cache stages modules formats info].
  cbn [device] in Hd. subst dev.
  destruct op; cbn [run_operation created_modules flat_map app].
  - do 4 eexists. cbn. split; [reflexivity|]. split; [reflexivity|].
    now rewrite destroyed_app, !app_nil_r.
  - do 4 eexists. cbn. split; [reflexivity|]. split; [reflexivity|].
    now rewrite !app_nil_r.
  - destruct modules as [|m modules]; do 4 eexists; cbn;
      (split; [reflexivity|]); (split; [reflexivity|]).
    + reflexivity.
    + rewrite destroyed_app, !app_nil_r. cbn. now rewrite destroyed_destroys.
  - destruct modules as [|m modules]; do 4 eexists; cbn;
      (split; [reflexivity|]); (split; [reflexivity|]).
    + reflexivity.
    + rewrite destroyed_app, !app_nil_r. cbn. now rewrite destroyed_destroys.
  - do 4 eexists. cbn. split; [reflexivity|]. split; [reflexivity|].
    now rewrite !app_nil_r.
  - do 4 eexists. cbn. split; [reflexivity|]. split; [reflexivity|].
    now rewrite !app_nil_r.
  - do 4 eexists. cbn. split; [reflexivity|]. split; [reflexivity|].
    now rewrite !app_nil_r.
  - do 4 eexists. cbn. split; [reflexivity|]. split; [reflexivity|].
    now rewrite !app_nil_r.
  - do 4 eexists. cbn. split; [reflexivity|]. split; [reflexivity|].
    now rewrite destroyed_app, !app_nil_r.
  - do 4 eexists. cbn. split; [reflexivity|]. split; [reflexivity|].
    now rewrite destroyed_app, !app_nil_r.
Qed.

Lemma run_modules (ops : list operation) (g : GraphicsPipelineGenerator)
  (s : GraphicsPipelineState) (log : list call) (d : Z) :
  device g = Some d ->
  exists g' s' log' d',
    run ops (g, s, log) = Determined (g', s', log')
    /\ device g' = Some d'
    /\ destroyed log' ++ temporaryModules g'
       = destroyed log ++ temporaryModules g ++ created_modules ops.
Proof.
  revert g s log d. induction ops as [|op ops IH]; intros g s log d Hd.
  - exists g, s, log, d. split; [reflexivity|]. split; [exact Hd|].
    cbn. now rewrite app_nil_r.
  - destruct (run_operation_modules g s log op d Hd)
      as (g1 & s1 & log1 & d1 & E1 & Hd1 & Hm1).
    destruct (IH g1 s1 log1 d1 Hd1) as (g2 & s2 & log2 & d2 & E2 & Hd2 & Hm2).
    exists g2, s2, log2, d2. cbn [run]. rewrite E1.
    split; [exact E2|]. split; [exact Hd2|].
    rewrite Hm2, app_assoc, Hm1.
    unfold created_modules. cbn [flat_map].
    now rewrite app_nil_r, <- !app_assoc.
Qed.

End GeneratorFacts.

Section GeneratorTheorems.
Context {K : Kernel} {H : VulkanHeader}.

(** The shader modules of a generator, over any sequence of calls. On a
    generator constructed with a device, every call returns; the
    destructor then returns too, and the modules destroyed by then are
    the modules [addShader] had [vkCreateShaderModule] create from code,
    each once and in the order of their creation. At any time the modules
    destroyed so far followed by [temporaryModules] are the modules
    created so far: no module given to [addShader] by handle is ever
    destroyed, and none is destroyed twice. *)
Theorem shader_modules_destroyed_once (ops : list operation)
  (device_ layout_ renderPass_ : Z) (s : GraphicsPipelineState) :
  exists g' s' log' log'',
    run ops (GraphicsPipelineGenerator.new device_ layout_ renderPass_, s, [])
    = Determined (g', s', log')
    /\ destroyed log' ++ temporaryModules g' = created_modules ops
    /\ GraphicsPipelineGenerator.destroy log' g' = Determined log''
    /\ destroyed log'' = created_modules ops.
Proof.
  destruct (run_modules ops (GraphicsPipelineGenerator.new device_ layout_ renderPass_)
              s [] device_ eq_refl) as (g' & s' & log' & d' & E & Hd & Hm).
  cbn in Hm.
  exists g', s', log'.
  destruct g' as [c dev cache stages modules formats info].
  cbn [device temporaryModules] in *. subst dev.
  unfold GraphicsPipelineGenerator.destroy,
    GraphicsPipelineGenerator.destroyShaderModules.
  cbn [device temporaryModules].
  destruct modules as [|m modules]; eexists;
    (split; [exact E|]); (split; [exact Hm|]); (split; [reflexivity|]).
  - now rewrite app_nil_r in Hm.
  - rewrite destroyed_app, destroyed_destroys. exact Hm.
Qed.

Lemma nth_error_getShaderModule (g : GraphicsPipelineGenerator) (index : Z)
  (shaderStage : VkPipelineShaderStageCreateInfo) :
  0 <= index ->
  nth_error (shaderStages g) (Z.to_nat index) = Some shaderStage ->
  GraphicsPipelineGenerator.getShaderModule g index = ss_module shaderStage.
Proof.
  intros Hi E. unfold GraphicsPipelineGenerator.getShaderModule. rewrite E.
  assert (Z.to_nat index < length (shaderStages g))%nat as Hlt
    by (apply nth_error_Some; congruence).
  destruct (Z.ltb_spec index (Z.of_nat (length (shaderStages g)))); [reflexivity|lia].
Qed.

(** [getShaderModule] and [addShader]. The stage [addShader] pushes is
    at the index that was the number of stages, where [getShaderModule]
    returns its module; the modules at the indices below are as they
    were. At an index that is not below the number of stages, and at any
    index after [clearShaders], [getShaderModule] reads no stage and
    returns [VK_NULL_HANDLE]. [update] sets [stageCount] to the number of
    stages, converted to [uint32_t]. *)
Theorem getShaderModule_round_trip (g : GraphicsPipelineGenerator)
  (s : GraphicsPipelineState) (log : list call) (shaderModule stage index : Z)
  (entryPoint : String.string) :
  0 <= index ->
  let g' := snd (GraphicsPipelineGenerator.addShader g shaderModule stage
                   entryPoint) in
  GraphicsPipelineGenerator.getShaderModule
    g' (Z.of_nat (length (shaderStages g))) = shaderModule
  /\ nth_error (shaderStages g') (length (shaderStages g))
     = Some (fst (GraphicsPipelineGenerator.addShader g shaderModule stage
                    entryPoint))
  /\ (index < Z.of_nat (length (shaderStages g)) ->
      GraphicsPipelineGenerator.getShaderModule g' index
      = GraphicsPipelineGenerator.getShaderModule g index)
  /\ (Z.of_nat (length (shaderStages g)) <= index ->
      GraphicsPipelineGenerator.getShaderModule g index = VK_NULL_HANDLE)
  /\ (forall g'' log',
        GraphicsPipelineGenerator.clearShaders log g = Determined (g'', log') ->
        GraphicsPipelineGenerator.getShaderModule g'' index = VK_NULL_HANDLE)
  /\ stageCount (createInfo (fst (GraphicsPipelineGenerator.update g' s)))
     = size32 (shaderStages g')
  /\ length (shaderStages g') = Datatypes.S (length (shaderStages g)).
Proof.
  intros Hi g'. subst g'.
  cbn [GraphicsPipelineGenerator.addShader fst snd].
  repeat match goal with |- _ /\ _ => split end.
  - rewrite (nth_error_getShaderModule _ _
               (MkShaderStage VK_STRUCTURE_TYPE_PIPELINE_SHADER_STAGE_CREATE_INFO
                              0 stage shaderModule entryPoint)).
    + reflexivity.
    + lia.
    + cbn [with_shaderStages shaderStages].
      rewrite Nat2Z.id, nth_error_app2, Nat.sub_diag by lia. reflexivity.
  - cbn [with_shaderStages shaderStages].
    now rewrite nth_error_app2, Nat.sub_diag by lia.
  - intros Hlt.
    destruct (nth_error (shaderStages g) (Z.to_nat index)) as [st|] eqn:E.
    + rewrite (nth_error_getShaderModule g index st Hi E).
      apply nth_error_getShaderModule; [exact Hi|].
      cbn [with_shaderStages shaderStages].
      rewrite nth_error_app1 by lia. exact E.
    + apply nth_error_None in E. lia.
  - intros Hge. unfold GraphicsPipelineGenerator.getShaderModule.
    destruct (Z.ltb_spec index (Z.of_nat (length (shaderStages g))));
      [lia|reflexivity].
  - intros g'' log' E.
    unfold GraphicsPipelineGenerator.clearShaders,
      GraphicsPipelineGenerator.destroyShaderModules in E.
    cbn [with_shaderStages temporaryModules device] in E.
    assert (shaderStages g'' = []) as Hempty.
    { destruct (temporaryModules g); [|destruct (device g)];
        try discriminate; injection E as <- _; reflexivity. }
    unfold GraphicsPipelineGenerator.getShaderModule. rewrite Hempty.
    cbn [length]. destruct (Z.ltb_spec index (Z.of_nat 0)); [lia|reflexivity].
  - reflexivity.
  - cbn [with_shaderStages shaderStages]. rewrite length_app. cbn. lia.
Qed.

End GeneratorTheorems.

Section GeneratorSequences.
Context {K : Kernel} {H : VulkanHeader}.

Lemma run_app (ops1 ops2 : list operation) (st : generator_state) :
  run (ops1 ++ ops2) st
  = match run ops1 st with
    | Determined st' => run ops2 st'
    | Indeterminate => Indeterminate
    end.
Proof.
  revert st. induction ops1 as [|op ops1 IH]; intros st; [reflexivity|].
  cbn [app run]. destruct (run_operation st op); [apply IH|reflexivity].
Qed.

(** Without a device, no temporary module and an empty log: the calls
    that do not read [device] keep that, the others are undefined. *)
Lemma run_operation_no_device (g : GraphicsPipelineGenerator)
  (s : GraphicsPipelineState) (op : operation) :
  device g = None -> temporaryModules g = [] -> sets_device op = false ->
  if reads_device op
  then run_operation (g, s, []) op = Indeterminate
  else exists g' s',
         run_operation (g, s, []) op = Determined (g', s', [])
         /\ device g' = None /\ temporaryModules g' = [].
Proof.
  intros Hd Hm Hs. destruct g as [c dev cache stages modules formats info].
  cbn [device temporaryModules] in Hd, Hm. subst dev modules.
  destruct op; try discriminate; cbn; try reflexivity;
    do 2 eexists; (split; [reflexivity|]); split; reflexivity.
Qed.

Lemma run_no_device (ops : list operation) (g : GraphicsPipelineGenerator)
  (s : GraphicsPipelineState) :
  device g = None -> temporaryModules g = [] ->
  forallb (fun op => negb (sets_device op)) ops = true ->
  if existsb reads_device ops
  then run ops (g, s, []) = Indeterminate
  else exists g' s',
         run ops (g, s, []) = Determined (g', s', [])
         /\ device g' = None /\ temporaryModules g' = [].
Proof.
  revert g s. induction ops as [|op ops IH]; intros g s Hd Hm Hs.
  - cbn. exists g, s. now repeat split.
  - cbn [forallb] in Hs. apply andb_prop in Hs as [Hop Hs].
    apply negb_true_iff in Hop.
    pose proof (run_operation_no_device g s op Hd Hm Hop) as Hstep.
    cbn [existsb run]. destruct (reads_device op).
    + rewrite Hstep. reflexivity.
    + destruct Hstep as (g1 & s1 & E1 & Hd1 & Hm1). rewrite E1.
      cbn [orb]. apply IH; assumption.
Qed.

(** [device] before it has a value. On a generator constructed from a
    pipeline state alone, over any sequence of calls without [setDevice]:
    [addShader] from code and [createPipeline] read [device], which no
    constructor or setter has given a value; the other calls, and the
    destructor after them, return and make no call into the Vulkan
    library. Once [setDevice] has been called first, every sequence of
    calls returns. *)
Theorem device_read_before_set (ops : list operation) (s : GraphicsPipelineState) :
  forallb (fun op => negb (sets_device op)) ops = true ->
  (existsb reads_device ops = true ->
   run ops (GraphicsPipelineGenerator.new_of_state, s, []) = Indeterminate)
  /\ (existsb reads_device ops = false ->
      exists g' s',
        run ops (GraphicsPipelineGenerator.new_of_state, s, [])
        = Determined (g', s', [])
        /\ GraphicsPipelineGenerator.destroy [] g' = Determined [])
  /\ (forall device_, exists st,
        run (SetDevice device_ :: ops)
            (GraphicsPipelineGenerator.new_of_state, s, [])
        = Determined st).
Proof.
  intros Hs.
  pose proof (run_no_device ops GraphicsPipelineGenerator.new_of_state s
                eq_refl eq_refl Hs) as Hrun.
  split; [|split].
  - intros Hreads. now rewrite Hreads in Hrun.
  - intros Hreads. rewrite Hreads in Hrun.
    destruct Hrun as (g' & s' & E & Hd & Hm).
    exists g', s'. split; [exact E|].
    unfold GraphicsPipelineGenerator.destroy,
      GraphicsPipelineGenerator.destroyShaderModules.
    now rewrite Hm.
  - intros device_. cbn [run run_operation].
    destruct (run_modules ops
                (GraphicsPipelineGenerator.setDevice
                   GraphicsPipelineGenerator.new_of_state device_)
                s [] device_ eq_refl) as (g' & s' & log' & _ & E & _).
    now exists (g', s', log').
Qed.

(** What every call keeps of a generator made for a render pass. *)
Lemma run_operation_wired (g : GraphicsPipelineGenerator)
  (s : GraphicsPipelineState) (log : list call) (op : operation)
  (st : generator_state) :
  run_operation (g, s, log) op = Determined st ->
  wired (createInfo g) -> pipelineCache g = VK_NULL_HANDLE ->
  wired (createInfo (fst (fst st)))
  /\ pipelineCache (fst (fst st)) = VK_NULL_HANDLE.
Proof.
  intros E Hw Hc. destruct g as [c dev cache stages modules formats info].
  cbn [createInfo pipelineCache] in Hw, Hc. subst cache.
  destruct op; cbn in E.
  - destruct dev; [|discriminate]. injection E as <-. now cbn.
  - injection E as <-. now cbn.
  - destruct modules; [|destruct dev]; try discriminate;
      injection E as <-; now cbn.
  - destruct modules; [|destruct dev]; try discriminate;
      injection E as <-; now cbn.
  - injection E as <-. now cbn.
  - injection E as <-. cbn. unfold wired in *. cbn. intuition.
  - injection E as <-. cbn. unfold wired in *. cbn. intuition.
  - injection E as <-. cbn. unfold wired in *. cbn. intuition.
  - destruct dev; [|discriminate]. injection E as <-.
    cbn. unfold wired in *. cbn. intuition.
  - destruct dev; [|discriminate]. injection E as <-.
    cbn. unfold wired in *. cbn. intuition.
Qed.

Lemma run_wired (ops : list operation) (g : GraphicsPipelineGenerator)
  (s : GraphicsPipelineState) (log : list call) (st : generator_state) :
  run ops (g, s, log) = Determined st ->
  wired (createInfo g) -> pipelineCache g = VK_NULL_HANDLE ->
  wired (createInfo (fst (fst st)))
  /\ pipelineCache (fst (fst st)) = VK_NULL_HANDLE.
Proof.
  revert g s log. induction ops as [|op ops IH]; intros g s log E Hw Hc.
  - injection E as <-. now split.
  - cbn [run] in E.
    destruct (run_operation (g, s, log) op) as [[[g1 s1] log1]|] eqn:E1;
      [|discriminate].
    destruct (run_operation_wired g s log op _ E1 Hw Hc) as [Hw1 Hc1].
    exact (IH g1 s1 log1 E Hw1 Hc1).
Qed.

(** [createPipeline()] after any sequence of calls, on a generator
    constructed with a device, a layout and a render pass. It returns
    the handle [vkCreateGraphicsPipelines] stores, and that call is the
    last of the log. The structure it is given has [stageCount] the
    number of stages converted to [uint32_t], [pStages] their array, the
    eight pointers [init] has set and a null [pNext]; the pipeline state
    it points to has been updated; and no pipeline cache is ever used:
    the cache of the call is [VK_NULL_HANDLE]. *)
Theorem createPipeline_structure (ops : list operation)
  (device_ layout_ renderPass_ created : Z) (s : GraphicsPipelineState) :
  exists g s' log d,
    run ops (GraphicsPipelineGenerator.new device_ layout_ renderPass_, s, [])
    = Determined (g, s', log)
    /\ device g = Some d
    /\ GraphicsPipelineGenerator.createPipeline created log g s'
       = Determined
           (created,
            fst (GraphicsPipelineGenerator.update g s'),
            GraphicsPipelineState.update s',
            log ++ [vkCreateGraphicsPipelines d VK_NULL_HANDLE
                      (createInfo (fst (GraphicsPipelineGenerator.update g s')))])
    /\ wired (createInfo (fst (GraphicsPipelineGenerator.update g s')))
    /\ stageCount (createInfo (fst (GraphicsPipelineGenerator.update g s')))
       = size32 (shaderStages g)
    /\ pStages (createInfo (fst (GraphicsPipelineGenerator.update g s'))) = data
    /\ shaderStages (fst (GraphicsPipelineGenerator.update g s')) = shaderStages g.
Proof.
  destruct (run_modules ops (GraphicsPipelineGenerator.new device_ layout_ renderPass_)
              s [] device_ eq_refl) as (g & s' & log & d & E & Hd & _).
  destruct (run_wired ops _ s [] _ E) as [Hw Hc].
  { unfold wired. cbn. repeat split. }
  { reflexivity. }
  cbn [fst] in Hw, Hc.
  exists g, s', log, d. split; [exact E|]. split; [exact Hd|].
  destruct g as [c dev cache stages modules formats info].
  cbn [device pipelineCache createInfo] in *. subst dev cache.
  split; [reflexivity|].
  split; [unfold wired in *; cbn; intuition|].
  repeat split.
Qed.

End GeneratorSequences.

(** ** The generator at concrete inputs *)

Lemma shader_modules_destroyed_once_witness :
  exists g' s' log' log'',
    @run Sym.kernel vulkan_core
        [AddShaderCode 1 101 [3; 2; 35; 7] 1 String.EmptyString;
         AddShader 55 16 String.EmptyString;
         AddShaderCode 4 102 [119734787] 16 String.EmptyString;
         ClearShaders;
         AddShaderCode 1 103 [] 1 String.EmptyString]
        (@GraphicsPipelineGenerator.new vulkan_core 9 8 7,
         @GraphicsPipelineState.new Sym.kernel vulkan_core, [])
    = Determined (g', s', log')
    /\ @GraphicsPipelineGenerator.destroy log' g' = Determined log''
    /\ destroyed log'' = [101; 102; 103].
Proof.
  destruct (@shader_modules_destroyed_once Sym.kernel vulkan_core
              [AddShaderCode 1 101 [3; 2; 35; 7] 1 String.EmptyString;
               AddShader 55 16 String.EmptyString;
               AddShaderCode 4 102 [119734787] 16 String.EmptyString;
               ClearShaders;
               AddShaderCode 1 103 [] 1 String.EmptyString]
              9 8 7 (@GraphicsPipelineState.new Sym.kernel vulkan_core))
    as (g' & s' & log' & log'' & E & _ & Ed & Hd).
  exists g', s', log', log''. split; [exact E|]. split; [exact Ed|exact Hd].
Defined.

Lemma getShaderModule_round_trip_witness :
  @GraphicsPipelineGenerator.getShaderModule vulkan_core
    (snd (@GraphicsPipelineGenerator.addShader vulkan_core
            (@GraphicsPipelineGenerator.new vulkan_core 9 8 7)
            55 16 String.EmptyString))
    0
  = 55.
Proof.
  exact (proj1 (@getShaderModule_round_trip Sym.kernel vulkan_core
                  (@GraphicsPipelineGenerator.new vulkan_core 9 8 7)
                  (@GraphicsPipelineState.new Sym.kernel vulkan_core) []
                  55 16 0 String.EmptyString ltac:(lia))).
Defined.

Lemma device_read_before_set_witness :
  @run Sym.kernel vulkan_core
      [AddShader 55 16 String.EmptyString;
       AddShaderCode 1 101 [3; 2; 35; 7] 1 String.EmptyString]
      (@GraphicsPipelineGenerator.new_of_state vulkan_core,
       @GraphicsPipelineState.new Sym.kernel vulkan_core, [])
  = Indeterminate.
Proof.
  exact (proj1 (@device_read_before_set Sym.kernel vulkan_core
                  [AddShader 55 16 String.EmptyString;
                   AddShaderCode 1 101 [3; 2; 35; 7] 1 String.EmptyString]
                  (@GraphicsPipelineState.new Sym.kernel vulkan_core) eq_refl)
               eq_refl).
Defined.

Lemma createPipeline_structure_witness :
  exists g s' log d,
    @run Sym.kernel vulkan_core
      [AddShader 55 16 String.EmptyString; AddShader 56 1 String.EmptyString]
        (@GraphicsPipelineGenerator.new vulkan_core 9 8 7,
         @GraphicsPipelineState.new Sym.kernel vulkan_core, [])
    = Determined (g, s', log)
    /\ device g = Some d
    /\ stageCount (createInfo (fst (GraphicsPipelineGenerator.update g s'))) = 2.
Proof.
  destruct (@createPipeline_structure Sym.kernel vulkan_core
              [AddShader 55 16 String.EmptyString;
               AddShader 56 1 String.EmptyString]
              9 8 7 0 (@GraphicsPipelineState.new Sym.kernel vulkan_core))
    as (g & s' & log & d & E & Hd & _ & _ & Hcount & _).
  exists g, s', log, d. split; [exact E|]. split; [exact Hd|].
  rewrite Hcount. injection E as <- _ _. reflexivity.
Defined.

(** * The compute shader *)

Lemma nth_error_set_index {A : Type} (v : list A) (i j : nat) (a : A) :
  (i < length v)%nat ->
  nth_error (set_index v i a) j = if Nat.eqb i j then Some a else nth_error v j.
Proof.
  intros Hi. destruct (Nat.eqb_spec i j) as [<-|Hne].
  - now apply set_index_same.
  - now apply set_index_other.
Qed.

Section ShaderFacts.
Context {K : Kernel}.

Lemma store_ok (imageData : list scalar) (i : Z) (a : scalar) :
  0 <= i < Z.of_nat (length imageData) ->
  Raytracer.store imageData i a = Ok (set_index imageData (Z.to_nat i) a).
Proof.
  intros Hi. unfold Raytracer.store.
  destruct (at_index_below imageData (Z.to_nat i)) as (b & ->); [lia|].
  reflexivity.
Qed.

Lemma store_beyond (imageData : list scalar) (i : Z) (a : scalar) :
  Z.of_nat (length imageData) <= i ->
  Raytracer.store imageData i a = Fault OutOfRange.
Proof.
  intros Hi. unfold Raytracer.store. rewrite at_index_beyond by lia. reflexivity.
Qed.

(** One invocation on a buffer of the size the program creates. *)
Lemma main_spec (id : uvec3) (imageData : list scalar) :
  0 <= ux id < 2 ^ 32 -> 0 <= uy id < 2 ^ 32 ->
  Z.of_nat (length imageData) = Raytracer.buffer_floats ->
  exists image,
    Raytracer.main id imageData = Ok image
    /\ length image = length imageData
    /\ forall x y c,
         0 <= x < 800 -> 0 <= y < 600 -> 0 <= c < 3 ->
         nth_error image (Z.to_nat (3 * (y * 800 + x) + c))
         = if Raytracer.at_pixel x y id
           then Some (Raytracer.component c (Raytracer.color (x, y)))
           else nth_error imageData (Z.to_nat (3 * (y * 800 + x) + c)).
Proof.
  intros Hx Hy Hlen. unfold Raytracer.buffer_floats, Raytracer.img_width,
    Raytracer.img_height in Hlen.
  unfold Raytracer.main. cbn [fst snd].
  destruct (Z.leb_spec 800 (ux id)) as [Hout|Hinx]; cbn [orb].
  { exists imageData. split; [reflexivity|]. split; [reflexivity|].
    intros x y c Hx' Hy' Hc. unfold Raytracer.at_pixel.
    destruct (Z.eqb_spec (ux id) x); [lia|]. reflexivity. }
  destruct (Z.leb_spec 600 (uy id)) as [Hout|Hiny].
  { exists imageData. split; [reflexivity|]. split; [reflexivity|].
    intros x y c Hx' Hy' Hc. unfold Raytracer.at_pixel.
    destruct (Z.eqb_spec (uy id) y); [lia|]. now rewrite andb_false_r. }
  assert (2 ^ 32 = 4294967296) as Hpow by reflexivity.
  rewrite (u32_small (uy id * 800)) by lia.
  rewrite (u32_small (uy id * 800 + ux id)) by lia.
  rewrite (u32_small (3 * _)) by lia.
  rewrite !(u32_small (3 * _ + _)) by lia.
  rewrite store_ok by lia. cbn [bind].
  rewrite store_ok by (rewrite set_index_length; lia). cbn [bind].
  rewrite store_ok by (rewrite !set_index_length; lia).
  eexists. split; [reflexivity|].
  split; [now rewrite !set_index_length|].
  intros x y c Hx' Hy' Hc.
  rewrite !nth_error_set_index by (rewrite ?set_index_length; lia).
  unfold Raytracer.at_pixel, Raytracer.component, Raytracer.color.
  cbn [fst snd v3x v3y v3z].
  repeat match goal with
         | |- context [Nat.eqb ?a ?b] => destruct (Nat.eqb_spec a b)
         | |- context [Z.eqb ?a ?b] => destruct (Z.eqb_spec a b)
         end; cbn [andb]; try reflexivity; try lia; subst; try reflexivity; lia.
Qed.

Lemma run_spec (ids : list uvec3) (imageData : list scalar) :
  Forall (fun id => (0 <= ux id < 2 ^ 32) /\ (0 <= uy id < 2 ^ 32)) ids ->
  Z.of_nat (length imageData) = Raytracer.buffer_floats ->
  exists image,
    Raytracer.run ids imageData = Ok image
    /\ length image = length imageData
    /\ forall x y c,
         0 <= x < 800 -> 0 <= y < 600 -> 0 <= c < 3 ->
         nth_error image (Z.to_nat (3 * (y * 800 + x) + c))
         = if existsb (Raytracer.at_pixel x y) ids
           then Some (Raytracer.component c (Raytracer.color (x, y)))
           else nth_error imageData (Z.to_nat (3 * (y * 800 + x) + c)).
Proof.
  intros Hids. revert imageData.
  induction Hids as [|id ids [Hx Hy] _ IH]; intros imageData Hlen.
  - exists imageData. split; [reflexivity|]. split; [reflexivity|].
    intros; reflexivity.
  - destruct (main_spec id imageData Hx Hy Hlen) as (image1 & E1 & Hl1 & H1).
    destruct (IH image1) as (image & E & Hl & Himage); [congruence|].
    exists image. unfold Raytracer.run in *. cbn [foldM]. rewrite E1. cbn [bind].
    split; [exact E|]. split; [congruence|].
    intros x y c Hx' Hy' Hc. rewrite Himage, H1 by assumption.
    cbn [existsb].
    destruct (Raytracer.at_pixel x y id), (existsb (Raytracer.at_pixel x y) ids);
      reflexivity.
Qed.

End ShaderFacts.

Lemma nth_error_extensional {A : Type} (l l' : list A) :
  (forall n, nth_error l n = nth_error l' n) -> l = l'.
Proof.
  revert l'. induction l as [|a l IH]; intros [|a' l'] Hall.
  - reflexivity.
  - discriminate (Hall 0%nat).
  - discriminate (Hall 0%nat).
  - injection (Hall 0%nat) as <-. f_equal. apply IH.
    intros n. exact (Hall (Datatypes.S n)).
Qed.

Lemma dispatched_pixels (id : uvec3) :
  In id Raytracer.dispatched
  <-> exists x y, 0 <= x < 800 /\ 0 <= y < 600 /\ id = UVec3 x y 0.
Proof.
  unfold Raytracer.dispatched, Raytracer.invocations, Raytracer.local_size.
  change (Raytracer.group_count Raytracer.img_width Raytracer.workgroup_width * 16)
    with 800.
  change (Raytracer.group_count Raytracer.img_height Raytracer.workgroup_height * 8)
    with 600.
  change (1 * 1) with 1. change (range 1) with [0].
  cbn [flat_map]. rewrite app_nil_r, in_flat_map.
  split.
  - intros (y & Hy & Hin). apply in_map_iff in Hin as (x & <- & Hx).
    apply in_range in Hx, Hy. now exists x, y.
  - intros (x & y & Hx & Hy & ->). exists y. split; [now apply in_range|].
    apply in_map_iff. exists x. split; [reflexivity|now apply in_range].
Qed.

Lemma NoDup_map_injective {A B : Type} (f : A -> B) (l : list A) :
  (forall a b, In a l -> In b l -> f a = f b -> a = b) ->
  NoDup l -> NoDup (map f l).
Proof.
  intros Hinj Hl. induction Hl as [|a l Hnotin Hl IH]; [constructor|].
  cbn [map]. constructor.
  - intros Hin. apply in_map_iff in Hin as (b & Hfb & Hb).
    assert (b = a) as -> by (apply Hinj; [now right|now left|exact Hfb]).
    contradiction.
  - apply IH. intros x y Hx Hy. apply Hinj; now right.
Qed.

Lemma NoDup_range (n : Z) : NoDup (range n).
Proof.
  unfold range. apply NoDup_map_injective; [|apply seq_NoDup].
  intros a b _ _. apply Nat2Z.inj.
Qed.

Lemma NoDup_flat_map {A B : Type} (f : A -> list B) (l : list A) :
  NoDup l -> (forall a, In a l -> NoDup (f a)) ->
  (forall a b x, In a l -> In b l -> In x (f a) -> In x (f b) -> a = b) ->
  NoDup (flat_map f l).
Proof.
  intros Hl. induction Hl as [|a l Hnotin Hl IH]; intros Heach Hapart;
    [constructor|].
  cbn [flat_map]. apply NoDup_app.
  - apply Heach. now left.
  - apply IH.
    + intros b Hb. apply Heach. now right.
    + intros b c x Hb Hc. apply Hapart; now right.
  - intros x Hx Hin. apply in_flat_map in Hin as (b & Hb & Hxb).
    assert (a = b) as -> by (apply (Hapart a b x); [now left|now right|assumption..]).
    contradiction.
Qed.

Lemma filter_none {A : Type} (f : A -> bool) (l : list A) :
  (forall c, In c l -> f c = false) -> filter f l = [].
Proof.
  induction l as [|c l IH]; intros H; [reflexivity|].
  cbn [filter]. rewrite H by (now left). apply IH.
  intros d Hd. apply H. now right.
Qed.

(** In a list without repetition, what a test keeps when one element
    only passes it. *)
Lemma filter_only {A : Type} (f : A -> bool) (a : A) (l : list A) :
  NoDup l -> In a l -> f a = true ->
  (forall b, In b l -> f b = true -> b = a) ->
  filter f l = [a].
Proof.
  intros Hl. induction Hl as [|b l Hnotin Hl IH]; intros Hin Hfa Honly;
    [contradiction|].
  cbn [filter]. destruct (f b) eqn:Hfb.
  - assert (b = a) as -> by (apply Honly; [now left|exact Hfb]).
    f_equal. apply filter_none.
    intros c Hc. destruct (f c) eqn:Hfc; [|reflexivity].
    assert (c = a) as -> by (apply Honly; [now right|exact Hfc]).
    contradiction.
  - destruct Hin as [->|Hin]; [congruence|].
    apply IH; [exact Hin|exact Hfa|].
    intros c Hc. apply Honly. now right.
Qed.

(** The invocations of the dispatch: none twice, one for each pixel. *)
Lemma dispatched_once :
  NoDup Raytracer.dispatched
  /\ Z.of_nat (length Raytracer.dispatched) = 800 * 600.
Proof.
  unfold Raytracer.dispatched, Raytracer.invocations, Raytracer.local_size.
  change (Raytracer.group_count Raytracer.img_width Raytracer.workgroup_width * 16)
    with 800.
  change (Raytracer.group_count Raytracer.img_height Raytracer.workgroup_height * 8)
    with 600.
  change (1 * 1) with 1. change (range 1) with [0].
  cbn [flat_map]. rewrite app_nil_r. split.
  - apply NoDup_flat_map.
    + apply NoDup_range.
    + intros y _. apply NoDup_map_injective; [|apply NoDup_range].
      intros a b _ _ E. now injection E.
    + intros a b id _ _ Ha Hb.
      apply in_map_iff in Ha as (x & <- & _).
      apply in_map_iff in Hb as (x' & E & _). now injection E.
  - rewrite (length_flat_map_const _ _ (Z.to_nat 800))
      by (intros; now rewrite length_map, length_range).
    rewrite length_range. lia.
Qed.

Section ShaderTheorems.
Context {K : Kernel}.

(** One invocation of the compute shader. On a buffer of the
    [800 * 600 * 3] values of type [float] the program creates, [main]
    returns for every [gl_GlobalInvocationID]: for a pixel [(x, y)] of the
    image it writes the three values at [3 * (y * 800 + x)] and the two
    indices that follow, and nothing else; outside the image it writes
    nothing. On a buffer too short for the third value of the pixel, a
    write is outside the buffer. *)
Theorem shader_invocation (id : uvec3) (imageData : list scalar) :
  0 <= ux id < 2 ^ 32 -> 0 <= uy id < 2 ^ 32 ->
  (Z.of_nat (length imageData) = Raytracer.buffer_floats ->
   exists image,
     Raytracer.main id imageData = Ok image
     /\ length image = length imageData
     /\ forall x y c,
          0 <= x < 800 -> 0 <= y < 600 -> 0 <= c < 3 ->
          nth_error image (Z.to_nat (3 * (y * 800 + x) + c))
          = if Raytracer.at_pixel x y id
            then Some (Raytracer.component c (Raytracer.color (x, y)))
            else nth_error imageData (Z.to_nat (3 * (y * 800 + x) + c)))
  /\ (800 <= ux id \/ 600 <= uy id -> Raytracer.main id imageData = Ok imageData)
  /\ (ux id < 800 -> uy id < 600 ->
      Z.of_nat (length imageData) <= 3 * (uy id * 800 + ux id) + 2 ->
      Raytracer.main id imageData = Fault OutOfRange).
Proof.
  intros Hx Hy. split; [apply main_spec; assumption|]. split.
  - intros Hout. unfold Raytracer.main. cbn [fst snd].
    destruct (Z.leb_spec 800 (ux id)); [reflexivity|].
    destruct (Z.leb_spec 600 (uy id)); [reflexivity|lia].
  - intros Hinx Hiny Hshort. unfold Raytracer.main. cbn [fst snd].
    destruct (Z.leb_spec 800 (ux id)); [lia|].
    destruct (Z.leb_spec 600 (uy id)); [lia|]. cbn [orb].
    assert (2 ^ 32 = 4294967296) as Hpow by reflexivity.
    rewrite (u32_small (uy id * 800)) by lia.
    rewrite (u32_small (uy id * 800 + ux id)) by lia.
    rewrite (u32_small (3 * _)) by lia.
    rewrite !(u32_small (3 * _ + _)) by lia.
    set (o := 3 * (uy id * 800 + ux id)) in *.
    destruct (Z_lt_le_dec (o + 0) (Z.of_nat (length imageData))) as [Hfirst|Hfirst];
      [|now rewrite store_beyond].
    rewrite store_ok by lia. cbn [bind].
    destruct (Z_lt_le_dec (o + 1) (Z.of_nat (length imageData))) as [Hsecond|Hsecond];
      [|now rewrite store_beyond by (rewrite set_index_length; lia)].
    rewrite store_ok by (rewrite set_index_length; lia). cbn [bind].
    rewrite store_beyond by (rewrite !set_index_length; lia). reflexivity.
Qed.

(** The dispatch of the program fills the image. Its group counts,
    [(800 + 16 - 1) / 16] by [(600 + 8 - 1) / 8] by 1, make 800 * 600
    invocations, none of them twice: exactly one for each pixel of the
    800 x 600 image and no other. Run in any order on the buffer the
    program creates, whatever it holds, the invocations return and leave,
    for every pixel [(x, y)], [x / 800], [y / 600] and [0.0] at index
    [3 * (y * 800 + x)] and the two that follow: every value of the buffer
    is written, and the image is the same for every order and every
    initial content. *)
Theorem dispatch_fills_image (ids : list uvec3) (imageData : list scalar) :
  Permutation ids Raytracer.dispatched ->
  Z.of_nat (length imageData) = Raytracer.buffer_floats ->
  exists image,
    Raytracer.run ids imageData = Ok image
    /\ Z.of_nat (length image) = 800 * 600 * 3
    /\ (forall x y,
          0 <= x < 800 -> 0 <= y < 600 ->
          nth_error image (Z.to_nat (3 * (y * 800 + x)))
          = Some (fdiv (of_int x) (of_int 800))
          /\ nth_error image (Z.to_nat (3 * (y * 800 + x) + 1))
             = Some (fdiv (of_int y) (of_int 600))
          /\ nth_error image (Z.to_nat (3 * (y * 800 + x) + 2)) = Some (lit 0))
    /\ NoDup Raytracer.dispatched
    /\ Z.of_nat (length Raytracer.dispatched) = 800 * 600
    /\ NoDup ids
    /\ Z.of_nat (length ids) = 800 * 600
    /\ (forall id, In id Raytracer.dispatched
                   <-> exists x y, 0 <= x < 800 /\ 0 <= y < 600 /\ id = UVec3 x y 0)
    /\ (forall x y, 0 <= x < 800 -> 0 <= y < 600 ->
          filter (Raytracer.at_pixel x y) Raytracer.dispatched = [UVec3 x y 0])
    /\ (forall ids' imageData',
          Permutation ids' Raytracer.dispatched ->
          Z.of_nat (length imageData') = Raytracer.buffer_floats ->
          Raytracer.run ids' imageData' = Ok image).
Proof.
  assert (forall ids imageData,
            Permutation ids Raytracer.dispatched ->
            Z.of_nat (length imageData) = Raytracer.buffer_floats ->
            exists image,
              Raytracer.run ids imageData = Ok image
              /\ length image = length imageData
              /\ forall x y c,
                   0 <= x < 800 -> 0 <= y < 600 -> 0 <= c < 3 ->
                   nth_error image (Z.to_nat (3 * (y * 800 + x) + c))
                   = Some (Raytracer.component c (Raytracer.color (x, y))))
    as Hfill.
  { clear ids imageData. intros ids imageData Hids Hlen.
    destruct (run_spec ids imageData) as (image & E & Hl & Himage);
      [|exact Hlen|].
    { apply Forall_forall. intros id Hid.
      apply (Permutation_in _ Hids), dispatched_pixels in Hid.
      destruct Hid as (x & y & Hx & Hy & ->). cbn [ux uy].
      assert (2 ^ 32 = 4294967296) as Hpow by reflexivity. lia. }
    exists image. split; [exact E|]. split; [exact Hl|].
    intros x y c Hx Hy Hc. rewrite Himage by assumption.
    replace (existsb (Raytracer.at_pixel x y) ids) with true; [reflexivity|].
    symmetry. apply existsb_exists. exists (UVec3 x y 0). split.
    - apply (Permutation_in _ (Permutation_sym Hids)), dispatched_pixels.
      exists x, y. split; [exact Hx|]. split; [exact Hy|reflexivity].
    - unfold Raytracer.at_pixel. cbn [ux uy]. rewrite !Z.eqb_refl. reflexivity. }
  intros Hids Hlen.
  destruct dispatched_once as [Hnodup Hcount].
  destruct (Hfill ids imageData Hids Hlen) as (image & E & Hl & Himage).
  exists image. split; [exact E|].
  split; [rewrite Hl, Hlen; reflexivity|].
  split.
  { intros x y Hx Hy.
    pose proof (Himage x y 0 Hx Hy ltac:(lia)) as H0.
    pose proof (Himage x y 1 Hx Hy ltac:(lia)) as H1.
    pose proof (Himage x y 2 Hx Hy ltac:(lia)) as H2.
    rewrite Z.add_0_r in H0. split; [exact H0|]. split; [exact H1|exact H2]. }
  split; [exact Hnodup|]. split; [exact Hcount|].
  split; [exact (Permutation_NoDup (Permutation_sym Hids) Hnodup)|].
  split; [rewrite (Permutation_length Hids); exact Hcount|].
  split; [apply dispatched_pixels|].
  split.
  { intros x y Hx Hy. apply filter_only.
    - exact Hnodup.
    - apply dispatched_pixels.
      exists x, y. split; [exact Hx|]. split; [exact Hy|reflexivity].
    - unfold Raytracer.at_pixel. cbn [ux uy]. rewrite !Z.eqb_refl. reflexivity.
    - intros id Hid Hat. apply dispatched_pixels in Hid.
      destruct Hid as (x' & y' & _ & _ & ->).
      unfold Raytracer.at_pixel in Hat. cbn [ux uy] in Hat.
      apply andb_true_iff in Hat as [Ex Ey].
      apply Z.eqb_eq in Ex, Ey. subst. reflexivity. }
  intros ids' imageData' Hids' Hlen'.
  destruct (Hfill ids' imageData' Hids' Hlen') as (image' & E' & Hl' & Himage').
  rewrite E'. f_equal. apply nth_error_extensional. intros n.
  unfold Raytracer.buffer_floats, Raytracer.img_width, Raytracer.img_height in *.
  destruct (Nat.lt_ge_cases n (length image)) as [Hn|Hn].
  - set (i := Z.of_nat n).
    assert (Z.of_nat n = 3 * ((i / 3 / 800) * 800 + (i / 3) mod 800) + i mod 3)
      as Hsplit.
    { pose proof (Z.div_mod (i / 3) 800 ltac:(lia)).
      pose proof (Z.div_mod i 3 ltac:(lia)). lia. }
    assert (0 <= i < 1440000) as Hi by (unfold i; lia).
    pose proof (Z.mod_pos_bound i 3 ltac:(lia)) as Hc.
    pose proof (Z.mod_pos_bound (i / 3) 800 ltac:(lia)) as Hx.
    assert (0 <= i / 3 / 800 < 600) as Hy.
    { split; [apply Z.div_pos; [apply Z.div_pos|]; lia|].
      apply Z.div_lt_upper_bound; [lia|].
      apply Z.div_lt_upper_bound; lia. }
    rewrite <- (Nat2Z.id n), Hsplit.
    rewrite Himage, Himage' by assumption. reflexivity.
  - rewrite (proj2 (nth_error_None image n)) by exact Hn.
    rewrite (proj2 (nth_error_None image' n)) by lia. reflexivity.
Qed.

End ShaderTheorems.

Lemma shader_invocation_witness :
  @Raytracer.main Sym.kernel (UVec3 799 599 0) [] = Fault OutOfRange.
Proof.
  refine (proj2 (proj2 (@shader_invocation Sym.kernel (UVec3 799 599 0) [] _ _))
            _ _ _); cbn; lia.
Defined.

Lemma dispatch_fills_image_witness :
  exists image,
    @Raytracer.run Sym.kernel (rev Raytracer.dispatched)
      (repeat (Sym.Lit 7) (Z.to_nat 1440000)) = Ok image
    /\ nth_error image 0 = Some (Sym.Div (Sym.OfInt 0) (Sym.OfInt 800))
    /\ filter (Raytracer.at_pixel 799 599) Raytracer.dispatched
       = [UVec3 799 599 0].
Proof.
  destruct (@dispatch_fills_image Sym.kernel (rev Raytracer.dispatched)
              (repeat (Sym.Lit 7) (Z.to_nat 1440000)))
    as (image & E & _ & Himage & _ & _ & _ & _ & _ & Honce & _).
  - exact (Permutation_sym (Permutation_rev Raytracer.dispatched)).
  - rewrite repeat_length, Z2Nat.id by lia. reflexivity.
  - exists image. split; [exact E|].
    split; [exact (proj1 (Himage 0 0 ltac:(lia) ltac:(lia)))|].
    exact (Honce 799 599 ltac:(lia) ltac:(lia)).
Defined.

(** ** The shader on a buffer of vec3 *)

Section ShaderVec3.
Context {K : Kernel}.

Lemma floats_app (a b : list (vec3 scalar)) :
  RaytracerVec3.floats (a ++ b) = RaytracerVec3.floats a ++ RaytracerVec3.floats b.
Proof. apply flat_map_app. Qed.

Lemma floats_cons (v : vec3 scalar) (a : list (vec3 scalar)) :
  RaytracerVec3.floats (v :: a) = v3x v :: v3y v :: v3z v :: RaytracerVec3.floats a.
Proof. reflexivity. Qed.

Lemma length_floats (a : list (vec3 scalar)) :
  length (RaytracerVec3.floats a) = (3 * length a)%nat.
Proof.
  unfold RaytracerVec3.floats.
  rewrite (length_flat_map_const _ _ 3%nat) by reflexivity. lia.
Qed.

(** The two versions of the shader write the same memory. For every
    [gl_GlobalInvocationID] and every buffer of [vec3], of any size, the
    invocation of the version on [vec3 imageData[]] and the invocation of
    the version on [float imageData[]], run on the same memory, both
    return and leave the same [float] values, or both write outside the
    buffer. *)
Theorem shader_versions_agree (id : uvec3) (imageData : list (vec3 scalar)) :
  0 <= ux id < 2 ^ 32 -> 0 <= uy id < 2 ^ 32 ->
  Raytracer.main id (RaytracerVec3.floats imageData)
  = match RaytracerVec3.main id imageData with
    | Ok image => Ok (RaytracerVec3.floats image)
    | Fault f => Fault f
    end.
Proof.
  intros Hx Hy. unfold Raytracer.main, RaytracerVec3.main. cbn [fst snd].
  destruct ((800 <=? ux id) || (600 <=? uy id)) eqn:Hout; [reflexivity|].
  apply orb_false_elim in Hout as [Hinx Hiny].
  apply Z.leb_gt in Hinx, Hiny.
  assert (2 ^ 32 = 4294967296) as Hpow by reflexivity.
  rewrite (u32_small (uy id * 800)) by lia.
  rewrite (u32_small (uy id * 800 + ux id)) by lia.
  rewrite (u32_small (3 * _)) by lia.
  rewrite !(u32_small (3 * _ + _)) by lia.
  set (index := uy id * 800 + ux id).
  assert (0 <= index) as Hindex by (unfold index; lia).
  destruct (nth_error imageData (Z.to_nat index)) as [v|] eqn:E.
  - apply nth_error_split in E as (pre & post & -> & Hpre).
    set (c := Raytracer.color (ux id, uy id)).
    rewrite !(at_index_at (Z.to_nat index)) by exact Hpre. cbn [bind].
    rewrite !(set_index_at (Z.to_nat index)) by exact Hpre.
    rewrite !(at_index_at (Z.to_nat index)) by exact Hpre. cbn [bind].
    rewrite !(set_index_at (Z.to_nat index)) by exact Hpre.
    rewrite !(at_index_at (Z.to_nat index)) by exact Hpre. cbn [bind].
    rewrite !(set_index_at (Z.to_nat index)) by exact Hpre.
    cbn [v3x v3y v3z].
    rewrite !floats_app, !floats_cons. cbn [v3x v3y v3z].
    pose proof (length_floats pre) as Hfp.
    set (fp := RaytracerVec3.floats pre) in *.
    set (rest := RaytracerVec3.floats post).
    unfold Raytracer.store.
    rewrite (at_index_at (Z.to_nat (3 * index + 0)) fp) by lia. cbn [bind].
    rewrite (set_index_at (Z.to_nat (3 * index + 0)) fp) by lia.
    change (fp ++ v3x c :: v3y v :: v3z v :: rest)
      with (fp ++ [v3x c] ++ v3y v :: v3z v :: rest).
    rewrite app_assoc.
    rewrite (at_index_at (Z.to_nat (3 * index + 1)))
      by (rewrite length_app; cbn [length]; lia).
    cbn [bind].
    rewrite (set_index_at (Z.to_nat (3 * index + 1)))
      by (rewrite length_app; cbn [length]; lia).
    rewrite <- app_assoc. cbn [app].
    change (fp ++ v3x c :: v3y c :: v3z v :: rest)
      with (fp ++ [v3x c; v3y c] ++ v3z v :: rest).
    rewrite app_assoc.
    rewrite (at_index_at (Z.to_nat (3 * index + 2)))
      by (rewrite length_app; cbn [length]; lia).
    cbn [bind].
    rewrite (set_index_at (Z.to_nat (3 * index + 2)))
      by (rewrite length_app; cbn [length]; lia).
    rewrite <- app_assoc. reflexivity.
  - apply nth_error_None in E.
    rewrite (at_index_beyond imageData) by exact E. cbn [bind].
    rewrite store_beyond by (rewrite length_floats; lia). reflexivity.
Qed.

End ShaderVec3.

Lemma shader_versions_agree_witness :
  @Raytracer.main Sym.kernel (UVec3 1 0 0)
    (@RaytracerVec3.floats Sym.kernel
       [@Vec3 (@scalar Sym.kernel) (Sym.Lit 7) (Sym.Lit 7) (Sym.Lit 7);
        @Vec3 (@scalar Sym.kernel) (Sym.Lit 7) (Sym.Lit 7) (Sym.Lit 7)])
  = Ok (@RaytracerVec3.floats Sym.kernel
          [@Vec3 (@scalar Sym.kernel) (Sym.Lit 7) (Sym.Lit 7) (Sym.Lit 7);
           @Vec3 (@scalar Sym.kernel)
                 (Sym.Div (Sym.OfInt 1) (Sym.OfInt 800))
                 (Sym.Div (Sym.OfInt 0) (Sym.OfInt 600)) (Sym.Lit 0)]).
Proof.
  exact (@shader_versions_agree Sym.kernel (UVec3 1 0 0)
           [@Vec3 (@scalar Sym.kernel) (Sym.Lit 7) (Sym.Lit 7) (Sym.Lit 7);
            @Vec3 (@scalar Sym.kernel) (Sym.Lit 7) (Sym.Lit 7) (Sym.Lit 7)]
           ltac:(cbn; lia) ltac:(cbn; lia)).
Defined.

(** * The choice of the memory type *)

Lemma foldM_app {St A : Type} (body : St -> A -> result St) (l1 l2 : list A)
  (s : St) :
  foldM body (l1 ++ l2) s = (s' <- foldM body l1 s ;; foldM body l2 s').
Proof.
  revert s. induction l1 as [|a l1 IH]; intros s; [reflexivity|].
  cbn [app foldM]. destruct (body s a); [apply IH|reflexivity].
Qed.

Lemma land_bit (a i : Z) :
  0 <= i -> (Z.land a (Z.shiftl 1 i) =? 0) = negb (Z.testbit a i).
Proof.
  intros Hi. destruct (Z.testbit a i) eqn:Hbit; cbn [negb].
  - apply Z.eqb_neq. intros Hzero.
    assert (Z.testbit (Z.land a (Z.shiftl 1 i)) i = true) as Hone.
    { rewrite Z.land_spec, Hbit, Z.shiftl_spec, Z.sub_diag by exact Hi.
      reflexivity. }
    rewrite Hzero, Z.bits_0 in Hone. discriminate.
  - apply Z.eqb_eq. apply Z.bits_inj'. intros n Hn.
    rewrite Z.land_spec, Z.bits_0, Z.shiftl_spec by exact Hn.
    destruct (Z.eq_dec n i) as [->|Hne].
    + now rewrite Hbit.
    + rewrite andb_comm.
      destruct (Z.lt_ge_cases n i) as [Hlt|Hge].
      * now rewrite (Z.testbit_neg_r 1 (n - i)) by lia.
      * now rewrite (Z.bits_above_log2 1 (n - i)) by (cbn; lia).
Qed.

Lemma suitable_fits (memoryTypeBits _memUsages : Z) (memoryTypes : list Z) (i : Z) :
  0 <= i < 32 -> length memoryTypes = 32%nat ->
  exists found,
    NRC.suitable memoryTypeBits _memUsages memoryTypes i = Ok found
    /\ (found = true <-> NRC.fits memoryTypeBits _memUsages memoryTypes i).
Proof.
  intros Hi Hlen. unfold NRC.suitable, NRC.fits.
  destruct (Z.leb_spec 32 i); [lia|].
  assert (u32 (Z.shiftl 1 i) = Z.shiftl 1 i) as ->.
  { apply u32_small. rewrite Z.shiftl_1_l.
    split; [apply Z.pow_nonneg; lia|apply Z.pow_lt_mono_r; lia]. }
  rewrite land_bit by lia.
  destruct (at_index_below memoryTypes (Z.to_nat i)) as (flags & E); [lia|].
  assert (nth_error memoryTypes (Z.to_nat i) = Some flags) as Hflags.
  { unfold at_index in E.
    destruct (nth_error memoryTypes (Z.to_nat i)); congruence. }
  destruct (Z.testbit memoryTypeBits i); cbn [negb].
  - rewrite E. cbn [bind]. eexists. split; [reflexivity|].
    rewrite Z.eqb_eq. split.
    + intros Heq. split; [reflexivity|]. now exists flags.
    + intros (_ & flags' & Hf & Heq). congruence.
  - exists false. split; [reflexivity|].
    split; [discriminate|]. intros (Hbit & _). discriminate.
Qed.

(** The memory type [NRC::createBuffer] chooses. With the at most 32
    memory types of a device, the loop returns. It has no [break]:
    [memTypeIndex] is the last index below [memoryTypeCount] whose bit
    is set in [memoryTypeBits] and whose [propertyFlags] include
    [_memUsages], not the first. When no memory type passes the two
    tests, [memTypeIndex] is never assigned: it is given to
    [vkAllocateMemory] without a value. *)
Theorem memory_type_is_last_suitable (memoryTypeBits memoryTypeCount : Z)
  (memoryTypes : list Z) (_memUsages : Z) :
  0 <= memoryTypeCount <= 32 -> length memoryTypes = 32%nat ->
  exists memTypeIndex,
    NRC.find_memory_type memoryTypeBits memoryTypeCount memoryTypes _memUsages
    = Ok memTypeIndex
    /\ (forall i,
          memTypeIndex = Some i
          <-> (0 <= i < memoryTypeCount
               /\ NRC.fits memoryTypeBits _memUsages memoryTypes i
               /\ forall j, i < j < memoryTypeCount ->
                            ~ NRC.fits memoryTypeBits _memUsages memoryTypes j))
    /\ (memTypeIndex = None
        <-> forall j, 0 <= j < memoryTypeCount ->
                      ~ NRC.fits memoryTypeBits _memUsages memoryTypes j).
Proof.
  intros Hcount Hlen. unfold NRC.find_memory_type.
  rewrite <- (Z2Nat.id memoryTypeCount) in * by lia.
  induction (Z.to_nat memoryTypeCount) as [|n IH].
  - exists None. split; [reflexivity|]. split.
    + intros i. split; [discriminate|lia].
    + split; [lia|reflexivity].
  - rewrite Nat2Z.inj_succ, <- Z.add_1_r in *.
    destruct IH as (r & E & Hsome & Hnone); [lia|].
    rewrite range_succ, foldM_app, E by lia. cbn [bind foldM].
    destruct (suitable_fits memoryTypeBits _memUsages memoryTypes (Z.of_nat n))
      as (found & -> & Hfound); [lia|exact Hlen|].
    cbn [bind]. eexists. split; [reflexivity|].
    destruct found.
    + pose proof (proj1 Hfound eq_refl) as Hfits. split.
      * intros i. split.
        -- intros [= <-]. split; [lia|]. split; [exact Hfits|]. lia.
        -- intros (Hi & Hfi & Hlast).
           destruct (Z.eq_dec i (Z.of_nat n)) as [->|Hne]; [reflexivity|].
           exfalso. apply (Hlast (Z.of_nat n)); [lia|exact Hfits].
      * split; [discriminate|].
        intros Hno. exfalso. apply (Hno (Z.of_nat n)); [lia|exact Hfits].
    + assert (~ NRC.fits memoryTypeBits _memUsages memoryTypes (Z.of_nat n))
        as Hnot by (intros Hf; apply Hfound in Hf; discriminate).
      split.
      * intros i. rewrite Hsome. split.
        -- intros (Hi & Hfi & Hlast). split; [lia|]. split; [exact Hfi|].
           intros j Hj. destruct (Z.eq_dec j (Z.of_nat n)) as [->|Hne];
             [exact Hnot|apply Hlast; lia].
        -- intros (Hi & Hfi & Hlast).
           destruct (Z.eq_dec i (Z.of_nat n)) as [->|Hne]; [contradiction|].
           split; [lia|]. split; [exact Hfi|]. intros j Hj. apply Hlast. lia.
      * rewrite Hnone. split.
        -- intros Hno j Hj. destruct (Z.eq_dec j (Z.of_nat n)) as [->|Hne];
             [exact Hnot|apply Hno; lia].
        -- intros Hno j Hj. apply Hno. lia.
Qed.

Lemma memory_type_is_last_suitable_witness :
  NRC.find_memory_type 3 2 (7 :: 7 :: repeat 0 30) 6 = Ok (Some 1).
Proof.
  destruct (memory_type_is_last_suitable 3 2 (7 :: 7 :: repeat 0 30) 6
              ltac:(lia) eq_refl) as (r & E & Hsome & _).
  rewrite E. f_equal. apply Hsome.
  split; [lia|]. split.
  - split; [reflexivity|]. exists 7. split; reflexivity.
  - intros j Hj. lia.
Defined.
